(* ===== verification/_CoqProject ===== *)
-Q . S2P
Prelude.v
CStr.v
Parser.v
Rtp.v
FrameQueue.v
Control.v
LiveServer.v
Session.v
TestClient.v
Threads.v
Delivery.v
ChannelManager.v
Index.v
Config.v
Calendar.v
Segment.v
Redaction.v
Ingest.v
Storage.v
Main.v
Rewriter.v
Digest.v
Proxy.v
