(* ===== verification/Prelude.v ===== *)
(** * Verification of the Raspberry Pi VMS RTSP/RTSPS server

    The program records up to four camera streams and serves them live.  [main] checks
    the storage, opens the recording index, and starts a live server and a
    [ChannelManager] with one ingest worker per camera channel; the workers record MP4
    segments, index them in SQLite and hand every encoded frame to the live server.  The
    live server accepts RTSP and RTSPS clients, answers their requests and sends each
    playing client the frames of its channel as RTP interleaved on the connection.  An
    older program of the same repository, the proxy, sits between RTSPS clients and the
    camera, rewrites URLs and answers the camera's authentication; the build no longer
    compiles it.

    ** The files and the code they model

    - [Prelude]: bytes, machine integers, exceptions ([result]), state-changing code
      ([act], with the weakest liberal precondition [wlp] and the preorders [keeps]),
      tactics and list lemmas.
    - [CStr]: the operations of [std::string], [std::stoi], [std::stoull],
      [std::to_string], [std::istringstream] and [std::filesystem::path] the program
      uses, in the "C" locale.
    - [Parser]: src/rtsp/rtsp_message_parser.cpp, every function.  The loop of
      [extract_one_rtsp_message] is [extract_loop] over [extract_iter].
    - [Rtp]: the media functions of src/live/live_rtsp_server.cpp: RTP, RTCP and
      interleaved framing, Base64, [split_access_unit], [packetize_access_unit].
    - [FrameQueue]: [BoundedFrameQueue] of the same file, with the drop-oldest policy
      ([latest]) as its specification.
    - [Control]: responses, SDP, the Transport and Session headers, the public channel
      path and [process_rtsp_request]; [session_step] is the automaton it implements.
    - [LiveServer]: [LiveRtspServer::Impl] without the session thread: constructor,
      [initialize_tls], [start], one turn of [accept_loop] ([accept_turn]), [stop] in two
      parts around its joins ([stop_begin], [stop_end]), [open_listener], parameter sets,
      [on_frame], the registration and accounting of sessions, and [stats].
      [server_step] is what can happen to a server, in any order; client states live in a
      store and [s_clients] is the vector of weak pointers into it.
    - [Session]: [ClientConnection::write], [frame_timestamp], [send_frame] and
      [run_session].  One turn of the loop of [run_session] is [session_turn]; the
      transport is the class [Transport], and a session that never meets a failing
      write is stated over [Reliable].
    - [TestClient]: tools/test_rtsps_client.cpp, against any other end, and put together
      with a session of the server.
    - [Threads]: the live server as one transition system ([live_step]) over its listener
      threads, session threads, frame sources and the calls of [start] and [stop], with
      the descriptors and SSL objects of [ClientConnection].
    - [Delivery]: the path of a frame through that system, from [on_frame] to the NAL
      units a client decodes; no code of its own.
    - [ChannelManager]: src/media/channel_manager.cpp, with the threads of the workers
      and their ends, and the configuration checks of src/media/channel_ingest.cpp.
    - [Index]: src/db/recording_index.cpp and the loop of src/main.cpp that records the
      channel map.  The tables are values and the SQL statements functions on them.
    - [Config]: src/config/app_config.cpp, src/logging/logger.cpp and the command line of
      src/main.cpp with both usage texts.  A command line is the list of its arguments;
      [args_loop] is the loop over it, [vms_option] and [app_option] one round.
    - [Calendar]: [gmtime_r] and the time formats, with [now_utc] of the index.
    - [Segment]: the text functions of src/media/channel_ingest.cpp: the pipeline
      description, quoting and redaction, segment paths and the collision loop.
    - [Redaction]: the redaction of credentials of [Parser] and [Segment]; no code of its
      own.
    - [Ingest]: the rest of that file: the callbacks, the bus loop, [run_attempt] with the
      references it holds, [wait_before_reconnect] and [run].  What GStreamer, the clocks
      and [running_] do in an attempt is [AttemptEnv].
    - [Storage]: src/storage/storage_manager.cpp over a file system as a map.
    - [Main]: [main] of src/main.cpp, start-up, exit codes and shut-down.
    - [Rewriter]: src/rtsp/rtsp_rewriter.cpp.
    - [Digest]: src/rtsp/digest_authenticator.cpp; OpenSSL's MD5 is the argument [Evp].
    - [Proxy]: src/proxy/rtsp_proxy_session.cpp turn by turn ([proxy_turn], [proxy_loop],
      [proxy_run]), src/proxy/rtsp_proxy_server.cpp and src/net/tls_context.cpp.

    ** What the theorems show

    Parser: extraction ends except on the buffers [hangs_on] describes, conserves
    bytes, and its result does not depend on how the stream is cut into reads.
    Rtp: packets depacketise to the NAL units they were made from, fit the MTU and
    carry consecutive numbers and one marker; both access-unit formats are split into
    the units they were joined from; Base64 and the sender report read back.
    FrameQueue: the queue keeps the longest suffix of its input that fits, in order,
    and its byte count is exact.
    Control: every response is a message the peer's parser takes whole, with the
    request's CSeq; refusals change nothing; media starts at most once, after SETUP,
    with the announced session id.
    LiveServer and Session: a frame reaches exactly the clients that play its channel;
    [send_frame] sends the access unit it is given; on a reliable transport the whole
    stream of a session is a sequence of well-formed messages, with frames only after the
    responses to SETUP and PLAY and only on the session's channels; a request that arrives
    alone is answered in its turn.
    Threads and Delivery: in every interleaving each descriptor and SSL object is released
    exactly once by its session, and the counters agree with the sessions; [stop] ends and
    leaves nothing behind, unless a session hangs or meets the limit of the RTP clock; a playing client decodes exactly the
    frames its session took from the queue, in order, from a key frame on, and these are a
    subsequence of the frames published on its channel, complete while no drop is counted.
    TestClient: the requests of the test client are all answered with success by a
    session of the server, the client counts exactly the packets it is sent, and its
    TEARDOWN closes the session.
    ChannelManager and Index: a parsed channel map is valid and is accepted by
    everything configured from it; over any calls of [start] and [stop] and any ends of
    workers no thread is lost or joined twice; the index keeps its constraints.
    Config: what the command line parsers accept is in range and well formed, every accepted
    configuration can be written out and read back, the location of a camera names the configured host, the
    usage texts describe exactly the options that are taken, and both [replace_all] of the
    program replace exactly the occurrences of the original text.
    Redaction: texts that differ in credentials only are logged alike.
    Segment and Ingest: no two segments share a path and a free path is always found; a
    segment that is opened and closed ends up as one complete row; the counters of a
    worker account for its attempts; an attempt ends when the program stops, the
    pipeline reports an error or its end, or no buffer arrives in time, and its result
    says which; the frames of the live branch reach the queues of the clients in order.
    Storage and Main: the check reports ready exactly when the storage can be used; an
    accepted command line with a channel map that parses brings up the whole program when
    everything outside works, and the exit codes say what went wrong.
    Rewriter, Digest and Proxy: what becomes of a request and of a response; a challenge
    is read as it was written and answered by the formula of RFC 2617; a
    connected session relays the messages of both sides in order however their bytes are
    cut and interleaved, until the camera sends a new challenge, never uses a rewriter it has not made, and closes every descriptor it opened.
    Some theorems and lemmas state behaviour the code has and should not have: the
    endless loop on a bad Content-Length, two misreadings of access units, the overflow of
    the RTP clock, a frame after TEARDOWN, a server that counts as started after a TLS
    failure, the TLS context lost when a listener fails, a hanging session that keeps
    [stop] from returning, the restart that fails when two cameras change places, a size option that
    takes negative numbers, the GStreamer reference lost on two error paths, the line
    break added to a request body that does not end in one, the channel number read as one digit, and the retries
    without end against a camera that refuses the credentials.

    ** Bounds

    Loops that are not structural carry fuel.  [extract_loop] has one more than the
    buffer's length: an iteration that does not return shortens the buffer or repeats
    it unchanged forever, and [extract_terminates_iff] is exact about which.
    [annexb_loop], [length_prefixed_loop], [fu_loop], [lines_loop], [write_loop],
    [send_loop], [replace_loop], [channel_map_loop] and the redaction loops use up at
    least one byte per round and have that many rounds.  [request_loop] and
    [message_loop] take a message out of the input per round.  [wait_loop] has one round
    per millisecond of the delay and uses at most one per tenth of a second.  [collision_loop] needs one more round than there are
    files, which [segment_location_free] proves enough.  The loops that wait for the
    outside ([bus_loop], [session_loop], [proxy_loop], [run_loop], the loops of the test
    client) run over the list of what they are given.  [count_loop] takes at least four
    bytes per round.  Integers are [Z] with the conversions of the code written out
    ([u8], [u16], [u32], [u64]); where signed arithmetic can overflow
    ([frame_timestamp]) the model has no value.

    ** What is not modelled

    Threads are sequences of steps: an operation under a mutex is one step, a session of
    the live server moves in half turns (the read with the requests it completes, then the
    queue), and a callback runs before a turn of the bus loop or while it waits; callbacks between
    its last message and the end of the pipeline ([gst_element_set_state] to NULL) are
    left out.  Effects inside such a step are not seen from other threads.  The test
    client's [client_write] is one step even if [SSL_write] takes a part at a time, and
    the prepared statement that an exception leaves unfinalised in the index is not
    counted.  [main] is the program up to the end of start-up; the loop that waits for a
    signal has no state, and [shut_down] and [final_report] are what follows it.  Sockets, OpenSSL, GStreamer and SQLite appear
    as the outcomes the code can see.  Log output is left out of the live server, the
    proxy and the test client; the ingest worker, the storage check and the logger have
    theirs.  The unit tests of the repository, its scripts and its build files are not
    modelled.

    ** Plan

    Next: the composition of the ingest workers with the transition system of the live
    server, and the log output of the live server and the proxy. *)

From stdpp Require Export base list numbers option strings relations.
From Stdlib Require Export ZArith Lia.
From Stdlib Require Ascii String.

#[export] Set Default Goal Selector "!".

Open Scope Z_scope.

(** ** Byte strings

    A [std::string] and a [std::vector<std::uint8_t>] are both a list of byte
    values.  A byte is a [Z]; [byte_ok] is its range. *)

Abbreviation bytes := (list Z).

Definition byte_ok (b : Z) : Prop := 0 <= b < 256.

Definition bytes_ok (s : bytes) : Prop := Forall byte_ok s.

(** A C++ string literal. *)
Definition lit (s : String.string) : bytes :=
  (fun c => Z.of_N (Ascii.N_of_ascii c)) <$> String.list_ascii_of_string s.

Notation "$ x" := (lit x%string) (at level 1, x at level 0, format "$ x").

(** Size of a container as [std::size_t]. *)
Definition zlen {A} (l : list A) : Z := Z.of_nat (length l).

Definition CRLF : bytes := [13; 10].
Definition CRLFCRLF : bytes := [13; 10; 13; 10].

(** ** Machine integers: conversions to the fixed-width types of the code *)

Definition u8 (z : Z) : Z := z mod 256.
Definition u16 (z : Z) : Z := z mod 65536.
Definition u32 (z : Z) : Z := z mod 4294967296.
Definition u64 (z : Z) : Z := z mod 18446744073709551616.

Lemma u64_idem_l a b : u64 (u64 a + b) = u64 (a + b).
Proof. unfold u64. by rewrite Z.add_mod_idemp_l by lia. Qed.

Definition int_max : Z := 2147483647.
Definition int_min : Z := -2147483648.
Definition i64_max : Z := 9223372036854775807.
Definition i64_min : Z := -9223372036854775808.
Definition in_i32 (z : Z) : bool := (int_min <=? z) && (z <=? int_max).
Definition in_i64 (z : Z) : bool := (i64_min <=? z) && (z <=? i64_max).

(** ** Exceptions

    A function that may throw returns [result A]; the payload of [Throw] is the
    text of [what()]. *)

Inductive result (A : Type) : Type :=
| Ok (a : A)
| Throw (what : bytes).
Arguments Ok {A} a.
Arguments Throw {A} what.

#[export] Instance result_ret : MRet result := fun A a => Ok a.
#[export] Instance result_bind : MBind result := fun A B f r =>
  match r with Ok a => f a | Throw w => Throw w end.
#[export] Instance result_fmap : FMap result := fun A B f r =>
  match r with Ok a => Ok (f a) | Throw w => Throw w end.

(** [if (cond) throw std::runtime_error(what);] *)
Definition throw_if (cond : bool) (what : bytes) : result unit :=
  if cond then Throw what else Ok tt.

(** [try { r } catch (const std::exception&) { throw std::runtime_error(what); }] *)
Definition rethrow_as {A} (what : bytes) (r : result A) : result A :=
  match r with Ok a => Ok a | Throw _ => Throw what end.

(** ** Code that changes a state

    [act S A] runs on a state and gives an outcome and the new state.  [None] is
    code without a defined outcome: it does not return, or it has undefined
    behaviour.  A thrown exception keeps the state changes made before it. *)

Definition act (S A : Type) : Type := S -> option (result A * S).

#[export] Instance act_ret {S} : MRet (act S) := fun A a s => Some (Ok a, s).
#[export] Instance act_bind {S} : MBind (act S) := fun A B f m s =>
  match m s with
  | None => None
  | Some (Ok a, s') => f a s'
  | Some (Throw w, s') => Some (Throw w, s')
  end.

Definition get {S} : act S S := fun s => Some (Ok s, s).
Definition put {S} (s' : S) : act S unit := fun _ => Some (Ok tt, s').
Definition modify {S} (f : S -> S) : act S unit := fun s => Some (Ok tt, f s).
Definition lift {S A} (r : result A) : act S A := fun s => Some (r, s).
Definition defined {S A} (o : option A) : act S A := fun s => (fun a => (Ok a, s)) <$> o.

Definition throw {S A} (what : bytes) : act S A := fun s => Some (Throw what, s).

(** [try { m } catch (...) { cleanup; throw; }] *)
Definition on_throw {S A} (m : act S A) (cleanup : S -> S) : act S A := fun s =>
  match m s with
  | Some (Throw w, s') => Some (Throw w, cleanup s')
  | r => r
  end.

(** What holds after [m], whether it returns ([Q]) or throws ([E]); nothing is
    claimed of code without a defined outcome. *)
Definition wlp {S A} (m : act S A) (Q : A -> S -> Prop) (E : S -> Prop) (s : S) : Prop :=
  match m s with
  | None => True
  | Some (Ok a, s') => Q a s'
  | Some (Throw _, s') => E s'
  end.

Lemma wlp_bind {S A B} (m : act S A) (f : A -> act S B) Q E s :
  wlp m (fun a s' => wlp (f a) Q E s') E s -> wlp (m ≫= f) Q E s.
Proof. unfold wlp, mbind, act_bind. by destruct (m s) as [[[a|w] s']|]. Qed.

Lemma wlp_mono {S A} (m : act S A) (Q Q' : A -> S -> Prop) (E : S -> Prop) s :
  wlp m Q E s -> (forall a s', Q a s' -> Q' a s') -> wlp m Q' E s.
Proof. unfold wlp. destruct (m s) as [[[a|w] s']|]; auto. Qed.

Lemma wlp_lift {S A} (r : result A) (Q : A -> S -> Prop) (E : S -> Prop) s :
  (forall a, r = Ok a -> Q a s) -> E s -> wlp (lift r) Q E s.
Proof. unfold wlp, lift. destruct r; auto. Qed.

Lemma wlp_defined {S A} (o : option A) (Q : A -> S -> Prop) (E : S -> Prop) s :
  (forall a, o = Some a -> Q a s) -> wlp (defined o) Q E s.
Proof. unfold wlp, defined. destruct o; cbn; auto. Qed.

Lemma wlp_ret {S A} (a : A) (Q : A -> S -> Prop) (E : S -> Prop) s : Q a s -> wlp (mret a) Q E s.
Proof. done. Qed.

Lemma wlp_get {S} (Q : S -> S -> Prop) (E : S -> Prop) s : Q s s -> wlp get Q E s.
Proof. done. Qed.

Lemma wlp_modify {S} (f : S -> S) (Q : unit -> S -> Prop) (E : S -> Prop) s : Q tt (f s) -> wlp (modify f) Q E s.
Proof. done. Qed.

Lemma wlp_throw {S A} w (Q : A -> S -> Prop) (E : S -> Prop) s : E s -> wlp (throw w) Q E s.
Proof. done. Qed.

Lemma wlp_weaken {S A} (m : act S A) (Q Q' : A -> S -> Prop) (E E' : S -> Prop) s :
  wlp m Q E s -> (forall a s', Q a s' -> Q' a s') -> (forall s', E s' -> E' s') -> wlp m Q' E' s.
Proof. unfold wlp. destruct (m s) as [[[a|w] s']|]; auto. Qed.

Lemma wlp_on_throw {S A} (m : act S A) (cleanup : S -> S) (Q : A -> S -> Prop) (E : S -> Prop) s :
  wlp m Q (fun s' => E (cleanup s')) s -> wlp (on_throw m cleanup) Q E s.
Proof. unfold wlp, on_throw. by destruct (m s) as [[[a|w] s']|]. Qed.

Lemma wlp_conj {S A} (m : act S A) (Q Q' : A -> S -> Prop) (E E' : S -> Prop) s :
  wlp m Q E s -> wlp m Q' E' s -> wlp m (fun a s' => Q a s' /\ Q' a s') (fun s' => E s' /\ E' s') s.
Proof. unfold wlp. destruct (m s) as [[[a|w] s']|]; auto. Qed.

(** [m] moves the state along the preorder [R], whether it returns or throws. *)
Definition keeps {S A} (R : relation S) (m : act S A) : Prop :=
  forall s, wlp m (fun _ s' => R s s') (fun s' => R s s') s.

Section Keeps.
Context {S : Type} (R : relation S) `{!PreOrder R}.

Lemma keeps_bind {A B} (m : act S A) (f : A -> act S B) :
  keeps R m -> (forall a, keeps R (f a)) -> keeps R (m ≫= f).
Proof.
  intros Hm Hf s. apply wlp_bind. eapply wlp_mono; [apply Hm|]. intros a s1 H1.
  eapply wlp_weaken; [apply Hf| |]; cbv beta.
  - intros b s2 H2. by transitivity s1.
  - intros s2 H2. by transitivity s1.
Qed.

Lemma keeps_ret {A} (a : A) : keeps R (mret a).
Proof. intros s. cbn. reflexivity. Qed.
Lemma keeps_get : keeps R get.
Proof. intros s. cbn. reflexivity. Qed.
Lemma keeps_lift {A} (r : result A) : keeps R (lift r).
Proof. intros s. unfold wlp, lift. destruct r; cbn; reflexivity. Qed.
Lemma keeps_defined {A} (o : option A) : keeps R (defined o).
Proof. intros s. unfold wlp, defined. destruct o; cbn; [reflexivity|done]. Qed.
Lemma keeps_throw {A} w : keeps R (throw (A := A) w).
Proof. intros s. cbn. reflexivity. Qed.
Lemma keeps_modify f : (forall s, R s (f s)) -> keeps R (modify f).
Proof. intros H s. apply H. Qed.
Lemma keeps_on_throw {A} (m : act S A) f : keeps R m -> (forall s, R s (f s)) -> keeps R (on_throw m f).
Proof.
  intros Hm Hf s. apply wlp_on_throw. eapply wlp_weaken; [apply Hm|done|]. intros s' H. by transitivity s'.
Qed.
Lemma keeps_None {A} : keeps R (fun _ => None : option (result A * S)).
Proof. by intros s. Qed.
End Keeps.

Lemma result_bind_Ok {A B} (f : A -> result B) (r : result A) (b : B) :
  (r ≫= f) = Ok b <-> exists a, r = Ok a /\ f a = Ok b.
Proof.
  destruct r as [a|w]; cbn; split.
  - intros H. by exists a.
  - by intros (a' & [= <-] & H).
  - done.
  - by intros (a' & H & _).
Qed.

Lemma throw_if_Ok c w u : throw_if c w = Ok u <-> c = false.
Proof. destruct c, u; cbn; split; congruence. Qed.

(** ** Automation *)

Create HintDb rtsps.
Create Rewrite HintDb rtsps.

Ltac Zify.zify_post_hook ::= Z.to_euclidean_division_equations.

(** Comparisons with a variable stay folded under simplification. *)
#[global] Arguments Z.eqb !_ !_ : simpl nomatch.
#[global] Arguments Z.ltb !_ !_ : simpl nomatch.
#[global] Arguments Z.leb !_ !_ : simpl nomatch.
#[global] Arguments Z.gtb !_ !_ : simpl nomatch.
#[global] Arguments Z.geb !_ !_ : simpl nomatch.

(** Splits a success [H : (x ← m; k) = Ok v] into the successes of its parts. *)
Ltac bind_inv H :=
  repeat (let a := fresh "v" in let Ha := fresh "Hv" in
          apply result_bind_Ok in H as (a & Ha & H)).

(** Case analysis on every integer comparison of the goal. *)
Ltac zcase :=
  repeat match goal with
  | |- context [?a <? ?b] => destruct (Z.ltb_spec a b)
  | |- context [?a <=? ?b] => destruct (Z.leb_spec a b)
  | |- context [?a =? ?b] => destruct (Z.eqb_spec a b)
  | |- context [?a >? ?b] => rewrite (Z.gtb_ltb a b)
  | |- context [?a >=? ?b] => rewrite (Z.geb_leb a b)
  end.

(** One step through state-changing code. *)
Ltac wstep :=
  lazymatch goal with
  | |- wlp (_ ≫= _) _ _ _ => apply wlp_bind
  | |- wlp (mret _) _ _ _ => apply wlp_ret
  | |- wlp get _ _ _ => apply wlp_get
  | |- wlp (modify _) _ _ _ => apply wlp_modify
  | |- wlp (throw _) _ _ _ => apply wlp_throw
  | |- wlp (on_throw _ _) _ _ _ => apply wlp_on_throw
  | |- wlp (fun _ => None) _ _ _ => exact I
  end.

(** Goes through code that moves along a preorder; what is left are the state changes. *)
Ltac keeps_step :=
  lazymatch goal with
  | |- keeps _ (_ ≫= _) => apply keeps_bind; [apply _| |intros ?]
  | |- keeps _ (mret _) => apply keeps_ret, _
  | |- keeps _ get => apply keeps_get, _
  | |- keeps _ (lift _) => apply keeps_lift, _
  | |- keeps _ (defined _) => apply keeps_defined, _
  | |- keeps _ (throw _) => apply keeps_throw, _
  | |- keeps _ (modify _) => apply keeps_modify; intros ?
  | |- keeps _ (on_throw _ _) => apply keeps_on_throw; [apply _| |intros ?]
  | |- keeps _ (fun _ => None) => apply keeps_None
  | |- keeps _ (match ?x with _ => _ end) => destruct x
  | |- keeps _ (let '(_, _) := ?x in _) => destruct x
  end.

(** Turns boolean hypotheses into propositions. *)
Ltac bprop :=
  repeat match goal with
  | H : (_ && _) = true |- _ => apply andb_true_iff in H as [? H]
  | H : (_ || _) = false |- _ => apply orb_false_iff in H as [? H]
  | H : negb _ = true |- _ => apply negb_true_iff in H
  | H : negb _ = false |- _ => apply negb_false_iff in H
  | H : (_ <? _) = true |- _ => apply Z.ltb_lt in H
  | H : (_ <? _) = false |- _ => apply Z.ltb_ge in H
  | H : (_ <=? _) = true |- _ => apply Z.leb_le in H
  | H : (_ <=? _) = false |- _ => apply Z.leb_gt in H
  | H : (_ >? _) = true |- _ => rewrite Z.gtb_ltb in H; apply Z.ltb_lt in H
  | H : (_ >? _) = false |- _ => rewrite Z.gtb_ltb in H; apply Z.ltb_ge in H
  | H : (_ >=? _) = true |- _ => rewrite Z.geb_leb in H; apply Z.leb_le in H
  | H : (_ >=? _) = false |- _ => rewrite Z.geb_leb in H; apply Z.leb_gt in H
  | H : (_ =? _) = true |- _ => apply Z.eqb_eq in H
  | H : (_ =? _) = false |- _ => apply Z.eqb_neq in H
  | H : bool_decide _ = true |- _ => apply bool_decide_eq_true in H
  | H : bool_decide _ = false |- _ => apply bool_decide_eq_false in H
  end.

(** ** Integer conversions *)

Lemma u8_range z : 0 <= u8 z < 256.
Proof. unfold u8. lia. Qed.
Lemma u16_range z : 0 <= u16 z < 65536.
Proof. unfold u16. lia. Qed.
Lemma u32_range z : 0 <= u32 z < 4294967296.
Proof. unfold u32. lia. Qed.
Lemma u8_id z : byte_ok z -> u8 z = z.
Proof. unfold byte_ok, u8. lia. Qed.
Lemma u8_ok z : byte_ok (u8 z).
Proof. apply u8_range. Qed.
#[export] Hint Resolve u8_ok : rtsps.

(** ** Lists *)

Lemma zlen_nil {A} : zlen (@nil A) = 0.
Proof. reflexivity. Qed.
Lemma zlen_cons {A} (x : A) l : zlen (x :: l) = 1 + zlen l.
Proof. unfold zlen. cbn. lia. Qed.
Lemma zlen_app {A} (l k : list A) : zlen (l ++ k) = zlen l + zlen k.
Proof. unfold zlen. rewrite length_app. lia. Qed.
Lemma zlen_nonneg {A} (l : list A) : 0 <= zlen l.
Proof. unfold zlen. lia. Qed.
#[export] Hint Rewrite @zlen_nil @zlen_cons @zlen_app : rtsps.

Lemma zlen_zero {A} (l : list A) : zlen l = 0 <-> l = [].
Proof. destruct l; unfold zlen; cbn; split; intros; try done; lia. Qed.

Lemma bytes_ok_app s t : bytes_ok (s ++ t) <-> bytes_ok s /\ bytes_ok t.
Proof. apply Forall_app. Qed.

Lemma bytes_ok_take n s : bytes_ok s -> bytes_ok (take n s).
Proof. apply Forall_take. Qed.
Lemma bytes_ok_drop n s : bytes_ok s -> bytes_ok (drop n s).
Proof. apply Forall_drop. Qed.
#[export] Hint Resolve bytes_ok_take bytes_ok_drop : rtsps.

(** A list is its first [n] elements followed by the rest. *)
Lemma take_drop_cases {A} n (l : list A) :
  (n <= length l)%nat -> exists a b, l = a ++ b /\ length a = n /\ take n l = a /\ drop n l = b.
Proof.
  intros Hn. exists (take n l), (drop n l).
  rewrite take_drop, length_take. repeat split; lia.
Qed.

(** A property of a byte is checked on the 256 values. *)
Lemma byte_forall (P : Z -> bool) :
  forallb P (seqZ 0 256) = true -> forall b, byte_ok b -> P b = true.
Proof.
  intros H b Hb. rewrite forallb_forall in H. apply H, list_elem_of_In, elem_of_seqZ.
  unfold byte_ok in Hb. lia.
Qed.

(** Bits put together from disjoint fields. *)
Lemma lor_shiftl_add a b k : 0 <= k -> 0 <= b < 2 ^ k -> Z.lor (Z.shiftl a k) b = a * 2 ^ k + b.
Proof.
  intros Hk Hb. rewrite <- Z.shiftl_mul_pow2 by done.
  pose proof (Z.add_lor_land (Z.shiftl a k) b) as H.
  replace (Z.land (Z.shiftl a k) b) with 0 in H; [lia|]. symmetry.
  apply Z.bits_inj'. intros n Hn. rewrite Z.land_spec, Z.bits_0.
  destruct (decide (n < k)).
  - by rewrite Z.shiftl_spec_low.
  - rewrite <- (Z.mod_small b (2 ^ k)), Z.mod_pow2_bits_high by lia. apply andb_false_r.
Qed.
