(* ===== verification/CStr.v ===== *)
(** * The C++ string and stream operations the server uses

    [std::string] searching and slicing, the "C" locale character classes, the
    numeric conversions [std::stoi], [std::stoull], [std::to_string], and the
    formatted extraction operators of [std::istringstream].  Positions are [nat];
    [std::string::npos] is [None]. *)

From S2P Require Import Prelude.

(** ** Character classes of the "C" locale *)

Definition is_digit (c : Z) : bool := (48 <=? c) && (c <=? 57).
Definition is_space (c : Z) : bool := ((9 <=? c) && (c <=? 13)) || (c =? 32).
Definition to_lower (c : Z) : Z := if (65 <=? c) && (c <=? 90) then c + 32 else c.

(** ** Equality, searching and slicing *)

Fixpoint str_eqb (s t : bytes) : bool :=
  match s, t with
  | [], [] => true
  | x :: s', y :: t' => (x =? y) && str_eqb s' t'
  | _, _ => false
  end.

Definition is_empty {A} (s : list A) : bool := match s with [] => true | _ => false end.

(** [s.compare(0, p.size(), p) == 0] *)
Fixpoint is_prefix (p s : bytes) : bool :=
  match p, s with
  | [], _ => true
  | x :: p', y :: s' => (x =? y) && is_prefix p' s'
  | _ :: _, [] => false
  end.

Fixpoint find0 (p s : bytes) : option nat :=
  if is_prefix p s then Some 0%nat
  else match s with
       | [] => None
       | _ :: s' => S <$> find0 p s'
       end.

(** [s.find(p, pos)] *)
Definition str_find (s p : bytes) (pos : nat) : option nat :=
  if (length s <? pos)%nat then None
  else (fun i => (pos + i)%nat) <$> find0 p (drop pos s).

Fixpoint find_if (f : Z -> bool) (s : bytes) : option nat :=
  match s with
  | [] => None
  | c :: s' => if f c then Some 0%nat else S <$> find_if f s'
  end.

Fixpoint find_last_if (f : Z -> bool) (s : bytes) : option nat :=
  match s with
  | [] => None
  | c :: s' => match find_last_if f s' with
               | Some i => Some (S i)
               | None => if f c then Some 0%nat else None
               end
  end.

Definition mem (c : Z) (set : bytes) : bool := existsb (Z.eqb c) set.

(** [s.find_first_of(set, pos)] and its relatives *)
Definition find_first_of (s set : bytes) (pos : nat) : option nat :=
  (fun i => (pos + i)%nat) <$> find_if (fun c => mem c set) (drop pos s).
Definition find_first_not_of (s set : bytes) : option nat := find_if (fun c => negb (mem c set)) s.
Definition find_last_not_of (s set : bytes) : option nat := find_last_if (fun c => negb (mem c set)) s.

(** [s.substr(pos)], [s.substr(pos, n)]; every use has [pos <= s.size()] *)
Definition substr_from (s : bytes) (pos : nat) : bytes := drop pos s.
Definition substr (s : bytes) (pos n : nat) : bytes := take n (drop pos s).

(** [s.replace(pos, n, t)] *)
Definition str_replace (s : bytes) (pos n : nat) (t : bytes) : bytes :=
  take pos s ++ t ++ drop (pos + n) s.

(** ** Number formatting *)

Fixpoint digits_loop (base : Z) (digit : Z -> Z) (fuel : nat) (n : Z) (acc : bytes) : bytes :=
  match fuel with
  | O => acc
  | S f => let acc' := digit (n mod base) :: acc in
           if n <? base then acc' else digits_loop base digit f (n / base) acc'
  end.

Definition dec_digit (d : Z) : Z := 48 + d.
Definition hex_digit (d : Z) : Z := if d <? 10 then 48 + d else 87 + d.

(** A number below [2 ^ k] has at most [k] digits in any base from 2 on. *)
Definition dec_unsigned (n : Z) : bytes := digits_loop 10 dec_digit (S (Z.to_nat (Z.log2 n))) n [].
Definition hex_unsigned (n : Z) : bytes := digits_loop 16 hex_digit (S (Z.to_nat (Z.log2 n))) n [].

(** [std::to_string] of an integer *)
Definition to_string (n : Z) : bytes :=
  if n <? 0 then 45 :: dec_unsigned (- n) else dec_unsigned n.

(** [std::setfill(c) << std::setw(w)] applied to an already formatted field *)
Definition pad_left (w : nat) (c : Z) (s : bytes) : bytes := replicate (w - length s) c ++ s.

(** ** Number parsing *)

Fixpoint span (f : Z -> bool) (s : bytes) : bytes * bytes :=
  match s with
  | [] => ([], [])
  | c :: s' => if f c then let '(a, b) := span f s' in (c :: a, b) else ([], s)
  end.

Definition dec_value (ds : bytes) : Z := fold_left (fun acc d => acc * 10 + (d - 48)) ds 0.

Definition take_sign (s : bytes) : bool * bytes :=
  match s with
  | c :: s' => if c =? 45 then (true, s') else if c =? 43 then (false, s') else (false, s)
  | [] => (false, [])
  end.

(** What [strtol] and [strtoull] read: white space, a sign, decimal digits.  The
    result is the sign, the digits and the rest of the input. *)
Definition scan_integer (s : bytes) : bool * bytes * bytes :=
  let '(_, s1) := span is_space s in
  let '(neg, s2) := take_sign s1 in
  let '(ds, rest) := span is_digit s2 in
  (neg, ds, rest).

(** [std::stoi(s, &consumed)] *)
Definition stoi (s : bytes) : result (Z * nat) :=
  let '(neg, ds, rest) := scan_integer s in
  if is_empty ds then Throw $"stoi"
  else let v := if neg then - dec_value ds else dec_value ds in
       if in_i32 v then Ok (v, (length s - length rest)%nat) else Throw $"stoi".

(** [std::stoull(s, &consumed)]: a minus sign negates modulo [2 ^ 64] *)
Definition stoull (s : bytes) : result (Z * nat) :=
  let '(neg, ds, rest) := scan_integer s in
  if is_empty ds then Throw $"stoull"
  else let m := dec_value ds in
       if m <? 18446744073709551616
       then Ok (if neg then u64 (- m) else m, (length s - length rest)%nat)
       else Throw $"stoull".

(** ** Formatted extraction

    [std::istringstream] is what is left to read, or [None] once an extraction
    has failed.  A failed extraction into a string leaves it unchanged. *)

Definition skip_ws (s : bytes) : bytes := snd (span is_space s).

(** [in >> word] *)
Definition read_word (s : option bytes) (old : bytes) : bytes * option bytes :=
  match s with
  | None => (old, None)
  | Some s => match skip_ws s with
              | [] => (old, None)
              | s1 => let '(w, rest) := span (fun c => negb (is_space c)) s1 in (w, Some rest)
              end
  end.

(** [in >> number] for an [int] *)
Definition read_int (s : option bytes) (old : Z) : Z * option bytes :=
  match s with
  | None => (old, None)
  | Some s => match skip_ws s with
              | [] => (old, None)
              | s1 => let '(neg, s2) := take_sign s1 in
                      let '(ds, rest) := span is_digit s2 in
                      let v := if neg then - dec_value ds else dec_value ds in
                      if is_empty ds then (0, None)
                      else if in_i32 v then (v, Some rest)
                      else if neg then (int_min, None) else (int_max, None)
              end
  end.

(** [in >> c] for a [char] *)
Definition read_char (s : option bytes) (old : Z) : Z * option bytes :=
  match s with
  | None => (old, None)
  | Some s => match skip_ws s with
              | [] => (old, None)
              | c :: rest => (c, Some rest)
              end
  end.

(** ** [std::filesystem::path] concatenation (POSIX) *)
Definition path_append (p q : bytes) : bytes :=
  if is_prefix $"/" q then q
  else match last p with
       | None => q
       | Some c => if c =? 47 then p ++ q else p ++ $"/" ++ q
       end.

(** ** Facts: equality and prefixes *)

Lemma str_eqb_eq s t : str_eqb s t = true <-> s = t.
Proof.
  revert t; induction s as [|x s IH]; intros [|y t]; cbn; try (split; congruence).
  rewrite andb_true_iff, Z.eqb_eq, IH. split; [by intros [-> ->]|by intros [= -> ->]].
Qed.

Lemma str_eqb_refl s : str_eqb s s = true.
Proof. by apply str_eqb_eq. Qed.
#[export] Hint Rewrite str_eqb_refl : rtsps.

Lemma str_eqb_neq s t : str_eqb s t = false <-> s <> t.
Proof. rewrite <- not_true_iff_false, str_eqb_eq. done. Qed.

Lemma is_prefix_true p s : is_prefix p s = true <-> exists t, s = p ++ t.
Proof.
  revert s; induction p as [|x p IH]; intros s; cbn.
  - split; [by exists s|done].
  - destruct s as [|y s]; [split; [done|by intros [t [=]]]|].
    rewrite andb_true_iff, Z.eqb_eq, IH. split.
    + intros [-> [t ->]]. by exists t.
    + intros [t [= -> ->]]. split; [done|by exists t].
Qed.

Lemma is_prefix_app p t : is_prefix p (p ++ t) = true.
Proof. apply is_prefix_true. by exists t. Qed.
#[export] Hint Rewrite is_prefix_app : rtsps.

Lemma is_prefix_length p s : is_prefix p s = true -> (length p <= length s)%nat.
Proof. intros [t ->]%is_prefix_true. rewrite length_app. lia. Qed.

(** ** Facts: the first occurrence *)

Lemma find0_Some p s i :
  find0 p s = Some i ->
  (i <= length s)%nat /\ is_prefix p (drop i s) = true /\
  forall j, (j < i)%nat -> is_prefix p (drop j s) = false.
Proof.
  revert i; induction s as [|c s IH]; intros i; cbn [find0].
  - destruct (is_prefix p []) eqn:E; [intros [= <-]|done].
    rewrite drop_0. split_and!; [lia|done|intros; lia].
  - destruct (is_prefix p (c :: s)) eqn:E.
    + intros [= <-]. rewrite drop_0. split_and!; [lia|done|intros; lia].
    + destruct (find0 p s) as [k|]; cbn; [|done]. intros [= <-].
      destruct (IH k eq_refl) as (Hk & Hp & Hmin). split_and!; [cbn; lia|done|].
      intros [|j] Hj; [done|]. cbn. apply Hmin. lia.
Qed.

Lemma find0_None p s j : find0 p s = None -> is_prefix p (drop j s) = false.
Proof.
  revert j; induction s as [|c s IH]; intros j; cbn [find0].
  - rewrite drop_nil. by destruct (is_prefix p []).
  - destruct (is_prefix p (c :: s)) eqn:E; [done|].
    destruct (find0 p s) as [k|]; cbn; [done|].
    intros _. destruct j as [|j]; [done|]. by apply IH.
Qed.

Lemma find0_intro p s i :
  is_prefix p (drop i s) = true -> (i <= length s)%nat ->
  (forall j, (j < i)%nat -> is_prefix p (drop j s) = false) -> find0 p s = Some i.
Proof.
  revert i; induction s as [|c s IH]; intros i Hp Hl Hmin; cbn [find0].
  - cbn in Hl. assert (i = 0%nat) as -> by lia. rewrite drop_0 in Hp. by rewrite Hp.
  - destruct i as [|i].
    + rewrite drop_0 in Hp. by rewrite Hp.
    + pose proof (Hmin 0%nat ltac:(lia)) as H0. rewrite drop_0 in H0. rewrite H0.
      rewrite (IH i); [done|done|cbn in Hl; lia|].
      intros j Hj. apply (Hmin (S j)). lia.
Qed.

(** The text around the first occurrence. *)
Lemma find0_split p s i :
  find0 p s = Some i -> s = take i s ++ p ++ drop (i + length p) s /\ length (take i s) = i.
Proof.
  intros (Hi & [t Ht]%is_prefix_true & _)%find0_Some.
  split; [|rewrite length_take; lia].
  rewrite <- (take_drop i s) at 1. f_equal. rewrite Ht. f_equal.
  rewrite <- drop_drop, Ht, drop_app_length. done.
Qed.

Lemma find0_bound p s i : find0 p s = Some i -> (i + length p <= length s)%nat.
Proof.
  intros (Hi & Hp%is_prefix_length & _)%find0_Some. rewrite length_drop in Hp. lia.
Qed.

Lemma str_find_0 s p : str_find s p 0 = find0 p s.
Proof. unfold str_find. rewrite drop_0. cbn. by destruct (find0 p s). Qed.

Lemma str_find_bound s p pos i :
  str_find s p pos = Some i -> (pos <= i)%nat /\ (i + length p <= length s)%nat.
Proof.
  unfold str_find. destruct (Nat.ltb_spec (length s) pos); [done|].
  destruct (find0 p (drop pos s)) as [k|] eqn:E; cbn; [|done].
  intros [= <-]. apply find0_bound in E. rewrite length_drop in E. lia.
Qed.

Lemma find_if_Some f s i :
  find_if f s = Some i ->
  exists a c b, s = a ++ c :: b /\ length a = i /\ f c = true /\ Forall (fun x => f x = false) a.
Proof.
  revert i; induction s as [|c s IH]; intros i; cbn; [done|].
  destruct (f c) eqn:E.
  - intros [= <-]. by exists [], c, s.
  - destruct (find_if f s) as [k|]; cbn; [|done]. intros [= <-].
    destruct (IH k eq_refl) as (a & d & b & -> & <- & Hd & Ha).
    exists (c :: a), d, b. repeat split; auto.
Qed.

Lemma find_if_None f s : find_if f s = None <-> Forall (fun x => f x = false) s.
Proof.
  induction s as [|c s IH]; cbn; [by split|].
  rewrite Forall_cons. destruct (f c); [split; [done|by intros [? _]]|].
  rewrite <- IH. destruct (find_if f s); cbn; split; try done. by intros [_ ?].
Qed.

Lemma find_if_app f a c b :
  Forall (fun x => f x = false) a -> f c = true -> find_if f (a ++ c :: b) = Some (length a).
Proof.
  intros Ha Hc. induction Ha as [|x a Hx _ IH]; cbn; [by rewrite Hc|].
  by rewrite Hx, IH.
Qed.

Lemma find_last_if_Some f s i :
  find_last_if f s = Some i ->
  exists a c b, s = a ++ c :: b /\ length a = i /\ f c = true /\ Forall (fun x => f x = false) b.
Proof.
  revert i; induction s as [|c s IH]; intros i; cbn; [done|].
  destruct (find_last_if f s) as [k|] eqn:E.
  - intros [= <-]. destruct (IH k eq_refl) as (a & d & b & -> & <- & Hd & Hb).
    by exists (c :: a), d, b.
  - destruct (f c) eqn:Ec; [|done]. intros [= <-]. exists [], c, s.
    repeat split; try done.
    clear -E. induction s as [|x s IH]; [done|]. cbn in E.
    destruct (find_last_if f s); [done|]. destruct (f x) eqn:Ex; [done|]. auto.
Qed.

(** ** Facts: spans *)

Lemma span_spec f s a b :
  span f s = (a, b) ->
  s = a ++ b /\ Forall (fun x => f x = true) a /\ (forall c b', b = c :: b' -> f c = false).
Proof.
  revert a b; induction s as [|x s IH]; intros a b; cbn.
  - intros [= <- <-]. repeat split; [done|by intros].
  - destruct (f x) eqn:E.
    + destruct (span f s) as [a' b'] eqn:Es. intros [= <- <-].
      destruct (IH a' b' eq_refl) as (-> & Ha & Hb). split_and!; [done|by constructor|done].
    + intros [= <- <-]. split_and!; [done|done|by intros c b' [= -> ->]].
Qed.

Lemma span_app f a b :
  Forall (fun x => f x = true) a -> (forall c b', b = c :: b' -> f c = false) ->
  span f (a ++ b) = (a, b).
Proof.
  intros Ha Hb. induction Ha as [|x a Hx _ IH]; cbn.
  - destruct b as [|c b']; cbn; [done|]. by rewrite (Hb c b' eq_refl).
  - by rewrite Hx, IH.
Qed.

Lemma span_all f a : Forall (fun x => f x = true) a -> span f a = (a, []).
Proof. intros Ha. rewrite <- (app_nil_r a) at 1. by apply span_app. Qed.

(** ** Facts: CRLF-terminated lines *)

(** No line break inside. *)
Definition no_crlf (l : bytes) : Prop := find0 CRLF l = None.

Lemma no_crlf_cons c l : no_crlf (c :: l) -> no_crlf l.
Proof.
  unfold no_crlf. cbn [find0]. destruct (is_prefix CRLF (c :: l)); [done|].
  by destruct (find0 CRLF l).
Qed.

Lemma find0_crlf l rest : no_crlf l -> find0 CRLF (l ++ CRLF ++ rest) = Some (length l).
Proof.
  intros Hl. induction l as [|c l IH]; [done|].
  cbn [app find0 length]. rewrite (IH (no_crlf_cons _ _ Hl)).
  replace (is_prefix CRLF (c :: l ++ CRLF ++ rest)) with false; [done|].
  symmetry. unfold no_crlf in Hl. cbn [find0] in Hl.
  destruct (is_prefix CRLF (c :: l)) eqn:E; [done|].
  destruct l as [|d l]; [apply andb_false_r|exact E].
Qed.

(** A line break at the front of the rest is found right after a broken line. *)
Lemma find0_crlfcrlf_end l rest :
  no_crlf l -> find0 CRLFCRLF (l ++ CRLFCRLF ++ rest) = Some (length l).
Proof.
  intros Hl. induction l as [|c l IH]; [done|].
  cbn [app find0 length]. rewrite (IH (no_crlf_cons _ _ Hl)).
  replace (is_prefix CRLFCRLF (c :: l ++ CRLFCRLF ++ rest)) with false; [done|].
  symmetry. unfold no_crlf in Hl. cbn [find0] in Hl.
  destruct (is_prefix CRLF (c :: l)) eqn:E; [done|].
  destruct l as [|d l]; [apply andb_false_r|].
  revert E. cbn [is_prefix CRLF CRLFCRLF app]. destruct (13 =? c), (10 =? d); done.
Qed.

(** A first line that is not followed by an empty one does not end the header. *)
Lemma find0_crlfcrlf_line l rest :
  no_crlf l -> is_prefix CRLF rest = false ->
  find0 CRLFCRLF (l ++ CRLF ++ rest) = (fun i => (length l + 2 + i)%nat) <$> find0 CRLFCRLF rest.
Proof.
  intros Hl Hr. induction l as [|c l IH].
  - change ([] ++ CRLF ++ rest) with (13 :: 10 :: rest). cbn [find0].
    replace (is_prefix CRLFCRLF (13 :: 10 :: rest)) with (is_prefix CRLF rest) by done.
    rewrite Hr. cbn [is_prefix CRLFCRLF]. cbn [Z.eqb andb].
    by destruct (find0 CRLFCRLF rest).
  - cbn [app find0 length]. rewrite (IH (no_crlf_cons _ _ Hl)).
    replace (is_prefix CRLFCRLF (c :: l ++ CRLF ++ rest)) with false.
    { by destruct (find0 CRLFCRLF rest). }
    symmetry. unfold no_crlf in Hl. cbn [find0] in Hl.
    destruct (is_prefix CRLF (c :: l)) eqn:E; [done|].
    destruct l as [|d l]; [apply andb_false_r|].
    revert E. cbn [is_prefix CRLF CRLFCRLF app]. destruct (13 =? c), (10 =? d); done.
Qed.

(** The first line of a text that has one. *)
Lemma find0_crlf_line s i : find0 CRLF s = Some i -> no_crlf (take i s).
Proof.
  intros H. destruct (find0_split _ _ _ H) as [Hs Hlen].
  apply find0_Some in H as (Hi & _ & Hmin).
  unfold no_crlf. destruct (find0 CRLF (take i s)) as [k|] eqn:E; [|done].
  pose proof (find0_bound _ _ _ E) as Hb. rewrite Hlen in Hb. cbn in Hb.
  apply find0_Some in E as (_ & [t Ht]%is_prefix_true & _).
  specialize (Hmin k ltac:(lia)). rewrite <- (take_drop i s) in Hmin.
  rewrite drop_app_le, Ht in Hmin by lia.
  rewrite <- app_assoc, is_prefix_app in Hmin. done.
Qed.

(** The substring of a line has no line break either. *)
Lemma no_crlf_drop n l : no_crlf l -> no_crlf (drop n l).
Proof.
  revert n; induction l as [|c l IH]; intros [|n] Hl; try done.
  apply IH. by apply no_crlf_cons in Hl.
Qed.

Lemma no_crlf_take n l : no_crlf l -> no_crlf (take n l).
Proof.
  unfold no_crlf. intros Hl. destruct (find0 CRLF (take n l)) as [k|] eqn:E; [|done].
  pose proof (find0_bound _ _ _ E) as Hb. rewrite length_take in Hb. cbn in Hb.
  apply find0_Some in E as (_ & [t Ht]%is_prefix_true & _).
  pose proof (find0_None _ _ k Hl) as Hn.
  rewrite <- (take_drop n l), drop_app_le, Ht, <- app_assoc, is_prefix_app in Hn; [done|].
  rewrite length_take. lia.
Qed.

(** ** Facts: decimal numbers *)

Lemma digits_loop_acc base digit f n acc :
  digits_loop base digit f n acc = digits_loop base digit f n [] ++ acc.
Proof.
  revert n acc; induction f as [|f IH]; intros n acc; cbn [digits_loop]; [done|].
  destruct (n <? base); [done|].
  rewrite IH, (IH (n / base) [digit (n mod base)]), <- app_assoc. done.
Qed.

Lemma digits_loop_Forall base digit (P : Z -> Prop) f n :
  (forall d, 0 <= d < base -> P (digit d)) -> 0 < base -> Forall P (digits_loop base digit f n []).
Proof.
  intros HP Hb. revert n; induction f as [|f IH]; intros n; cbn [digits_loop]; [done|].
  assert (P (digit (n mod base))) by (apply HP, Z.mod_pos_bound; lia).
  destruct (n <? base); [by repeat constructor|].
  rewrite digits_loop_acc. apply Forall_app; auto.
Qed.

Lemma digits_loop_nonempty base digit f n : digits_loop base digit (S f) n [] <> [].
Proof.
  cbn [digits_loop]. destruct (n <? base); [done|].
  rewrite digits_loop_acc. by intros [_ [=]]%app_nil.
Qed.

Lemma dec_value_snoc ds d : dec_value (ds ++ [d]) = dec_value ds * 10 + (d - 48).
Proof. unfold dec_value. by rewrite fold_left_app. Qed.

Lemma dec_value_digits f n : 0 <= n < 2 ^ Z.of_nat f -> dec_value (digits_loop 10 dec_digit f n []) = n.
Proof.
  revert n; induction f as [|f IH]; intros n Hn.
  - change (2 ^ Z.of_nat 0) with 1 in Hn. cbn. lia.
  - rewrite Nat2Z.inj_succ, Z.pow_succ_r in Hn by lia. cbn [digits_loop].
    destruct (Z.ltb_spec n 10).
    + unfold dec_value, dec_digit. cbn. lia.
    + rewrite digits_loop_acc, dec_value_snoc, IH by lia. unfold dec_digit. lia.
Qed.

Lemma log2_fuel n : 0 <= n -> n < 2 ^ Z.of_nat (S (Z.to_nat (Z.log2 n))).
Proof.
  intros Hn. rewrite Nat2Z.inj_succ, Z2Nat.id by apply Z.log2_nonneg.
  destruct (Z.eq_dec n 0) as [->|]; [done|]. apply Z.log2_spec. lia.
Qed.

Lemma dec_value_unsigned n : 0 <= n -> dec_value (dec_unsigned n) = n.
Proof. intros. apply dec_value_digits. split; [done|by apply log2_fuel]. Qed.

Lemma dec_unsigned_digits n : Forall (fun c => is_digit c = true) (dec_unsigned n).
Proof.
  apply digits_loop_Forall; [|lia]. intros d Hd. unfold is_digit, dec_digit. lia.
Qed.

Lemma dec_unsigned_nonempty n : dec_unsigned n <> [].
Proof. apply digits_loop_nonempty. Qed.

Lemma digit_not_space c : is_digit c = true -> is_space c = false.
Proof. unfold is_digit, is_space. intros. bprop. zcase; cbn; lia. Qed.

(** Reading back a printed number that is followed by a non-digit. *)
Lemma scan_to_string n rest :
  0 <= n -> (forall c b, rest = c :: b -> is_digit c = false) ->
  scan_integer (to_string n ++ rest) = (false, dec_unsigned n, rest).
Proof.
  intros Hn Hr. unfold to_string, scan_integer.
  destruct (Z.ltb_spec n 0); [lia|].
  pose proof (dec_unsigned_digits n) as Hd.
  destruct (dec_unsigned n) as [|d ds] eqn:E; [by apply dec_unsigned_nonempty in E|].
  apply Forall_cons in Hd as [Hd0 Hds].
  cbn [app span]. rewrite (digit_not_space _ Hd0). cbn [take_sign].
  assert ((d =? 45) = false) as -> by (unfold is_digit in Hd0; lia).
  assert ((d =? 43) = false) as -> by (unfold is_digit in Hd0; lia).
  change (d :: ds ++ rest) with ((d :: ds) ++ rest).
  by rewrite span_app by (try constructor; done).
Qed.

Lemma stoi_to_string n : 0 <= n <= int_max -> stoi (to_string n) = Ok (n, length (to_string n)).
Proof.
  intros Hn. unfold stoi.
  rewrite <- (app_nil_r (to_string n)) at 1. rewrite scan_to_string by (done || lia).
  destruct (dec_unsigned n) eqn:E; [by apply dec_unsigned_nonempty in E|].
  cbn [is_empty]. rewrite <- E, dec_value_unsigned by lia.
  replace (in_i32 n) with true.
  - by rewrite length_nil, Nat.sub_0_r.
  - symmetry. unfold in_i32, int_min, int_max in *. lia.
Qed.

(** [std::stoi] on a non-empty string of digits. *)
Lemma stoi_digits ds :
  ds <> [] -> Forall (fun c => is_digit c = true) ds ->
  stoi ds = if in_i32 (dec_value ds) then Ok (dec_value ds, length ds) else Throw $"stoi".
Proof.
  intros Hne Hd. unfold stoi, scan_integer. destruct ds as [|d ds]; [done|].
  pose proof Hd as [Hd0 _]%Forall_cons. cbn [span]. rewrite (digit_not_space _ Hd0). cbn [take_sign].
  replace (d =? 45) with false by (unfold is_digit in Hd0; lia).
  replace (d =? 43) with false by (unfold is_digit in Hd0; lia).
  rewrite span_all by done. cbn [is_empty]. by rewrite length_nil, Nat.sub_0_r.
Qed.

Lemma dec_unsigned_inj n m : 0 <= n -> 0 <= m -> dec_unsigned n = dec_unsigned m -> n = m.
Proof. intros Hn Hm H. by rewrite <- (dec_value_unsigned n), <- (dec_value_unsigned m), H. Qed.

Lemma stoi_bounds s v n : stoi s = Ok (v, n) -> int_min <= v <= int_max.
Proof.
  unfold stoi. destruct (scan_integer s) as [[neg ds] rest].
  destruct (is_empty ds); [done|]. destruct (in_i32 _) eqn:E; [|done].
  intros [= <- _]. unfold in_i32 in E. bprop. lia.
Qed.

(** ** Facts: searching in a concatenation *)

Lemma is_prefix_app_r p s t : is_prefix p s = true -> is_prefix p (s ++ t) = true.
Proof. intros [u ->]%is_prefix_true. by rewrite <- app_assoc, is_prefix_app. Qed.

Lemma is_prefix_app_long p s t :
  (length p <= length s)%nat -> is_prefix p (s ++ t) = is_prefix p s.
Proof.
  revert s; induction p as [|x p IH]; intros [|y s] Hl; cbn in *; try done; [lia|].
  rewrite IH by lia. done.
Qed.

(** An occurrence is still the first one after more text arrives. *)
Lemma find0_app p s t i : find0 p s = Some i -> find0 p (s ++ t) = Some i.
Proof.
  intros H. pose proof (find0_bound _ _ _ H) as Hb. apply find0_Some in H as (Hi & Hp & Hmin).
  apply find0_intro.
  - rewrite drop_app_le by lia. by apply is_prefix_app_r.
  - rewrite length_app. lia.
  - intros j Hj. specialize (Hmin j Hj). rewrite drop_app_le by lia.
    rewrite is_prefix_app_long; [done|]. rewrite length_drop. lia.
Qed.

(** An occurrence that lies within a prefix is found in the prefix. *)
Lemma find0_app_inv p s t i :
  find0 p (s ++ t) = Some i -> (i + length p <= length s)%nat -> find0 p s = Some i.
Proof.
  intros (Hi & Hp & Hmin)%find0_Some Hb. apply find0_intro; [|lia|].
  - rewrite drop_app_le in Hp by lia. rewrite is_prefix_app_long in Hp; [done|].
    rewrite length_drop. lia.
  - intros j Hj. specialize (Hmin j Hj). rewrite drop_app_le in Hmin by lia.
    destruct (is_prefix p (drop j s)) eqn:E; [|done].
    by rewrite (is_prefix_app_r _ _ t E) in Hmin.
Qed.

(** ** Facts: searching for one character *)

Lemma find0_char c a b : Forall (fun x => x <> c) a -> find0 [c] (a ++ c :: b) = Some (length a).
Proof.
  intros Ha. induction Ha as [|x a Hx _ IH]; cbn [app find0 is_prefix length].
  - by rewrite Z.eqb_refl.
  - replace (c =? x) with false by lia. cbn [andb]. by rewrite IH.
Qed.

Lemma find0_char_none c a : Forall (fun x => x <> c) a -> find0 [c] a = None.
Proof.
  intros Ha. induction Ha as [|x a Hx _ IH]; cbn [find0 is_prefix]; [done|].
  replace (c =? x) with false by lia. cbn [andb]. by rewrite IH.
Qed.

Lemma to_string_digits n : 0 <= n -> Forall (fun c => is_digit c = true) (to_string n).
Proof. intros Hn. unfold to_string. destruct (Z.ltb_spec n 0); [lia|]. apply dec_unsigned_digits. Qed.

Lemma to_string_no c n : 0 <= n -> is_digit c = false -> Forall (fun x => x <> c) (to_string n).
Proof.
  intros Hn Hc. eapply Forall_impl; [by apply to_string_digits|]. cbn. intros x Hx ->. congruence.
Qed.

(** ** Facts: extraction *)

Lemma skip_ws_word s c s' : s = c :: s' -> is_space c = false -> skip_ws s = s.
Proof. intros -> Hc. unfold skip_ws. cbn [span]. by rewrite Hc. Qed.

Lemma read_word_app w rest old :
  w <> [] -> Forall (fun c => negb (is_space c) = true) w ->
  (forall c b, rest = c :: b -> is_space c = true) ->
  read_word (Some (w ++ rest)) old = (w, Some rest).
Proof.
  intros Hne Hw Hr. destruct w as [|c w]; [done|]. pose proof Hw as [Hc _]%Forall_cons. apply negb_true_iff in Hc.
  unfold read_word. rewrite (skip_ws_word _ c (w ++ rest)) by done. cbn [app].
  change (c :: w ++ rest) with ((c :: w) ++ rest).
  rewrite span_app; [done|done|]. intros d b Hd. apply negb_false_iff. by eapply Hr.
Qed.

Lemma read_int_number n rest old :
  0 <= n <= int_max -> (forall c b, rest = c :: b -> is_digit c = false) ->
  read_int (Some (to_string n ++ rest)) old = (n, Some rest).
Proof.
  intros Hn Hr. unfold read_int.
  assert (to_string n = dec_unsigned n) as -> by (unfold to_string; by destruct (Z.ltb_spec n 0); [lia|]).
  pose proof (dec_unsigned_digits n) as Hd. pose proof (dec_value_unsigned n ltac:(lia)) as Hv.
  destruct (dec_unsigned n) as [|d ds] eqn:E; [by apply dec_unsigned_nonempty in E|].
  pose proof Hd as [Hd0 _]%Forall_cons.
  assert (skip_ws ((d :: ds) ++ rest) = (d :: ds) ++ rest) as ->.
  { eapply skip_ws_word; [done|]. by apply digit_not_space. }
  cbn [app take_sign]. replace (d =? 45) with false by (unfold is_digit in Hd0; lia).
  replace (d =? 43) with false by (unfold is_digit in Hd0; lia).
  change (d :: ds ++ rest) with ((d :: ds) ++ rest).
  rewrite span_app by done. cbn [is_empty]. rewrite Hv.
  replace (in_i32 n) with true; [done|]. unfold in_i32, int_min, int_max in *. lia.
Qed.

Lemma read_int_to_string n rest old :
  0 <= n <= int_max -> (forall c b, rest = c :: b -> is_digit c = false) ->
  read_int (Some (32 :: to_string n ++ rest)) old = (n, Some rest).
Proof.
  intros Hn Hr. rewrite <- (read_int_number n rest old) by done. unfold read_int.
  replace (skip_ws (32 :: to_string n ++ rest)) with (skip_ws (to_string n ++ rest)); [done|].
  unfold skip_ws. cbn [span]. replace (is_space 32) with true by done. by destruct (span _ _).
Qed.
