(* ===== verification/Parser.v ===== *)
(** * The RTSP message parser (src/rtsp/rtsp_message_parser.cpp)

    String helpers, header access, extraction of one RTSP message or one
    interleaved frame from a receive buffer, and the log representation of a
    message.  [extract_one_rtsp_message] is the only function with state (the
    buffer); its loop is iterated with explicit fuel and [None] is "still
    running". *)

From S2P Require Import Prelude CStr.

(** ** String helpers *)

Definition lower_copy (s : bytes) : bytes := to_lower <$> s.

Definition starts_with_ci (s prefix : bytes) : bool :=
  if zlen s <? zlen prefix then false
  else str_eqb (lower_copy (substr s 0 (length prefix))) (lower_copy prefix).

(** The loop of [replace_all], which changes the string in place and goes on after the
    replacement. *)
Fixpoint replace_loop (fuel : nat) (s from to : bytes) (pos : nat) : bytes :=
  match fuel with
  | O => s
  | S f => match str_find s from pos with
           | None => s
           | Some pos => replace_loop f (str_replace s pos (length from) to) from to (pos + length to)
           end
  end.

Definition replace_all (s from to : bytes) : bytes :=
  if is_empty from then s else replace_loop (S (length s)) s from to 0.

Definition trim_set : bytes := [32; 9; 13; 10].

Definition trim_copy (s : bytes) : bytes :=
  match find_first_not_of s trim_set with
  | None => []
  | Some first => match find_last_not_of s trim_set with
                  | None => []
                  | Some last => substr s first (last - first + 1)
                  end
  end.

(** The line loop of [header_value], [split_lines_keep_empty] and
    [sanitized_rtsp_for_log]; [keep_tail] says whether text after the last line
    break is a line. *)
Fixpoint lines_loop (keep_tail : bool) (fuel : nat) (s : bytes) : list bytes :=
  match fuel with
  | O => []
  | S f => if is_empty s then []
           else match find0 CRLF s with
                | None => if keep_tail then [s] else []
                | Some e => take e s :: lines_loop keep_tail f (drop (e + 2) s)
                end
  end.

Definition split_lines_keep_empty (header : bytes) : list bytes :=
  lines_loop true (S (length header)) header.

Definition terminated_lines (header : bytes) : list bytes :=
  lines_loop false (S (length header)) header.

(** ** Header access *)

Definition get_first_line (message : bytes) : bytes :=
  match find0 CRLF message with
  | None => message
  | Some first_eol => substr message 0 first_eol
  end.

Definition message_header_part (message : bytes) : bytes :=
  match find0 CRLFCRLF message with
  | None => message
  | Some header_end => substr message 0 (header_end + 4)
  end.

Fixpoint header_value_in (lines : list bytes) (prefix : bytes) (value_start : nat) : bytes :=
  match lines with
  | [] => []
  | line :: rest => if starts_with_ci line prefix then trim_copy (substr_from line value_start)
                    else header_value_in rest prefix value_start
  end.

Definition header_value (header name : bytes) : bytes :=
  header_value_in (terminated_lines header) (lower_copy name ++ $":") (length name + 1).

Fixpoint content_length_in (lines : list bytes) : Z :=
  match lines with
  | [] => 0
  | line :: rest =>
    if negb (starts_with_ci line $"Content-Length:") then content_length_in rest
    else let value := trim_copy (substr_from line (length $"Content-Length:")) in
         if is_empty value || negb (forallb is_digit value) then -1
         else match stoi value with
              | Ok (v, _) => v
              | Throw _ => -1
              end
  end.

Definition content_length_from_header (header : bytes) : Z :=
  content_length_in (split_lines_keep_empty header).

Definition rtsp_status_code (message : bytes) : Z :=
  let iss := Some (get_first_line message) in
  let '(version, iss) := read_word iss [] in
  let '(status, iss) := read_int iss 0 in
  status.

Definition rtsp_method_from_request (request : bytes) : bytes :=
  fst (read_word (Some (get_first_line request)) []).

Definition extract_request_target (message : bytes) : bytes :=
  let iss := Some (get_first_line message) in
  let '(method, iss) := read_word iss [] in
  let '(target, iss) := read_word iss [] in
  let '(version, iss) := read_word iss [] in
  target.

(** ** Message boundaries *)

Record ParserLimits := { max_header_bytes : Z; max_body_bytes : Z }.

Definition default_limits : ParserLimits :=
  {| max_header_bytes := 16 * 1024; max_body_bytes := 1024 * 1024 |}.

Definition starts_with_at (s : bytes) (pos : nat) (prefix : bytes) : bool :=
  (Z.of_nat pos <=? zlen s) && (zlen s - Z.of_nat pos >=? zlen prefix) && is_prefix prefix (drop pos s).

Definition message_prefixes : list bytes :=
  [$"RTSP/"; $"OPTIONS "; $"DESCRIBE "; $"SETUP "; $"PLAY "; $"PAUSE "; $"TEARDOWN ";
   $"GET_PARAMETER "; $"SET_PARAMETER "; $"ANNOUNCE "; $"RECORD "].

Definition is_rtsp_message_start_at (s : bytes) (pos : nat) : bool :=
  existsb (starts_with_at s pos) message_prefixes.

Fixpoint find_start_loop (n : nat) (buffer : bytes) (i : nat) : option nat :=
  match n with
  | O => None
  | S n' => if bool_decide (buffer !! i = Some 36) || is_rtsp_message_start_at buffer i
            then Some i else find_start_loop n' buffer (S i)
  end.

Definition find_next_message_start (buffer : bytes) (start : nat) : option nat :=
  find_start_loop (length buffer - start) buffer start.

(** Returns whether a message start was found, and the new buffer. *)
Definition resync_message_buffer (buffer : bytes) (limits : ParserLimits) : bool * bytes :=
  match find_next_message_start buffer 1 with
  | Some next => (true, drop next buffer)
  | None => (false, if zlen buffer >? max_header_bytes limits then [] else buffer)
  end.

(** One iteration of the loop of [extract_one_rtsp_message]: it returns, with its
    result, the message and the buffer it leaves, or goes on. *)
Inductive extract_step :=
| Return (ret : bool) (message buffer : bytes)
| Continue (buffer : bytes).

(** [(buffer[2] << 8) | buffer[3]] *)
Definition interleaved_len (buffer : bytes) : Z :=
  u16 (Z.lor (Z.shiftl (u8 (default 0 (buffer !! 2%nat))) 8) (u8 (default 0 (buffer !! 3%nat)))).

Definition extract_frame (buffer : bytes) : extract_step :=
  if zlen buffer <? 4 then Return false [] buffer
  else let total := 4 + interleaved_len buffer in
       if zlen buffer <? total then Return false [] buffer
       else Return true (take (Z.to_nat total) buffer) (drop (Z.to_nat total) buffer).

Definition extract_rtsp (buffer : bytes) (limits : ParserLimits) : extract_step :=
  match find0 CRLFCRLF buffer with
  | None => Return false [] (if zlen buffer >? max_header_bytes limits
                             then snd (resync_message_buffer buffer limits) else buffer)
  | Some header_end =>
    let header_bytes := Z.of_nat header_end + 4 in
    if header_bytes >? max_header_bytes limits then Continue (snd (resync_message_buffer buffer limits))
    else let body_len := content_length_from_header (substr buffer 0 (header_end + 4)) in
         if (body_len <? 0) || (body_len >? max_body_bytes limits)
         then Continue (snd (resync_message_buffer buffer limits))
         else let total := header_bytes + body_len in
              if zlen buffer <? total then Return false [] buffer
              else Return true (take (Z.to_nat total) buffer) (drop (Z.to_nat total) buffer)
  end.

Definition extract_iter (buffer : bytes) (limits : ParserLimits) : extract_step :=
  match buffer with
  | [] => Return false [] []
  | c :: _ =>
    if c =? 36 then extract_frame buffer
    else if negb (is_rtsp_message_start_at buffer 0) then
      let '(found, buffer') := resync_message_buffer buffer limits in
      if found then Continue buffer' else Return false [] buffer'
    else extract_rtsp buffer limits
  end.

(** The whole loop: result, message and buffer left, or [None] when [fuel]
    iterations did not finish it. *)
Fixpoint extract_loop (fuel : nat) (buffer : bytes) (limits : ParserLimits) : option (bool * bytes * bytes) :=
  match fuel with
  | O => None
  | S f => match extract_iter buffer limits with
           | Return ret message buffer' => Some (ret, message, buffer')
           | Continue buffer' => extract_loop f buffer' limits
           end
  end.

Definition extract_one_rtsp_message (buffer : bytes) (limits : ParserLimits) : option (bool * bytes * bytes) :=
  extract_loop (S (length buffer)) buffer limits.

(** ** Logging *)

Definition cseq_from_message (message : bytes) : bytes := header_value (message_header_part message) $"CSeq".

Definition method_or_status (message : bytes) : bytes :=
  let first := get_first_line message in
  if is_prefix $"RTSP/" first then
    let '(version, iss) := read_word (Some first) [] in
    let '(status, iss) := read_word iss [] in
    $"status=" ++ status
  else $"method=" ++ rtsp_method_from_request message.

Fixpoint redact_uri_loop (fuel : nat) (scheme text : bytes) (search_from : nat) : bytes :=
  match fuel with
  | O => text
  | S f =>
    match str_find (lower_copy text) scheme search_from with
    | None => text
    | Some p =>
      let start := (p + length scheme)%nat in
      let authority_end := find_first_of text [47; 32; 9; 13; 10] start in
      match str_find text $"@" start with
      | Some at_ =>
        if match authority_end with None => true | Some e => (at_ <? e)%nat end
        then redact_uri_loop f scheme (str_replace text start (at_ - start) $"<redacted>")
               (start + length $"<redacted>@")
        else redact_uri_loop f scheme text start
      | None => redact_uri_loop f scheme text start
      end
    end
  end.

Definition redact_uri_userinfo (text : bytes) : bytes :=
  fold_left (fun t scheme => redact_uri_loop (S (length t)) scheme t 0) [$"rtsp://"; $"rtsps://"] text.

Definition sanitize_line (line : bytes) : bytes :=
  if starts_with_ci line $"Authorization:" then $"Authorization: <redacted>" ++ [10]
  else if starts_with_ci line $"Proxy-Authorization:" then $"Proxy-Authorization: <redacted>" ++ [10]
  else redact_uri_userinfo line ++ [10].

Definition sanitized_rtsp_for_log (message : bytes) : bytes :=
  concat (sanitize_line <$> terminated_lines (message_header_part message)).

Definition rtsp_message_summary (direction message : bytes) : bytes :=
  if bool_decide (message !! 0%nat = Some 36) then
    if zlen message >=? 4 then
      direction ++ $" RTP interleaved channel=" ++ to_string (default 0 (message !! 1%nat)) ++
      $" payload_len=" ++ to_string (interleaved_len message)
    else direction ++ $" RTP interleaved short message size=" ++ to_string (zlen message)
  else
    let body_len := content_length_from_header (message_header_part message) in
    direction ++ $" RTSP " ++ method_or_status message ++ $" cseq=" ++ cseq_from_message message ++
    $" header_bytes=" ++ to_string (zlen (message_header_part message)) ++ $" body_bytes=" ++
    to_string body_len ++ [10] ++ sanitized_rtsp_for_log message.

(** ** Facts: replacing text *)

(** What replacing gives: the text between the occurrences is copied. *)
Fixpoint replaced (fuel : nat) (s from to : bytes) : bytes :=
  match fuel with
  | O => s
  | S f => match find0 from s with
           | None => s
           | Some i => take i s ++ to ++ replaced f (drop (i + length from) s) from to
           end
  end.

Lemma str_find_app a s p : str_find (a ++ s) p (length a) = (fun i => (length a + i)%nat) <$> find0 p s.
Proof.
  unfold str_find. rewrite length_app, drop_app_length.
  by replace (_ <? _)%nat with false by (symmetry; apply Nat.ltb_ge; lia).
Qed.

(** The text before [pos] is never looked at again. *)
Lemma replace_loop_scanned f a s from to :
  replace_loop f (a ++ s) from to (length a) = a ++ replaced f s from to.
Proof.
  revert a s; induction f as [|f IH]; intros a s; cbn [replace_loop replaced]; [done|].
  rewrite str_find_app. destruct (find0 from s) as [i|] eqn:E; cbn [fmap option_fmap option_map]; [|done].
  pose proof (find0_bound _ _ _ E) as Hb.
  unfold str_replace. rewrite take_app_add, <- Nat.add_assoc, drop_app_add.
  replace (length a + i + length to)%nat with (length (a ++ take i s ++ to)).
  2: { rewrite !length_app, length_take. lia. }
  replace ((a ++ take i s) ++ to ++ drop (i + length from) s)
    with ((a ++ take i s ++ to) ++ drop (i + length from) s) by by rewrite <- !app_assoc.
  rewrite IH. by rewrite <- !app_assoc.
Qed.

Lemma replace_loop_replaced f s from to : replace_loop f s from to 0 = replaced f s from to.
Proof. exact (replace_loop_scanned f [] s from to). Qed.

Lemma replaced_fuel f g s from to :
  from <> [] -> (length s < f)%nat -> (length s < g)%nat -> replaced f s from to = replaced g s from to.
Proof.
  intros Hne. revert g s; induction f as [|f IH]; intros [|g] s Hf Hg; try lia.
  cbn [replaced]. destruct (find0 from s) as [i|] eqn:E; [|done].
  apply find0_bound in E. assert (0 < length from)%nat by (destruct from; [done|cbn; lia]).
  do 2 f_equal. apply IH; rewrite length_drop; lia.
Qed.

(** [pieces] are what stands before each occurrence that the scan from the left finds, and
    [rest] is the text after the last one. *)
Definition cut_at (from s : bytes) (pieces : list bytes) (rest : bytes) : Prop :=
  s = concat ((fun p => p ++ from) <$> pieces) ++ rest /\
  Forall (fun p => find0 from (p ++ from) = Some (length p)) pieces /\ find0 from rest = None.

Lemma replaced_cut fuel s from to :
  from <> [] -> (length s < fuel)%nat ->
  exists pieces rest, cut_at from s pieces rest /\
    replaced fuel s from to = concat ((fun p => p ++ to) <$> pieces) ++ rest.
Proof.
  intros Hne. revert s; induction fuel as [|f IH]; intros s Hf; [lia|]. cbn [replaced].
  destruct (find0 from s) as [i|] eqn:E; [|by exists [], s; repeat constructor].
  destruct (find0_split _ _ _ E) as [Hs Hi]. pose proof (find0_bound _ _ _ E) as Hb.
  assert (0 < length from)%nat by (destruct from; [done|cbn; lia]).
  destruct (IH (drop (i + length from) s)) as (pieces & rest & (Hd & Hp & Hr) & ->); [rewrite length_drop; lia|].
  exists (take i s :: pieces), rest. split; [|by rewrite fmap_cons; cbn [concat]; rewrite <- !app_assoc].
  split; [by rewrite fmap_cons; cbn [concat]; rewrite <- !app_assoc, <- Hd|]. split; [|done]. constructor; [|done].
  rewrite Hi. apply (find0_app_inv _ _ (drop (i + length from) s)); [by rewrite <- app_assoc, <- Hs|].
  rewrite length_app. lia.
Qed.

(** ** Facts: lines *)

Lemma lines_loop_fuel kt f g s :
  (length s < f)%nat -> (length s < g)%nat -> lines_loop kt f s = lines_loop kt g s.
Proof.
  revert g s; induction f as [|f IH]; intros g s Hf Hg; [lia|].
  destruct g as [|g]; [lia|]. cbn [lines_loop].
  destruct (is_empty s) eqn:Es; [done|].
  destruct (find0 CRLF s) as [e|] eqn:E; [|done]. f_equal.
  apply find0_bound in E. cbn in E.
  apply IH; rewrite length_drop; lia.
Qed.

Lemma lines_loop_line kt l rest :
  no_crlf l ->
  lines_loop kt (S (length (l ++ CRLF ++ rest))) (l ++ CRLF ++ rest) =
  l :: lines_loop kt (S (length rest)) rest.
Proof.
  intros Hl. set (r := lines_loop kt (S (length rest)) rest). cbn [lines_loop].
  destruct (l ++ CRLF ++ rest) as [|c s] eqn:Es; [by destruct l|]. cbn [is_empty]. rewrite <- Es.
  rewrite find0_crlf by done.
  rewrite take_app_length.
  replace (drop (length l + 2) (l ++ CRLF ++ rest)) with rest.
  - f_equal. unfold r. apply lines_loop_fuel; [|lia]. rewrite !length_app. cbn. lia.
  - rewrite drop_app_add. done.
Qed.

Lemma terminated_lines_cons l rest :
  no_crlf l -> terminated_lines (l ++ CRLF ++ rest) = l :: terminated_lines rest.
Proof. apply lines_loop_line. Qed.

Lemma split_lines_cons l rest :
  no_crlf l -> split_lines_keep_empty (l ++ CRLF ++ rest) = l :: split_lines_keep_empty rest.
Proof. apply lines_loop_line. Qed.

Lemma lines_loop_no_crlf kt f s : Forall no_crlf (lines_loop kt f s).
Proof.
  revert s; induction f as [|f IH]; intros s; cbn [lines_loop]; [done|].
  destruct (is_empty s); [done|]. destruct (find0 CRLF s) as [e|] eqn:E.
  - constructor; [by apply find0_crlf_line|done].
  - destruct kt; by repeat constructor.
Qed.

(** ** Facts: resynchronisation *)

Lemma find_start_loop_Some n b i k :
  find_start_loop n b i = Some k ->
  (i <= k < i + n)%nat /\ (b !! k = Some 36 \/ is_rtsp_message_start_at b k = true).
Proof.
  revert i; induction n as [|n IH]; intros i; cbn [find_start_loop]; [done|].
  destruct (bool_decide (b !! i = Some 36)) eqn:E1; cbn [orb].
  { intros [= <-]. split; [lia|]. left. by apply bool_decide_eq_true in E1. }
  destruct (is_rtsp_message_start_at b i) eqn:E2.
  { intros [= <-]. split; [lia|]. by right. }
  intros [Hk Hs]%IH. split; [lia|done].
Qed.

Lemma resync_suffix b limits : snd (resync_message_buffer b limits) `suffix_of` b.
Proof.
  unfold resync_message_buffer. destruct (find_next_message_start b 1) as [k|]; cbn.
  - exists (take k b). by rewrite take_drop.
  - destruct (_ >? _); [apply suffix_nil|done].
Qed.

Lemma resync_progress b limits :
  b <> [] ->
  (length (snd (resync_message_buffer b limits)) < length b)%nat \/
  (resync_message_buffer b limits = (false, b) /\ find_next_message_start b 1 = None /\
   zlen b <= max_header_bytes limits).
Proof.
  intros Hb. unfold resync_message_buffer.
  destruct (find_next_message_start b 1) as [k|] eqn:E; cbn.
  - left. apply find_start_loop_Some in E as [? _]. rewrite length_drop. lia.
  - destruct (zlen b >? max_header_bytes limits) eqn:E2; bprop.
    + left. cbn. destruct b; [done|]. cbn. lia.
    + by right.
Qed.

(** ** Termination of the extraction loop *)

(** The buffers on which an iteration changes nothing and goes on: a complete
    header whose Content-Length is refused, with no later message start and no
    more bytes than a header may have. *)
Definition hangs_on (limits : ParserLimits) (b : bytes) : Prop :=
  b !! 0%nat <> Some 36 /\ is_rtsp_message_start_at b 0 = true /\
  (exists h, find0 CRLFCRLF b = Some h /\ Z.of_nat h + 4 <= max_header_bytes limits /\
     let len := content_length_from_header (take (h + 4) b) in
     len < 0 \/ max_body_bytes limits < len) /\
  find_next_message_start b 1 = None /\ zlen b <= max_header_bytes limits.

Definition goes_on (limits : ParserLimits) (b b' : bytes) : Prop := extract_iter b limits = Continue b'.

Lemma hangs_on_goes_on limits b : hangs_on limits b -> goes_on limits b b.
Proof.
  intros (H36 & Hs & (h & Hh & Hhb & Hlen) & Hn & Hz). unfold goes_on, extract_iter.
  destruct b as [|c b']; [done|].
  destruct (Z.eqb_spec c 36) as [->|_]; [done|]. rewrite Hs. cbn [negb].
  unfold extract_rtsp. rewrite Hh.
  replace (_ >? max_header_bytes limits) with false by lia.
  unfold substr. rewrite drop_0.
  cbn zeta in Hlen.
  replace (_ || _) with true by (symmetry; apply orb_true_iff; lia).
  unfold resync_message_buffer. rewrite Hn.
  replace (zlen (c :: b') >? max_header_bytes limits) with false by lia. done.
Qed.

Lemma goes_on_suffix limits b b' : goes_on limits b b' -> b' `suffix_of` b.
Proof.
  unfold goes_on, extract_iter. destruct b as [|c b0]; [done|].
  destruct (c =? 36).
  { unfold extract_frame. repeat case_match; done. }
  pose proof (resync_suffix (c :: b0) limits) as Hs.
  destruct (is_rtsp_message_start_at (c :: b0) 0); cbn [negb].
  - unfold extract_rtsp. repeat case_match; congruence.
  - destruct (resync_message_buffer (c :: b0) limits) as [[] r]; [|done]. by intros [= <-].
Qed.

Lemma goes_on_progress limits b b' :
  goes_on limits b b' -> (length b' < length b)%nat \/ (b' = b /\ hangs_on limits b).
Proof.
  unfold goes_on, extract_iter. destruct b as [|c b0]; [done|].
  destruct (Z.eqb_spec c 36) as [->|Hc].
  { unfold extract_frame. repeat case_match; done. }
  set (b := c :: b0). destruct (is_rtsp_message_start_at b 0) eqn:Hst; cbn [negb].
  - unfold extract_rtsp. destruct (find0 CRLFCRLF b) as [h|] eqn:Hh; [|done].
    pose proof (find0_bound _ _ _ Hh) as Hb. change (length CRLFCRLF) with 4%nat in Hb.
    destruct (resync_progress b limits ltac:(done)) as [Hlt|(Hr & Hn & Hz)].
    { repeat case_match; try done; intros [= <-]; by left. }
    rewrite Hr. cbn [snd].
    destruct (_ >? max_header_bytes limits) eqn:E1; bprop; [unfold zlen in Hz; lia|].
    unfold substr. rewrite drop_0.
    destruct (_ || _) eqn:E2; [|by case_match].
    intros [= <-]. right. split; [done|]. apply orb_true_iff in E2.
    repeat split; try done; [cbn; congruence|].
    exists h. repeat split; [done|lia|]. cbn zeta. destruct E2; bprop; lia.
  - destruct (resync_message_buffer b limits) as [found r] eqn:Hr.
    destruct found; [|done]. intros [= <-]. left.
    destruct (resync_progress b limits ltac:(done)) as [Hlt|(Hr' & _ & _)]; [by rewrite Hr in Hlt|congruence].
Qed.

Lemma extract_loop_mono f g b limits r :
  extract_loop f b limits = Some r -> (f <= g)%nat -> extract_loop g b limits = Some r.
Proof.
  revert g b; induction f as [|f IH]; intros g b H Hg; [done|].
  destruct g as [|g]; [lia|]. cbn [extract_loop] in *.
  destruct (extract_iter b limits); [done|]. apply IH; [done|lia].
Qed.

Lemma hang_diverges limits b b' f :
  rtc (goes_on limits) b b' -> hangs_on limits b' -> extract_loop f b limits = None.
Proof.
  intros Hr Hh. revert f; induction Hr as [x|x y z Hxy Hr IH]; intros f.
  - pose proof (hangs_on_goes_on _ _ Hh) as Hg. induction f as [|f IHf]; [done|].
    cbn [extract_loop]. unfold goes_on in Hg. by rewrite Hg.
  - destruct f as [|f]; [done|]. cbn [extract_loop]. unfold goes_on in Hxy. rewrite Hxy. by apply IH.
Qed.

Lemma extract_None_hang limits f b :
  (length b < f)%nat -> extract_loop f b limits = None ->
  exists b', rtc (goes_on limits) b b' /\ hangs_on limits b'.
Proof.
  revert b; induction f as [|f IH]; intros b Hf; cbn [extract_loop]; [lia|].
  destruct (extract_iter b limits) as [ret m r|r] eqn:E; [done|].
  destruct (goes_on_progress limits b r E) as [Hlt|[-> Hh]].
  - intros (b' & Hr & Hh)%IH; [|lia]. exists b'. split; [|done]. by eapply rtc_l.
  - intros _. by exists b.
Qed.

Lemma extract_fuel_enough limits f b r :
  extract_loop f b limits = Some r -> extract_one_rtsp_message b limits = Some r.
Proof.
  intros H. destruct (extract_one_rtsp_message b limits) as [r'|] eqn:E.
  - unfold extract_one_rtsp_message in E.
    pose proof (extract_loop_mono _ (Nat.max f (S (length b))) _ _ _ H ltac:(lia)).
    pose proof (extract_loop_mono _ (Nat.max f (S (length b))) _ _ _ E ltac:(lia)). congruence.
  - apply extract_None_hang in E as (b' & Hr & Hh); [|lia].
    by rewrite (hang_diverges _ _ _ f Hr Hh) in H.
Qed.

(** C11: extraction terminates exactly when resynchronisation does not reach a
    complete header with a refused Content-Length and no later message start; when
    it terminates, one iteration per buffered byte (plus one) is enough. *)
Theorem extract_terminates_iff limits b :
  (exists fuel r, extract_loop fuel b limits = Some r /\ extract_one_rtsp_message b limits = Some r) <->
  ~ exists b', rtc (goes_on limits) b b' /\ hangs_on limits b'.
Proof.
  split.
  - intros (fuel & r & H & _) (b' & Hr & Hh). by rewrite (hang_diverges _ _ _ fuel Hr Hh) in H.
  - intros Hn. destruct (extract_one_rtsp_message b limits) as [r|] eqn:E.
    + exists (S (length b)), r. done.
    + destruct Hn. by apply extract_None_hang in E; [|lia].
Qed.

(** A request a client can send to a server with the default limits. *)
Definition bad_length_request : bytes :=
  $"OPTIONS /ch1 RTSP/1.0" ++ CRLF ++ $"CSeq: 1" ++ CRLF ++ $"Content-Length: x" ++ CRLF ++ CRLF.

(** With the default limits, the extraction loop never finishes on an
    OPTIONS request whose Content-Length is not a number: no amount of iterations
    produces a result. *)
Lemma malformed_content_length_hangs fuel :
  extract_loop fuel bad_length_request default_limits = None.
Proof.
  destruct (extract_None_hang default_limits (S (length bad_length_request)) bad_length_request)
    as (b' & Hr & Hh); [lia|by vm_compute|].
  by eapply hang_diverges.
Qed.

(** ** What extraction returns *)

Lemma take_nonempty {A} t (b : list A) : 0 < t -> b <> [] -> take (Z.to_nat t) b <> [].
Proof. intros Ht Hb. destruct b; [done|]. by destruct (Z.to_nat t) eqn:?; [lia|]. Qed.

Lemma interleaved_len_range b : 0 <= interleaved_len b < 65536.
Proof. apply u16_range. Qed.

(** A returned message is the front of the buffer of that iteration. *)
Lemma extract_iter_Return limits b ret m b' :
  extract_iter b limits = Return ret m b' ->
  if ret then b = m ++ b' /\ m <> [] /\
              (zlen m <= 65539 \/ zlen m <= max_header_bytes limits + max_body_bytes limits)
  else m = [] /\ b' `suffix_of` b.
Proof.
  pose proof (resync_suffix b limits) as Hs.
  unfold extract_iter. destruct b as [|c b0]; [by intros [= <- <- <-]|]. set (b := c :: b0) in *.
  assert (b <> []) as Hb by done. clearbody b.
  destruct (c =? 36); [|destruct (is_rtsp_message_start_at b 0)]; cbn [negb].
  - unfold extract_frame. pose proof (interleaved_len_range b) as Hl.
    destruct (_ <? 4); [by intros [= <- <- <-]|].
    destruct (zlen b <? 4 + _) eqn:E; intros [= <- <- <-]; [done|]. bprop. rewrite take_drop.
    split_and!; [done|apply take_nonempty; [lia|done]|]. left. unfold zlen in *. rewrite length_take. lia.
  - unfold extract_rtsp. destruct (find0 CRLFCRLF b) as [h|]; [|intros [= <- <- <-]; by case_match].
    destruct (_ >? _) eqn:E1; [done|]. destruct (_ || _) eqn:E2; [done|]. bprop.
    destruct (zlen b <? _) eqn:E3; intros [= <- <- <-]; [done|]. bprop. rewrite take_drop.
    split_and!; [done|apply take_nonempty; [lia|done]|]. right.
    unfold zlen in *. rewrite length_take. lia.
  - destruct (resync_message_buffer b limits) as [[] r]; [done|]. by intros [= <- <- <-].
Qed.

Lemma extract_loop_result limits f b ret m b' :
  extract_loop f b limits = Some (ret, m, b') ->
  if ret then (exists skipped, b = skipped ++ m ++ b') /\ m <> [] /\
              (zlen m <= 65539 \/ zlen m <= max_header_bytes limits + max_body_bytes limits)
  else m = [] /\ b' `suffix_of` b.
Proof.
  revert b; induction f as [|f IH]; intros b; cbn [extract_loop]; [done|].
  destruct (extract_iter b limits) as [r0 m0 b0|b0] eqn:E.
  - intros [= -> -> ->]. apply extract_iter_Return in E. destruct ret; [|done].
    destruct E as (-> & ? & ?). split_and!; [by exists []|done|done].
  - intros H%IH. destruct (goes_on_suffix _ _ _ E) as [g Hg]. destruct ret.
    + destruct H as ([k ->] & ? & ?). split_and!; [|done|done]. exists (g ++ k). by rewrite <- app_assoc.
    + destruct H as [? [k Hk]]. split; [done|]. exists (g ++ k). by rewrite Hg, Hk, app_assoc.
Qed.

(** Extraction never invents, reorders or duplicates bytes.  A returned
    message is a contiguous non-empty piece of the buffer, what is left is exactly
    what follows it, and its size is bounded by the interleaved frame size or by
    the configured limits; without a message the buffer only loses a prefix. *)
Lemma extract_conserves_bytes limits f b ret m b' :
  extract_loop f b limits = Some (ret, m, b') ->
  if ret then (exists skipped, b = skipped ++ m ++ b') /\ m <> [] /\
              (zlen m <= 65539 \/ zlen m <= max_header_bytes limits + max_body_bytes limits)
  else m = [] /\ b' `suffix_of` b.
Proof. apply extract_loop_result. Qed.

Lemma extract_conserves_bytes_witness :
  let m := $"PLAY /ch1 RTSP/1.0" ++ CRLFCRLF in
  exists skipped, $"zz" ++ m ++ $"$" = skipped ++ m ++ $"$".
Proof.
  exact (proj1 (extract_conserves_bytes default_limits 5 ($"zz" ++ ($"PLAY /ch1 RTSP/1.0" ++ CRLFCRLF) ++ $"$")
           true ($"PLAY /ch1 RTSP/1.0" ++ CRLFCRLF) $"$" eq_refl)).
Defined.

(** ** Well-formed messages are extracted, however they are segmented *)

(** An RTSP message: a start prefix, a header ended by the first empty line and
    within the limit, and a body as long as Content-Length says. *)
Definition rtsp_message_ok (limits : ParserLimits) (m : bytes) : Prop :=
  is_rtsp_message_start_at m 0 = true /\
  exists head body, m = head ++ CRLFCRLF ++ body /\ find0 CRLFCRLF m = Some (length head) /\
    zlen head + 4 <= max_header_bytes limits /\
    content_length_from_header (head ++ CRLFCRLF) = zlen body /\ zlen body <= max_body_bytes limits.

(** An interleaved frame: [$], channel, 16-bit length, payload. *)
Definition frame_ok (m : bytes) : Prop :=
  exists ch hi lo payload, m = 36 :: ch :: hi :: lo :: payload /\ interleaved_len m = zlen payload.

Definition message_ok (limits : ParserLimits) (m : bytes) : Prop := rtsp_message_ok limits m \/ frame_ok m.

Lemma message_start_iff s :
  is_rtsp_message_start_at s 0 = true <-> exists p, p ∈ message_prefixes /\ is_prefix p s = true.
Proof.
  unfold is_rtsp_message_start_at. rewrite existsb_exists. unfold starts_with_at.
  setoid_rewrite andb_true_iff. setoid_rewrite andb_true_iff. rewrite drop_0.
  setoid_rewrite list_elem_of_In. split.
  - intros (p & Hin & _ & Hp). by exists p.
  - intros (p & Hin & Hp). exists p. split_and!; try done; [apply Z.leb_le; unfold zlen; lia|].
    apply is_prefix_length in Hp. rewrite Z.geb_leb. apply Z.leb_le. unfold zlen. lia.
Qed.

Lemma message_prefixes_not_dollar p : p ∈ message_prefixes -> p !! 0%nat <> Some 36 /\ p <> [].
Proof.
  revert p. apply Forall_forall.
  repeat (constructor; [split; vm_compute; congruence|]). constructor.
Qed.

(** A strict prefix of a start prefix is neither a message nor contains one. *)
Lemma partial_start_waits p n :
  p ∈ message_prefixes -> (n < length p)%nat ->
  find0 CRLFCRLF (take n p) = None /\ find_next_message_start (take n p) 1 = None.
Proof.
  intros Hp Hn.
  assert (forallb (fun q => forallb (fun k => negb (bool_decide (is_Some (find0 CRLFCRLF (take k q)))) &&
            negb (bool_decide (is_Some (find_next_message_start (take k q) 1)))) (seq 0 (length q)))
            message_prefixes = true) as H by (vm_compute; reflexivity).
  rewrite forallb_forall in H. specialize (H p). rewrite <- list_elem_of_In in H. specialize (H Hp).
  rewrite forallb_forall in H. specialize (H n). rewrite in_seq in H. specialize (H ltac:(lia)). bprop.
  split; by apply eq_None_not_Some.
Qed.

Lemma extract_iter_start limits c b :
  is_rtsp_message_start_at (c :: b) 0 = true -> extract_iter (c :: b) limits = extract_rtsp (c :: b) limits.
Proof.
  intros Hs. unfold extract_iter. rewrite Hs. cbn [negb].
  destruct (Z.eqb_spec c 36) as [->|]; [|done].
  apply message_start_iff in Hs as (p & Hp & [t Ht]%is_prefix_true).
  apply message_prefixes_not_dollar in Hp as [H36 Hne].
  destruct p; [done|]. injection Ht as <- _. done.
Qed.

Lemma message_start_app s t :
  is_rtsp_message_start_at s 0 = true -> is_rtsp_message_start_at (s ++ t) 0 = true.
Proof.
  intros (p & Hin & Hp)%message_start_iff. apply message_start_iff. exists p.
  split; [done|by apply is_prefix_app_r].
Qed.

Lemma interleaved_len_app a b c d s t :
  interleaved_len ((a :: b :: c :: d :: s) ++ t) = interleaved_len (a :: b :: c :: d :: s).
Proof. done. Qed.

(** More input than the message: the message comes out and the rest stays. *)
Lemma extract_iter_message limits m rest :
  message_ok limits m -> extract_iter (m ++ rest) limits = Return true m rest.
Proof.
  intros [[Hst (head & body & -> & Hf & Hh & Hc & Hb)]|(ch & hi & lo & pl & -> & Hl)].
  - set (m := head ++ CRLFCRLF ++ body) in *.
    assert (exists c b, m ++ rest = c :: b) as (c & b & E).
    { unfold m. destruct head; cbn; eauto. }
    rewrite E, extract_iter_start by (rewrite <- E; by apply message_start_app). rewrite <- E.
    unfold extract_rtsp. rewrite (find0_app _ _ rest _ Hf).
    unfold zlen in Hh. replace (_ >? max_header_bytes limits) with false by lia.
    assert (substr (m ++ rest) 0 (length head + 4) = head ++ CRLFCRLF) as ->.
    { unfold substr, m. rewrite drop_0, <- !app_assoc, app_assoc, take_app_length'; [done|].
      by rewrite length_app. }
    rewrite Hc. pose proof (zlen_nonneg body).
    replace (_ || _) with false by lia.
    assert (Z.to_nat (Z.of_nat (length head) + 4 + zlen body) = length m) as ->.
    { unfold m, zlen. rewrite !length_app. cbn. lia. }
    replace (_ <? _) with false.
    { by rewrite take_app_length, drop_app_length. }
    symmetry. apply Z.ltb_ge. unfold m, zlen. rewrite !length_app. change (length CRLFCRLF) with 4%nat. lia.
  - set (m := 36 :: ch :: hi :: lo :: pl) in *.
    change (extract_iter (m ++ rest) limits) with (extract_frame (m ++ rest)). unfold extract_frame.
    change (interleaved_len (m ++ rest)) with (interleaved_len m). rewrite Hl.
    assert (Z.to_nat (4 + zlen pl) = length m) as -> by (unfold m, zlen; cbn; lia).
    rewrite take_app_length, drop_app_length, zlen_app.
    assert (zlen m = 4 + zlen pl) as -> by (unfold m; rewrite !zlen_cons; lia).
    pose proof (zlen_nonneg pl). pose proof (zlen_nonneg rest).
    replace (_ <? 4) with false by lia. by replace (_ <? _) with false by lia.
Qed.

(** A part of an RTSP message that is longer than a header holds the whole header. *)
Lemma partial_header limits (p q head : bytes) :
  find0 CRLFCRLF (p ++ q) = Some (length head) -> zlen head + 4 <= max_header_bytes limits ->
  find0 CRLFCRLF p = Some (length head) \/ (zlen p >? max_header_bytes limits) = false.
Proof.
  intros Hf Hh. unfold zlen in *. destruct (decide (length head + 4 <= length p)%nat).
  - left. by eapply find0_app_inv.
  - right. lia.
Qed.

(** Less input than the message: nothing comes out and the buffer is kept. *)
Lemma extract_rtsp_partial limits (p q head body : bytes) :
  p ++ q = head ++ CRLFCRLF ++ body -> find0 CRLFCRLF (p ++ q) = Some (length head) ->
  zlen head + 4 <= max_header_bytes limits ->
  content_length_from_header (head ++ CRLFCRLF) = zlen body -> zlen body <= max_body_bytes limits ->
  q <> [] -> extract_rtsp p limits = Return false [] p.
Proof.
  intros Hm Hf Hh Hc Hb Hq. unfold extract_rtsp.
  destruct (find0 CRLFCRLF p) as [i|] eqn:E.
  - pose proof (find0_bound _ _ _ E) as Hi. change (length CRLFCRLF) with 4%nat in Hi.
    pose proof (find0_app _ _ q _ E) as E'. rewrite Hf in E'. injection E' as <-.
    replace (_ >? max_header_bytes limits) with false by (unfold zlen in Hh; lia).
    assert (substr p 0 (length head + 4) = head ++ CRLFCRLF) as ->.
    { unfold substr. rewrite drop_0. rewrite <- (take_app_le p q) by lia.
      rewrite Hm, app_assoc, take_app_length'; [done|]. by rewrite length_app. }
    rewrite Hc. pose proof (zlen_nonneg body). replace (_ || _) with false by lia.
    replace (_ <? _) with true; [done|]. symmetry. apply Z.ltb_lt.
    apply (f_equal length) in Hm. rewrite !length_app in Hm. cbn [length CRLFCRLF] in Hm.
    destruct q; [done|]. cbn [length] in Hm. unfold zlen. lia.
  - destruct (partial_header limits p q head) as [|Hz]; [done|done|congruence|]. by rewrite Hz.
Qed.

Lemma extract_iter_partial limits p q :
  message_ok limits (p ++ q) -> q <> [] -> extract_iter p limits = Return false [] p.
Proof.
  intros [[Hst (head & body & Hm & Hf & Hh & Hc & Hb)]|(ch & hi & lo & pl & Hm & Hl)] Hq;
    (destruct p as [|c p']; [done|]).
  - set (p := c :: p') in *.
    destruct (is_rtsp_message_start_at p 0) eqn:Hp.
    { unfold p at 1. rewrite extract_iter_start by done. by eapply extract_rtsp_partial. }
    apply message_start_iff in Hst as (s & Hs & [t Ht]%is_prefix_true).
    assert (length p < length s)%nat as Hlt.
    { destruct (decide (length s <= length p)%nat); [|lia]. exfalso.
      assert (is_rtsp_message_start_at p 0 = true); [|congruence].
      apply message_start_iff. exists s. split; [done|].
      rewrite <- (is_prefix_app_long s p q), Ht by done. apply is_prefix_app. }
    assert (p = take (length p) s) as Hps.
    { apply (f_equal (take (length p))) in Ht.
      rewrite take_app_length, take_app_le in Ht by lia. done. }
    pose proof (partial_start_waits s (length p) Hs Hlt) as [Hf0 Hn]. rewrite <- Hps in Hn, Hf0.
    apply message_prefixes_not_dollar in Hs as [H36 Hne].
    destruct (Z.eqb_spec c 36) as [->|Hc36].
    { destruct s; [done|]. injection Ht as <- _. done. }
    unfold extract_iter, p at 1. replace (c =? 36) with false by lia. fold p. rewrite Hp. cbn [negb].
    unfold resync_message_buffer. rewrite Hn.
    destruct (partial_header limits p q head) as [|Hz]; [done|done|congruence|]. by rewrite Hz.
  - injection Hm as -> Hm. change (extract_iter (36 :: p') limits) with (extract_frame (36 :: p')).
    unfold extract_frame. destruct (zlen (36 :: p') <? 4) eqn:E4; [done|]. bprop.
    destruct p' as [|x [|y [|z p']]]; try (rewrite !zlen_cons, ?zlen_nil in E4; lia).
    injection Hm as -> -> -> Hm.
    change (interleaved_len (36 :: ch :: hi :: lo :: p'))
      with (interleaved_len ((36 :: ch :: hi :: lo :: p') ++ q)).
    rewrite Hl. replace (_ <? 4 + zlen pl) with true; [done|].
    rewrite <- Hm, zlen_app, !zlen_cons. destruct q; [done|]. rewrite zlen_cons.
    pose proof (zlen_nonneg q). lia.
Qed.

(** The receive loop of a session: append what was read, then take out messages
    while there are any ([while (extract_one_rtsp_message(...))]). *)
Fixpoint drain (fuel : nat) (buffer : bytes) (limits : ParserLimits) : option (list bytes * bytes) :=
  match fuel with
  | O => None
  | S f => match extract_one_rtsp_message buffer limits with
           | None => None
           | Some (false, _, buffer') => Some ([], buffer')
           | Some (true, m, buffer') =>
             match drain f buffer' limits with
             | Some (ms, b) => Some (m :: ms, b)
             | None => None
             end
           end
  end.

Definition receive (buffer chunk : bytes) (limits : ParserLimits) : option (list bytes * bytes) :=
  drain (S (length (buffer ++ chunk))) (buffer ++ chunk) limits.

Fixpoint receive_all (buffer : bytes) (chunks : list bytes) (limits : ParserLimits) : option (list bytes * bytes) :=
  match chunks with
  | [] => Some ([], buffer)
  | c :: cs => match receive buffer c limits with
               | None => None
               | Some (ms, b) => match receive_all b cs limits with
                                 | None => None
                                 | Some (ms', b') => Some (ms ++ ms', b')
                                 end
               end
  end.

Lemma message_ok_nonempty limits m : message_ok limits m -> m <> [].
Proof.
  intros [[_ (head & body & -> & _)]|(? & ? & ? & ? & -> & _)]; [|done]. by destruct head.
Qed.

Lemma extract_message limits m rest :
  message_ok limits m -> extract_one_rtsp_message (m ++ rest) limits = Some (true, m, rest).
Proof. intros H. unfold extract_one_rtsp_message. cbn [extract_loop]. by rewrite extract_iter_message. Qed.

(** A strict, possibly empty, part of the next message. *)
Definition partial_of (limits : ParserLimits) (p : bytes) (ms : list bytes) : Prop :=
  p = [] \/ exists m q ms', ms = m :: ms' /\ m = p ++ q /\ q <> [].

Lemma drain_messages limits f ms rest p :
  Forall (message_ok limits) (ms ++ rest) -> partial_of limits p rest ->
  (length ms < f)%nat -> drain f (concat ms ++ p) limits = Some (ms, p).
Proof.
  revert ms; induction f as [|f IH]; intros ms Hok Hp Hf; [lia|]. cbn [drain].
  destruct ms as [|m ms]; cbn [concat app].
  - assert (extract_iter p limits = Return false [] p) as E.
    { destruct Hp as [->|(m & q & ms' & -> & -> & Hq)]; [done|].
      apply Forall_cons in Hok as [Hok _]. by eapply extract_iter_partial. }
    unfold extract_one_rtsp_message. cbn [extract_loop]. by rewrite E.
  - apply Forall_cons in Hok as [Hm Hok]. rewrite <- app_assoc, extract_message by done.
    rewrite IH; [done|done|done|cbn in Hf; lia].
Qed.

(** Cutting the byte stream of a list of messages. *)
Lemma cut_messages limits ms b b' :
  Forall (message_ok limits) ms -> b ++ b' = concat ms ->
  exists done rest p, ms = done ++ rest /\ b = concat done ++ p /\ partial_of limits p rest.
Proof.
  revert b; induction ms as [|m ms IH]; intros b Hok E; cbn [concat] in E.
  - apply app_nil in E as [-> _]. exists [], [], []. repeat split; by left.
  - apply Forall_cons in Hok as [Hm Hok].
    destruct (decide (length m <= length b)%nat) as [Hl|Hl].
    + assert (b = m ++ drop (length m) b) as Hb.
      { rewrite <- (take_drop (length m) b) at 1. f_equal.
        apply (f_equal (take (length m))) in E. by rewrite take_app_le, take_app_length in E by lia. }
      rewrite Hb, <- app_assoc in E. apply app_inv_head in E.
      destruct (IH _ Hok E) as (d & r & p & -> & Hd & Hp).
      exists (m :: d), r, p. split_and!; [done| |done]. rewrite Hb, Hd. cbn. by rewrite app_assoc.
    + exists [], (m :: ms), b. split_and!; [done|done|]. right.
      exists m, (drop (length b) m), ms. split_and!; [done| |].
      * rewrite <- (take_drop (length b) m) at 1. f_equal.
        apply (f_equal (take (length b))) in E. by rewrite take_app_length, take_app_le in E by lia.
      * intros H%(f_equal length). rewrite length_drop in H. cbn in H. lia.
Qed.

Lemma length_concat_messages limits ms :
  Forall (message_ok limits) ms -> (length ms <= length (concat ms))%nat.
Proof.
  induction 1 as [|m ms Hm _ IH]; cbn [concat length]; [lia|]. rewrite length_app.
  apply message_ok_nonempty in Hm. destruct m; [done|]. cbn. lia.
Qed.

Lemma receive_all_messages limits chunks b ms :
  Forall (message_ok limits) ms -> partial_of limits b ms -> b ++ concat chunks = concat ms ->
  receive_all b chunks limits = Some (ms, []).
Proof.
  revert b ms; induction chunks as [|c cs IH]; intros b ms Hok Hp E; cbn [receive_all concat] in *.
  - rewrite app_nil_r in E. destruct Hp as [->|(m & q & ms' & -> & -> & Hq)].
    + destruct ms as [|m ms]; [done|]. apply Forall_cons in Hok as [Hm _].
      symmetry in E. apply app_nil in E as [-> _]. by apply message_ok_nonempty in Hm.
    + cbn in E. rewrite <- app_assoc, <- (app_nil_r b) in E at 1. apply app_inv_head in E.
      symmetry in E. by apply app_nil in E as [-> _].
  - rewrite app_assoc in E.
    destruct (cut_messages limits ms (b ++ c) (concat cs) Hok E) as (d & r & p & -> & Hd & Hpr).
    unfold receive. rewrite Hd.
    pose proof Hok as [Hokd Hokr]%Forall_app.
    pose proof (length_concat_messages limits d Hokd).
    rewrite (drain_messages limits _ d r p); [|done|done|rewrite length_app; lia].
    rewrite (IH p r); [done|done|done|].
    rewrite Hd, concat_app, <- app_assoc in E. by apply app_inv_head in E.
Qed.

(** C1: the messages a session sees do not depend on how the transport segments
    the stream.  For any list of well-formed RTSP messages and interleaved frames
    and any cut of their bytes into reads, the receive loop finishes and delivers
    exactly these messages, in order, and keeps no byte. *)
Theorem receive_segmentation_independent limits chunks ms :
  Forall (message_ok limits) ms -> concat chunks = concat ms ->
  receive_all [] chunks limits = Some (ms, []).
Proof. intros Hok E. apply receive_all_messages; [done|by left|done]. Qed.

Definition play_request : bytes := $"PLAY /ch1 RTSP/1.0" ++ CRLF ++ $"CSeq: 4" ++ CRLFCRLF.

Lemma play_request_ok : message_ok default_limits play_request.
Proof.
  left. split; [done|]. exists ($"PLAY /ch1 RTSP/1.0" ++ CRLF ++ $"CSeq: 4"), [].
  split_and!; vm_compute; congruence.
Qed.

Lemma receive_segmentation_independent_witness :
  receive_all [] [take 3 play_request; drop 3 play_request ++ [36; 0]; [0; 1]; [7]] default_limits =
  Some ([play_request; [36; 0; 0; 1; 7]], []).
Proof.
  apply receive_segmentation_independent; [|reflexivity].
  constructor; [apply play_request_ok|constructor; [|constructor]].
  right. exists 0, 0, 1, [7]. split; reflexivity.
Defined.

(** ** Facts: trimming *)

Definition is_trim (c : Z) : bool := mem c trim_set.

Lemma trim_copy_nil s : Forall (fun c => is_trim c = true) s -> trim_copy s = [].
Proof.
  intros H. unfold trim_copy, find_first_not_of.
  replace (find_if _ s) with (@None nat); [done|]. symmetry. apply find_if_None.
  eapply Forall_impl; [exact H|]. intros c Hc. unfold is_trim in Hc. by rewrite Hc.
Qed.

Lemma find_last_if_app f a c b :
  f c = true -> Forall (fun x => f x = false) b -> find_last_if f (a ++ c :: b) = Some (length a).
Proof.
  intros Hc Hb. induction a as [|x a IH]; cbn [app find_last_if length].
  - replace (find_last_if f b) with (@None nat); [by rewrite Hc|].
    symmetry. clear -Hb. induction Hb as [|y b Hy _ IH]; cbn; [done|]. by rewrite IH, Hy.
  - by rewrite IH.
Qed.

(** White space around a text that has none at its ends is what trimming removes. *)
Lemma trim_copy_intro a t b :
  Forall (fun c => is_trim c = true) a -> Forall (fun c => is_trim c = true) b ->
  (exists c t', t = c :: t' /\ is_trim c = false) -> (exists t' c, t = t' ++ [c] /\ is_trim c = false) ->
  trim_copy (a ++ t ++ b) = t.
Proof.
  intros Ha Hb (c & t1 & Ht1 & Hc) (t2 & d & Ht2 & Hd). unfold trim_copy, find_first_not_of, find_last_not_of.
  assert (find_if (fun c => negb (mem c trim_set)) (a ++ t ++ b) = Some (length a)) as ->.
  { rewrite Ht1. cbn [app]. apply find_if_app.
    - eapply Forall_impl; [exact Ha|]. intros x Hx. unfold is_trim in Hx. by rewrite Hx.
    - unfold is_trim in Hc. by rewrite Hc. }
  assert (find_last_if (fun c => negb (mem c trim_set)) (a ++ t ++ b) = Some (length (a ++ t2))) as ->.
  { rewrite Ht2, <- app_assoc, app_assoc. cbn [app]. apply find_last_if_app.
    - unfold is_trim in Hd. by rewrite Hd.
    - eapply Forall_impl; [exact Hb|]. intros x Hx. unfold is_trim in Hx. by rewrite Hx. }
  rewrite length_app. replace (length a + length t2 - length a + 1)%nat with (length t).
  - unfold substr. by rewrite drop_app_length, take_app_length.
  - rewrite Ht2, length_app. cbn. lia.
Qed.

Lemma forall_negb_trim s :
  Forall (fun x => negb (mem x trim_set) = false) s -> Forall (fun c => is_trim c = true) s.
Proof. intros H. eapply Forall_impl; [exact H|]. intros x Hx. by apply negb_false_iff in Hx. Qed.

(** What trimming does: it removes a margin of white space on each side. *)
Lemma trim_copy_spec s :
  Forall (fun c => is_trim c = true) s /\ trim_copy s = [] \/
  exists a b, s = a ++ trim_copy s ++ b /\
    Forall (fun c => is_trim c = true) a /\ Forall (fun c => is_trim c = true) b /\
    (exists c t', trim_copy s = c :: t' /\ is_trim c = false) /\
    (exists t' c, trim_copy s = t' ++ [c] /\ is_trim c = false).
Proof.
  destruct (find_if (fun c => negb (mem c trim_set)) s) as [i|] eqn:E1.
  - right. apply find_if_Some in E1 as (a & c & r & -> & _ & Hc & Ha). apply negb_true_iff in Hc.
    destruct (find_last_if (fun c => negb (mem c trim_set)) (c :: r)) as [j|] eqn:E2.
    + apply find_last_if_Some in E2 as (t2 & d & b & E & _ & Hd & Hb). apply negb_true_iff in Hd.
      assert (exists c' t', t2 ++ [d] = c' :: t' /\ is_trim c' = false) as Hfirst.
      { destruct t2 as [|x t2]; injection E as -> _; [by exists d, []|by exists x, (t2 ++ [d])]. }
      assert (trim_copy (a ++ c :: r) = t2 ++ [d]) as Ht.
      { rewrite E. change (d :: b) with ([d] ++ b). rewrite (app_assoc t2).
        apply trim_copy_intro; [by apply forall_negb_trim|by apply forall_negb_trim|done|by exists t2, d]. }
      exists a, b. rewrite Ht. split_and!; [|by apply forall_negb_trim|by apply forall_negb_trim|done|by exists t2, d].
      rewrite E, <- app_assoc. done.
    + exfalso. clear -E2 Hc. cbn [find_last_if] in E2. rewrite Hc in E2. by destruct (find_last_if _ r).
  - left. apply find_if_None in E1. split; [by apply forall_negb_trim|].
    apply trim_copy_nil. by apply forall_negb_trim.
Qed.

Lemma trim_copy_idem s : trim_copy (trim_copy s) = trim_copy s.
Proof.
  destruct (trim_copy_spec s) as [[_ ->]|(a & b & Hs & _ & _ & Hf & Hl)]; [done|].
  rewrite <- (app_nil_r (trim_copy s)) at 1. by apply (trim_copy_intro []).
Qed.

(** Leading white space does not matter. *)
Lemma trim_copy_cons c s : is_trim c = true -> trim_copy (c :: s) = trim_copy s.
Proof.
  intros Hc. destruct (trim_copy_spec s) as [[Hs ->]|(a & b & Hs & Ha & Hb & Hf & Hl)].
  - apply trim_copy_nil. by constructor.
  - rewrite Hs at 1. apply (trim_copy_intro (c :: a)); try done. by constructor.
Qed.

Lemma no_crlf_trim s : no_crlf s -> no_crlf (trim_copy s).
Proof.
  intros H. unfold trim_copy. destruct (find_first_not_of s trim_set); [|done].
  destruct (find_last_not_of s trim_set); [|done]. apply no_crlf_take. by apply no_crlf_drop.
Qed.

(** A header value cannot contain a line break: it comes from one line. *)
Lemma header_value_no_crlf header name : no_crlf (header_value header name).
Proof.
  unfold header_value. pose proof (lines_loop_no_crlf false (S (length header)) header) as H.
  fold (terminated_lines header) in H. induction H as [|l ls Hl _ IH]; cbn [header_value_in]; [done|].
  destruct (starts_with_ci l _); [|done]. apply no_crlf_trim. by apply no_crlf_drop.
Qed.

Lemma header_value_trimmed header name : trim_copy (header_value header name) = header_value header name.
Proof.
  unfold header_value. induction (terminated_lines header) as [|l ls IH]; cbn [header_value_in]; [done|].
  destruct (starts_with_ci l _); [apply trim_copy_idem|done].
Qed.

Lemma lines_loop_lengths kt f s : Forall (fun l => (length l <= length s)%nat) (lines_loop kt f s).
Proof.
  revert s; induction f as [|f IH]; intros s; cbn [lines_loop]; [done|].
  destruct (is_empty s); [done|]. destruct (find0 CRLF s) as [e|].
  - constructor; [rewrite length_take; lia|]. eapply Forall_impl; [apply IH|]. intros l. cbn. rewrite length_drop. lia.
  - destruct kt; by repeat constructor.
Qed.

Lemma length_trim s : (length (trim_copy s) <= length s)%nat.
Proof.
  unfold trim_copy, substr. destruct (find_first_not_of s trim_set); [|cbn; lia].
  destruct (find_last_not_of s trim_set); [|cbn; lia]. rewrite length_take, length_drop. lia.
Qed.

Lemma length_header_value header name : (length (header_value header name) <= length header)%nat.
Proof.
  unfold header_value. pose proof (lines_loop_lengths false (S (length header)) header) as H.
  fold (terminated_lines header) in H. induction H as [|l ls Hl _ IH]; cbn [header_value_in]; [cbn; lia|].
  destruct (starts_with_ci l _); [|done]. etrans; [apply length_trim|]. unfold substr_from. rewrite length_drop. lia.
Qed.

Lemma zlen_cseq m : zlen (cseq_from_message m) <= zlen m.
Proof.
  unfold cseq_from_message, zlen. pose proof (length_header_value (message_header_part m) $"CSeq") as H.
  assert (length (message_header_part m) <= length m)%nat; [|lia].
  unfold message_header_part, substr. destruct (find0 _ _); [|lia]. rewrite length_take, drop_0. lia.
Qed.

Lemma length_lower s : length (lower_copy s) = length s.
Proof. apply length_fmap. Qed.

(** A case-insensitive prefix is a prefix of the lower-case texts. *)
Lemma starts_with_ci_prefix s p : starts_with_ci s p = is_prefix (lower_copy p) (lower_copy s).
Proof.
  unfold starts_with_ci, substr. rewrite drop_0. unfold zlen.
  destruct (Z.ltb_spec (Z.of_nat (length s)) (Z.of_nat (length p))).
  - destruct (is_prefix _ _) eqn:E; [|done]. apply is_prefix_length in E. rewrite !length_lower in E. lia.
  - rewrite <- (take_drop (length p) s) at 2. unfold lower_copy at 4. rewrite fmap_app.
    assert (length (to_lower <$> take (length p) s) = length (lower_copy p)) as Hl.
    { rewrite length_fmap, length_take, length_lower. lia. }
    rewrite is_prefix_app_long by lia. fold (lower_copy (take (length p) s)) in *.
    generalize dependent (lower_copy (take (length p) s)). generalize (lower_copy p).
    induction l as [|x l IH]; intros [|y k] Hk; cbn in *; try done.
    rewrite (Z.eqb_sym x y), IH by lia. done.
Qed.
