(* ===== verification/Rtp.v ===== *)
(** * RTP packetisation (src/live/live_rtsp_server.cpp, the media functions)

    Byte encoding of RTP and RTCP packets, interleaved framing, splitting of an
    access unit into NAL units, fragmentation into FU packets, and Base64 for the
    SDP parameter sets.  The reference decoders used by the round-trip theorems
    ([parse_rtp], [depayload], [base64_decode]) follow RFC 3550, 6184, 7798 and
    4648; they are specifications and not part of the server. *)

From S2P Require Import Prelude CStr Parser.

Inductive VideoCodec := H264 | H265.

#[export] Instance VideoCodec_eq_dec : EqDecision VideoCodec.
Proof. solve_decision. Defined.

Definition kPayloadType : Z := 96.

(** ** Byte encoding *)

Definition append_u16 (output : bytes) (value : Z) : bytes :=
  output ++ [u8 (Z.shiftr value 8); u8 value].

Definition append_u32 (output : bytes) (value : Z) : bytes :=
  output ++ [u8 (Z.shiftr value 24); u8 (Z.shiftr value 16); u8 (Z.shiftr value 8); u8 value].

(** [data[0..3]] read big-endian *)
Definition read_u32 (data : bytes) : Z :=
  Z.lor (Z.lor (Z.lor (Z.shiftl (default 0 (data !! 0%nat)) 24) (Z.shiftl (default 0 (data !! 1%nat)) 16))
               (Z.shiftl (default 0 (data !! 2%nat)) 8)) (default 0 (data !! 3%nat)).

Definition make_rtp_packet (payload : bytes) (marker : bool) (sequence timestamp ssrc : Z) : bytes :=
  let packet := [128; u8 (Z.lor kPayloadType (if marker then 128 else 0))] in
  let packet := append_u16 packet sequence in
  let packet := append_u32 packet timestamp in
  let packet := append_u32 packet ssrc in
  packet ++ payload.

Definition interleaved (channel : Z) (packet : bytes) : result bytes :=
  if zlen packet >? 65535 then Throw $"interleaved RTP packet is too large"
  else Ok (append_u16 [36; u8 channel] (u16 (zlen packet)) ++ packet).

(** [now] is [system_clock::now()] in nanoseconds. *)
Definition make_rtcp_sender_report (ssrc packet_count octet_count now rtp_timestamp : Z) : bytes :=
  let seconds_since_1970 := Z.quot now 1000000000 in
  let fraction_ns := now - seconds_since_1970 * 1000000000 in
  let ntp_seconds := u32 (u64 (seconds_since_1970 + 2208988800)) in
  let ntp_fraction := u32 (u64 (Z.shiftl (u64 fraction_ns) 32) / 1000000000) in
  let packet := [128; 200] in
  let packet := append_u16 packet 6 in
  let packet := append_u32 packet ssrc in
  let packet := append_u32 packet ntp_seconds in
  let packet := append_u32 packet ntp_fraction in
  let packet := append_u32 packet rtp_timestamp in
  let packet := append_u32 packet (u32 packet_count) in
  append_u32 packet (u32 octet_count).

(** ** Base64 *)

Definition base64_alphabet : bytes := $"ABCDEFGHIJKLMNOPQRSTUVWXYZabcdefghijklmnopqrstuvwxyz0123456789+/".

Definition base64_char (i : Z) : Z := default 0 (base64_alphabet !! Z.to_nat i).

(** One iteration on [remaining] bytes, then the next three. *)
Fixpoint base64_encode (input : bytes) : bytes :=
  match input with
  | [] => []
  | a :: rest1 =>
    let b := match rest1 with b :: _ => b | [] => 0 end in
    let c := match rest1 with _ :: c :: _ => c | _ => 0 end in
    let value := Z.lor (Z.lor (Z.shiftl a 16) (Z.shiftl b 8)) c in
    let out := fun k => base64_char (Z.land (Z.shiftr value k) 63) in
    match rest1 with
    | [] => [out 18; out 12; 61; 61]
    | [_] => [out 18; out 12; out 6; 61]
    | _ :: _ :: rest => out 18 :: out 12 :: out 6 :: out 0 :: base64_encode rest
    end
  end.

(** ** Access units *)

Definition byte_at (data : bytes) (pos : nat) (v : Z) : bool := bool_decide (data !! pos = Some v).

Definition start_code_size (data : bytes) (pos : nat) : nat :=
  if (pos + 3 <=? length data)%nat && byte_at data pos 0 && byte_at data (pos + 1) 0 && byte_at data (pos + 2) 1
  then 3
  else if (pos + 4 <=? length data)%nat && byte_at data pos 0 && byte_at data (pos + 1) 0 &&
          byte_at data (pos + 2) 0 && byte_at data (pos + 3) 1
  then 4 else 0%nat.

(** The first position from [i] on, within [n] steps, that holds a start code. *)
Fixpoint find_start_code (n : nat) (data : bytes) (i : nat) : option nat :=
  match n with
  | O => None
  | S n' => if (start_code_size data i =? 0)%nat then find_start_code n' data (S i) else Some i
  end.

(** [while (next < size && start_code_size(next) == 0) ++next;] *)
Definition scan_next (data : bytes) (nal_start : nat) : nat :=
  default (Nat.max nal_start (length data)) (find_start_code (length data - nal_start) data nal_start).

Fixpoint annexb_loop (fuel : nat) (data : bytes) (pos : nat) : list bytes :=
  match fuel with
  | O => []
  | S f =>
    if (pos <? length data)%nat then
      let prefix := start_code_size data pos in
      if (prefix =? 0)%nat then annexb_loop f data (S pos)
      else
        let nal_start := (pos + prefix)%nat in
        let next := scan_next data nal_start in
        (if (nal_start <? next)%nat then [substr data nal_start (next - nal_start)] else []) ++
        annexb_loop f data next
    else []
  end.

Fixpoint length_prefixed_loop (fuel : nat) (data : bytes) (pos : nat) (nal_units : list bytes) : list bytes * nat :=
  match fuel with
  | O => (nal_units, pos)
  | S f =>
    if (pos + 4 <=? length data)%nat then
      let len := read_u32 (drop pos data) in
      if (len =? 0) || (len >? zlen data - Z.of_nat pos - 4) then ([], pos)
      else length_prefixed_loop f data (pos + 4 + Z.to_nat len)
             (nal_units ++ [substr data (pos + 4) (Z.to_nat len)])
    else (nal_units, pos)
  end.

Definition split_access_unit (access_unit : bytes) : list bytes :=
  match find_start_code (length access_unit) access_unit 0 with
  | Some first_start => annexb_loop (S (length access_unit)) access_unit first_start
  | None =>
    let '(nal_units, pos) := length_prefixed_loop (S (length access_unit)) access_unit 0 [] in
    if negb (is_empty nal_units) && (pos =? length access_unit)%nat then nal_units
    else if is_empty access_unit then nal_units else nal_units ++ [access_unit]
  end.

(** ** Fragmentation *)

Record RtpPacket := { packet_bytes : bytes; marker : bool }.

(** The FU loop of either codec: [hdr] is the FU indicator (H.264) or payload
    header (H.265), [type] the NAL unit type for the FU header. *)
Fixpoint fu_loop (fuel : nat) (hdr : bytes) (type : Z) (chunk_limit : nat) (nal : bytes) (last_nal : bool)
    (timestamp ssrc : Z) (offset : nat) (first : bool) (sequence : Z) : list RtpPacket * Z :=
  match fuel with
  | O => ([], sequence)
  | S f =>
    if (offset <? length nal)%nat then
      let chunk := Nat.min chunk_limit (length nal - offset) in
      let end_ := (offset + chunk =? length nal)%nat in
      let payload := hdr ++ [u8 (Z.lor (Z.lor type (if first then 128 else 0)) (if end_ then 64 else 0))] ++
                     substr nal offset chunk in
      let m := end_ && last_nal in
      let packet := {| packet_bytes := make_rtp_packet payload m sequence timestamp ssrc; marker := m |} in
      let '(packets, sequence') :=
        fu_loop f hdr type chunk_limit nal last_nal timestamp ssrc (offset + chunk) false (u16 (sequence + 1)) in
      (packet :: packets, sequence')
    else ([], sequence)
  end.

(** The body of the loop over the NAL units. *)
Definition packetize_nal (codec : VideoCodec) (nal : bytes) (last_nal : bool)
    (sequence timestamp ssrc mtu : Z) : list RtpPacket * Z :=
  match nal with
  | [] => ([], sequence)
  | header :: _ =>
    let max_payload := Z.to_nat (mtu - 12) in
    if (length nal <=? max_payload)%nat then
      ([{| packet_bytes := make_rtp_packet nal last_nal sequence timestamp ssrc; marker := last_nal |}],
       u16 (sequence + 1))
    else match codec with
    | H264 =>
      let fu_indicator := u8 (Z.lor (Z.land header 224) 28) in
      let nal_type := u8 (Z.land header 31) in
      fu_loop (length nal) [fu_indicator] nal_type (max_payload - 2) nal last_nal timestamp ssrc 1 true sequence
    | H265 =>
      if (length nal <? 3)%nat then ([], sequence)
      else
        let original_type := u8 (Z.land (Z.shiftr header 1) 63) in
        let fu_header0 := u8 (Z.lor (Z.land header 129) (Z.shiftl 49 1)) in
        let fu_header1 := default 0 (nal !! 1%nat) in
        fu_loop (length nal) [fu_header0; fu_header1] original_type (max_payload - 3) nal last_nal
          timestamp ssrc 2 true sequence
    end
  end.

Fixpoint packetize_nals (codec : VideoCodec) (nal_units : list bytes) (sequence timestamp ssrc mtu : Z)
    : list RtpPacket * Z :=
  match nal_units with
  | [] => ([], sequence)
  | nal :: rest =>
    let '(packets, sequence) := packetize_nal codec nal (is_empty rest) sequence timestamp ssrc mtu in
    let '(more, sequence) := packetize_nals codec rest sequence timestamp ssrc mtu in
    (packets ++ more, sequence)
  end.

(** The packets and the new value of the [sequence] reference. *)
Definition packetize_access_unit (codec : VideoCodec) (nal_units : list bytes) (sequence timestamp ssrc mtu : Z)
    : result (list RtpPacket * Z) :=
  if mtu <=? 15 then Throw $"RTP MTU is too small"
  else Ok (packetize_nals codec nal_units sequence timestamp ssrc mtu).

(** ** Reference decoders *)

Record RtpHeader := { h_marker : bool; h_type : Z; h_sequence : Z; h_timestamp : Z; h_ssrc : Z }.

Definition be32 (a b c d : Z) : Z := ((a * 256 + b) * 256 + c) * 256 + d.

(** RFC 3550 section 5.1, for version 2 without padding, extension or CSRC. *)
Definition parse_rtp (p : bytes) : option (RtpHeader * bytes) :=
  match p with
  | v :: m :: s1 :: s0 :: t3 :: t2 :: t1 :: t0 :: c3 :: c2 :: c1 :: c0 :: payload =>
    if v =? 128 then
      Some ({| h_marker := 128 <=? m; h_type := m mod 128; h_sequence := s1 * 256 + s0;
               h_timestamp := be32 t3 t2 t1 t0; h_ssrc := be32 c3 c2 c1 c0 |}, payload)
    else None
  | _ => None
  end.

(** A fragmentation unit: start bit, end bit, reconstructed NAL header, data
    (RFC 6184 section 5.8, RFC 7798 section 4.4.3). *)
Definition fu_parse (codec : VideoCodec) (payload : bytes) : option (bool * bool * bytes * bytes) :=
  match codec, payload with
  | H264, ind :: fu :: data =>
    if Z.land ind 31 =? 28 then
      Some (Z.testbit fu 7, Z.testbit fu 6, [Z.lor (Z.land ind 224) (Z.land fu 31)], data)
    else None
  | H265, h0 :: h1 :: fu :: data =>
    if Z.land (Z.shiftr h0 1) 63 =? 49 then
      Some (Z.testbit fu 7, Z.testbit fu 6, [Z.lor (Z.land h0 129) (Z.shiftl (Z.land fu 63) 1); h1], data)
    else None
  | _, _ => None
  end.

(** Reassembly of NAL units from the payloads in order; [cur] is the unit under
    reassembly. *)
Fixpoint depayload (codec : VideoCodec) (cur : bytes) (payloads : list bytes) : list bytes :=
  match payloads with
  | [] => []
  | p :: rest =>
    match fu_parse codec p with
    | None => p :: depayload codec [] rest
    | Some (s, e, hdr, data) =>
      let nal := (if s then hdr else cur) ++ data in
      if e then nal :: depayload codec [] rest else depayload codec nal rest
    end
  end.

Definition rtp_payload (p : RtpPacket) : bytes := drop 12 (packet_bytes p).

(** ** Facts: encoding *)

Lemma be16_u8 v : 0 <= v < 65536 -> u8 (Z.shiftr v 8) * 256 + u8 v = v.
Proof. intros. rewrite Z.shiftr_div_pow2 by lia. unfold u8. change (2 ^ 8) with 256. lia. Qed.

Lemma be32_u8 v :
  0 <= v < 4294967296 ->
  be32 (u8 (Z.shiftr v 24)) (u8 (Z.shiftr v 16)) (u8 (Z.shiftr v 8)) (u8 v) = v.
Proof.
  intros. rewrite !Z.shiftr_div_pow2 by lia. unfold u8, be32.
  change (2 ^ 8) with 256. change (2 ^ 16) with 65536. change (2 ^ 24) with 16777216. lia.
Qed.

Lemma parse_make_rtp payload m seq ts ssrc :
  0 <= seq < 65536 -> 0 <= ts < 4294967296 -> 0 <= ssrc < 4294967296 ->
  parse_rtp (make_rtp_packet payload m seq ts ssrc) =
  Some ({| h_marker := m; h_type := kPayloadType; h_sequence := seq; h_timestamp := ts; h_ssrc := ssrc |},
        payload).
Proof.
  intros Hs Ht Hc. unfold make_rtp_packet, append_u16, append_u32. cbn [app parse_rtp].
  rewrite be16_u8, !be32_u8 by done. by destruct m.
Qed.

Lemma length_make_rtp payload m seq ts ssrc :
  length (make_rtp_packet payload m seq ts ssrc) = (12 + length payload)%nat.
Proof. done. Qed.

Lemma payload_make_rtp payload m m' seq ts ssrc :
  rtp_payload {| packet_bytes := make_rtp_packet payload m seq ts ssrc; marker := m' |} = payload.
Proof. done. Qed.

(** ** Facts: fragments *)

Lemma fu_parse_h264 h (s e : bool) data :
  byte_ok h ->
  fu_parse H264 ([u8 (Z.lor (Z.land h 224) 28)] ++
    [u8 (Z.lor (Z.lor (u8 (Z.land h 31)) (if s then 128 else 0)) (if e then 64 else 0))] ++ data) =
  Some (s, e, [h], data).
Proof.
  intros Hh. cbn [app fu_parse].
  pose (P := fun h => forallb (fun s : bool => forallb (fun e : bool =>
    let i := u8 (Z.lor (Z.land h 224) 28) in
    let f := u8 (Z.lor (Z.lor (u8 (Z.land h 31)) (if s then 128 else 0)) (if e then 64 else 0)) in
    (Z.land i 31 =? 28) && eqb (Z.testbit f 7) s && eqb (Z.testbit f 6) e &&
    (Z.lor (Z.land i 224) (Z.land f 31) =? h)) [true; false]) [true; false]).
  assert (P h = true) as HP by (apply byte_forall; [by vm_compute|done]).
  unfold P in HP. rewrite forallb_forall in HP. specialize (HP s ltac:(destruct s; cbn; tauto)).
  rewrite forallb_forall in HP. specialize (HP e ltac:(destruct e; cbn; tauto)). cbn zeta in HP.
  rewrite !andb_true_iff, !eqb_true_iff, !Z.eqb_eq in HP. destruct HP as [[[H1 H2] H3] H4].
  apply Z.eqb_eq in H1. rewrite H1, H2, H3, H4. done.
Qed.

Lemma fu_parse_h265 h h1 (s e : bool) data :
  byte_ok h ->
  fu_parse H265 ([u8 (Z.lor (Z.land h 129) (Z.shiftl 49 1)); h1] ++
    [u8 (Z.lor (Z.lor (u8 (Z.land (Z.shiftr h 1) 63)) (if s then 128 else 0)) (if e then 64 else 0))] ++ data) =
  Some (s, e, [h; h1], data).
Proof.
  intros Hh. cbn [app fu_parse].
  pose (P := fun h => forallb (fun s : bool => forallb (fun e : bool =>
    let i := u8 (Z.lor (Z.land h 129) (Z.shiftl 49 1)) in
    let f := u8 (Z.lor (Z.lor (u8 (Z.land (Z.shiftr h 1) 63)) (if s then 128 else 0)) (if e then 64 else 0)) in
    (Z.land (Z.shiftr i 1) 63 =? 49) && eqb (Z.testbit f 7) s && eqb (Z.testbit f 6) e &&
    (Z.lor (Z.land i 129) (Z.shiftl (Z.land f 63) 1) =? h)) [true; false]) [true; false]).
  assert (P h = true) as HP by (apply byte_forall; [by vm_compute|done]).
  unfold P in HP. rewrite forallb_forall in HP. specialize (HP s ltac:(destruct s; cbn; tauto)).
  rewrite forallb_forall in HP. specialize (HP e ltac:(destruct e; cbn; tauto)). cbn zeta in HP.
  rewrite !andb_true_iff, !eqb_true_iff, !Z.eqb_eq in HP. destruct HP as [[[H1 H2] H3] H4].
  apply Z.eqb_eq in H1. rewrite H1, H2, H3, H4. done.
Qed.

Section FuLoop.
Context (codec : VideoCodec) (hdr nalhdr : bytes) (type : Z) (cl : nat) (nal : bytes) (last_nal : bool).
Context (ts ssrc : Z).
Hypothesis Hcl : (0 < cl)%nat.

Let loop f offset (first : bool) seq := fu_loop f hdr type cl nal last_nal ts ssrc offset first seq.

Lemma fu_loop_depayload :
  (forall (s e : bool) data,
    fu_parse codec (hdr ++ [u8 (Z.lor (Z.lor type (if s then 128 else 0)) (if e then 64 else 0))] ++ data) =
    Some (s, e, nalhdr, data)) ->
  forall f offset (first : bool) seq cur rest,
    (offset < length nal)%nat -> (length nal - offset <= f)%nat ->
    (if first then nalhdr else cur) = take offset nal ->
    depayload codec cur ((rtp_payload <$> fst (loop f offset first seq)) ++ rest) =
    nal :: depayload codec [] rest.
Proof.
  intros Hfu f. induction f as [|f IH]; intros offset first seq cur rest Ho Hf Hc; [lia|].
  unfold loop in *. cbn [fu_loop]. destruct (Nat.ltb_spec offset (length nal)); [|lia].
  set (chunk := Nat.min cl (length nal - offset)).
  destruct (fu_loop f hdr type cl nal last_nal ts ssrc (offset + chunk) false (u16 (seq + 1)))
    as [ps s'] eqn:E.
  cbn [fst]. rewrite fmap_cons, <- app_comm_cons. cbn [depayload]. rewrite payload_make_rtp, Hfu, Hc.
  assert (take offset nal ++ substr nal offset chunk = take (offset + chunk) nal) as ->.
  { unfold substr. apply take_take_drop. }
  destruct (Nat.eqb_spec (offset + chunk) (length nal)) as [He|He].
  - destruct f as [|f].
    + cbn in E. injection E as <- <-. cbn. by rewrite take_ge by lia.
    + cbn [fu_loop] in E. destruct (Nat.ltb_spec (offset + chunk) (length nal)); [lia|].
      injection E as <- <-. cbn. by rewrite take_ge by lia.
  - specialize (IH (offset + chunk)%nat false (u16 (seq + 1)) (take (offset + chunk) nal) rest).
    rewrite E in IH. apply IH; [lia|lia|done].
Qed.

Lemma fu_loop_sizes f offset (first : bool) seq :
  Forall (fun p => (length (packet_bytes p) <= 12 + (length hdr + 1 + cl))%nat) (fst (loop f offset first seq)).
Proof.
  unfold loop. revert offset first seq; induction f as [|f IH]; intros offset first seq; cbn [fu_loop]; [done|].
  destruct (Nat.ltb_spec offset (length nal)); [|done].
  set (chunk := Nat.min cl (length nal - offset)).
  specialize (IH (offset + chunk)%nat false (u16 (seq + 1))).
  destruct (fu_loop f _ _ _ _ _ _ _ _ _ _) as [ps s'] eqn:E. cbn [fst] in *. constructor; [|done].
  cbn [packet_bytes]. rewrite length_make_rtp, !length_app. unfold substr. rewrite length_take. cbn. lia.
Qed.

Lemma fu_loop_markers f offset (first : bool) seq :
  (offset < length nal)%nat -> (length nal - offset <= f)%nat ->
  exists n, marker <$> fst (loop f offset first seq) = replicate n false ++ [last_nal].
Proof.
  unfold loop. revert offset first seq; induction f as [|f IH]; intros offset first seq Ho Hf; [lia|].
  cbn [fu_loop]. destruct (Nat.ltb_spec offset (length nal)); [|lia].
  set (chunk := Nat.min cl (length nal - offset)).
  destruct (Nat.eqb_spec (offset + chunk) (length nal)) as [He|He].
  - exists 0%nat. destruct f as [|f]; [done|]. cbn [fu_loop].
    by destruct (Nat.ltb_spec (offset + chunk) (length nal)); [lia|].
  - destruct (IH (offset + chunk)%nat false (u16 (seq + 1))) as [n Hn]; [lia|lia|].
    destruct (fu_loop f _ _ _ _ _ _ _ _ _ _) as [ps s'] eqn:E. cbn [fst] in *.
    exists (S n). rewrite fmap_cons, Hn. done.
Qed.
End FuLoop.

(** [stamped ts ssrc seq ps seq']: the packets carry consecutive sequence numbers
    modulo [2 ^ 16] from [seq] on, [seq'] is the next one, and every header agrees
    with the packet's marker, the time stamp and the source. *)
Fixpoint stamped (ts ssrc seq : Z) (ps : list RtpPacket) (seq' : Z) : Prop :=
  match ps with
  | [] => seq' = seq
  | p :: rest =>
    parse_rtp (packet_bytes p) =
      Some ({| h_marker := marker p; h_type := kPayloadType; h_sequence := seq; h_timestamp := ts;
               h_ssrc := ssrc |}, rtp_payload p) /\
    stamped ts ssrc (u16 (seq + 1)) rest seq'
  end.

Lemma stamped_app ts ssrc seq ps qs seq1 seq2 :
  stamped ts ssrc seq ps seq1 -> stamped ts ssrc seq1 qs seq2 -> stamped ts ssrc seq (ps ++ qs) seq2.
Proof.
  revert seq; induction ps as [|p ps IH]; intros seq; cbn [stamped app]; [by intros ->|].
  intros [Hp Hps] Hq. split; [done|by apply IH].
Qed.

Lemma fu_loop_stamped f hdr type cl nal last_nal ts ssrc offset first seq :
  0 <= seq < 65536 -> 0 <= ts < 4294967296 -> 0 <= ssrc < 4294967296 ->
  let r := fu_loop f hdr type cl nal last_nal ts ssrc offset first seq in
  stamped ts ssrc seq (fst r) (snd r).
Proof.
  intros Hs Ht Hc. revert offset first seq Hs; induction f as [|f IH]; intros offset first seq Hs;
    cbn [fu_loop]; [done|].
  destruct (offset <? length nal)%nat; [|done].
  set (chunk := Nat.min cl (length nal - offset)).
  specialize (IH (offset + chunk)%nat false (u16 (seq + 1)) (u16_range _)).
  destruct (fu_loop f _ _ _ _ _ _ _ _ _ _) as [ps s'] eqn:E. cbn [fst snd stamped marker] in *.
  split; [by apply parse_make_rtp|done].
Qed.

(** A NAL unit the payload format can carry: its type is not the FU type. *)
Definition nal_ok (codec : VideoCodec) (nal : bytes) : Prop :=
  bytes_ok nal /\
  match nal with
  | [] => False
  | h :: _ => match codec with
              | H264 => Z.land h 31 <> 28
              | H265 => Z.land (Z.shiftr h 1) 63 <> 49
              end
  end.

Lemma fu_parse_single codec nal : nal_ok codec nal -> fu_parse codec nal = None.
Proof.
  intros [_ Ht]. destruct nal as [|h t]; [done|]. destruct codec; cbn [fu_parse].
  - destruct t; [done|]. by destruct (Z.eqb_spec (Z.land h 31) 28).
  - destruct t as [|? [|? ?]]; try done. by destruct (Z.eqb_spec (Z.land (Z.shiftr h 1) 63) 49).
Qed.

Section PacketizeNal.
Context (codec : VideoCodec) (ts ssrc mtu : Z).
Hypothesis Hmtu : 15 < mtu.

Lemma packetize_nal_depayload nal last_nal seq rest :
  nal_ok codec nal ->
  depayload codec [] ((rtp_payload <$> fst (packetize_nal codec nal last_nal seq ts ssrc mtu)) ++ rest) =
  nal :: depayload codec [] rest.
Proof.
  intros Hn. pose proof Hn as [Hb _]. destruct nal as [|h t]; [by destruct Hn|].
  apply Forall_cons in Hb as [Hh Ht]. set (nal := h :: t) in *.
  unfold packetize_nal, nal at 1. fold nal.
  destruct (Nat.leb_spec (length nal) (Z.to_nat (mtu - 12))).
  { cbn [fst]. rewrite fmap_cons, <- app_comm_cons. cbn [depayload]. rewrite payload_make_rtp.
    by rewrite fu_parse_single. }
  destruct codec.
  - apply (fu_loop_depayload _ _ [h]); [lia|intros; by apply fu_parse_h264|lia|lia|done].
  - destruct t as [|h1 t]; [cbn in *; lia|].
    destruct (Nat.ltb_spec (length nal) 3); [lia|].
    apply (fu_loop_depayload _ _ [h; h1]); [lia|intros; by apply fu_parse_h265|lia|lia|done].
Qed.

Lemma packetize_nal_sizes nal last_nal seq :
  Forall (fun p => zlen (packet_bytes p) <= mtu) (fst (packetize_nal codec nal last_nal seq ts ssrc mtu)).
Proof.
  destruct nal as [|h t]; [constructor|]. set (nal := h :: t). unfold packetize_nal, nal at 1. fold nal.
  destruct (Nat.leb_spec (length nal) (Z.to_nat (mtu - 12))).
  { constructor; [|done]. cbn [packet_bytes]. unfold zlen. rewrite length_make_rtp. lia. }
  destruct codec; [|destruct (_ <? 3)%nat; [constructor|]].
  all: eapply Forall_impl; [apply fu_loop_sizes; lia|]; cbn beta; unfold zlen; cbn [length]; lia.
Qed.

Lemma packetize_nal_stamped nal last_nal seq :
  0 <= seq < 65536 -> 0 <= ts < 4294967296 -> 0 <= ssrc < 4294967296 ->
  let r := packetize_nal codec nal last_nal seq ts ssrc mtu in
  stamped ts ssrc seq (fst r) (snd r).
Proof.
  intros Hs Ht Hc r. unfold r, packetize_nal. destruct nal as [|h t]; [done|].
  destruct (_ <=? _)%nat.
  { cbn [fst snd stamped marker]. split; [by apply parse_make_rtp|done]. }
  destruct codec; [|destruct (_ <? 3)%nat; [done|]]; by apply fu_loop_stamped.
Qed.

Lemma packetize_nal_markers nal last_nal seq :
  nal <> [] ->
  exists n, marker <$> fst (packetize_nal codec nal last_nal seq ts ssrc mtu) = replicate n false ++ [last_nal].
Proof.
  intros Hn. destruct nal as [|h t]; [done|]. set (nal := h :: t). unfold packetize_nal, nal at 1. fold nal.
  destruct (Nat.leb_spec (length nal) (Z.to_nat (mtu - 12))); [by exists 0%nat|].
  destruct codec.
  - apply fu_loop_markers; lia.
  - destruct (Nat.ltb_spec (length nal) 3); [lia|]. apply fu_loop_markers; lia.
Qed.
End PacketizeNal.

Lemma stamped_range ts ssrc seq ps seq' :
  0 <= seq < 65536 -> stamped ts ssrc seq ps seq' -> 0 <= seq' < 65536.
Proof.
  revert seq; induction ps as [|p ps IH]; intros seq Hs; cbn [stamped]; [by intros ->|].
  intros [_ H]. eapply IH; [|done]. apply u16_range.
Qed.

(** The loop over the NAL units, one unit at a time. *)
Lemma packetize_nals_cons codec nal rest seq ts ssrc mtu :
  let r1 := packetize_nal codec nal (is_empty rest) seq ts ssrc mtu in
  let r2 := packetize_nals codec rest (snd r1) ts ssrc mtu in
  packetize_nals codec (nal :: rest) seq ts ssrc mtu = (fst r1 ++ fst r2, snd r2).
Proof.
  cbn [packetize_nals]. destruct (packetize_nal _ _ _ _ _ _ _) as [ps s1]. cbn [fst snd].
  by destruct (packetize_nals _ _ _ _ _ _) as [qs s2].
Qed.

Lemma packetize_nals_depayload codec nals seq ts ssrc mtu :
  15 < mtu -> Forall (nal_ok codec) nals ->
  depayload codec [] (rtp_payload <$> fst (packetize_nals codec nals seq ts ssrc mtu)) = nals.
Proof.
  intros Hm Hn. revert seq; induction Hn as [|nal nals Hnal _ IH]; intros seq; [done|].
  rewrite packetize_nals_cons. cbn [fst]. rewrite fmap_app, packetize_nal_depayload by done. by rewrite IH.
Qed.

Lemma packetize_nals_sizes codec nals seq ts ssrc mtu :
  15 < mtu ->
  Forall (fun p => zlen (packet_bytes p) <= mtu) (fst (packetize_nals codec nals seq ts ssrc mtu)).
Proof.
  intros Hm. revert seq; induction nals as [|nal nals IH]; intros seq; [done|].
  rewrite packetize_nals_cons. apply Forall_app. split; [by apply packetize_nal_sizes|apply IH].
Qed.

Lemma packetize_nals_stamped codec nals seq ts ssrc mtu :
  0 <= seq < 65536 -> 0 <= ts < 4294967296 -> 0 <= ssrc < 4294967296 ->
  let r := packetize_nals codec nals seq ts ssrc mtu in stamped ts ssrc seq (fst r) (snd r).
Proof.
  intros Hs Ht Hc. revert seq Hs; induction nals as [|nal nals IH]; intros seq Hs; [done|].
  rewrite packetize_nals_cons. cbn [fst snd].
  pose proof (packetize_nal_stamped codec ts ssrc mtu nal (is_empty nals) seq Hs Ht Hc) as H1.
  cbn zeta in H1. eapply stamped_app; [exact H1|]. apply IH. eapply stamped_range; [exact Hs|exact H1].
Qed.

Lemma packetize_nals_markers codec nals seq ts ssrc mtu :
  15 < mtu -> nals <> [] -> Forall (fun n => n <> []) nals ->
  exists n, marker <$> fst (packetize_nals codec nals seq ts ssrc mtu) = replicate n false ++ [true].
Proof.
  intros Hm Hne Hn. revert seq; induction Hn as [|nal nals Hnal Hn IH]; intros seq; [done|].
  rewrite packetize_nals_cons. cbn [fst]. rewrite fmap_app.
  destruct (packetize_nal_markers codec ts ssrc mtu Hm nal (is_empty nals) seq Hnal) as [n ->].
  destruct nals as [|nal' nals].
  - exists n. cbn. by rewrite app_nil_r.
  - destruct (IH ltac:(done) (snd (packetize_nal codec nal false seq ts ssrc mtu))) as [k Hk].
    cbn [is_empty]. rewrite Hk. exists (n + (1 + k))%nat.
    rewrite !replicate_add, <- !app_assoc. done.
Qed.

(** C2: depacketising what [packetize_access_unit] produces gives back the NAL
    units, for both codecs and every MTU the function accepts: fragments are
    complete, in order, with the right start and end bits and NAL header. *)
Theorem packetize_round_trip codec nals seq ts ssrc mtu :
  15 < mtu -> Forall (nal_ok codec) nals ->
  exists packets seq', packetize_access_unit codec nals seq ts ssrc mtu = Ok (packets, seq') /\
    depayload codec [] (rtp_payload <$> packets) = nals.
Proof.
  intros Hm Hn. unfold packetize_access_unit. replace (mtu <=? 15) with false by lia.
  destruct (packetize_nals codec nals seq ts ssrc mtu) as [ps s'] eqn:E. exists ps, s'. split; [done|].
  pose proof (packetize_nals_depayload codec nals seq ts ssrc mtu Hm Hn) as H. by rewrite E in H.
Qed.

Lemma packetize_round_trip_witness :
  exists packets seq',
    packetize_access_unit H264 [[103; 66; 0]; replicate 20 101] 65535 9 7 18 = Ok (packets, seq') /\
    depayload H264 [] (rtp_payload <$> packets) = [[103; 66; 0]; replicate 20 101].
Proof.
  apply packetize_round_trip; [lia|].
  repeat (apply Forall_cons; split); [| |apply Forall_nil; exact I];
    (split; [repeat (constructor; [unfold byte_ok; lia|]); constructor|discriminate]).
Defined.

(** Every packet fits the MTU, carries version 2, payload type 96, the
    access unit's time stamp and source and the next sequence number modulo
    [2 ^ 16]; the [sequence] reference ends one past the last packet. *)
Lemma packetize_headers codec nals seq ts ssrc mtu packets seq' :
  0 <= seq < 65536 -> 0 <= ts < 4294967296 -> 0 <= ssrc < 4294967296 ->
  packetize_access_unit codec nals seq ts ssrc mtu = Ok (packets, seq') ->
  stamped ts ssrc seq packets seq' /\ Forall (fun p => zlen (packet_bytes p) <= mtu) packets.
Proof.
  intros Hs Ht Hc. unfold packetize_access_unit. destruct (Z.leb_spec mtu 15); [done|]. intros [= E].
  pose proof (packetize_nals_stamped codec nals seq ts ssrc mtu Hs Ht Hc) as H1.
  pose proof (packetize_nals_sizes codec nals seq ts ssrc mtu ltac:(lia)) as H2.
  rewrite E in H1, H2. done.
Qed.

Lemma packetize_headers_witness :
  stamped 9 7 65535 (fst (packetize_nals H264 [[103; 66; 0]; [104; 1]] 65535 9 7 18)) 1.
Proof.
  eapply (packetize_headers H264 [[103; 66; 0]; [104; 1]] 65535 9 7 18); try lia. reflexivity.
Defined.

(** The RTP marker is set on the last packet of the access unit and on no
    other, whenever the unit has only non-empty NAL units. *)
Lemma packetize_marker_last codec nals seq ts ssrc mtu packets seq' :
  packetize_access_unit codec nals seq ts ssrc mtu = Ok (packets, seq') ->
  nals <> [] -> Forall (fun n => n <> []) nals ->
  exists n, marker <$> packets = replicate n false ++ [true].
Proof.
  unfold packetize_access_unit. destruct (Z.leb_spec mtu 15); [done|]. intros [= E] Hne Hn.
  destruct (packetize_nals_markers codec nals seq ts ssrc mtu ltac:(lia) Hne Hn) as [n H1].
  rewrite E in H1. by exists n.
Qed.

Lemma packetize_marker_last_witness :
  exists n, marker <$> fst (packetize_nals H265 [[64; 1; 5]; replicate 9 38] 0 9 7 18) = replicate n false ++ [true].
Proof.
  eapply (packetize_marker_last H265 [[64; 1; 5]; replicate 9 38] 0 9 7 18); [reflexivity|discriminate|].
  repeat (apply Forall_cons; split); [discriminate|discriminate|apply Forall_nil; exact I].
Defined.

(** ** Facts: start codes *)

Definition start_code_of (s : bytes) : nat :=
  match s with
  | a :: b :: c :: r =>
    if (a =? 0) && (b =? 0) then
      if c =? 1 then 3%nat
      else match r with
           | d :: _ => if (c =? 0) && (d =? 1) then 4%nat else 0%nat
           | [] => 0%nat
           end
    else 0%nat
  | _ => 0%nat
  end.

Lemma byte_at_drop data pos k v : byte_at data (pos + k) v = bool_decide (drop pos data !! k = Some v).
Proof. unfold byte_at. by rewrite lookup_drop. Qed.

Lemma bool_decide_eqb (a b : Z) : bool_decide (Some a = Some b) = (a =? b).
Proof. destruct (Z.eqb_spec a b); [apply bool_decide_eq_true_2|apply bool_decide_eq_false_2]; congruence. Qed.

Lemma leb_drop n (data : bytes) pos :
  (0 < n)%nat -> (pos + n <=? length data)%nat = (n <=? length (drop pos data))%nat.
Proof.
  intros Hn. rewrite length_drop.
  destruct (Nat.leb_spec (pos + n) (length data)), (Nat.leb_spec n (length data - pos)); lia.
Qed.

Lemma start_code_size_drop data pos : start_code_size data pos = start_code_of (drop pos data).
Proof.
  unfold start_code_size. rewrite !byte_at_drop.
  replace (byte_at data pos 0) with (bool_decide (drop pos data !! 0%nat = Some 0))
    by (rewrite <- byte_at_drop, Nat.add_0_r; done).
  rewrite !leb_drop by lia.
  generalize (drop pos data) as s. intros [|a [|b [|c [|d r]]]]; cbn [lookup list_lookup length start_code_of];
    rewrite ?bool_decide_eqb; try done.
  - cbn. destruct (a =? 0), (b =? 0), (c =? 1); done.
  - cbn. destruct (a =? 0), (b =? 0); done.
Qed.

Lemma find_start_code_skip m n data i :
  (forall k, (k < m)%nat -> start_code_size data (i + k) = 0%nat) ->
  find_start_code (m + n) data i = find_start_code n data (i + m).
Proof.
  revert i; induction m as [|m IH]; intros i H.
  - by rewrite Nat.add_0_r.
  - cbn [Nat.add find_start_code]. pose proof (H 0%nat ltac:(lia)) as H0. rewrite Nat.add_0_r in H0. rewrite H0.
    cbn. rewrite IH.
    + f_equal. lia.
    + intros k Hk. specialize (H (S k) ltac:(lia)). by replace (S i + k)%nat with (i + S k)%nat by lia.
Qed.

Lemma find_start_code_Some n data i k :
  find_start_code n data i = Some k -> (i <= k < i + n)%nat /\ start_code_size data k <> 0%nat.
Proof.
  revert i; induction n as [|n IH]; intros i; cbn [find_start_code]; [done|].
  destruct (Nat.eqb_spec (start_code_size data i) 0); [|intros [= <-]; split; [lia|done]].
  intros [? ?]%IH. split; [lia|done].
Qed.

Lemma scan_next_ge data i : (i <= scan_next data i)%nat.
Proof.
  unfold scan_next. destruct (find_start_code _ data i) as [k|] eqn:E; cbn; [|lia].
  apply find_start_code_Some in E. lia.
Qed.

(** A NAL unit as the codecs write it: no start code inside (emulation
    prevention) and no trailing zero byte. *)
Definition nal_clean (nal : bytes) : Prop :=
  nal <> [] /\ find0 [0; 0; 1] nal = None /\ last nal <> Some 0.

Inductive start_code := Short | Long.

Definition code_bytes (c : start_code) : bytes :=
  match c with Short => [0; 0; 1] | Long => [0; 0; 0; 1] end.

(** An Annex B byte stream. *)
Definition annexb (units : list (start_code * bytes)) : bytes :=
  concat ((fun '(c, nal) => code_bytes c ++ nal) <$> units).

Lemma code_of_annexb c nal us :
  start_code_of (annexb ((c, nal) :: us)) = length (code_bytes c).
Proof. by destruct c. Qed.

(** No start code begins inside a clean NAL unit, whatever stream follows. *)
Lemma nal_clean_no_code nal us k :
  nal_clean nal -> (k < length nal)%nat -> start_code_of (drop k (nal ++ annexb us)) = 0%nat.
Proof.
  intros (_ & Hf & Hl) Hk. rewrite drop_app_le by lia.
  assert (forall j, is_prefix [0; 0; 1] (drop j (drop k nal)) = false) as Hp.
  { intros j. rewrite drop_drop. by apply find0_None. }
  assert (drop k nal <> []) as Ht.
  { intros H%(f_equal length). rewrite length_drop in H. cbn in H. lia. }
  assert (last (drop k nal) <> Some 0) as Hlast.
  { rewrite <- (take_drop k nal), last_app in Hl. destruct (last (drop k nal)) as [x|] eqn:E; [done|].
    by apply last_None in E. }
  generalize (drop k nal), Ht, Hlast, Hp. clear. intros t Ht Hl Hp.
  assert (annexb us = [] \/ exists r, annexb us = 0 :: 0 :: r) as Hus.
  { destruct us as [|[[] n] us]; [by left|right; by eexists|right; by eexists]. }
  pose proof (Hp 0%nat) as H0. pose proof (Hp 1%nat) as H1. cbn in H0, H1. clear Hp.
  destruct t as [|a [|b [|c [|d r]]]]; [done| | | |]; cbn in Hl, H0, H1 |- *.
  - destruct Hus as [->|[r ->]]; [done|]. cbn.
    destruct (Z.eqb_spec a 0) as [->|]; done.
  - destruct Hus as [->|[r ->]]; [done|]. cbn.
    destruct (Z.eqb_spec b 0) as [->|]; [done|]. by rewrite andb_false_r.
  - destruct (Z.eqb_spec a 0) as [->|]; [|done]. destruct (Z.eqb_spec b 0) as [->|]; [|done]. cbn in *.
    destruct (Z.eqb_spec c 1) as [->|]; [done|]. destruct (Z.eqb_spec c 0) as [->|]; [done|].
    destruct Hus as [->|[r ->]]; done.
  - destruct (Z.eqb_spec a 0) as [->|]; [|done]. destruct (Z.eqb_spec b 0) as [->|]; [|done]. cbn in *.
    destruct (Z.eqb_spec c 1) as [->|]; [done|]. destruct (Z.eqb_spec c 0) as [->|]; [|done].
    destruct (Z.eqb_spec d 1) as [->|]; done.
Qed.

Lemma scan_next_nal pre nal us :
  nal_clean nal -> scan_next (pre ++ nal ++ annexb us) (length pre) = (length pre + length nal)%nat.
Proof.
  intros Hn. unfold scan_next.
  replace (length (pre ++ nal ++ annexb us) - length pre)%nat
    with (length nal + length (annexb us))%nat by (rewrite !length_app; lia).
  rewrite find_start_code_skip.
  - destruct us as [|[c n] us].
    + cbn. rewrite !length_app. cbn. lia.
    + destruct (annexb ((c, n) :: us)) as [|x r] eqn:E; [by destruct c|].
      cbn [length find_start_code]. rewrite <- E.
      rewrite start_code_size_drop, app_assoc, drop_app_length', code_of_annexb
        by (rewrite length_app; lia).
      by destruct c.
  - intros k Hk. rewrite start_code_size_drop, drop_app_add. by apply nal_clean_no_code.
Qed.

Lemma annexb_loop_units f pre us :
  Forall (fun u => nal_clean (snd u)) us -> (length us < f)%nat ->
  annexb_loop f (pre ++ annexb us) (length pre) = snd <$> us.
Proof.
  revert pre us; induction f as [|f IH]; intros pre us Hus Hf; [lia|]. cbn [annexb_loop].
  destruct us as [|[c nal] us].
  - change (annexb []) with (@nil Z). rewrite app_nil_r.
    by destruct (Nat.ltb_spec (length pre) (length pre)); [lia|].
  - apply Forall_cons in Hus as [Hn Hus]. cbn [snd] in Hn.
    assert (annexb ((c, nal) :: us) = code_bytes c ++ nal ++ annexb us) as E.
    { unfold annexb. rewrite fmap_cons. cbn [concat]. by rewrite <- app_assoc. }
    assert (nal <> []) as Hne by apply Hn.
    destruct (Nat.ltb_spec (length pre) (length (pre ++ annexb ((c, nal) :: us)))) as [_|Hl].
    2: { rewrite E, !length_app in Hl. destruct nal; [done|]. cbn in Hl. lia. }
    rewrite start_code_size_drop, drop_app_length, code_of_annexb.
    destruct (Nat.eqb_spec (length (code_bytes c)) 0) as [H0|_]; [by destruct c|].
    rewrite E, app_assoc, <- length_app, scan_next_nal by done.
    destruct (Nat.ltb_spec (length (pre ++ code_bytes c)) (length (pre ++ code_bytes c) + length nal)) as [_|Hl].
    2: { destruct nal; [done|]. cbn in Hl. lia. }
    rewrite Nat.add_comm, Nat.add_sub, Nat.add_comm.
    unfold substr. rewrite drop_app_length, take_app_length, fmap_cons. cbn [app snd]. f_equal.
    rewrite app_assoc, <- length_app. apply IH; [done|cbn in Hf; lia].
Qed.

Lemma length_annexb us : (length us <= length (annexb us))%nat.
Proof.
  induction us as [|[c n] us IH]; [done|]. unfold annexb in *. rewrite fmap_cons. cbn [concat length].
  rewrite !length_app. destruct c; cbn [code_bytes length]; lia.
Qed.

Lemma split_annexb us :
  us <> [] -> Forall (fun u => nal_clean (snd u)) us -> split_access_unit (annexb us) = snd <$> us.
Proof.
  intros Hne Hus. unfold split_access_unit. destruct us as [|[c n] us]; [done|].
  set (u := (c, n) :: us) in *.
  assert (find_start_code (length (annexb u)) (annexb u) 0 = Some 0%nat) as ->.
  { destruct (length (annexb u)) eqn:E; [by destruct c|]. cbn [find_start_code].
    rewrite start_code_size_drop, drop_0. unfold u. rewrite code_of_annexb. by destruct c. }
  pose proof (length_annexb u) as Hl.
  apply (annexb_loop_units _ []); [done|lia].
Qed.

(** C34: an Annex B access unit is split into exactly its NAL units, for any mix
    of three- and four-byte start codes, when no unit contains a start code or
    ends in a zero byte. *)
Theorem split_annexb_round_trip us :
  us <> [] -> Forall (fun u => nal_clean (snd u)) us -> split_access_unit (annexb us) = snd <$> us.
Proof. apply split_annexb. Qed.

Lemma nal_clean_dec nal :
  (negb (is_empty nal) && negb (bool_decide (is_Some (find0 [0; 0; 1] nal))) &&
   negb (bool_decide (last nal = Some 0))) = true -> nal_clean nal.
Proof.
  intros H. bprop. split_and!; [by destruct nal|by apply eq_None_not_Some|done].
Qed.

Lemma split_annexb_round_trip_witness :
  split_access_unit [0; 0; 0; 1; 103; 0; 5; 0; 0; 1; 104; 2] = [[103; 0; 5]; [104; 2]].
Proof.
  apply (split_annexb_round_trip [(Long, [103; 0; 5]); (Short, [104; 2])]); [discriminate|].
  apply Forall_cons; split; [apply nal_clean_dec; reflexivity|].
  apply Forall_cons; split; [apply nal_clean_dec; reflexivity|apply Forall_nil; exact I].
Defined.

(** ** Length-prefixed access units *)

Definition length_prefixed (nals : list bytes) : bytes :=
  concat ((fun nal => append_u32 [] (zlen nal) ++ nal) <$> nals).

Lemma read_u32_bytes a b c d r :
  byte_ok a -> byte_ok b -> byte_ok c -> byte_ok d -> read_u32 (a :: b :: c :: d :: r) = be32 a b c d.
Proof.
  unfold byte_ok. intros Ha Hb Hc Hd. unfold read_u32, be32. cbn [lookup list_lookup from_option id].
  replace (Z.lor (Z.shiftl a 24) (Z.shiftl b 16)) with (Z.shiftl (a * 256 + b) 16).
  2: { change 24 with (8 + 16). rewrite <- (Z.shiftl_shiftl a 8 16), <- Z.shiftl_lor by lia.
       by rewrite lor_shiftl_add by (cbn; lia). }
  replace (Z.lor (Z.shiftl (a * 256 + b) 16) (Z.shiftl c 8)) with (Z.shiftl ((a * 256 + b) * 256 + c) 8).
  2: { change 16 with (8 + 8). rewrite <- (Z.shiftl_shiftl _ 8 8), <- Z.shiftl_lor by lia.
       by rewrite lor_shiftl_add by (cbn; lia). }
  by rewrite lor_shiftl_add by (cbn; lia).
Qed.

Lemma read_append_u32 v r : 0 <= v < 4294967296 -> read_u32 (append_u32 [] v ++ r) = v.
Proof.
  intros Hv. unfold append_u32. cbn [app]. rewrite read_u32_bytes by apply u8_ok. by apply be32_u8.
Qed.

Lemma length_prefixed_cons nal nals :
  length_prefixed (nal :: nals) = append_u32 [] (zlen nal) ++ nal ++ length_prefixed nals.
Proof. unfold length_prefixed. rewrite fmap_cons. cbn [concat]. by rewrite <- app_assoc. Qed.

Lemma length_prefixed_loop_units f pre nals tail acc :
  Forall (fun n => 0 < zlen n < 4294967296) nals -> (length nals < f)%nat -> (length tail < 4)%nat ->
  length_prefixed_loop f (pre ++ length_prefixed nals ++ tail) (length pre) acc =
  (acc ++ nals, length (pre ++ length_prefixed nals)).
Proof.
  intros Hn Hf Ht. revert pre nals acc Hn Hf; induction f as [|f IH]; intros pre nals acc Hn Hf; [lia|].
  cbn [length_prefixed_loop]. destruct nals as [|nal nals].
  - change (length_prefixed []) with (@nil Z). cbn [app]. rewrite !app_nil_r, length_app.
    by destruct (Nat.leb_spec (length pre + 4) (length pre + length tail)); [lia|].
  - apply Forall_cons in Hn as [Hz Hn]. rewrite length_prefixed_cons.
    set (lp := append_u32 [] (zlen nal)). assert (length lp = 4%nat) as Hlp by done.
    set (rest := length_prefixed nals).
    assert (pre ++ (lp ++ nal ++ rest) ++ tail = (pre ++ lp ++ nal) ++ rest ++ tail) as Hdata
      by by rewrite <- !app_assoc.
    destruct (Nat.leb_spec (length pre + 4) (length (pre ++ (lp ++ nal ++ rest) ++ tail))) as [_|Hl].
    2: { rewrite !length_app in Hl. lia. }
    rewrite drop_app_length, <- app_assoc.
    assert (read_u32 (lp ++ (nal ++ rest) ++ tail) = zlen nal) as -> by (apply read_append_u32; lia).
    destruct (_ || _) eqn:E.
    { apply orb_true_iff in E. destruct E; bprop; [lia|]. unfold zlen in *. rewrite !length_app in *. lia. }
    replace (Z.to_nat (zlen nal)) with (length nal) by (unfold zlen; lia).
    assert (pre ++ lp ++ (nal ++ rest) ++ tail = (pre ++ lp) ++ nal ++ rest ++ tail) as Hd2
      by by rewrite <- !app_assoc.
    assert (substr (pre ++ lp ++ (nal ++ rest) ++ tail) (length pre + 4) (length nal) = nal) as ->.
    { unfold substr. rewrite Hd2, <- Hlp, <- length_app, drop_app_length, take_app_length. done. }
    replace (length pre + 4 + length nal)%nat with (length (pre ++ lp ++ nal))
      by (rewrite !length_app; lia).
    assert (pre ++ lp ++ (nal ++ rest) ++ tail = (pre ++ lp ++ nal) ++ rest ++ tail) as ->
      by by rewrite <- !app_assoc.
    unfold rest. rewrite IH by (done || (cbn in Hf; lia)). by rewrite <- !app_assoc.
Qed.

Lemma find_start_code_none n data i :
  (forall k, start_code_of (drop k data) = 0%nat) -> find_start_code n data i = None.
Proof.
  intros H. revert i; induction n as [|n IH]; intros i; cbn [find_start_code]; [done|].
  by rewrite start_code_size_drop, H, IH.
Qed.

Lemma length_length_prefixed nals : (length nals <= length (length_prefixed nals))%nat.
Proof.
  induction nals as [|n ns IH]; [done|]. rewrite length_prefixed_cons, !length_app. cbn [length append_u32 app]. lia.
Qed.

(** A length-prefixed access unit is split into exactly its NAL units when
    no byte sequence in it, length fields included, reads as a start code. *)
Lemma split_length_prefixed_round_trip nals :
  Forall (fun n => 0 < zlen n < 4294967296) nals ->
  (forall k, start_code_of (drop k (length_prefixed nals)) = 0%nat) ->
  split_access_unit (length_prefixed nals) = nals.
Proof.
  intros Hn Hs. unfold split_access_unit. rewrite find_start_code_none by done.
  pose proof (length_length_prefixed nals).
  pose proof (length_prefixed_loop_units (S (length (length_prefixed nals))) [] nals [] [] Hn
                ltac:(lia) ltac:(cbn; lia)) as E.
  rewrite app_nil_r in E. cbn [app length] in E. rewrite E, Nat.eqb_refl, andb_true_r.
  destruct nals; done.
Qed.

Lemma split_length_prefixed_round_trip_witness :
  split_access_unit (length_prefixed [[103; 1]; [104; 2; 3]]) = [[103; 1]; [104; 2; 3]].
Proof.
  apply split_length_prefixed_round_trip.
  - apply Forall_cons; split; [split; reflexivity|].
    apply Forall_cons; split; [split; reflexivity|apply Forall_nil; exact I].
  - intros k. do 14 (destruct k as [|k]; [reflexivity|]). reflexivity.
Defined.

(** The length field of a NAL unit of 256 to 511 bytes is itself a start
    code, so a length-prefixed access unit that begins with such a unit is taken
    for Annex B and the unit comes out with the low length byte in front of it. *)
Lemma length_prefix_read_as_start_code nal :
  nal_clean nal -> 256 <= zlen nal < 512 -> nal !! 0%nat <> Some 0 ->
  split_access_unit (length_prefixed [nal]) = [(zlen nal - 256) :: nal].
Proof.
  intros (Hne & Hf & Hl) Hz H0.
  assert (length_prefixed [nal] = annexb [(Short, (zlen nal - 256) :: nal)]) as ->.
  { unfold length_prefixed, annexb. cbn. rewrite !app_nil_r.
    unfold u8. rewrite !Z.shiftr_div_pow2 by lia.
    change (2 ^ 24) with 16777216. change (2 ^ 16) with 65536. change (2 ^ 8) with 256.
    repeat f_equal; lia. }
  rewrite split_annexb; [done|done|]. constructor; [|done]. cbn [snd].
  destruct nal as [|x nal]; [done|]. cbn in H0.
  split_and!; [done| |done].
  cbn [find0 is_prefix] in *. destruct (Z.eqb_spec 0 x); [congruence|].
  cbn [andb] in *. rewrite andb_false_r. by destruct (find0 [0; 0; 1] nal).
Qed.

Lemma length_prefix_read_as_start_code_witness :
  split_access_unit (length_prefixed [replicate 300 101]) = [44 :: replicate 300 101].
Proof.
  apply (length_prefix_read_as_start_code (replicate 300 101));
    [apply nal_clean_dec; vm_compute; reflexivity|vm_compute; intuition congruence|discriminate].
Defined.

(** One to three bytes after the last length-prefixed unit make the splitter
    return the units and, after them, the whole access unit once more. *)
Lemma trailing_bytes_duplicate_access_unit nals tail :
  Forall (fun n => 0 < zlen n < 4294967296) nals ->
  (0 < length tail < 4)%nat ->
  (forall k, start_code_of (drop k (length_prefixed nals ++ tail)) = 0%nat) ->
  split_access_unit (length_prefixed nals ++ tail) = nals ++ [length_prefixed nals ++ tail].
Proof.
  intros Hn Ht Hs. unfold split_access_unit. rewrite find_start_code_none by done.
  pose proof (length_length_prefixed nals).
  pose proof (length_prefixed_loop_units (S (length (length_prefixed nals ++ tail))) [] nals tail [] Hn
                ltac:(rewrite length_app; lia) ltac:(lia)) as E.
  cbn [app length] in E. rewrite E.
  replace (length (length_prefixed nals) =? length (length_prefixed nals ++ tail))%nat with false.
  - rewrite andb_false_r. destruct (length_prefixed nals ++ tail) eqn:E'; [|done].
    apply app_nil in E' as [_ ->]. cbn in Ht. lia.
  - symmetry. apply Nat.eqb_neq. rewrite length_app. lia.
Qed.

Lemma trailing_bytes_duplicate_access_unit_witness :
  split_access_unit (length_prefixed [[103; 1]] ++ [9]) = [[103; 1]; [0; 0; 0; 2; 103; 1; 9]].
Proof.
  apply (trailing_bytes_duplicate_access_unit [[103; 1]] [9]).
  - apply Forall_cons; split; [split; reflexivity|apply Forall_nil; exact I].
  - cbn; lia.
  - intros k. do 8 (destruct k as [|k]; [reflexivity|]). reflexivity.
Defined.

(** ** No empty NAL units *)

Lemma annexb_loop_nonempty f data pos : Forall (fun n => n <> []) (annexb_loop f data pos).
Proof.
  revert pos; induction f as [|f IH]; intros pos; cbn [annexb_loop]; [done|].
  destruct (pos <? length data)%nat; [|done].
  destruct (start_code_size data pos =? 0)%nat; [done|].
  apply Forall_app. split; [|done].
  set (i := (pos + start_code_size data pos)%nat).
  destruct (Nat.ltb_spec i (scan_next data i)); [|done].
  constructor; [|done]. intros E%(f_equal length). unfold substr in E.
  rewrite length_take, length_drop in E. cbn [length] in E.
  unfold scan_next in *. destruct (find_start_code _ _ _) as [k|] eqn:Ek; cbn [from_option id] in *; [|lia].
  apply find_start_code_Some in Ek. lia.
Qed.

Lemma read_u32_nonneg s : bytes_ok s -> 0 <= read_u32 s.
Proof.
  intros Hs. unfold read_u32.
  assert (forall k, 0 <= default 0 (s !! k)) as H.
  { intros k. destruct (s !! k) as [x|] eqn:E; cbn; [|lia].
    eapply Forall_lookup_1 in E; [|done]. unfold byte_ok in E. lia. }
  rewrite !Z.lor_nonneg, !Z.shiftl_nonneg. auto.
Qed.

Lemma length_prefixed_loop_nonempty f data pos acc :
  bytes_ok data -> Forall (fun n => n <> []) acc ->
  Forall (fun n => n <> []) (fst (length_prefixed_loop f data pos acc)).
Proof.
  intros Hd. revert pos acc; induction f as [|f IH]; intros pos acc Ha; cbn [length_prefixed_loop]; [done|].
  destruct (Nat.leb_spec (pos + 4) (length data)); [|done].
  pose proof (read_u32_nonneg (drop pos data) ltac:(auto with rtsps)).
  destruct (_ || _) eqn:E; [constructor|]. bprop. apply IH. apply Forall_app. split; [done|].
  constructor; [|done]. intros E'%(f_equal length). unfold substr in E'.
  rewrite length_take, length_drop in E'. cbn [length] in E'. unfold zlen in *. lia.
Qed.

Lemma split_access_unit_nonempty data :
  bytes_ok data -> Forall (fun n => n <> []) (split_access_unit data).
Proof.
  intros Hd. unfold split_access_unit. destruct (find_start_code _ data 0) as [k|].
  { apply annexb_loop_nonempty. }
  pose proof (length_prefixed_loop_nonempty (S (length data)) data 0 [] Hd (Forall_nil_2 _)) as H.
  destruct (length_prefixed_loop _ data 0 []) as [ns pos]. cbn [fst] in H.
  destruct (negb _ && _); [done|]. destruct data; [done|]. apply Forall_app. split; [done|]. by constructor.
Qed.

(** ** Interleaved frames *)

Lemma interleaved_frame_ok channel packet frame :
  interleaved channel packet = Ok frame ->
  frame_ok frame /\ frame !! 1%nat = Some (u8 channel) /\ drop 4 frame = packet.
Proof.
  unfold interleaved. destruct (zlen packet >? 65535) eqn:E; [done|]. bprop. intros [= <-].
  pose proof (zlen_nonneg packet). unfold append_u16. cbn [app].
  replace (u16 (zlen packet)) with (zlen packet) by (unfold u16; lia).
  split_and!; [|done|done].
  exists (u8 channel), (u8 (Z.shiftr (zlen packet) 8)), (u8 (zlen packet)), packet. split; [done|].
  unfold interleaved_len. cbn [lookup list_lookup from_option id].
  rewrite !(u8_id (u8 _)) by apply u8_ok.
  pose proof (u8_range (zlen packet)). pose proof (u8_range (Z.shiftr (zlen packet) 8)).
  rewrite lor_shiftl_add by (cbn; lia). change (2 ^ 8) with 256. rewrite be16_u8 by lia.
  unfold u16. lia.
Qed.

(** ** RTCP sender reports *)

(** A sender report is one 28-byte SR packet; its NTP seconds are the wall
    clock seconds since 1900 modulo [2 ^ 32], its NTP fraction is the exact
    binary fraction of the current second (no overflow), and the counters are the
    session's packet and octet counts modulo [2 ^ 32]. *)
Lemma sender_report_fields ssrc packets octets now rtp_ts :
  0 <= now -> 0 <= ssrc < 4294967296 -> 0 <= rtp_ts < 4294967296 ->
  let report := make_rtcp_sender_report ssrc packets octets now rtp_ts in
  zlen report = 28 /\ read_u32 (drop 4 report) = ssrc /\
  read_u32 (drop 8 report) = (now / 1000000000 + 2208988800) mod 4294967296 /\
  read_u32 (drop 12 report) = (now mod 1000000000) * 4294967296 / 1000000000 /\
  read_u32 (drop 16 report) = rtp_ts /\
  read_u32 (drop 20 report) = packets mod 4294967296 /\
  read_u32 (drop 24 report) = octets mod 4294967296.
Proof.
  intros Hn Hs Hr report. unfold report, make_rtcp_sender_report.
  rewrite Z.quot_div_nonneg by lia.
  set (sec := now / 1000000000). set (ns := now - sec * 1000000000).
  assert (0 <= ns < 1000000000) as Hns by lia.
  assert (u32 (u64 (sec + 2208988800)) = (sec + 2208988800) mod 4294967296) as -> by (unfold u32, u64; lia).
  assert (u32 (u64 (Z.shiftl (u64 ns) 32) / 1000000000) = ns * 4294967296 / 1000000000) as ->.
  { rewrite Z.shiftl_mul_pow2 by lia. change (2 ^ 32) with 4294967296.
    replace (u64 ns) with ns by (unfold u64; lia).
    unfold u32, u64. rewrite (Z.mod_small (ns * 4294967296)) by lia. apply Z.mod_small. lia. }
  replace (now mod 1000000000) with ns by lia.
  assert (0 <= ns * 4294967296 / 1000000000 < 4294967296) as Hfr by lia.
  unfold append_u16, append_u32, u32. cbn [app drop].
  rewrite !read_u32_bytes by apply u8_ok. rewrite !be32_u8 by lia. done.
Qed.

Lemma sender_report_fields_witness :
  zlen (make_rtcp_sender_report 7 3 300 1700000000500000000 90000) = 28.
Proof. refine (proj1 (sender_report_fields 7 3 300 1700000000500000000 90000 _ _ _)); lia. Defined.

(** ** Base64 *)

Definition base64_index (c : Z) : Z := Z.of_nat (default 0%nat (find_if (Z.eqb c) base64_alphabet)).

Definition sextets (a b c d : Z) : Z :=
  ((base64_index a * 64 + base64_index b) * 64 + base64_index c) * 64 + base64_index d.

(** RFC 4648 section 4, for padded input. *)
Fixpoint base64_decode (s : bytes) : bytes :=
  match s with
  | a :: b :: c :: d :: rest =>
    if d =? 61 then
      if c =? 61 then [sextets a b 65 65 / 65536]
      else [sextets a b c 65 / 65536; sextets a b c 65 / 256 mod 256]
    else sextets a b c d / 65536 :: sextets a b c d / 256 mod 256 :: sextets a b c d mod 256 :: base64_decode rest
  | _ => []
  end.

Lemma base64_char_ok i :
  0 <= i < 64 -> base64_index (base64_char i) = i /\ (base64_char i =? 61) = false.
Proof.
  intros Hi.
  assert (forallb (fun k => (base64_index (base64_char k) =? k) && negb (base64_char k =? 61)) (seqZ 0 64) = true)
    as H by (vm_compute; reflexivity).
  rewrite forallb_forall in H. specialize (H i). rewrite <- list_elem_of_In, elem_of_seqZ in H.
  specialize (H ltac:(lia)). bprop. split; [done|by apply Z.eqb_neq].
Qed.

Lemma base64_index_char i : 0 <= i < 64 -> base64_index (base64_char i) = i.
Proof. apply base64_char_ok. Qed.
Lemma base64_char_not_pad i : 0 <= i < 64 -> (base64_char i =? 61) = false.
Proof. apply base64_char_ok. Qed.

(** The 24-bit group of three bytes and its four sextets. *)
Lemma base64_group a b c :
  byte_ok a -> byte_ok b -> byte_ok c ->
  let value := Z.lor (Z.lor (Z.shiftl a 16) (Z.shiftl b 8)) c in
  let out := fun k => base64_char (Z.land (Z.shiftr value k) 63) in
  value = (a * 256 + b) * 256 + c /\ 0 <= value < 16777216 /\
  base64_index (out 18) = value / 262144 /\ base64_index (out 12) = value / 4096 mod 64 /\
  base64_index (out 6) = value / 64 mod 64 /\ base64_index (out 0) = value mod 64 /\
  (out 6 =? 61) = false /\ (out 0 =? 61) = false.
Proof.
  intros Ha Hb Hc value out. unfold byte_ok in *.
  assert (value = (a * 256 + b) * 256 + c) as Hv.
  { unfold value. change 16 with (8 + 8). rewrite <- (Z.shiftl_shiftl a 8 8), <- Z.shiftl_lor by lia.
    by rewrite !lor_shiftl_add by (cbn; lia). }
  assert (forall k, 0 <= k -> Z.land (Z.shiftr value k) 63 = value / 2 ^ k mod 64) as Hk.
  { intros k Hk. rewrite Z.shiftr_div_pow2 by done. change 63 with (Z.ones 6). by rewrite Z.land_ones by lia. }
  unfold out. rewrite !Hk by lia.
  change (2 ^ 18) with 262144. change (2 ^ 12) with 4096. change (2 ^ 6) with 64. change (2 ^ 0) with 1.
  rewrite Z.div_1_r. clearbody value. rewrite (Z.mod_small (value / 262144)) by lia.
  rewrite !base64_index_char, !base64_char_not_pad by lia. split_and!; done || lia.
Qed.

Lemma base64_decode_encode_fuel n input :
  (length input <= n)%nat -> bytes_ok input -> base64_decode (base64_encode input) = input.
Proof.
  revert input; induction n as [|n IH]; intros input Hn Hok; [by destruct input; [|cbn in Hn; lia]|].
  assert (byte_ok 0) as H0 by (unfold byte_ok; lia).
  assert (base64_index 65 = 0) as H65 by done.
  unfold bytes_ok in Hok. destruct input as [|a [|b [|c rest]]]; [done| | |];
    repeat match goal with H : Forall _ (_ :: _) |- _ => apply Forall_cons in H as [? H] end;
    cbn [base64_encode base64_decode].
  - destruct (base64_group a 0 0) as (Hv & Hr & Hi1 & Hi2 & _); try done.
    rewrite !Z.eqb_refl. unfold sextets. rewrite Hi1, Hi2, H65. f_equal. unfold byte_ok in *. lia.
  - destruct (base64_group a b 0) as (Hv & Hr & Hi1 & Hi2 & Hi3 & _ & Hi5 & _); try done.
    rewrite Z.eqb_refl, Hi5. unfold sextets. rewrite Hi1, Hi2, Hi3, H65.
    unfold byte_ok in *. repeat f_equal; lia.
  - destruct (base64_group a b c) as (Hv & Hr & Hi1 & Hi2 & Hi3 & Hi4 & _ & Hi6); try done.
    rewrite Hi6. unfold sextets. rewrite Hi1, Hi2, Hi3, Hi4.
    rewrite IH; [|cbn in Hn; lia|done]. unfold byte_ok in *. repeat f_equal; lia.
Qed.

(** Decoding the Base64 text of a parameter set gives the parameter set. *)
Lemma base64_round_trip input :
  bytes_ok input -> base64_decode (base64_encode input) = input.
Proof. by apply (base64_decode_encode_fuel (length input)). Qed.

Lemma base64_round_trip_witness : base64_decode (base64_encode [103; 66; 0; 31; 255]) = [103; 66; 0; 31; 255].
Proof.
  apply base64_round_trip. repeat (apply Forall_cons; split; [unfold byte_ok; lia|]). apply Forall_nil. exact I.
Defined.
