(* ===== verification/FrameQueue.v ===== *)
(** * The bounded per-client frame queue (src/live/live_rtsp_server.cpp, BoundedFrameQueue)

    Each operation runs under the queue's mutex, so an execution is a sequence of
    operations.  [std::size_t] and [std::uint64_t] counters wrap at [2 ^ 64].  The
    specification ([latest]) is the drop-oldest policy; the queue refines it. *)

From S2P Require Import Prelude CStr Rtp.

Record OwnedLiveFrame := {
  f_data : bytes;
  f_pts_ns : Z;
  f_duration_ns : Z;
  f_key_frame : bool;
  f_channel_id : Z;
  f_codec : VideoCodec
}.

#[export] Instance OwnedLiveFrame_eq_dec : EqDecision OwnedLiveFrame.
Proof. solve_decision. Defined.

Definition f_size (f : OwnedLiveFrame) : Z := zlen (f_data f).

Record BoundedFrameQueue := {
  q_max_frames : Z;
  q_max_bytes : Z;
  q_frames : list OwnedLiveFrame;
  q_bytes : Z;
  q_drops : Z;
  q_closed : bool
}.

(** The constructor. *)
Definition queue_new (max_frames max_bytes : Z) : result BoundedFrameQueue :=
  if (max_frames =? 0) || (max_bytes =? 0) then Throw $"live client queue limits must be non-zero"
  else Ok {| q_max_frames := max_frames; q_max_bytes := max_bytes; q_frames := []; q_bytes := 0;
             q_drops := 0; q_closed := false |}.

Definition with_frames (q : BoundedFrameQueue) (frames : list OwnedLiveFrame) (bytes_ drops : Z) : BoundedFrameQueue :=
  {| q_max_frames := q_max_frames q; q_max_bytes := q_max_bytes q; q_frames := frames; q_bytes := bytes_;
     q_drops := drops; q_closed := q_closed q |}.

(** [while (!frames_.empty() && (frames_.size() >= max_frames_ || bytes_ + size > max_bytes_))] *)
Fixpoint drop_oldest (max_frames max_bytes size : Z) (frames : list OwnedLiveFrame) (bytes_ drops : Z) (dropped : bool)
    : list OwnedLiveFrame * Z * Z * bool :=
  match frames with
  | [] => ([], bytes_, drops, dropped)
  | front :: rest =>
    if (zlen frames >=? max_frames) || (u64 (bytes_ + size) >? max_bytes)
    then drop_oldest max_frames max_bytes size rest (u64 (bytes_ - f_size front)) (u64 (drops + 1)) true
    else (frames, bytes_, drops, dropped)
  end.

Definition push (q : BoundedFrameQueue) (frame : option OwnedLiveFrame) : bool * BoundedFrameQueue :=
  match frame with
  | None => (false, q)
  | Some f =>
    if q_closed q then (false, q)
    else if f_size f >? q_max_bytes q then (false, with_frames q (q_frames q) (q_bytes q) (u64 (q_drops q + 1)))
    else
      let '(frames, bytes_, drops, dropped) :=
        drop_oldest (q_max_frames q) (q_max_bytes q) (f_size f) (q_frames q) (q_bytes q) (q_drops q) false in
      (negb dropped, with_frames q (frames ++ [f]) (u64 (bytes_ + f_size f)) drops)
  end.

Definition try_pop (q : BoundedFrameQueue) : option OwnedLiveFrame * BoundedFrameQueue :=
  match q_frames q with
  | [] => (None, q)
  | front :: rest => (Some front, with_frames q rest (u64 (q_bytes q - f_size front)) (q_drops q))
  end.

Definition close (q : BoundedFrameQueue) : BoundedFrameQueue :=
  {| q_max_frames := q_max_frames q; q_max_bytes := q_max_bytes q; q_frames := []; q_bytes := 0;
     q_drops := q_drops q; q_closed := true |}.

(** [size()], [bytes()] and [drops()] read one field under the lock. *)
Definition queue_size (q : BoundedFrameQueue) : Z := zlen (q_frames q).
Definition queue_bytes (q : BoundedFrameQueue) : Z := q_bytes q.
Definition queue_drops (q : BoundedFrameQueue) : Z := q_drops q.

(** ** Specification: keep the latest frames that fit *)

Definition total (frames : list OwnedLiveFrame) : Z := foldr (fun f n => f_size f + n) 0 frames.

Definition fits (max_frames max_bytes : Z) (frames : list OwnedLiveFrame) : bool :=
  (zlen frames <=? max_frames) && (total frames <=? max_bytes).

(** The longest suffix that fits. *)
Fixpoint latest (max_frames max_bytes : Z) (frames : list OwnedLiveFrame) : list OwnedLiveFrame :=
  match frames with
  | [] => []
  | _ :: rest => if fits max_frames max_bytes frames then frames else latest max_frames max_bytes rest
  end.

(** ** Invariant *)

Record queue_ok (q : BoundedFrameQueue) : Prop := {
  ok_max_frames : 0 < q_max_frames q;
  ok_max_bytes : 0 < q_max_bytes q <= 9223372036854775807;
  ok_bytes : q_bytes q = total (q_frames q);
  ok_fits : fits (q_max_frames q) (q_max_bytes q) (q_frames q) = true;
  ok_drops : 0 <= q_drops q < 18446744073709551616;
  ok_closed : q_closed q = true -> q_frames q = []
}.

Lemma f_size_nonneg f : 0 <= f_size f.
Proof. apply zlen_nonneg. Qed.

Lemma total_nonneg frames : 0 <= total frames.
Proof. induction frames as [|f fs IH]; cbn; [lia|]. pose proof (f_size_nonneg f). unfold total in IH. lia. Qed.

Lemma total_app a b : total (a ++ b) = total a + total b.
Proof. induction a as [|f a IH]; cbn [app total foldr]; [done|]. unfold total in IH |- *. cbn. lia. Qed.

Lemma total_snoc a f : total (a ++ [f]) = total a + f_size f.
Proof. rewrite total_app. cbn. lia. Qed.

Lemma fits_iff mf mb frames : fits mf mb frames = true <-> zlen frames <= mf /\ total frames <= mb.
Proof. unfold fits. rewrite andb_true_iff, !Z.leb_le. done. Qed.

Lemma latest_fits mf mb frames :
  0 < mf -> 0 < mb -> fits mf mb (latest mf mb frames) = true.
Proof.
  intros Hf Hb. induction frames as [|f fs IH]; cbn [latest].
  - apply fits_iff. rewrite zlen_nil. cbn. lia.
  - destruct (fits mf mb (f :: fs)) eqn:E; done.
Qed.

Lemma latest_id mf mb frames : fits mf mb frames = true -> latest mf mb frames = frames.
Proof. destruct frames; cbn [latest]; [done|]. by intros ->. Qed.

Lemma latest_suffix mf mb frames : latest mf mb frames `suffix_of` frames.
Proof.
  induction frames as [|f fs IH]; cbn [latest]; [done|].
  destruct (fits mf mb (f :: fs)); [done|]. by apply suffix_cons_r.
Qed.

(** The drop loop computes the latest frames of the queue extended with the new
    frame; [drops] grows by the number of frames dropped. *)
Lemma drop_oldest_latest mf mb f frames b d dr :
  0 < mf -> 0 < mb <= 9223372036854775807 -> f_size f <= mb -> b = total frames ->
  total frames <= 9223372036854775807 -> 0 <= d < 18446744073709551616 ->
  exists kept, latest mf mb (frames ++ [f]) = kept ++ [f] /\ kept `suffix_of` frames /\
    drop_oldest mf mb (f_size f) frames b d dr =
    (kept, total kept, u64 (d + (zlen frames - zlen kept)), dr || bool_decide (kept <> frames)).
Proof.
  intros Hmf Hmb Hf. revert b d dr; induction frames as [|g fs IH]; intros b d dr Hb Ht Hd.
  - exists []. cbn [app latest drop_oldest]. split_and!; [|done|].
    + destruct (fits mf mb [f]) eqn:E; [done|]. apply not_true_iff_false in E.
      destruct E. apply fits_iff. rewrite zlen_cons, zlen_nil. cbn. lia.
    + rewrite bool_decide_eq_false_2, orb_false_r by (intros H; by apply H). subst b.
      change (zlen (@nil OwnedLiveFrame) - zlen (@nil OwnedLiveFrame)) with 0.
      rewrite Z.add_0_r. unfold u64. by rewrite Z.mod_small.
  - pose proof (f_size_nonneg f). pose proof (f_size_nonneg g). pose proof (total_nonneg fs).
    assert (total (g :: fs) = f_size g + total fs) as Hg by done.
    cbn [app latest drop_oldest]. subst b.
    assert (u64 (total (g :: fs) + f_size f) = total (g :: fs) + f_size f) as ->
      by (unfold u64; rewrite Z.mod_small; lia).
    assert (fits mf mb (g :: fs ++ [f]) =
            negb ((zlen (g :: fs) >=? mf) || (total (g :: fs) + f_size f >? mb))) as ->.
    { unfold fits. change (g :: fs ++ [f]) with ((g :: fs) ++ [f]).
      rewrite total_snoc, zlen_app. change (zlen [f]) with 1.
      destruct (Z.leb_spec (zlen (g :: fs) + 1) mf), (Z.geb_spec (zlen (g :: fs)) mf);
        destruct (Z.leb_spec (total (g :: fs) + f_size f) mb), (Z.gtb_spec (total (g :: fs) + f_size f) mb);
        cbn; done || lia. }
    destruct (_ || _) eqn:E; cbn [negb].
    + assert (u64 (total (g :: fs) - f_size g) = total fs) as -> by (unfold u64; rewrite Z.mod_small; lia).
      destruct (IH (total fs) (u64 (d + 1)) true eq_refl ltac:(lia) ltac:(unfold u64; lia)) as (k & Hk & Hs & ->).
      exists k. split_and!; [done|by apply suffix_cons_r|]. f_equal; [f_equal|].
      * rewrite zlen_cons. unfold u64. rewrite Zplus_mod_idemp_l. f_equal. lia.
      * rewrite (bool_decide_eq_true_2 (k <> g :: fs)); [by rewrite orb_true_r|].
        intros ->. apply suffix_length in Hs. cbn in Hs. lia.
    + exists (g :: fs). split_and!; [done|done|].
      rewrite bool_decide_eq_false_2, orb_false_r by (intros H'; by apply H').
      rewrite Z.sub_diag, Z.add_0_r. unfold u64. by rewrite Z.mod_small.
Qed.

Lemma push_spec q f :
  queue_ok q -> q_closed q = false -> f_size f <= q_max_bytes q ->
  exists kept, latest (q_max_frames q) (q_max_bytes q) (q_frames q ++ [f]) = kept ++ [f] /\
    kept `suffix_of` q_frames q /\
    push q (Some f) =
    (bool_decide (kept = q_frames q),
     with_frames q (kept ++ [f]) (total (kept ++ [f])) (u64 (q_drops q + (zlen (q_frames q) - zlen kept)))).
Proof.
  intros [Hmf Hmb Hb [Hz Ht]%fits_iff Hd Hc] Ho Hs. cbn [push]. rewrite Ho.
  replace (f_size f >? q_max_bytes q) with false by lia.
  destruct (drop_oldest_latest (q_max_frames q) (q_max_bytes q) f (q_frames q) (q_bytes q) (q_drops q) false)
    as (k & Hk & Hsuf & ->); try (done || lia).
  exists k. split_and!; [done|done|]. cbn [orb]. f_equal.
  - destruct (decide (k = q_frames q)) as [E|E].
    + rewrite bool_decide_eq_false_2, bool_decide_eq_true_2 by (done || (intros H; by apply H)). done.
    + rewrite bool_decide_eq_true_2, bool_decide_eq_false_2 by done. done.
  - rewrite total_snoc. f_equal. pose proof (latest_fits (q_max_frames q) (q_max_bytes q) (q_frames q ++ [f])
      ltac:(done) ltac:(lia)) as Hl.
    rewrite Hk in Hl. apply fits_iff in Hl as [_ Hl]. rewrite total_snoc in Hl.
    pose proof (total_nonneg k). pose proof (f_size_nonneg f). unfold u64. rewrite Z.mod_small; lia.
Qed.

Lemma push_ok q frame : queue_ok q -> queue_ok (snd (push q frame)).
Proof.
  intros Hq. pose proof Hq as [Hmf Hmb Hb Hfit Hd Hc]. destruct frame as [f|]; [|done].
  destruct (q_closed q) eqn:Ec; [by cbn [push]; rewrite Ec|].
  destruct (decide (f_size f <= q_max_bytes q)) as [Hs|Hs].
  - destruct (push_spec q f Hq Ec Hs) as (k & Hk & _ & ->).
    constructor; cbn [snd with_frames q_max_frames q_max_bytes q_frames q_bytes q_drops q_closed]; try done.
    + rewrite <- Hk. apply latest_fits; [done|lia].
    + unfold u64. lia.
    + by rewrite Ec.
  - cbn [push]. rewrite Ec. replace (f_size f >? q_max_bytes q) with true by lia.
    constructor; cbn [snd with_frames q_max_frames q_max_bytes q_frames q_bytes q_drops q_closed]; try done.
    + unfold u64. lia.
    + by rewrite Ec.
Qed.

Lemma try_pop_ok q : queue_ok q -> queue_ok (snd (try_pop q)).
Proof.
  intros Hq. pose proof Hq as [Hmf Hmb Hb Hfit Hd Hc].
  unfold try_pop. destruct (q_frames q) as [|f fs] eqn:E; [done|].
  apply fits_iff in Hfit as [Hz Ht].
  assert (total (f :: fs) = f_size f + total fs) as Hg by done.
  pose proof (f_size_nonneg f). pose proof (total_nonneg fs). rewrite zlen_cons in Hz.
  constructor; cbn [snd with_frames q_max_frames q_max_bytes q_frames q_bytes q_drops q_closed]; try done.
  - rewrite Hb. unfold u64. rewrite Z.mod_small; lia.
  - apply fits_iff. lia.
  - intros Hcl. by specialize (Hc Hcl).
Qed.

Lemma close_ok q : queue_ok q -> queue_ok (close q).
Proof. intros []. constructor; cbn; try done. apply fits_iff. rewrite zlen_nil. cbn. lia. Qed.

Lemma queue_new_ok mf mb q :
  0 <= mf -> 0 <= mb <= 9223372036854775807 -> queue_new mf mb = Ok q -> queue_ok q.
Proof.
  intros Hf Hb. unfold queue_new. destruct (_ || _) eqn:E; [done|]. bprop. intros [= <-].
  constructor; cbn; try (done || lia). apply fits_iff. rewrite zlen_nil. cbn. lia.
Qed.
#[export] Hint Resolve push_ok try_pop_ok close_ok queue_new_ok : rtsps.

(** ** Executions *)

Inductive queue_op := OpPush (frame : option OwnedLiveFrame) | OpPop | OpClose.

(** The frames popped, in order, and the final queue. *)
Fixpoint run_queue (q : BoundedFrameQueue) (ops : list queue_op) : list OwnedLiveFrame * BoundedFrameQueue :=
  match ops with
  | [] => ([], q)
  | OpPush f :: ops' => run_queue (snd (push q f)) ops'
  | OpPop :: ops' =>
    let '(o, q') := try_pop q in
    let '(popped, q'') := run_queue q' ops' in
    (match o with Some f => f :: popped | None => popped end, q'')
  | OpClose :: ops' => run_queue (close q) ops'
  end.

Definition pushed (ops : list queue_op) : list OwnedLiveFrame :=
  omap (fun op => match op with OpPush f => f | _ => None end) ops.

(** Whatever producers and the consumer do, in any order, from construction
    on the queue holds at most [max_frames] frames and [max_bytes] bytes, its byte
    counter is the sum of the queued sizes, and once closed it stays empty. *)
Lemma queue_always_ok mf mb q0 ops :
  0 <= mf -> 0 <= mb <= 9223372036854775807 -> queue_new mf mb = Ok q0 ->
  queue_ok (snd (run_queue q0 ops)).
Proof.
  intros Hf Hb Hq%queue_new_ok; [|done|done]. revert q0 Hq.
  induction ops as [|[f| |] ops IH]; intros q Hq; cbn [run_queue]; auto with rtsps.
  pose proof (try_pop_ok q Hq) as Hp. destruct (try_pop q) as [o q'].
  specialize (IH q' Hp). by destruct (run_queue q' ops).
Qed.

Definition sample_frame (n : nat) (b : Z) : OwnedLiveFrame :=
  {| f_data := replicate n b; f_pts_ns := 0; f_duration_ns := 0; f_key_frame := true; f_channel_id := 1;
     f_codec := H264 |}.

Definition sample_queue : BoundedFrameQueue :=
  {| q_max_frames := 2; q_max_bytes := 64; q_frames := []; q_bytes := 0; q_drops := 0; q_closed := false |}.

Lemma queue_always_ok_witness :
  queue_ok (snd (run_queue sample_queue [OpPush (Some (sample_frame 16 1)); OpPop; OpClose])).
Proof. apply (queue_always_ok 2 64); [lia|lia|reflexivity]. Defined.

(** C8: the queue refines the drop-oldest policy.  A frame that fits alone makes
    the queue hold exactly the latest frames that respect both limits, the new one
    last; [drops] grows by the number of frames discarded, and the result tells
    whether none was.  An oversized frame only counts as a drop, and a closed
    queue ignores the frame. *)
Theorem push_refines_latest q f :
  queue_ok q ->
  if q_closed q then push q (Some f) = (false, q)
  else if f_size f >? q_max_bytes q then
    push q (Some f) = (false, with_frames q (q_frames q) (q_bytes q) (u64 (q_drops q + 1)))
  else
    let frames' := latest (q_max_frames q) (q_max_bytes q) (q_frames q ++ [f]) in
    let dropped := zlen (q_frames q) + 1 - zlen frames' in
    push q (Some f) = (dropped =? 0, with_frames q frames' (total frames') (u64 (q_drops q + dropped))) /\
    last frames' = Some f.
Proof.
  intros Hq. destruct (q_closed q) eqn:Ec; [by cbn [push]; rewrite Ec|].
  destruct (f_size f >? q_max_bytes q) eqn:Es; [by cbn [push]; rewrite Ec, Es|]. bprop.
  destruct (push_spec q f Hq Ec Es) as (k & Hk & Hs & ->). cbn zeta. rewrite Hk.
  rewrite zlen_app, last_snoc. change (zlen [f]) with 1. split; [|done].
  replace (zlen (q_frames q) + 1 - (zlen k + 1)) with (zlen (q_frames q) - zlen k) by lia. f_equal.
  destruct Hs as [pre Hpre].
  assert (zlen (q_frames q) = zlen pre + zlen k) as Hz by (rewrite Hpre; apply zlen_app).
  destruct (Z.eqb_spec (zlen (q_frames q) - zlen k) 0) as [E|E].
  - apply bool_decide_eq_true_2. assert (pre = []) as -> by (apply zlen_zero; lia). done.
  - apply bool_decide_eq_false_2. intros E'. rewrite E' in E. lia.
Qed.

Lemma push_refines_latest_witness :
  snd (push (snd (push (snd (push sample_queue (Some (sample_frame 16 1)))) (Some (sample_frame 16 2))))
            (Some (sample_frame 16 3))) =
  with_frames sample_queue [sample_frame 16 2; sample_frame 16 3] 32 1.
Proof.
  refine (f_equal snd (proj1 (push_refines_latest
    (snd (push (snd (push sample_queue (Some (sample_frame 16 1)))) (Some (sample_frame 16 2))))
    (sample_frame 16 3) _))).
  apply push_ok, push_ok, (queue_new_ok 2 64); [lia|lia|reflexivity].
Defined.

Lemma run_queue_sublist q ops :
  queue_ok q ->
  fst (run_queue q ops) ++ q_frames (snd (run_queue q ops)) `sublist_of` q_frames q ++ pushed ops.
Proof.
  revert q; induction ops as [|[f| |] ops IH]; intros q Hq; cbn [run_queue].
  - cbn. by rewrite app_nil_r.
  - etrans; [apply IH; by apply push_ok|]. destruct f as [f|]; [|done].
    change (pushed (OpPush (Some f) :: ops)) with (f :: pushed ops).
    destruct (q_closed q) eqn:Ec.
    { cbn [push]. rewrite Ec. apply sublist_app; [done|by apply sublist_cons]. }
    destruct (decide (f_size f <= q_max_bytes q)) as [Hs|Hs].
    + destruct (push_spec q f Hq Ec Hs) as (k & _ & [pre ->] & ->). cbn [snd with_frames q_frames].
      rewrite <- !app_assoc. cbn [app]. by apply sublist_inserts_l.
    + cbn [push]. rewrite Ec. replace (f_size f >? q_max_bytes q) with true by lia.
      apply sublist_app; [done|by apply sublist_cons].
  - pose proof (try_pop_ok q Hq) as Hp. change (pushed (OpPop :: ops)) with (pushed ops).
    unfold try_pop in *. destruct (q_frames q) as [|f fs] eqn:E.
    + specialize (IH q Hq). rewrite E in IH. destruct (run_queue q ops). exact IH.
    + specialize (IH _ Hp). cbn [snd with_frames q_frames] in IH.
      destruct (run_queue _ ops) as [popped q']. cbn [fst snd app] in *. by apply sublist_skip.
  - etrans; [apply IH; by apply close_ok|]. cbn [close q_frames app]. by apply sublist_inserts_l.
Qed.

(** A consumer sees pushed frames in push order, each at most once: the
    frames popped so far followed by the frames still queued are a subsequence of
    the frames pushed. *)
Lemma queue_fifo mf mb q0 ops :
  0 <= mf -> 0 <= mb <= 9223372036854775807 -> queue_new mf mb = Ok q0 ->
  fst (run_queue q0 ops) ++ q_frames (snd (run_queue q0 ops)) `sublist_of` pushed ops.
Proof.
  intros Hf Hb Hnew. pose proof (queue_new_ok _ _ _ Hf Hb Hnew) as Hq.
  pose proof (run_queue_sublist q0 ops Hq) as H. unfold queue_new in Hnew.
  destruct (_ || _); [done|]. injection Hnew as <-. exact H.
Qed.

Lemma queue_fifo_witness :
  let ops := [OpPush (Some (sample_frame 16 1)); OpPush (Some (sample_frame 16 2)); OpPop] in
  fst (run_queue sample_queue ops) ++ q_frames (snd (run_queue sample_queue ops)) `sublist_of` pushed ops.
Proof. apply (queue_fifo 2 64); [lia|lia|reflexivity]. Defined.
