(* ===== verification/Control.v ===== *)
(** * The RTSP control plane (src/live/live_rtsp_server.cpp, request handling)

    Responses, SDP, the Transport and Session headers, the public channel path
    and [process_rtsp_request] with its per-connection state machine.  The two
    words read from [std::random_device] for a session id are arguments. *)

From S2P Require Import Prelude CStr Parser Rtp.

Definition random_session_id (r1 r2 : Z) : bytes :=
  pad_left 8 48 (hex_unsigned (u32 r1)) ++ pad_left 8 48 (hex_unsigned (u32 r2)).

Definition reason_phrase (status : Z) : bytes :=
  if status =? 200 then $"OK"
  else if status =? 400 then $"Bad Request"
  else if status =? 404 then $"Not Found"
  else if status =? 405 then $"Method Not Allowed"
  else if status =? 454 then $"Session Not Found"
  else if status =? 455 then $"Method Not Valid in This State"
  else if status =? 461 then $"Unsupported Transport"
  else $"Error".

Definition make_response (status : Z) (cseq : bytes) (headers : list bytes) (body : bytes) : bytes :=
  $"RTSP/1.0 " ++ to_string status ++ $" " ++ reason_phrase status ++ CRLF ++
  (if is_empty cseq then [] else $"CSeq: " ++ cseq ++ CRLF) ++
  $"Server: rpi-vms-m3" ++ CRLF ++
  concat ((fun header => header ++ CRLF) <$> headers) ++
  (if is_empty body then [] else $"Content-Length: " ++ to_string (zlen body) ++ CRLF) ++
  CRLF ++ body.

Definition valid_session_header (header expected : bytes) : bool :=
  negb (is_empty expected) && (str_eqb header expected || starts_with_ci header (expected ++ $";")).

(** The pair of channels, or [None] when the transport is refused. *)
Definition parse_interleaved_channels (transport : bytes) : option (Z * Z) :=
  match find0 $"rtp/avp/tcp" (lower_copy transport) with
  | None => None
  | Some _ =>
    let lower := lower_copy transport in
    match find0 $"interleaved=" lower with
    | None => Some (0, 1)
    | Some pos =>
      let values := Some (substr_from lower (pos + length $"interleaved=")) in
      let '(rtp_channel, values) := read_int values 0 in
      let '(separator, values) := read_char values 0 in
      let '(rtcp_channel, values) := read_int values 1 in
      if bool_decide (values = None) || negb (separator =? 45) || (rtp_channel <? 0) || (rtcp_channel <? 0) ||
         (rtp_channel >? 255) || (rtcp_channel >? 255) || (rtp_channel =? rtcp_channel)
      then None else Some (rtp_channel, rtcp_channel)
    end
  end.

Definition build_sdp (channel_id : Z) (codec : VideoCodec) (codec_fmtp : bytes) : bytes :=
  $"v=0" ++ CRLF ++
  $"o=- 0 0 IN IP4 0.0.0.0" ++ CRLF ++
  $"s=RPi VMS channel " ++ to_string channel_id ++ CRLF ++
  $"t=0 0" ++ CRLF ++
  $"a=control:*" ++ CRLF ++
  $"m=video 0 RTP/AVP " ++ to_string kPayloadType ++ CRLF ++
  $"a=rtpmap:" ++ to_string kPayloadType ++ $" " ++
    (match codec with H265 => $"H265" | H264 => $"H264" end) ++ $"/90000" ++ CRLF ++
  (if is_empty codec_fmtp then []
   else $"a=fmtp:" ++ to_string kPayloadType ++ $" " ++ codec_fmtp ++ CRLF) ++
  $"a=control:trackID=0" ++ CRLF.

(** ** The public channel path *)

(** The path of a request target: without scheme and authority, query and fragment. *)
Definition public_path (request_target : bytes) : bytes :=
  let path := match find0 $"://" request_target with
              | None => request_target
              | Some scheme => match str_find request_target $"/" (scheme + 3) with
                               | None => $"/"
                               | Some slash => substr_from request_target slash
                               end
              end in
  match find_first_of path $"?#" 0 with
  | None => path
  | Some query => take query path
  end.

Definition parse_public_channel_id (request_target : bytes) : Z :=
  let path := public_path request_target in
  if (zlen path <? 4) || negb (is_prefix $"/ch" path) then -1
  else
    let '(digits, rest) := span is_digit (drop 3 path) in
    if is_empty digits || match rest with c :: _ => negb (c =? 47) | [] => false end then -1
    else match stoi digits with
         | Ok (channel, _) => if (1 <=? channel) && (channel <=? 4) then channel else -1
         | Throw _ => -1
         end.

(** ** The request state machine *)

Inductive RtspControlPhase := Initial | Ready | Playing | Closed.

#[export] Instance RtspControlPhase_eq_dec : EqDecision RtspControlPhase.
Proof. solve_decision. Defined.

Record RtspControlState := {
  phase : RtspControlPhase;
  session_id : bytes;
  channel_id : Z;
  rtp_channel : Z;
  rtcp_channel : Z
}.

Definition initial_control : RtspControlState :=
  {| phase := Initial; session_id := []; channel_id := -1; rtp_channel := 0; rtcp_channel := 1 |}.

Record RtspControlResult := { response : bytes; start_play : bool; close_session : bool }.

Definition with_phase (p : RtspControlPhase) (s : RtspControlState) : RtspControlState :=
  {| phase := p; session_id := session_id s; channel_id := channel_id s; rtp_channel := rtp_channel s;
     rtcp_channel := rtcp_channel s |}.

Definition reply (status : Z) (cseq : bytes) (headers : list bytes) (body : bytes) : RtspControlResult :=
  {| response := make_response status cseq headers body; start_play := false; close_session := false |}.

Definition session_of (request : bytes) : bytes := header_value (message_header_part request) $"Session".

Definition methods_line : bytes := $"OPTIONS, DESCRIBE, SETUP, PLAY, TEARDOWN, GET_PARAMETER".

Definition process_rtsp_request (request : bytes) (registered_channel_id : Z) (codec : VideoCodec)
    (codec_fmtp : bytes) (r1 r2 : Z) (state : RtspControlState) : RtspControlResult * RtspControlState :=
  let cseq := cseq_from_message request in
  if is_empty cseq then
    ({| response := make_response 400 [] [] []; start_play := false; close_session := true |}, state)
  else
  let method := rtsp_method_from_request request in
  let target := extract_request_target request in
  let channel := parse_public_channel_id target in
  if str_eqb method $"OPTIONS" then (reply 200 cseq [$"Public: " ++ methods_line] [], state)
  else if (channel <? 0) || negb (channel =? registered_channel_id) then (reply 404 cseq [] [], state)
  else if str_eqb method $"DESCRIBE" then
    let sdp := build_sdp channel codec codec_fmtp in
    (reply 200 cseq [$"Content-Type: application/sdp"; $"Content-Base: /ch" ++ to_string channel ++ $"/"] sdp, state)
  else if str_eqb method $"SETUP" then
    if negb (bool_decide (phase state = Initial)) then (reply 455 cseq [] [], state)
    else match parse_interleaved_channels (header_value (message_header_part request) $"Transport") with
         | None => (reply 461 cseq [] [], state)
         | Some (rtp, rtcp) =>
           let state' := {| phase := Ready; session_id := random_session_id r1 r2; channel_id := channel;
                            rtp_channel := rtp; rtcp_channel := rtcp |} in
           (reply 200 cseq
              [$"Transport: RTP/AVP/TCP;unicast;interleaved=" ++ to_string rtp ++ $"-" ++ to_string rtcp;
               $"Session: " ++ session_id state' ++ $";timeout=60"] [], state')
         end
  else if str_eqb method $"PLAY" then
    if negb (bool_decide (phase state = Ready)) || negb (channel_id state =? channel) then
      (reply 455 cseq [] [], state)
    else if negb (valid_session_header (session_of request) (session_id state)) then
      (reply 454 cseq [] [], state)
    else
      ({| response := make_response 200 cseq
            [$"Session: " ++ session_id state; $"RTP-Info: url=/ch" ++ to_string channel ++ $"/trackID=0"] [];
          start_play := true; close_session := false |}, with_phase Playing state)
  else if str_eqb method $"GET_PARAMETER" then
    if negb (valid_session_header (session_of request) (session_id state)) then (reply 454 cseq [] [], state)
    else (reply 200 cseq [$"Session: " ++ session_id state] [], state)
  else if str_eqb method $"TEARDOWN" then
    if negb (valid_session_header (session_of request) (session_id state)) then (reply 454 cseq [] [], state)
    else
      ({| response := make_response 200 cseq [$"Session: " ++ session_id state] []; start_play := false;
          close_session := true |}, with_phase Closed state)
  else (reply 405 cseq [$"Allow: " ++ methods_line] [], state).

(** ** Facts: responses as header lines *)

Definition no_cr (l : bytes) : Prop := Forall (fun c => c <> 13) l.

Definition line_ok (l : bytes) : Prop := no_crlf l /\ l <> [].

Definition with_crlf (lines : list bytes) : bytes := concat ((fun l => l ++ CRLF) <$> lines).

Lemma no_crlf_app a b : no_cr a -> no_crlf b -> no_crlf (a ++ b).
Proof.
  intros Ha Hb. induction Ha as [|c a Hc _ IH]; [done|].
  unfold no_crlf in *. cbn [app find0]. rewrite IH.
  replace (is_prefix CRLF (c :: a ++ b)) with false; [done|].
  unfold CRLF. cbn [is_prefix]. destruct (Z.eqb_spec 13 c); [congruence|done].
Qed.

Lemma no_cr_no_crlf a : no_cr a -> no_crlf a.
Proof. intros H. rewrite <- (app_nil_r a). by apply no_crlf_app. Qed.

Lemma no_cr_lit s : forallb (fun c => negb (c =? 13)) s = true -> no_cr s.
Proof.
  intros H. apply Forall_forall. intros x Hx. rewrite forallb_forall in H.
  specialize (H x). rewrite <- list_elem_of_In in H. specialize (H Hx). bprop. done.
Qed.

Lemma no_cr_digits s : Forall (fun c => is_digit c = true) s -> no_cr s.
Proof. intros H. eapply Forall_impl; [exact H|]. intros c Hc. unfold is_digit in Hc. bprop. lia. Qed.

Lemma no_cr_to_string n : no_cr (to_string n).
Proof.
  unfold to_string. destruct (n <? 0); [constructor; [lia|]|]; apply no_cr_digits, dec_unsigned_digits.
Qed.

Lemma no_cr_app a b : no_cr a -> no_cr b -> no_cr (a ++ b).
Proof. intros. by apply Forall_app. Qed.
#[export] Hint Resolve no_cr_to_string no_cr_app : rtsps.
#[export] Hint Extern 1 (no_cr (lit _)) => apply no_cr_lit; reflexivity : rtsps.

Lemma line_not_break l rest : line_ok l -> is_prefix CRLF (l ++ CRLF ++ rest) = false.
Proof.
  intros [Hl Hne]. pose proof (find0_crlf l rest Hl) as H. apply find0_Some in H as (_ & _ & H).
  destruct l; [done|]. apply (H 0%nat). cbn. lia.
Qed.

(** The first empty line is the one after the header lines. *)
Lemma header_end lines body :
  lines <> [] -> Forall line_ok lines ->
  exists h, with_crlf lines = h ++ CRLF /\ find0 CRLFCRLF (with_crlf lines ++ CRLF ++ body) = Some (length h).
Proof.
  intros Hne Hl. induction Hl as [|l ls Hlk Hl IH]; [done|]. unfold with_crlf in *. rewrite fmap_cons. cbn [concat].
  destruct ls as [|l2 ls].
  - exists l. cbn. rewrite app_nil_r. split; [done|]. rewrite <- app_assoc.
    apply (find0_crlfcrlf_end l body). apply Hlk.
  - destruct (IH ltac:(done)) as (h & Hh & Hf). exists (l ++ CRLF ++ h). split.
    + by rewrite Hh, <- !app_assoc.
    + rewrite <- !app_assoc. rewrite find0_crlfcrlf_line.
      * cbn [fmap option_fmap option_map] in *. rewrite Hf. cbn. f_equal. rewrite !length_app. cbn. lia.
      * apply Hlk.
      * apply Forall_cons in Hl as [Hl2 _]. rewrite fmap_cons. cbn [concat]. rewrite <- !app_assoc.
        by apply line_not_break.
Qed.

Lemma terminated_lines_with_crlf lines rest :
  Forall line_ok lines -> terminated_lines (with_crlf lines ++ rest) = lines ++ terminated_lines rest.
Proof.
  intros Hl. induction Hl as [|l ls Hlk Hl IH]; [done|]. unfold with_crlf in *. rewrite fmap_cons. cbn [concat].
  rewrite <- !app_assoc, terminated_lines_cons by apply Hlk. by rewrite IH.
Qed.

Lemma split_lines_with_crlf lines rest :
  Forall line_ok lines -> split_lines_keep_empty (with_crlf lines ++ rest) = lines ++ split_lines_keep_empty rest.
Proof.
  intros Hl. induction Hl as [|l ls Hlk Hl IH]; [done|]. unfold with_crlf in *. rewrite fmap_cons. cbn [concat].
  rewrite <- !app_assoc, split_lines_cons by apply Hlk. by rewrite IH.
Qed.

Definition status_line (status : Z) : bytes := $"RTSP/1.0 " ++ to_string status ++ $" " ++ reason_phrase status.

Definition response_lines (status : Z) (cseq : bytes) (headers : list bytes) (body : bytes) : list bytes :=
  status_line status :: (if is_empty cseq then [] else [$"CSeq: " ++ cseq]) ++
  $"Server: rpi-vms-m3" :: headers ++
  (if is_empty body then [] else [$"Content-Length: " ++ to_string (zlen body)]).

Lemma make_response_lines status cseq headers body :
  make_response status cseq headers body = with_crlf (response_lines status cseq headers body) ++ CRLF ++ body.
Proof.
  unfold make_response, response_lines, with_crlf, status_line.
  rewrite fmap_cons, fmap_app, fmap_cons, fmap_app. cbn [concat]. rewrite !concat_app. cbn [concat].
  rewrite !concat_app.
  assert (concat ((fun l => l ++ CRLF) <$> (if is_empty cseq then [] else [$"CSeq: " ++ cseq])) =
          (if is_empty cseq then [] else $"CSeq: " ++ cseq ++ CRLF)) as ->.
  { destruct (is_empty cseq); [done|]. cbn [fmap list_fmap concat]. by rewrite app_nil_r, <- app_assoc. }
  assert (concat ((fun l => l ++ CRLF) <$> (if is_empty body then [] else [$"Content-Length: " ++ to_string (zlen body)])) =
          (if is_empty body then [] else $"Content-Length: " ++ to_string (zlen body) ++ CRLF)) as ->.
  { destruct (is_empty body); [done|]. cbn [fmap list_fmap concat]. by rewrite app_nil_r, <- app_assoc. }
  by rewrite <- !app_assoc.
Qed.

Lemma no_cr_reason status : no_cr (reason_phrase status).
Proof. unfold reason_phrase. repeat case_match; auto with rtsps. Qed.
#[export] Hint Resolve no_cr_reason : rtsps.

Lemma status_line_ok status : line_ok (status_line status).
Proof. split; [|done]. apply no_cr_no_crlf. unfold status_line. auto with rtsps. Qed.

Lemma response_lines_ok status cseq headers body :
  no_crlf cseq -> Forall line_ok headers -> Forall line_ok (response_lines status cseq headers body).
Proof.
  intros Hc Hh. unfold response_lines.
  apply Forall_cons; split; [apply status_line_ok|]. apply Forall_app; split.
  { destruct (is_empty cseq); [done|]. constructor; [|done]. split; [|done]. apply no_crlf_app; auto with rtsps. }
  apply Forall_cons; split.
  { split; [|done]. apply no_cr_no_crlf. auto with rtsps. }
  apply Forall_app; split; [done|].
  destruct (is_empty body); [done|]. constructor; [|done]. split; [|done]. apply no_cr_no_crlf. auto with rtsps.
Qed.

(** The status line is read back as the status. *)
Lemma read_status_line status rest :
  0 <= status <= int_max -> rtsp_status_code (status_line status ++ CRLF ++ rest) = status.
Proof.
  intros Hs. unfold rtsp_status_code, get_first_line.
  rewrite find0_crlf by apply status_line_ok. unfold substr. rewrite drop_0, take_app_length.
  unfold status_line. change $"RTSP/1.0 " with ($"RTSP/1.0" ++ [32]). rewrite <- app_assoc.
  rewrite read_word_app; [|done|repeat (constructor; [reflexivity|]); constructor|by intros c b [= <- _]].
  cbn [app]. rewrite read_int_to_string; [done|done|by intros c b [= <- _]].
Qed.

Lemma content_length_in_skip lines more :
  Forall (fun l => starts_with_ci l $"Content-Length:" = false) lines ->
  content_length_in (lines ++ more) = content_length_in more.
Proof. intros H. induction H as [|l ls Hl _ IH]; cbn [app content_length_in]; [done|]. by rewrite Hl. Qed.

Lemma trim_digits s : s <> [] -> Forall (fun c => is_digit c = true) s -> trim_copy s = s.
Proof.
  intros Hne Hs. rewrite <- (app_nil_r s) at 1.
  assert (forall c, is_digit c = true -> is_trim c = false) as Hd.
  { intros c Hc. unfold is_digit in Hc. unfold is_trim, mem, trim_set. cbn. bprop. zcase; cbn; done || lia. }
  apply (trim_copy_intro []); [done|done| |].
  - destruct s as [|c s]; [done|]. apply Forall_cons in Hs as [Hc _]. exists c, s. split; [done|by apply Hd].
  - destruct s as [|c s] using rev_ind; [done|]. apply Forall_app in Hs as [_ Hc].
    apply Forall_cons in Hc as [Hc _]. exists s, c. split; [done|by apply Hd].
Qed.

Lemma content_length_line n more :
  0 <= n <= int_max -> content_length_in (($"Content-Length: " ++ to_string n) :: more) = n.
Proof.
  intros Hn. cbn [content_length_in]. rewrite starts_with_ci_prefix.
  unfold lower_copy at 2. rewrite fmap_app. replace (is_prefix _ _) with true by reflexivity. cbn [negb].
  assert (substr_from ($"Content-Length: " ++ to_string n) (length $"Content-Length:") = 32 :: to_string n)
    as -> by reflexivity.
  rewrite trim_copy_cons by done.
  assert (to_string n = dec_unsigned n) as E by (unfold to_string; by destruct (Z.ltb_spec n 0); [lia|]).
  rewrite trim_digits; [|rewrite E; apply dec_unsigned_nonempty|rewrite E; apply dec_unsigned_digits].
  replace (is_empty (to_string n)) with false.
  2: { rewrite E. destruct (dec_unsigned n) eqn:E'; [by apply dec_unsigned_nonempty in E'|done]. }
  replace (forallb is_digit (to_string n)) with true.
  2: { symmetry. apply forallb_forall. intros x Hx. rewrite E in Hx.
       pose proof (dec_unsigned_digits n) as Hd. rewrite Forall_forall in Hd. apply Hd, list_elem_of_In, Hx. }
  cbn [orb negb]. by rewrite stoi_to_string.
Qed.

(** A response is a message of the protocol: the parser of the other side takes
    it from the stream whole. *)
Lemma make_response_message limits status cseq headers body :
  no_crlf cseq -> Forall line_ok headers ->
  Forall (fun l => starts_with_ci l $"Content-Length:" = false) headers ->
  zlen body <= int_max -> zlen body <= max_body_bytes limits ->
  zlen (make_response status cseq headers body) <= max_header_bytes limits + zlen body ->
  rtsp_message_ok limits (make_response status cseq headers body).
Proof.
  intros Hc Hh Hcl Hb Hmb Hmh.
  pose proof (response_lines_ok status cseq headers body Hc Hh) as Hok.
  rewrite make_response_lines in *. set (lines := response_lines status cseq headers body) in *.
  assert (lines <> []) as Hne by done.
  destruct (header_end lines body Hne Hok) as (h & Eh & Hf).
  assert (with_crlf lines ++ CRLF ++ body = h ++ CRLFCRLF ++ body) as Em by (rewrite Eh, <- app_assoc; done).
  split.
  { apply message_start_iff. exists $"RTSP/". split; [by left|].
    unfold lines, response_lines, with_crlf, status_line. rewrite fmap_cons. cbn [concat].
    rewrite <- !app_assoc. reflexivity. }
  exists h, body. split_and!; [done|done| | |done].
  { rewrite Em, !zlen_app in Hmh. change (zlen CRLFCRLF) with 4 in Hmh. lia. }
  assert (h ++ CRLFCRLF = with_crlf lines ++ CRLF) as -> by by rewrite Eh, <- app_assoc.
  unfold content_length_from_header. rewrite split_lines_with_crlf by done.
  assert (lines ++ split_lines_keep_empty CRLF =
    (status_line status :: (if is_empty cseq then [] else [$"CSeq: " ++ cseq]) ++ $"Server: rpi-vms-m3" :: headers) ++
    (if is_empty body then [] else [$"Content-Length: " ++ to_string (zlen body)]) ++ split_lines_keep_empty CRLF)
    as ->.
  { unfold lines, response_lines. cbn [app]. f_equal. rewrite <- !app_assoc. cbn [app]. by rewrite <- !app_assoc. }
  rewrite content_length_in_skip.
  - destruct body as [|b body]; [done|]. cbn [is_empty]. apply content_length_line.
    pose proof (zlen_nonneg (b :: body)). lia.
  - apply Forall_cons; split; [|apply Forall_app; split; [|apply Forall_cons; split; [reflexivity|done]]].
    + rewrite starts_with_ci_prefix. unfold status_line, lower_copy at 2. rewrite fmap_app. reflexivity.
    + destruct (is_empty cseq); constructor; [|done].
      rewrite starts_with_ci_prefix. unfold lower_copy at 2. rewrite fmap_app. reflexivity.
Qed.

Lemma make_response_status status cseq headers body :
  0 <= status <= int_max -> rtsp_status_code (make_response status cseq headers body) = status.
Proof.
  intros Hs. rewrite make_response_lines. unfold with_crlf, response_lines. rewrite fmap_cons. cbn [concat].
  rewrite <- !app_assoc. by apply read_status_line.
Qed.

(** The header part of a message given by its lines, and header lookup in it. *)
Lemma lines_header_part lines body :
  lines <> [] -> Forall line_ok lines -> message_header_part (with_crlf lines ++ CRLF ++ body) = with_crlf lines ++ CRLF.
Proof.
  intros Hne Hok. unfold message_header_part. destruct (header_end lines body Hne Hok) as (h & Eh & Hf). rewrite Hf.
  unfold substr. rewrite drop_0, Eh, <- !app_assoc.
  replace (h ++ CRLF ++ CRLF ++ body) with ((h ++ CRLF ++ CRLF) ++ body) by by rewrite <- !app_assoc.
  apply take_app_length'. rewrite length_app. done.
Qed.

Lemma lines_header_value lines body name :
  lines <> [] -> Forall line_ok lines ->
  header_value (message_header_part (with_crlf lines ++ CRLF ++ body)) name =
  header_value_in (lines ++ terminated_lines CRLF) (lower_copy name ++ $":") (length name + 1).
Proof.
  intros Hne Hok. rewrite lines_header_part by done. unfold header_value. by rewrite terminated_lines_with_crlf.
Qed.

Lemma response_header_value status cseq headers body name :
  no_crlf cseq -> Forall line_ok headers ->
  header_value (message_header_part (make_response status cseq headers body)) name =
  header_value_in (response_lines status cseq headers body ++ terminated_lines CRLF)
    (lower_copy name ++ $":") (length name + 1).
Proof. intros Hc Hh. rewrite make_response_lines. apply lines_header_value; [done|by apply response_lines_ok]. Qed.

Lemma header_value_in_skip (name rest : bytes) lines prefix n :
  (forall t, is_prefix (lower_copy prefix) (lower_copy name ++ t) = false) ->
  header_value_in ((name ++ rest) :: lines) prefix n = header_value_in lines prefix n.
Proof.
  intros H. cbn [header_value_in]. rewrite starts_with_ci_prefix. unfold lower_copy at 2.
  rewrite fmap_app. by rewrite H.
Qed.

Lemma header_value_in_hit (name rest : bytes) lines prefix n :
  (forall t, is_prefix (lower_copy prefix) (lower_copy name ++ t) = true) -> length name = S n ->
  (exists c, last name = Some c /\ is_trim c = true) ->
  header_value_in ((name ++ rest) :: lines) prefix n = trim_copy rest.
Proof.
  intros H Hn (c & Hl & Hc). cbn [header_value_in]. rewrite starts_with_ci_prefix. unfold lower_copy at 2.
  rewrite fmap_app. rewrite H. unfold substr_from. destruct name as [|d name _] using rev_ind; [done|].
  rewrite last_snoc in Hl. injection Hl as ->. rewrite length_app in Hn. cbn in Hn.
  rewrite <- app_assoc, drop_app_length' by lia. by apply trim_copy_cons.
Qed.

Lemma make_response_cseq status cseq headers body :
  no_crlf cseq -> trim_copy cseq = cseq -> cseq <> [] -> Forall line_ok headers ->
  cseq_from_message (make_response status cseq headers body) = cseq.
Proof.
  intros Hc Ht Hne Hh. unfold cseq_from_message. rewrite response_header_value by done.
  destruct cseq as [|c cseq]; [done|]. unfold response_lines. cbn [is_empty app].
  change (67 :: 83 :: 101 :: 113 :: 58 :: 32 :: c :: cseq) with ($"CSeq: " ++ c :: cseq).
  unfold status_line. rewrite header_value_in_skip by done.
  rewrite header_value_in_hit; [done|done|done|]. by exists 32.
Qed.

(** ** The session automaton the server promises

    One rule per outcome of a request.  [c] is the channel of the request target;
    the indices are the status of the response, whether playing starts, whether the
    connection is to be closed, and the session after the request. *)

Inductive session_step (request : bytes) (registered : Z) (s : RtspControlState) :
    Z -> bool -> bool -> RtspControlState -> Prop :=
| step_no_cseq :
    cseq_from_message request = [] -> session_step request registered s 400 false true s
| step_query status :
    status ∈ [200; 404; 405; 454; 455; 461] -> session_step request registered s status false false s
| step_setup sid rtp rtcp :
    rtsp_method_from_request request = $"SETUP" -> phase s = Initial ->
    parse_public_channel_id (extract_request_target request) = registered -> 0 <= registered ->
    parse_interleaved_channels (header_value (message_header_part request) $"Transport") = Some (rtp, rtcp) ->
    (exists r1 r2, sid = random_session_id r1 r2) ->
    session_step request registered s 200 false false
      {| phase := Ready; session_id := sid; channel_id := registered; rtp_channel := rtp; rtcp_channel := rtcp |}
| step_play :
    rtsp_method_from_request request = $"PLAY" -> phase s = Ready ->
    parse_public_channel_id (extract_request_target request) = registered -> registered = channel_id s ->
    valid_session_header (session_of request) (session_id s) = true ->
    session_step request registered s 200 true false (with_phase Playing s)
| step_teardown :
    rtsp_method_from_request request = $"TEARDOWN" ->
    parse_public_channel_id (extract_request_target request) = registered ->
    valid_session_header (session_of request) (session_id s) = true ->
    session_step request registered s 200 false true (with_phase Closed s).

(** Headers the server itself writes. *)
Definition header_ok (h : bytes) : Prop := line_ok h /\ starts_with_ci h $"Content-Length:" = false.

Lemma header_ok_intro (name rest : bytes) :
  name <> [] -> no_cr name -> no_crlf rest ->
  (forall t, is_prefix (lower_copy $"Content-Length:") (lower_copy name ++ t) = false) ->
  header_ok (name ++ rest).
Proof.
  intros Hne Hn Hr Hp. split.
  - split; [by apply no_crlf_app|]. by intros [? _]%app_nil.
  - rewrite starts_with_ci_prefix. unfold lower_copy at 2. rewrite fmap_app. apply Hp.
Qed.

#[export] Hint Extern 1 (no_cr methods_line) => apply no_cr_lit; reflexivity : rtsps.

#[export] Hint Extern 1 (no_cr []) => constructor : rtsps.

Ltac header_tac :=
  lazymatch goal with |- header_ok (lit ?s) => rewrite <- (app_nil_r (lit s)) | _ => idtac end;
  apply header_ok_intro;
  [done | auto with rtsps | solve [apply no_cr_no_crlf; auto 8 with rtsps] | intros; reflexivity].

Definition is_hex (c : Z) : bool := is_digit c || ((97 <=? c) && (c <=? 102)).

(** What a session holds once SETUP succeeded. *)
Definition transport_ok (s : RtspControlState) : Prop :=
  Forall (fun c => is_hex c = true) (session_id s) /\ length (session_id s) = 16%nat /\
  1 <= channel_id s <= 4 /\ 0 <= rtp_channel s <= 255 /\ 0 <= rtcp_channel s <= 255 /\
  rtp_channel s <> rtcp_channel s.

Definition control_ok (s : RtspControlState) : Prop :=
  match phase s with Initial => s = initial_control | _ => transport_ok s end.

Lemma hex_unsigned_hex n : Forall (fun c => is_hex c = true) (hex_unsigned n).
Proof.
  apply digits_loop_Forall; [|lia]. intros d Hd. unfold is_hex, is_digit, hex_digit.
  destruct (Z.ltb_spec d 10); lia.
Qed.

Lemma digits_loop_length base digit f n k :
  1 < base -> 0 <= n < base ^ Z.of_nat (S k) -> (length (digits_loop base digit f n []) <= S k)%nat.
Proof.
  intros Hb. revert f n; induction k as [|k IH]; intros [|f] n Hn; cbn [digits_loop length]; try lia.
  - change (Z.of_nat 1) with 1 in Hn. rewrite Z.pow_1_r in Hn.
    replace (n <? base) with true by lia. done.
  - destruct (Z.ltb_spec n base); [cbn; lia|].
    rewrite digits_loop_acc, length_app. cbn [length].
    assert (0 <= n / base < base ^ Z.of_nat (S k)) as Hd.
    { split; [apply Z.div_pos; lia|]. apply Z.div_lt_upper_bound; [lia|].
      rewrite (Nat2Z.inj_succ (S k)), Z.pow_succ_r in Hn by lia. lia. }
    specialize (IH f _ Hd). lia.
Qed.

Lemma length_to_string n k : 0 <= n < 10 ^ Z.of_nat (S k) -> (length (to_string n) <= S k)%nat.
Proof. intros Hn. unfold to_string. destruct (Z.ltb_spec n 0); [lia|]. by apply digits_loop_length. Qed.

Lemma random_session_id_hex r1 r2 :
  Forall (fun c => is_hex c = true) (random_session_id r1 r2) /\ length (random_session_id r1 r2) = 16%nat.
Proof.
  unfold random_session_id, pad_left. split.
  - repeat (apply Forall_app; split); try apply hex_unsigned_hex; by apply Forall_replicate.
  - rewrite !length_app, !length_replicate.
    assert (forall r, (length (hex_unsigned (u32 r)) <= 8)%nat) as H.
    { intros r. apply digits_loop_length; [lia|apply u32_range]. }
    pose proof (H r1). pose proof (H r2). lia.
Qed.

Lemma no_cr_hex s : Forall (fun c => is_hex c = true) s -> no_cr s.
Proof. intros H. eapply Forall_impl; [exact H|]. cbn. intros c Hc ->. done. Qed.
#[export] Hint Resolve no_cr_hex : rtsps.

Lemma control_ok_no_cr s : control_ok s -> no_cr (session_id s).
Proof.
  unfold control_ok. destruct (phase s); [intros ->; constructor|..]; intros [H _]; by apply no_cr_hex.
Qed.
#[export] Hint Resolve control_ok_no_cr : rtsps.

Lemma parse_interleaved_range t rtp rtcp :
  parse_interleaved_channels t = Some (rtp, rtcp) ->
  0 <= rtp <= 255 /\ 0 <= rtcp <= 255 /\ rtp <> rtcp.
Proof.
  unfold parse_interleaved_channels. destruct (find0 _ _); [|done].
  destruct (find0 _ _); [|intros [= <- <-]; lia].
  destruct (read_int _ 0) as [a v1]. destruct (read_char v1 0) as [c v2]. destruct (read_int v2 1) as [b v3].
  destruct (_ || _) eqn:E; [done|]. intros [= <- <-]. bprop. lia.
Qed.

Lemma parse_public_channel_range t : parse_public_channel_id t = -1 \/ 1 <= parse_public_channel_id t <= 4.
Proof.
  unfold parse_public_channel_id. cbv zeta. destruct (_ || _); [by left|].
  destruct (span _ _) as [ds rest]. destruct (_ || _); [by left|].
  destruct (stoi ds) as [[v n]|]; [|by left]. destruct (_ && _) eqn:E; [|by left]. bprop. right. lia.
Qed.

Lemma zlen_to_string n k : 0 <= n < 10 ^ Z.of_nat (S k) -> zlen (to_string n) <= Z.of_nat (S k).
Proof. intros H%length_to_string. unfold zlen. lia. Qed.

Ltac lit_len :=
  repeat match goal with
  | |- context [zlen (lit ?s)] => let v := eval vm_compute in (zlen (lit s)) in change (zlen (lit s)) with v
  end.

Ltac size_tac :=
  rewrite ?fmap_cons, ?fmap_nil; cbn [concat]; rewrite ?zlen_app; lit_len;
  change (zlen CRLF) with 2; change (zlen (@nil Z)) with 0.

Lemma build_sdp_size c codec fmtp : 1 <= c <= 4 -> zlen (build_sdp c codec fmtp) <= 256 + zlen fmtp.
Proof.
  intros Hc. pose proof (zlen_to_string c 0 ltac:(cbn; lia)) as H1. unfold build_sdp.
  pose proof (zlen_nonneg fmtp).
  destruct (is_empty fmtp), codec; rewrite ?zlen_app; lit_len;
    change (zlen (to_string kPayloadType)) with 2; change (zlen CRLF) with 2; change (zlen (@nil Z)) with 0; lia.
Qed.

Lemma session_id_size s : control_ok s -> zlen (session_id s) <= 16.
Proof.
  unfold control_ok, zlen. destruct (phase s); [intros ->; cbn; lia|..]; intros (_ & -> & _); lia.
Qed.

Ltac status_tac := first [apply (bool_decide_unpack _); reflexivity | set_solver].

(** The session id a SETUP response hands out. *)
Lemma setup_response_session cseq transport sid :
  no_crlf cseq -> cseq <> [] -> no_cr transport -> no_cr sid -> trim_copy sid = sid ->
  header_value (message_header_part
    (make_response 200 cseq [$"Transport: " ++ transport; $"Session: " ++ sid] [])) $"Session" = sid.
Proof.
  intros Hc Hne Ht Hs Htr. rewrite response_header_value; [|done|].
  2: { repeat (apply Forall_cons; split); try apply Forall_nil; try done; split; try done;
       apply no_cr_no_crlf; auto with rtsps. }
  destruct cseq as [|c cseq]; [done|].
  change (response_lines _ _ _ _ ++ _) with
    [status_line 200; $"CSeq: " ++ c :: cseq; $"Server: rpi-vms-m3" ++ []; $"Transport: " ++ transport;
     $"Session: " ++ sid; []].
  unfold status_line. rewrite !header_value_in_skip by done.
  rewrite header_value_in_hit; [done|done|done|]. by exists 32.
Qed.

Lemma trim_session_id sid :
  Forall (fun c => is_hex c = true) sid -> sid <> [] -> trim_copy (sid ++ $";timeout=60") = sid ++ $";timeout=60".
Proof.
  intros Hh Hne. rewrite <- (app_nil_r (sid ++ _)) at 1. destruct sid as [|c sid]; [done|].
  apply Forall_cons in Hh as [Hc _]. apply (trim_copy_intro []); [done|done| |].
  - exists c, (sid ++ $";timeout=60"). split; [done|]. unfold is_hex, is_digit in Hc.
    unfold is_trim, mem, trim_set. cbn. zcase; try done; subst; done.
  - exists (c :: sid ++ $";timeout=6"), 48. split; [|done]. cbn [app]. by rewrite <- app_assoc.
Qed.

(** A request is answered: a well-formed response of bounded size along a rule of
    the automaton. *)
Definition answered (request : bytes) (registered : Z) (fmtp : bytes) (s : RtspControlState)
    (out : RtspControlResult * RtspControlState) : Prop :=
  exists status headers body,
    response out.1 = make_response status (cseq_from_message request) headers body /\
    session_step request registered s status (start_play out.1) (close_session out.1) out.2 /\
    Forall header_ok headers /\ zlen (concat ((fun h => h ++ CRLF) <$> headers)) <= 256 /\
    zlen body <= 256 + zlen fmtp /\
    (phase out.2 = Ready -> out.2 = s \/
     header_value (message_header_part (response out.1)) $"Session" = session_id out.2 ++ $";timeout=60").

Lemma answered_query request registered fmtp s status headers body :
  status ∈ [200; 404; 405; 454; 455; 461] -> Forall header_ok headers ->
  zlen (concat ((fun h => h ++ CRLF) <$> headers)) <= 256 -> zlen body <= 256 + zlen fmtp ->
  answered request registered fmtp s (reply status (cseq_from_message request) headers body, s).
Proof. intros. exists status, headers, body. split_and!; try done; [by apply step_query|by left]. Qed.

Lemma answered_error request registered fmtp s status :
  status ∈ [404; 454; 455; 461] ->
  answered request registered fmtp s (reply status (cseq_from_message request) [] [], s).
Proof. intros. pose proof (zlen_nonneg fmtp). apply answered_query; [status_tac|done|size_tac; lia|size_tac; lia]. Qed.

Ltac headers_tac :=
  lazymatch goal with
  | |- Forall _ [] => by apply Forall_nil
  | |- Forall _ (_ :: _) => apply Forall_cons; split; [header_tac|headers_tac]
  end.

Lemma setup_answered request registered fmtp s r1 r2 :
  phase s = Initial -> 0 <= registered -> cseq_from_message request <> [] ->
  rtsp_method_from_request request = $"SETUP" ->
  parse_public_channel_id (extract_request_target request) = registered ->
  match parse_interleaved_channels (header_value (message_header_part request) $"Transport") with
  | None => True
  | Some (rtp, rtcp) =>
    let state' := {| phase := Ready; session_id := random_session_id r1 r2; channel_id := registered;
                     rtp_channel := rtp; rtcp_channel := rtcp |} in
    answered request registered fmtp s
      (reply 200 (cseq_from_message request)
         [$"Transport: RTP/AVP/TCP;unicast;interleaved=" ++ to_string rtp ++ $"-" ++ to_string rtcp;
          $"Session: " ++ session_id state' ++ $";timeout=60"] [], state')
  end.
Proof.
  intros Hp Hr Hne Hm Hc. destruct (parse_interleaved_channels _) as [[rtp rtcp]|] eqn:Et; [|done].
  pose proof (parse_interleaved_range _ _ _ Et) as (H1 & H2 & _).
  destruct (random_session_id_hex r1 r2) as [Hh Hl].
  pose proof (zlen_to_string rtp 2 ltac:(cbn; lia)). pose proof (zlen_to_string rtcp 2 ltac:(cbn; lia)).
  pose proof (zlen_nonneg fmtp).
  eexists _, _, _. split_and!; [done| |headers_tac| |size_tac; lia|intros _; right].
  - apply step_setup; try done. by exists r1, r2.
  - cbn [session_id]. size_tac. unfold zlen at 3. rewrite Hl. lia.
  - cbn [reply fst snd response session_id].
    apply (setup_response_session _ ($"RTP/AVP/TCP;unicast;interleaved=" ++ to_string rtp ++ $"-" ++ to_string rtcp)
             (random_session_id r1 r2 ++ $";timeout=60")); auto 6 with rtsps.
    + apply header_value_no_crlf.
    + apply trim_session_id; [done|]. by intros E; rewrite E in Hl.
Qed.

(** Every request is answered. *)
Lemma process_answered request registered codec fmtp r1 r2 s :
  control_ok s ->
  answered request registered fmtp s (process_rtsp_request request registered codec fmtp r1 r2 s).
Proof.
  intros Hok. pose proof (control_ok_no_cr s Hok) as Hsid. pose proof (session_id_size s Hok) as Hsl.
  pose proof (zlen_nonneg fmtp) as Hf.
  unfold process_rtsp_request. destruct (is_empty (cseq_from_message request)) eqn:Ec.
  { assert (cseq_from_message request = []) as E by by destruct (cseq_from_message request).
    exists 400, [], []. rewrite E. split_and!; [done|by apply step_no_cseq|done|size_tac; lia|size_tac; lia|by left]. }
  assert (cseq_from_message request <> []) as Hne by by intros E; rewrite E in Ec.
  destruct (str_eqb _ $"OPTIONS").
  { apply answered_query; [status_tac|headers_tac|unfold methods_line; size_tac; lia|size_tac; lia]. }
  set (c := parse_public_channel_id _). destruct (_ || _) eqn:Ereg; [apply answered_error; status_tac|].
  bprop. assert (1 <= c <= 4) as Hc by (destruct (parse_public_channel_range (extract_request_target request)); lia).
  pose proof (zlen_to_string c 0 ltac:(cbn; lia)) as Hcs. assert (c = registered) as <- by done.
  destruct (str_eqb _ $"DESCRIBE").
  { apply answered_query; [status_tac|headers_tac|size_tac; lia|by apply build_sdp_size]. }
  destruct (str_eqb _ $"SETUP") eqn:Es; [apply str_eqb_eq in Es|].
  { destruct (negb _) eqn:Ei; [apply answered_error; status_tac|]. bprop.
    pose proof (setup_answered request c fmtp s r1 r2 Ei ltac:(lia) Hne Es eq_refl) as Hs.
    destruct (parse_interleaved_channels _) as [[rtp rtcp]|]; [exact Hs|apply answered_error; status_tac]. }
  destruct (str_eqb _ $"PLAY") eqn:Ep; [apply str_eqb_eq in Ep|].
  { destruct (_ || _) eqn:Ei; [apply answered_error; status_tac|].
    destruct (negb (valid_session_header _ _)) eqn:Ev; [apply answered_error; status_tac|]. bprop.
    eexists _, _, _. split_and!; [done|by apply step_play|headers_tac|size_tac; lia|size_tac; lia|done]. }
  destruct (str_eqb _ $"GET_PARAMETER").
  { destruct (negb _) eqn:Ev; [apply answered_error; status_tac|].
    apply answered_query; [status_tac|headers_tac|size_tac; lia|size_tac; lia]. }
  destruct (str_eqb _ $"TEARDOWN") eqn:Et; [apply str_eqb_eq in Et|].
  { destruct (negb _) eqn:Ev; [apply answered_error; status_tac|]. bprop.
    eexists _, _, _. split_and!; [done|by apply step_teardown|headers_tac|size_tac; lia|size_tac; lia|done]. }
  apply answered_query; [status_tac|headers_tac|unfold methods_line; size_tac; lia|size_tac; lia].
Qed.

(** ** Sessions: the requests of one connection, in order *)

Inductive control_run (s0 : RtspControlState) : list (bytes * RtspControlResult) -> RtspControlState -> Prop :=
| run_start : control_run s0 [] s0
| run_request tr s request registered codec fmtp r1 r2 result s' :
    control_run s0 tr s ->
    process_rtsp_request request registered codec fmtp r1 r2 s = (result, s') ->
    control_run s0 (tr ++ [(request, result)]) s'.

Lemma session_step_ok request registered s status start close s' :
  session_step request registered s status start close s' -> control_ok s -> control_ok s'.
Proof.
  intros Hs Hok. destruct Hs as [|s1 Hs|sid rtp rtcp Hm Hp Hc Hr Ht (r1 & r2 & ->)|Hm Hp Hc Hr Hv|Hm Hc Hv]; try done.
  - destruct (random_session_id_hex r1 r2). apply parse_interleaved_range in Ht as (? & ? & ?).
    destruct (parse_public_channel_range (extract_request_target request)); [lia|].
    unfold control_ok, transport_ok. cbn. by split_and!; try lia.
  - unfold control_ok in Hok. rewrite Hp in Hok. exact Hok.
  - unfold control_ok in Hok. destruct (phase s); [subst; done|exact Hok..].
Qed.

Lemma initial_control_ok : control_ok initial_control.
Proof. reflexivity. Qed.

Lemma control_run_ok tr s : control_run initial_control tr s -> control_ok s.
Proof.
  intros H. induction H as [|tr s request registered codec fmtp r1 r2 result s' Hr IH Hp]; [done|].
  pose proof (process_answered request registered codec fmtp r1 r2 s IH) as Ha. rewrite Hp in Ha.
  destruct Ha as (status & headers & body & _ & Hs & _). by eapply session_step_ok.
Qed.

(** A run passes through the state before each of its requests. *)
Lemma control_run_at s0 tr s pre x post :
  control_run s0 tr s -> tr = pre ++ x :: post ->
  exists s1 s2 registered codec fmtp r1 r2,
    control_run s0 pre s1 /\ process_rtsp_request x.1 registered codec fmtp r1 r2 s1 = (x.2, s2).
Proof.
  intros H. revert post. induction H as [|tr s request registered codec fmtp r1 r2 result s' Hr IH Hp]; intros post E.
  { by destruct pre. }
  destruct post as [|y post _] using rev_ind.
  - apply app_inj_tail in E as [<- <-]. by exists s, s', registered, codec, fmtp, r1, r2.
  - rewrite app_comm_cons, app_assoc in E. apply app_inj_tail in E as [E _]. by apply (IH post).
Qed.

(** A request the server granted a session for, with the id it announced. *)
Definition setup_granted (channel : Z) (sid : bytes) (x : bytes * RtspControlResult) : Prop :=
  rtsp_method_from_request x.1 = $"SETUP" /\ parse_public_channel_id (extract_request_target x.1) = channel /\
  rtsp_status_code (response x.2) = 200 /\
  header_value (message_header_part (response x.2)) $"Session" = sid ++ $";timeout=60".

(** Before SETUP and between SETUP and PLAY nothing has started; in the second case
    the session's id and channel come from the SETUP of the run. *)
Definition run_inv (tr : list (bytes * RtspControlResult)) (s : RtspControlState) : Prop :=
  (phase s = Initial \/ phase s = Ready -> Forall (fun x => start_play x.2 = false) tr) /\
  (phase s = Ready -> Exists (setup_granted (channel_id s) (session_id s)) tr).

Lemma control_run_inv tr s : control_run initial_control tr s -> run_inv tr s.
Proof.
  intros H. induction H as [|tr s request registered codec fmtp r1 r2 result s' Hr [IH1 IH2] Hp].
  { split; [done|by intros [=]]. }
  pose proof (process_answered request registered codec fmtp r1 r2 s (control_run_ok _ _ Hr)) as Ha.
  rewrite Hp in Ha. destruct Ha as (status & headers & body & Eresp & Hs & _ & _ & _ & Hready). cbn [fst snd] in *.
  remember (start_play result) as st eqn:Est. remember (close_session result) as cl eqn:Ecl.
  destruct Hs as [|s1 Hs|sid rtp rtcp Hm Hph Hc Hreg Ht _|Hm Hph Hc Hreg Hv|Hm Hc Hv].
  1, 2: split; intros Hph; [apply Forall_app; split; [by apply IH1|by apply Forall_singleton]|];
    rewrite Exists_app; left; by apply IH2.
  - split; intros _; [apply Forall_app; split; [apply IH1; by left|by apply Forall_singleton]|].
    apply Exists_app. right. constructor. destruct (Hready eq_refl) as [<-|Hh]; [done|].
    split_and!; [done|done| |done]. cbn [snd]. rewrite Eresp. by apply make_response_status.
  - split; [by intros [[=]|[=]]|by intros [=]].
  - split; [by intros [[=]|[=]]|by intros [=]].
Qed.

(** C7: On one connection media starts at most once, and only for a PLAY that comes
    after a successful SETUP of the same channel and presents the session id which
    the server's SETUP response announced. *)
Theorem play_once_after_setup tr s pre request result post :
  control_run initial_control tr s -> tr = pre ++ (request, result) :: post -> start_play result = true ->
  rtsp_method_from_request request = $"PLAY" /\
  Forall (fun x => start_play x.2 = false) pre /\ Forall (fun x => start_play x.2 = false) post /\
  exists sid, valid_session_header (session_of request) sid = true /\
    Exists (setup_granted (parse_public_channel_id (extract_request_target request)) sid) pre.
Proof.
  assert (forall tr s pre q r post, control_run initial_control tr s -> tr = pre ++ (q, r) :: post ->
    start_play r = true -> exists s1 registered status, phase s1 = Ready /\ run_inv pre s1 /\
      session_step q registered s1 status true (close_session r) (with_phase Playing s1)) as Hplay.
  { clear. intros tr s pre q r post Hr Et Hst. destruct (control_run_at _ _ _ _ _ _ Hr Et) as
      (s1 & s2 & reg & codec & fmtp & r1 & r2 & Hr1 & Hp).
    pose proof (process_answered q reg codec fmtp r1 r2 s1 (control_run_ok _ _ Hr1)) as Ha.
    cbn [fst snd] in Hp. rewrite Hp in Ha. destruct Ha as (status & headers & body & _ & Hs & _).
    cbn [fst snd] in Hs. rewrite Hst in Hs. exists s1, reg, status.
    pose proof (control_run_inv _ _ Hr1). inversion Hs; subst. split; [done|]. split; [done|]. congruence. }
  intros Hr Et Hst. destruct (Hplay _ _ _ _ _ _ Hr Et Hst) as (s1 & reg & status & Hph & [Hi1 Hi2] & Hs).
  inversion Hs as [| | |Hm _ Hc Hreg Hv|]. split_and!; [done|apply Hi1; by right| |].
  - apply Forall_forall. intros [q r] Hx. destruct (start_play r) eqn:E; [exfalso|done].
    apply list_elem_of_split in Hx as (p1 & p2 & ->).
    subst tr. destruct (Hplay _ _ (pre ++ (request, result) :: p1) q r p2 Hr) as (s3 & _ & _ & Hph3 & [Hi3 _] & _).
    + by rewrite <- app_assoc.
    + done.
    + specialize (Hi3 (or_intror Hph3)). apply Forall_app in Hi3 as [_ [Hi3 _]%Forall_cons]. cbn in Hi3. congruence.
  - exists (session_id s1). split; [done|]. rewrite Hc, Hreg. by apply Hi2.
Qed.

(** A short session: SETUP, then PLAY with the id from its response. *)
Definition demo_setup : bytes :=
  $"SETUP rtsp://10.0.0.2:8554/ch1/trackID=0 RTSP/1.0" ++ CRLF ++ $"CSeq: 3" ++ CRLF ++
  $"Transport: RTP/AVP/TCP;unicast;interleaved=2-3" ++ CRLFCRLF.
Definition demo_play : bytes :=
  $"PLAY rtsp://10.0.0.2:8554/ch1 RTSP/1.0" ++ CRLF ++ $"CSeq: 4" ++ CRLF ++ $"Session: 0000000100000002" ++ CRLFCRLF.
Definition demo_ready : RtspControlResult * RtspControlState :=
  process_rtsp_request demo_setup 1 H264 [] 1 2 initial_control.
Definition demo_playing : RtspControlResult * RtspControlState :=
  process_rtsp_request demo_play 1 H264 [] 0 0 demo_ready.2.

Lemma demo_run : control_run initial_control [(demo_setup, demo_ready.1); (demo_play, demo_playing.1)] demo_playing.2.
Proof.
  apply (run_request _ [_] demo_ready.2 demo_play 1 H264 [] 0 0).
  - apply (run_request _ [] initial_control demo_setup 1 H264 [] 1 2); [apply run_start|reflexivity].
  - by destruct demo_playing eqn:E.
Qed.

Lemma play_once_after_setup_witness :
  start_play demo_playing.1 = true /\
  exists sid, valid_session_header (session_of demo_play) sid = true /\
    Exists (setup_granted (parse_public_channel_id (extract_request_target demo_play)) sid)
      [(demo_setup, demo_ready.1)].
Proof.
  split; [vm_compute; reflexivity|].
  apply (play_once_after_setup _ _ [(demo_setup, demo_ready.1)] demo_play demo_playing.1 [] demo_run eq_refl).
  vm_compute; reflexivity.
Defined.

Lemma reason_size status : zlen (reason_phrase status) <= 30.
Proof. unfold reason_phrase. repeat case_match; lit_len; lia. Qed.

Lemma make_response_size status cseq headers body :
  0 <= status < 1000 -> zlen body <= int_max ->
  zlen (make_response status cseq headers body) <=
  zlen cseq + zlen (concat ((fun h => h ++ CRLF) <$> headers)) + zlen body + 128.
Proof.
  intros Hs Hb. pose proof (reason_size status). pose proof (zlen_nonneg cseq). pose proof (zlen_nonneg body).
  pose proof (zlen_to_string status 2 ltac:(cbn; lia)).
  pose proof (zlen_to_string (zlen body) 9 ltac:(unfold int_max in Hb; cbn; lia)).
  unfold make_response. destruct (is_empty cseq), (is_empty body); rewrite ?zlen_app; lit_len;
    change (zlen CRLF) with 2; change (zlen (@nil Z)) with 0; lia.
Qed.

Lemma no_cseq_response request registered codec fmtp r1 r2 s :
  cseq_from_message request = [] ->
  response (process_rtsp_request request registered codec fmtp r1 r2 s).1 = make_response 400 [] [] [].
Proof. intros E. unfold process_rtsp_request. by rewrite E. Qed.

(** Every response is a well-formed message with a status the server uses. *)
Lemma response_message_ok limits request registered codec fmtp r1 r2 s :
  control_ok s ->
  zlen (cseq_from_message request) + 512 <= max_header_bytes limits ->
  zlen fmtp + 256 <= max_body_bytes limits -> zlen fmtp + 256 <= int_max ->
  let reply := response (process_rtsp_request request registered codec fmtp r1 r2 s).1 in
  rtsp_message_ok limits reply /\ exists status headers body,
    reply = make_response status (cseq_from_message request) headers body /\ Forall line_ok headers /\
    status ∈ [200; 400; 404; 405; 454; 455; 461].
Proof.
  intros Hok Hh Hb Hi reply.
  destruct (process_answered request registered codec fmtp r1 r2 s Hok) as
    (status & headers & body & Er & Hs & Hhd & Hsz & Hbz & _). unfold reply. clear reply.
  assert (status ∈ [200; 400; 404; 405; 454; 455; 461]) as Hst.
  { destruct Hs as [|status Hq| | |]; [status_tac|clear -Hq; set_solver|status_tac..]. }
  assert (0 <= status < 1000) as Hst' by (clear -Hst; set_unfold; lia).
  assert (Forall line_ok headers) as Hlines by (eapply Forall_impl; [exact Hhd|]; by intros h []).
  rewrite Er. split; [|by exists status, headers, body].
  apply make_response_message; try done; [apply header_value_no_crlf| |lia|lia|].
  { eapply Forall_impl; [exact Hhd|]. by intros h []. }
  pose proof (make_response_size status (cseq_from_message request) headers body Hst' ltac:(lia)). lia.
Qed.

(** C13: Every response is a message of the protocol that the other side's parser
    takes from the stream whole, whatever follows it; its status is one the server
    uses and its CSeq is the request's. *)
Theorem responses_are_messages limits rest request registered codec fmtp r1 r2 s :
  control_ok s ->
  zlen (cseq_from_message request) + 512 <= max_header_bytes limits ->
  zlen fmtp + 256 <= max_body_bytes limits -> zlen fmtp + 256 <= int_max ->
  let reply := response (process_rtsp_request request registered codec fmtp r1 r2 s).1 in
  extract_one_rtsp_message (reply ++ rest) limits = Some (true, reply, rest) /\
  rtsp_status_code reply ∈ [200; 400; 404; 405; 454; 455; 461] /\
  cseq_from_message reply = cseq_from_message request.
Proof.
  intros Hok Hh Hb Hi reply. pose proof (no_cseq_response request registered codec fmtp r1 r2 s) as Hbad.
  destruct (response_message_ok limits request registered codec fmtp r1 r2 s Hok Hh Hb Hi) as
    (Hm & status & headers & body & Er & Hl & Hst). fold reply in Hm, Er, Hbad.
  split_and!; [apply extract_message; by left| |destruct (cseq_from_message request) as [|c cseq] eqn:E].
  - rewrite Er, make_response_status; [done|]. clear -Hst. set_unfold. unfold int_max. lia.
  - by rewrite Hbad.
  - rewrite Er, <- E. apply make_response_cseq; [apply header_value_no_crlf|apply header_value_trimmed|by rewrite E|done].
Qed.

Lemma responses_are_messages_witness :
  let reply := response (process_rtsp_request demo_setup 1 H264 [] 1 2 initial_control).1 in
  extract_one_rtsp_message (reply ++ demo_play) default_limits = Some (true, reply, demo_play) /\
  cseq_from_message reply = $"3".
Proof.
  destruct (responses_are_messages default_limits demo_play demo_setup 1 H264 [] 1 2 initial_control) as (H1 & _ & H3).
  - apply initial_control_ok.
  - vm_compute. done.
  - vm_compute. done.
  - vm_compute. done.
  - split; [exact H1|]. rewrite H3. reflexivity.
Defined.

(** A request that is refused (any status but 200) leaves the session as it was
    and starts nothing; the connection is closed only for a request without CSeq. *)
Lemma refusal_keeps_session request registered codec fmtp r1 r2 s :
  control_ok s ->
  let out := process_rtsp_request request registered codec fmtp r1 r2 s in
  rtsp_status_code (response out.1) <> 200 ->
  out.2 = s /\ start_play out.1 = false /\ (close_session out.1 = true <-> cseq_from_message request = []).
Proof.
  intros Hok out Hst. pose proof (no_cseq_response request registered codec fmtp r1 r2 s) as Hbad.
  assert (cseq_from_message request = [] -> close_session out.1 = true) as Hclose.
  { intros E. unfold out, process_rtsp_request. by rewrite E. }
  destruct (process_answered request registered codec fmtp r1 r2 s Hok) as
    (status & headers & body & Er & Hs & _). fold out in Er, Hs, Hbad. rewrite Er in Hst.
  remember (start_play out.1) as st eqn:Est. remember (close_session out.1) as cl eqn:Ecl.
  remember out.2 as s' eqn:Es'.
  destruct Hs as [|status _| | |]; [by split_and!| |by rewrite make_response_status in Hst..].
  split_and!; [done|done|]. split; [done|]. intros E. by apply Hclose in E.
Qed.

Lemma refusal_keeps_session_witness :
  (process_rtsp_request demo_play 1 H264 [] 0 0 initial_control).2 = initial_control.
Proof.
  apply (refusal_keeps_session demo_play 1 H264 [] 0 0 initial_control).
  - apply initial_control_ok.
  - vm_compute. done.
Defined.

(** PLAY is granted exactly to a request for the registered channel, the one the
    session was set up for, with the session's id, in the Ready phase. *)
Lemma play_granted_iff request registered codec fmtp r1 r2 s :
  start_play (process_rtsp_request request registered codec fmtp r1 r2 s).1 = true <->
  cseq_from_message request <> [] /\ rtsp_method_from_request request = $"PLAY" /\
  0 <= registered /\ parse_public_channel_id (extract_request_target request) = registered /\
  phase s = Ready /\ channel_id s = registered /\
  valid_session_header (session_of request) (session_id s) = true.
Proof.
  unfold process_rtsp_request. split.
  - destruct (is_empty _) eqn:Ec; [done|]. destruct (str_eqb _ $"OPTIONS"); [done|].
    destruct (_ || _) eqn:Ereg; [done|]. destruct (str_eqb _ $"DESCRIBE"); [done|].
    destruct (str_eqb _ $"SETUP").
    { destruct (negb (bool_decide _)); [done|]. by destruct (parse_interleaved_channels _) as [[]|]. }
    destruct (str_eqb _ $"PLAY") eqn:Ep.
    2: { destruct (str_eqb _ $"GET_PARAMETER"); [by destruct (negb (valid_session_header _ _))|].
         destruct (str_eqb _ $"TEARDOWN"); [by destruct (negb (valid_session_header _ _))|done]. }
    destruct (negb (bool_decide _) || _) eqn:Eph; [done|]. destruct (negb (valid_session_header _ _)) eqn:Ev; [done|].
    intros _. bprop. apply str_eqb_eq in Ep. split_and!; try done; try congruence; try lia.
    intros E. by rewrite E in Ec.
  - intros (Hc & -> & Hr & -> & Hp & Hch & Hv). destruct (cseq_from_message request); [done|]. cbn [is_empty].
    change (str_eqb $"PLAY" $"OPTIONS") with false. cbv beta iota.
    replace (registered <? 0) with false by lia. rewrite Z.eqb_refl. cbn [negb orb].
    change (str_eqb $"PLAY" $"DESCRIBE") with false. change (str_eqb $"PLAY" $"SETUP") with false.
    change (str_eqb $"PLAY" $"PLAY") with true. cbv beta iota. rewrite Hch, Z.eqb_refl, Hv, Hp. done.
Qed.

(** ** The public channel path *)

Definition channel_path (digits rest : bytes) : bytes := $"/ch" ++ digits ++ rest.

(** A target names channel [c] exactly when its path is "/ch", decimal digits of
    value [c] from 1 to 4, and then nothing or a slash. *)
Lemma public_channel_iff target c :
  c <> -1 ->
  (parse_public_channel_id target = c <->
   1 <= c <= 4 /\ exists digits rest, public_path target = channel_path digits rest /\
     digits <> [] /\ Forall (fun d => is_digit d = true) digits /\ dec_value digits = c /\
     (rest = [] \/ exists r, rest = 47 :: r)).
Proof.
  intros Hc. unfold parse_public_channel_id, channel_path. split.
  - intros E. destruct (_ || _) eqn:E1 in E; [congruence|].
    destruct (span _ _) as [ds rest] eqn:Esp. destruct (_ || _) eqn:E2 in E; [congruence|].
    apply orb_false_iff in E1 as [_ Ep]. apply orb_false_iff in E2 as [E2 E3].
    apply negb_false_iff, is_prefix_true in Ep as [t Ep]. rewrite Ep in *.
    change (drop 3 ($"/ch" ++ t)) with t in Esp. apply span_spec in Esp as (-> & Hds & _).
    assert (ds <> []) as Hne by by intros ->. rewrite stoi_digits in E by done.
    destruct (in_i32 _) in E; [|congruence]. destruct (_ && _) eqn:E4 in E; [|congruence]. bprop.
    split; [lia|]. exists ds, rest. split_and!; try done.
    destruct rest as [|x r]; [by left|]. right. exists r. bprop. by subst.
  - intros (Hr & ds & rest & -> & Hne & Hds & Hv & Hrest).
    replace (zlen ($"/ch" ++ ds ++ rest) <? 4) with false.
    2: { symmetry. apply Z.ltb_ge. rewrite !zlen_app. destruct ds; [done|]. rewrite zlen_cons.
         pose proof (zlen_nonneg rest). pose proof (zlen_nonneg ds). lit_len. lia. }
    rewrite is_prefix_app. cbn [orb negb]. change (drop 3 ($"/ch" ++ ds ++ rest)) with (ds ++ rest).
    rewrite span_app; [|done|by intros x b ->; destruct Hrest as [[=]|[r [= -> _]]]].
    destruct ds as [|d ds]; [done|]. cbn [is_empty orb]. rewrite stoi_digits, Hv by done.
    replace (in_i32 c) with true by (unfold in_i32, int_min, int_max; lia).
    replace ((1 <=? c) && (c <=? 4)) with true by lia.
    by destruct Hrest as [->|[r ->]].
Qed.

Lemma public_channel_iff_witness :
  parse_public_channel_id $"rtsp://pi.local:8554/ch3/trackID=0?x=1" = 3.
Proof.
  apply (public_channel_iff $"rtsp://pi.local:8554/ch3/trackID=0?x=1" 3); [lia|]. split; [lia|].
  exists $"3", $"/trackID=0". split_and!; [reflexivity|done|by repeat constructor|reflexivity|].
  right. by exists $"trackID=0".
Defined.

(** The channel of a full URL does not depend on the authority, the query or the
    fragment: "rtsp://host/chN..." is read as the path "/chN..." alone is. *)
Lemma url_channel_at scheme host path query :
  (forall rest, find0 $"://" (scheme ++ $"://" ++ rest) = Some (length scheme)) ->
  Forall (fun c => c <> 47) host -> Forall (fun c => mem c $"?#" = false) path ->
  (query = [] \/ exists c q, query = c :: q /\ mem c $"?#" = true) ->
  find0 $"://" (47 :: path) = None ->
  parse_public_channel_id (scheme ++ $"://" ++ host ++ 47 :: path ++ query) = parse_public_channel_id (47 :: path).
Proof.
  intros Hsch Hh Hp Hq Hs. unfold parse_public_channel_id.
  assert (Forall (fun c => mem c $"?#" = false) (47 :: path)) as Hp' by by constructor.
  set (url := scheme ++ $"://" ++ host ++ 47 :: path ++ query).
  assert (drop (length scheme + 3) url = host ++ 47 :: path ++ query) as Hdrop.
  { unfold url. rewrite app_assoc. apply drop_app_length'. rewrite length_app. done. }
  replace (public_path url) with (public_path (47 :: path)); [done|].
  unfold public_path at 1. rewrite Hs. unfold find_first_of. rewrite drop_0.
  rewrite (proj2 (find_if_None _ (47 :: path)) Hp'). cbn [fmap option_fmap option_map].
  unfold public_path, url. rewrite Hsch. fold url. unfold str_find. rewrite Hdrop.
  change $"/" with [47]. rewrite find0_char by done.
  replace (_ <? _)%nat with false.
  2: { symmetry. apply Nat.ltb_ge. unfold url. rewrite !length_app. change (length $"://") with 3%nat. lia. }
  cbn [fmap option_fmap option_map].
  assert (substr_from url (length scheme + 3 + length host) = (47 :: path) ++ query) as ->.
  { unfold substr_from. rewrite <- drop_drop, Hdrop. by rewrite drop_app_length. }
  unfold find_first_of. rewrite drop_0. destruct Hq as [->|(c & q & -> & Hc)].
  - rewrite app_nil_r, (proj2 (find_if_None _ (47 :: path)) Hp'). done.
  - rewrite find_if_app by done. cbn [fmap option_fmap option_map]. by rewrite Nat.add_0_l, take_app_length.
Qed.

Lemma url_channel host path query :
  Forall (fun c => c <> 47) host -> Forall (fun c => mem c $"?#" = false) path ->
  (query = [] \/ exists c q, query = c :: q /\ mem c $"?#" = true) ->
  find0 $"://" (47 :: path) = None ->
  parse_public_channel_id ($"rtsp://" ++ host ++ 47 :: path ++ query) = parse_public_channel_id (47 :: path).
Proof. apply (url_channel_at $"rtsp"). reflexivity. Qed.

Lemma url_channel_witness :
  parse_public_channel_id ($"rtsp://" ++ $"[::1]:8554" ++ 47 :: $"ch2" ++ $"?token=/ch4") =
  parse_public_channel_id $"/ch2".
Proof.
  apply url_channel.
  - apply (bool_decide_unpack _). vm_compute. exact I.
  - apply (bool_decide_unpack _). vm_compute. exact I.
  - right. by exists 63, $"token=/ch4".
  - reflexivity.
Defined.

Lemma lower_digits s : Forall (fun c => is_digit c = true) s -> lower_copy s = s.
Proof.
  intros H. induction H as [|c s Hc _ IH]; [done|]. unfold lower_copy in *. rewrite fmap_cons, IH.
  f_equal. unfold is_digit in Hc. unfold to_lower. bprop. zcase; cbn; lia.
Qed.

Lemma lower_to_string n : 0 <= n -> lower_copy (to_string n) = to_string n.
Proof.
  intros Hn. unfold to_string. destruct (Z.ltb_spec n 0); [lia|]. apply lower_digits, dec_unsigned_digits.
Qed.

(** The interleaved channels a client asks for are the ones the session gets, and
    what the SETUP response says of them reads back as the same pair. *)
Lemma transport_round_trip a b :
  0 <= a <= 255 -> 0 <= b <= 255 ->
  parse_interleaved_channels ($"RTP/AVP/TCP;unicast;interleaved=" ++ to_string a ++ $"-" ++ to_string b) =
  if a =? b then None else Some (a, b).
Proof.
  intros Ha Hb. unfold parse_interleaved_channels.
  assert (lower_copy ($"RTP/AVP/TCP;unicast;interleaved=" ++ to_string a ++ $"-" ++ to_string b) =
          $"rtp/avp/tcp;unicast;interleaved=" ++ to_string a ++ $"-" ++ to_string b) as ->.
  { rewrite <- (lower_to_string a), <- (lower_to_string b) at 2 by lia. unfold lower_copy. by rewrite !fmap_app. }
  change (find0 $"rtp/avp/tcp" ($"rtp/avp/tcp;unicast;interleaved=" ++ to_string a ++ $"-" ++ to_string b))
    with (Some 0%nat).
  change (find0 $"interleaved=" ($"rtp/avp/tcp;unicast;interleaved=" ++ to_string a ++ $"-" ++ to_string b))
    with (Some 20%nat).
  cbv beta iota zeta. change (substr_from _ _) with (to_string a ++ 45 :: to_string b).
  rewrite read_int_number; [|unfold int_max; lia|by intros c t [= <- _]].
  change (read_char (Some (45 :: to_string b)) 0) with (45, Some (to_string b)). cbv beta iota.
  rewrite <- (app_nil_r (to_string b)), read_int_number; [|unfold int_max; lia|done].
  rewrite bool_decide_eq_false_2 by done. cbn [orb negb Z.eqb Pos.eqb].
  replace (a <? 0) with false by lia. replace (b <? 0) with false by lia.
  replace (a >? 255) with false by lia. replace (b >? 255) with false by lia. done.
Qed.

Lemma transport_round_trip_witness :
  parse_interleaved_channels $"RTP/AVP/TCP;unicast;interleaved=2-3" = Some (2, 3).
Proof. apply (transport_round_trip 2 3); lia. Defined.
