(* ===== verification/LiveServer.v ===== *)
(** * The live RTSP server (src/live/live_rtsp_server.cpp, LiveRtspServer::Impl)

    The server's configuration checks, its TLS context and listeners, the turns of the
    accept loop, the parameter sets, the distribution of encoded frames to the clients'
    queues and the session counters.  What the operating system and OpenSSL answer are
    arguments.  Log output is not modelled. *)

From stdpp Require Import gmap.
From S2P Require Import Prelude CStr Parser Rtp FrameQueue Control.

(** ** Configuration *)

Record LiveChannel := { lc_channel_id : Z; lc_codec : VideoCodec }.

Record LiveRtspServerConfig := {
  listen_host : bytes;
  rtsp_port : Z;
  rtsps_port : Z;
  tls_cert_file : bytes;
  tls_key_file : bytes;
  listen_backlog : Z;
  max_header : Z;
  max_body : Z;
  client_queue_frames : Z;
  client_queue_bytes : Z;
  rtp_mtu : Z;
  io_timeout_ms : Z;
  channels : list LiveChannel;
  cfg_channel_id : Z;
  cfg_codec : VideoCodec
}.

Definition with_channels (c : LiveRtspServerConfig) (chs : list LiveChannel) : LiveRtspServerConfig :=
  {| listen_host := listen_host c; rtsp_port := rtsp_port c; rtsps_port := rtsps_port c;
     tls_cert_file := tls_cert_file c; tls_key_file := tls_key_file c; listen_backlog := listen_backlog c;
     max_header := max_header c; max_body := max_body c; client_queue_frames := client_queue_frames c;
     client_queue_bytes := client_queue_bytes c; rtp_mtu := rtp_mtu c; io_timeout_ms := io_timeout_ms c;
     channels := chs; cfg_channel_id := cfg_channel_id c; cfg_codec := cfg_codec c |}.

(** [std::find_if] by channel id *)
Definition find_channel (chs : list LiveChannel) (channel_id : Z) : option LiveChannel :=
  snd <$> list_find (fun ch => lc_channel_id ch = channel_id) chs.

Definition find_live_channel (config : LiveRtspServerConfig) (channel_id : Z) : option VideoCodec :=
  if is_empty (channels config) then
    if negb (cfg_channel_id config =? channel_id) then None else Some (cfg_codec config)
  else lc_codec <$> find_channel (channels config) channel_id.

(** The loop over [channel_seen], an array of five flags. *)
Fixpoint check_channels (chs : list LiveChannel) (channel_seen : list bool) : result unit :=
  match chs with
  | [] => Ok tt
  | ch :: rest =>
    if (lc_channel_id ch <? 1) || (lc_channel_id ch >? 4) then Throw $"live channel_id out of range"
    else
      let i := Z.to_nat (lc_channel_id ch) in
      if default false (channel_seen !! i) then Throw $"duplicate live channel registration"
      else check_channels rest (<[i := true]> channel_seen)
  end.

(** The constructor of [Impl]: the configuration the server keeps. *)
Definition impl_config (config : LiveRtspServerConfig) : result LiveRtspServerConfig :=
  let config := if is_empty (channels config)
                then with_channels config [{| lc_channel_id := cfg_channel_id config; lc_codec := cfg_codec config |}]
                else config in
  _ ← check_channels (channels config) (replicate 5 false);
  _ ← throw_if ((rtsp_port config <=? 0) && (rtsps_port config <=? 0)) $"at least one live RTSP listener must be enabled";
  _ ← throw_if ((rtsps_port config >? 0) && (is_empty (tls_cert_file config) || is_empty (tls_key_file config)))
        $"RTSPS requires --tls-cert and --tls-key";
  Ok config.

Fixpoint channel_list_loop (chs : list LiveChannel) (acc : bytes) : bytes :=
  match chs with
  | [] => acc
  | ch :: rest =>
    channel_list_loop rest ((if is_empty acc then acc else acc ++ $",") ++ $"/ch" ++ to_string (lc_channel_id ch))
  end.
Definition registered_channel_list (config : LiveRtspServerConfig) : bytes := channel_list_loop (channels config) [].

(** ** The state of one client *)

Record ClientMediaState := {
  m_queue : BoundedFrameQueue;
  m_playing : bool;
  m_connected : bool;
  m_channel_id : Z;
  m_sequence : Z;
  m_ssrc : Z;
  m_timestamp_origin : Z;
  m_first_pts_ns : Z;
  m_last_timestamp : Z;
  m_packet_count : Z;
  m_octet_count : Z;
  m_first_rtp_sent : bool;
  m_waiting_for_keyframe : bool;
  m_last_rtcp : Z
}.

(** [random_u32()] from two words of [std::random_device] *)
Definition random_u32 (a b : Z) : Z := Z.lxor (u32 (Z.shiftl (u32 a) 16)) (u32 b).

(** [ClientMediaState(max_frames, max_bytes)] with the three random values it draws *)
Definition media_new (max_frames max_bytes seq ssrc origin : Z) : result ClientMediaState :=
  q ← queue_new max_frames max_bytes;
  Ok {| m_queue := q; m_playing := false; m_connected := true; m_channel_id := -1; m_sequence := u16 seq;
        m_ssrc := ssrc; m_timestamp_origin := origin; m_first_pts_ns := -1; m_last_timestamp := 0;
        m_packet_count := 0; m_octet_count := 0; m_first_rtp_sent := false; m_waiting_for_keyframe := true;
        m_last_rtcp := 0 |}.

Definition set_queue (q : BoundedFrameQueue) (m : ClientMediaState) : ClientMediaState :=
  {| m_queue := q; m_playing := m_playing m; m_connected := m_connected m; m_channel_id := m_channel_id m;
     m_sequence := m_sequence m; m_ssrc := m_ssrc m; m_timestamp_origin := m_timestamp_origin m;
     m_first_pts_ns := m_first_pts_ns m; m_last_timestamp := m_last_timestamp m; m_packet_count := m_packet_count m;
     m_octet_count := m_octet_count m; m_first_rtp_sent := m_first_rtp_sent m;
     m_waiting_for_keyframe := m_waiting_for_keyframe m; m_last_rtcp := m_last_rtcp m |}.

Definition set_playing (channel : Z) (playing connected : bool) (m : ClientMediaState) : ClientMediaState :=
  {| m_queue := m_queue m; m_playing := playing; m_connected := connected; m_channel_id := channel;
     m_sequence := m_sequence m; m_ssrc := m_ssrc m; m_timestamp_origin := m_timestamp_origin m;
     m_first_pts_ns := m_first_pts_ns m; m_last_timestamp := m_last_timestamp m; m_packet_count := m_packet_count m;
     m_octet_count := m_octet_count m; m_first_rtp_sent := m_first_rtp_sent m;
     m_waiting_for_keyframe := m_waiting_for_keyframe m; m_last_rtcp := m_last_rtcp m |}.

Definition set_clock (first_pts last_ts : Z) (m : ClientMediaState) : ClientMediaState :=
  {| m_queue := m_queue m; m_playing := m_playing m; m_connected := m_connected m; m_channel_id := m_channel_id m;
     m_sequence := m_sequence m; m_ssrc := m_ssrc m; m_timestamp_origin := m_timestamp_origin m;
     m_first_pts_ns := first_pts; m_last_timestamp := last_ts; m_packet_count := m_packet_count m;
     m_octet_count := m_octet_count m; m_first_rtp_sent := m_first_rtp_sent m;
     m_waiting_for_keyframe := m_waiting_for_keyframe m; m_last_rtcp := m_last_rtcp m |}.

Definition set_flow (sequence packets octets : Z) (first_sent waiting : bool) (last_rtcp : Z) (m : ClientMediaState)
    : ClientMediaState :=
  {| m_queue := m_queue m; m_playing := m_playing m; m_connected := m_connected m; m_channel_id := m_channel_id m;
     m_sequence := sequence; m_ssrc := m_ssrc m; m_timestamp_origin := m_timestamp_origin m;
     m_first_pts_ns := m_first_pts_ns m; m_last_timestamp := m_last_timestamp m; m_packet_count := packets;
     m_octet_count := octets; m_first_rtp_sent := first_sent; m_waiting_for_keyframe := waiting;
     m_last_rtcp := last_rtcp |}.

(** ** Parameter sets, one record per channel *)

Record ParameterSets := {
  h264_sps : bytes;
  h264_pps : bytes;
  h265_vps : bytes;
  h265_sps : bytes;
  h265_pps : bytes
}.

Definition no_sets : ParameterSets :=
  {| h264_sps := []; h264_pps := []; h265_vps := []; h265_sps := []; h265_pps := [] |}.

(** [parameter_sets_by_channel_]: an array of five; ids are 1 to 4. *)
Definition sets_of (arr : list ParameterSets) (channel_id : Z) : ParameterSets :=
  default no_sets (arr !! Z.to_nat channel_id).

Definition codec_fmtp (arr : list ParameterSets) (channel_id : Z) (codec : VideoCodec) : bytes :=
  let sets := sets_of arr channel_id in
  match codec with
  | H264 =>
    if negb (is_empty (h264_sps sets)) && negb (is_empty (h264_pps sets))
    then $"packetization-mode=1;sprop-parameter-sets=" ++ base64_encode (h264_sps sets) ++ $"," ++
         base64_encode (h264_pps sets)
    else []
  | H265 =>
    if negb (is_empty (h265_vps sets)) && negb (is_empty (h265_sps sets)) && negb (is_empty (h265_pps sets))
    then $"sprop-vps=" ++ base64_encode (h265_vps sets) ++ $";sprop-sps=" ++ base64_encode (h265_sps sets) ++
         $";sprop-pps=" ++ base64_encode (h265_pps sets)
    else []
  end.

Definition parameter_sets (arr : list ParameterSets) (channel_id : Z) (codec : VideoCodec) : list bytes :=
  let sets := sets_of arr channel_id in
  match codec with
  | H264 => [h264_sps sets; h264_pps sets]
  | H265 => [h265_vps sets; h265_sps sets; h265_pps sets]
  end.

(** One NAL unit of a frame. *)
Definition note_parameter_set (codec : VideoCodec) (nal : bytes) (s : ParameterSets) : ParameterSets :=
  match nal with
  | [] => s
  | b :: _ =>
    match codec with
    | H264 =>
      let type := Z.land b 31 in
      {| h264_sps := if type =? 7 then nal else h264_sps s; h264_pps := if type =? 8 then nal else h264_pps s;
         h265_vps := h265_vps s; h265_sps := h265_sps s; h265_pps := h265_pps s |}
    | H265 =>
      if (length nal <? 2)%nat then s
      else
        let type := Z.land (Z.shiftr b 1) 63 in
        {| h264_sps := h264_sps s; h264_pps := h264_pps s; h265_vps := if type =? 32 then nal else h265_vps s;
           h265_sps := if type =? 33 then nal else h265_sps s; h265_pps := if type =? 34 then nal else h265_pps s |}
    end
  end.

Definition update_parameter_sets (frame : OwnedLiveFrame) (arr : list ParameterSets) : list ParameterSets :=
  let nal_units := split_access_unit (f_data frame) in
  <[Z.to_nat (f_channel_id frame) :=
      fold_left (fun s nal => note_parameter_set (f_codec frame) nal s) nal_units
        (sets_of arr (f_channel_id frame))]> arr.

(** ** The server *)

Record LiveRtspServerStats := {
  sessions_created : Z;
  sessions_closed : Z;
  active_clients : Z;
  first_rtp_transmissions : Z;
  queue_drops_total : Z;
  write_failures : Z
}.

Definition stats_zero : LiveRtspServerStats :=
  {| sessions_created := 0; sessions_closed := 0; active_clients := 0; first_rtp_transmissions := 0;
     queue_drops_total := 0; write_failures := 0 |}.

(** [s_media] holds the client states that are alive, by address; [s_clients] is the
    vector of weak pointers to them.  [s_tls_context] tells whether [tls_context_] is set
    and [s_contexts] how many TLS contexts have been made and not freed.  [s_listeners]
    and [s_session_threads] are the two vectors of threads: a listener thread is its
    descriptor and whether it speaks TLS, a session thread is a number. *)
Record Server := {
  s_config : LiveRtspServerConfig;
  s_started : bool;
  s_plain_fd : Z;
  s_tls_fd : Z;
  s_tls_context : bool;
  s_contexts : Z;
  s_listeners : list (Z * bool);
  s_session_threads : list nat;
  s_clients : list nat;
  s_media : gmap nat ClientMediaState;
  s_sets : list ParameterSets;
  s_stats : LiveRtspServerStats
}.

(** [LiveRtspServer(config, logger, running)] *)
Definition server_new (config : LiveRtspServerConfig) : result Server :=
  config ← impl_config config;
  Ok {| s_config := config; s_started := false; s_plain_fd := -1; s_tls_fd := -1; s_tls_context := false;
        s_contexts := 0; s_listeners := []; s_session_threads := []; s_clients := []; s_media := ∅;
        s_sets := replicate 5 no_sets; s_stats := stats_zero |}.

Definition registered_channel (s : Server) (channel_id : Z) : option LiveChannel :=
  find_channel (channels (s_config s)) channel_id.

Record LiveEncodedFrameView := {
  v_data : option bytes;
  v_pts_ns : Z;
  v_dts_ns : Z;
  v_duration_ns : Z;
  v_key_frame : bool;
  v_channel_id : Z;
  v_codec : VideoCodec
}.

(** [assign(view.data, view.data + view.size)] and the fields *)
Definition own_frame (view : LiveEncodedFrameView) (data : bytes) : OwnedLiveFrame :=
  {| f_data := data; f_pts_ns := v_pts_ns view; f_duration_ns := v_duration_ns view; f_key_frame := v_key_frame view;
     f_channel_id := v_channel_id view; f_codec := v_codec view |}.

(** The clients that get a frame of a channel. *)
Definition wants_frame (channel : Z) (m : ClientMediaState) : bool :=
  m_connected m && m_playing m && (m_channel_id m =? channel).

Definition add_queue_drops (n : Z) (st : LiveRtspServerStats) : LiveRtspServerStats :=
  {| sessions_created := sessions_created st; sessions_closed := sessions_closed st;
     active_clients := active_clients st; first_rtp_transmissions := first_rtp_transmissions st;
     queue_drops_total := u64 (queue_drops_total st + n); write_failures := write_failures st |}.

(** [client->queue.push(frame)] and the accounting of its drops *)
Definition push_to_client (frame : OwnedLiveFrame) (acc : gmap nat ClientMediaState * LiveRtspServerStats) (id : nat)
    : gmap nat ClientMediaState * LiveRtspServerStats :=
  let '(media, st) := acc in
  match media !! id with
  | None => acc
  | Some m =>
    let before := queue_drops (m_queue m) in
    let q := snd (push (m_queue m) (Some frame)) in
    let after := queue_drops q in
    (<[id := set_queue q m]> media, if after >? before then add_queue_drops (u64 (after - before)) st else st)
  end.

Definition alive (media : gmap nat ClientMediaState) (id : nat) : bool := bool_decide (is_Some (media !! id)).

Definition selected (media : gmap nat ClientMediaState) (channel : Z) (id : nat) : bool :=
  match media !! id with Some m => wants_frame channel m | None => false end.

Definition on_frame (view : LiveEncodedFrameView) (s : Server) : Server :=
  match v_data view, registered_channel s (v_channel_id view) with
  | Some data, Some channel =>
    if is_empty data || negb (bool_decide (lc_codec channel = v_codec view)) then s
    else
      let frame := own_frame view data in
      let clients_ := filter (fun id => alive (s_media s) id = true) (s_clients s) in
      let clients := filter (fun id => selected (s_media s) (v_channel_id view) id = true) clients_ in
      let '(media, st) := fold_left (push_to_client frame) clients (s_media s, s_stats s) in
      {| s_config := s_config s; s_started := s_started s; s_plain_fd := s_plain_fd s; s_tls_fd := s_tls_fd s;
         s_tls_context := s_tls_context s; s_contexts := s_contexts s; s_listeners := s_listeners s;
         s_session_threads := s_session_threads s; s_clients := clients_; s_media := media;
         s_sets := update_parameter_sets frame (s_sets s); s_stats := st |}
  | _, _ => s
  end.

(** ** Listeners *)

(** What the operating system answers while a listener is opened. *)
Record ListenOs := { os_socket : Z; os_inet_pton : Z; os_bind : Z; os_listen : Z; os_strerror : bytes }.

Definition open_listener (config : LiveRtspServerConfig) (port : Z) (os : ListenOs) : result Z :=
  if os_socket os <? 0 then Throw $"live listener socket failed"
  else if negb (os_inet_pton os =? 1) || (os_bind os <? 0) || (os_listen os <? 0)
  then Throw ($"failed to listen on " ++ listen_host config ++ $":" ++ to_string port ++ $": " ++ os_strerror os)
  else Ok (os_socket os).

Definition with_listeners (s : Server) (started : bool) (plain tls : Z) (ctx : bool) (threads : list (Z * bool)) : Server :=
  {| s_config := s_config s; s_started := started; s_plain_fd := plain; s_tls_fd := tls; s_tls_context := ctx;
     s_contexts := s_contexts s; s_listeners := threads; s_session_threads := s_session_threads s; s_clients := s_clients s; s_media := s_media s; s_sets := s_sets s; s_stats := s_stats s |}.

(** [close_listeners()]: both descriptors are closed and forgotten. *)
Definition close_listeners (s : Server) : Server :=
  with_listeners s (s_started s) (-1) (-1) (s_tls_context s) (s_listeners s).

(** What OpenSSL answers while the TLS context is made. *)
Record TlsOs := { ts_ctx_new : bool; ts_use_certificate : Z; ts_use_key : Z; ts_check_key : Z }.

Definition with_tls (s : Server) (ctx : bool) (contexts : Z) : Server :=
  {| s_config := s_config s; s_started := s_started s; s_plain_fd := s_plain_fd s; s_tls_fd := s_tls_fd s;
     s_tls_context := ctx; s_contexts := contexts; s_listeners := s_listeners s;
     s_session_threads := s_session_threads s; s_clients := s_clients s; s_media := s_media s; s_sets := s_sets s;
     s_stats := s_stats s |}.

Definition initialize_tls (os : TlsOs) (s : Server) : result unit * Server :=
  if negb (ts_ctx_new os) then (Throw $"SSL_CTX_new failed", with_tls s false (s_contexts s))
  else
    let s := with_tls s true (s_contexts s + 1) in
    if negb (ts_use_certificate os =? 1) || negb (ts_use_key os =? 1) || negb (ts_check_key os =? 1)
    then (Throw $"failed to load matching TLS certificate and private key", with_tls s false (s_contexts s - 1))
    else (Ok tt, s).

(** [start()] *)
Definition start (tls : TlsOs) (os_plain os_tls : ListenOs) (s : Server) : result unit * Server :=
  if s_started s then (Ok tt, s)
  else
    let s := with_listeners s true (s_plain_fd s) (s_tls_fd s) (s_tls_context s) (s_listeners s) in
    let c := s_config s in
    match (if rtsps_port c >? 0 then initialize_tls tls s else (Ok tt, s)) with
    | (Throw w, s) => (Throw w, s)
    | (Ok _, s) =>
      let plain := if rtsp_port c >? 0 then open_listener c (rtsp_port c) os_plain else Ok (s_plain_fd s) in
      match plain with
      | Throw w => (Throw w, with_listeners (close_listeners s) false (-1) (-1) (s_tls_context s) (s_listeners s))
      | Ok plain_fd =>
        let tlsl := if rtsps_port c >? 0 then open_listener c (rtsps_port c) os_tls else Ok (s_tls_fd s) in
        match tlsl with
        | Throw w => (Throw w, with_listeners (close_listeners s) false (-1) (-1) (s_tls_context s) (s_listeners s))
        | Ok tls_fd =>
          (Ok tt, with_listeners s true plain_fd tls_fd (s_tls_context s)
             (s_listeners s ++ (if plain_fd >=? 0 then [(plain_fd, false)] else []) ++
              (if tls_fd >=? 0 then [(tls_fd, true)] else [])))
        end
      end
    end.

(** What one turn of a listener thread meets: [select] and [accept]. *)
Record AcceptEvent := { ae_select : Z; ae_accept : Z }.

Definition with_session_threads (s : Server) (threads : list nat) : Server :=
  {| s_config := s_config s; s_started := s_started s; s_plain_fd := s_plain_fd s; s_tls_fd := s_tls_fd s;
     s_tls_context := s_tls_context s; s_contexts := s_contexts s; s_listeners := s_listeners s;
     s_session_threads := threads; s_clients := s_clients s; s_media := s_media s; s_sets := s_sets s;
     s_stats := s_stats s |}.

(** One turn of [accept_loop]; [None] when the loop is left.  A descriptor that was
    accepted gets the session thread [id], which is started on it. *)
Definition accept_turn (running : bool) (ev : AcceptEvent) (id : nat) (s : Server) : option (option Z * Server) :=
  if running && s_started s then
    if ae_select ev <=? 0 then Some (None, s)
    else if ae_accept ev <? 0 then Some (None, s)
    else Some (Some (ae_accept ev), with_session_threads s (s_session_threads s ++ [id]))
  else None.

(** [stop()] up to the joins: no thread stays in its loop and the listeners are closed. *)
Definition stop_begin (s : Server) : Server :=
  with_listeners s false (-1) (-1) (s_tls_context s) (s_listeners s).

(** The rest of [stop()], once listener and session threads have been joined. *)
Definition stop_end (s : Server) : Server :=
  let s := with_session_threads (with_listeners s (s_started s) (s_plain_fd s) (s_tls_fd s) (s_tls_context s) []) [] in
  if s_tls_context s then with_tls s false (s_contexts s - 1) else s.

(** [stop()] as its caller sees it; also the destructor. *)
Definition stop (s : Server) : Server := if s_started s then stop_end (stop_begin s) else s.

Definition server_stats (s : Server) : LiveRtspServerStats := s_stats s.

(** ** Sessions as the server sees them *)

Definition with_clients (s : Server) (clients : list nat) (media : gmap nat ClientMediaState) (st : LiveRtspServerStats)
    : Server :=
  {| s_config := s_config s; s_started := s_started s; s_plain_fd := s_plain_fd s; s_tls_fd := s_tls_fd s;
     s_tls_context := s_tls_context s; s_contexts := s_contexts s; s_listeners := s_listeners s;
     s_session_threads := s_session_threads s; s_clients := clients; s_media := media;
     s_sets := s_sets s; s_stats := st |}.

(** The start of [run_session] once the connection stands: the client is registered and counted. *)
Definition session_open (id : nat) (m : ClientMediaState) (s : Server) : Server :=
  let st := s_stats s in
  with_clients s (s_clients s ++ [id]) (<[id := m]> (s_media s))
    {| sessions_created := u64 (sessions_created st + 1); sessions_closed := sessions_closed st;
       active_clients := u64 (active_clients st + 1); first_rtp_transmissions := first_rtp_transmissions st;
       queue_drops_total := queue_drops_total st; write_failures := write_failures st |}.

(** What the session's own thread does to its state and to the two counters it shares. *)
Definition session_update (id : nat) (m : ClientMediaState) (first_rtp failures : Z) (s : Server) : Server :=
  let st := s_stats s in
  with_clients s (s_clients s) (<[id := m]> (s_media s))
    {| sessions_created := sessions_created st; sessions_closed := sessions_closed st;
       active_clients := active_clients st; first_rtp_transmissions := u64 (first_rtp_transmissions st + first_rtp);
       queue_drops_total := queue_drops_total st; write_failures := u64 (write_failures st + failures) |}.

(** The end of [run_session]: the session is counted out and the client state dies with
    the thread's pointer. *)
Definition session_close (id : nat) (s : Server) : Server :=
  let st := s_stats s in
  with_clients s (s_clients s) (delete id (s_media s))
    {| sessions_created := sessions_created st; sessions_closed := u64 (sessions_closed st + 1);
       active_clients := u64 (active_clients st - 1); first_rtp_transmissions := first_rtp_transmissions st;
       queue_drops_total := queue_drops_total st; write_failures := write_failures st |}.

(** What can happen to a server, in any order. *)
Inductive server_step (s : Server) : Server -> Prop :=
| ss_start tls os_plain os_tls : server_step s (snd (start tls os_plain os_tls s))
| ss_stop : server_step s (stop s)
| ss_frame view : server_step s (on_frame view s)
| ss_open id m : s_media s !! id = None -> id ∉ s_clients s -> server_step s (session_open id m s)
| ss_update id m m' k n : s_media s !! id = Some m -> server_step s (session_update id m' k n s)
| ss_close id m : s_media s !! id = Some m -> server_step s (session_close id s)
| ss_accept running ev id fd s' : accept_turn running ev id s = Some (fd, s') -> server_step s s'.

Definition server_reachable (config : LiveRtspServerConfig) (s : Server) : Prop :=
  exists s0, server_new config = Ok s0 /\ rtc server_step s0 s.

(** ** Facts: the configuration *)

Lemma check_channels_ok chs seen :
  length seen = 5%nat ->
  check_channels chs seen = Ok tt <->
  Forall (fun ch => 1 <= lc_channel_id ch <= 4) chs /\ NoDup (lc_channel_id <$> chs) /\
  Forall (fun ch => seen !! Z.to_nat (lc_channel_id ch) = Some false) chs.
Proof.
  revert seen. induction chs as [|ch chs IH]; intros seen Hl; cbn [check_channels].
  { split; [|done]. intros _. split_and!; constructor. }
  rewrite fmap_cons, NoDup_cons, !Forall_cons.
  destruct (_ || _) eqn:E; [split; [done|]; intros ([? _] & _); apply orb_true_iff in E; lia|]. bprop.
  set (i := Z.to_nat (lc_channel_id ch)).
  destruct (lookup_lt_is_Some_2 seen i ltac:(lia)) as [b Hb]. rewrite Hb. unfold default, from_option, id.
  destruct b; [split; [done|]; by intros (_ & _ & [=] & _)|].
  rewrite IH by by rewrite length_insert. split.
  - intros (Hr & Hnd & Hs). split; [split; [lia|done]|]. split; [split; [|done]|split; [done|]].
    + intros (ch' & Hid & Hin)%list_elem_of_fmap. rewrite Forall_forall in Hs. specialize (Hs ch' Hin).
      rewrite <- Hid in Hs. fold i in Hs. rewrite list_lookup_insert in Hs. case_decide; [done|lia].
    + apply Forall_forall. intros ch' Hin. rewrite Forall_forall in Hs. specialize (Hs ch' Hin).
      rewrite list_lookup_insert in Hs. by case_decide.
  - intros ([Hr1 Hr] & [Hni Hnd] & _ & Hs). split_and!; try done. apply Forall_forall. intros ch' Hin.
    rewrite Forall_forall in Hs. rewrite list_lookup_insert_ne; [by apply Hs|]. unfold i. intros Eq.
    rewrite Forall_forall in Hr. specialize (Hr ch' Hin). apply Hni. apply list_elem_of_fmap. exists ch'.
    split; [lia|done].
Qed.

(** The channels a server is asked to publish. *)
Definition published (config : LiveRtspServerConfig) : list LiveChannel :=
  if is_empty (channels config) then [{| lc_channel_id := cfg_channel_id config; lc_codec := cfg_codec config |}]
  else channels config.

Lemma impl_config_ok config c :
  impl_config config = Ok c <->
  c = with_channels config (published config) /\
  Forall (fun ch => 1 <= lc_channel_id ch <= 4) (published config) /\ NoDup (lc_channel_id <$> published config) /\
  (0 < rtsp_port config \/ 0 < rtsps_port config) /\
  (0 < rtsps_port config -> tls_cert_file config <> [] /\ tls_key_file config <> []).
Proof.
  unfold impl_config.
  assert ((if is_empty (channels config)
           then with_channels config [{| lc_channel_id := cfg_channel_id config; lc_codec := cfg_codec config |}]
           else config) = with_channels config (published config)) as ->.
  { unfold published. by destruct config as [? ? ? ? ? ? ? ? ? ? ? ? [|] ? ?]. }
  rewrite result_bind_Ok. cbn [channels with_channels rtsp_port rtsps_port tls_cert_file tls_key_file].
  setoid_rewrite result_bind_Ok. setoid_rewrite result_bind_Ok. setoid_rewrite throw_if_Ok.
  split.
  - intros ([] & Hc & [] & Hp & [] & Ht & [= <-]). apply check_channels_ok in Hc as (Hr & Hnd & _); [|done].
    split_and!; try done; [lia|]. intros Hpos. rewrite Z.gtb_ltb, (proj2 (Z.ltb_lt _ _) Hpos) in Ht.
    apply orb_false_iff in Ht as [Ht1 Ht2]. by destruct (tls_cert_file config), (tls_key_file config).
  - intros (-> & Hr & Hnd & Hp & Ht). exists tt. split.
    { apply check_channels_ok; [done|]. split_and!; [done|done|]. eapply Forall_impl; [exact Hr|].
      intros ch Hch. cbv beta in Hch. apply lookup_replicate_2. lia. }
    exists tt. split; [lia|]. exists tt. split; [|done].
    destruct (Z.gtb_spec (rtsps_port config) 0) as [Hpos|]; [|done].
    destruct (Ht ltac:(lia)). by destruct (tls_cert_file config), (tls_key_file config).
Qed.

(** A server is constructed exactly from a valid configuration: the published
    channels are distinct and from 1 to 4, at least one listener is enabled, and a TLS
    listener comes with a certificate and a key. *)
Lemma server_new_iff config :
  (exists s, server_new config = Ok s /\ channels (s_config s) = published config) <->
  Forall (fun ch => 1 <= lc_channel_id ch <= 4) (published config) /\ NoDup (lc_channel_id <$> published config) /\
  (0 < rtsp_port config \/ 0 < rtsps_port config) /\
  (0 < rtsps_port config -> tls_cert_file config <> [] /\ tls_key_file config <> []).
Proof.
  unfold server_new. split.
  - intros (s & H & _). bind_inv H. by apply impl_config_ok in Hv as (_ & ?).
  - intros H. rewrite (proj2 (impl_config_ok config (with_channels config (published config))) (conj eq_refl H)).
    by eexists.
Qed.

(** ** The registry of clients *)

Record server_ok (config : LiveRtspServerConfig) (s : Server) : Prop := {
  sv_config : impl_config config = Ok (s_config s);
  sv_clients : NoDup (s_clients s);
  sv_alive : forall id, is_Some (s_media s !! id) -> id ∈ s_clients s;
  sv_active : active_clients (s_stats s) = u64 (Z.of_nat (size (s_media s)));
  sv_created : sessions_created (s_stats s) = u64 (sessions_closed (s_stats s) + Z.of_nat (size (s_media s)));
  sv_sets : length (s_sets s) = 5%nat
}.

Lemma push_to_client_others frame id acc k : k <> id -> fst (push_to_client frame acc id) !! k = fst acc !! k.
Proof.
  intros Hk. destruct acc as [media st]. unfold push_to_client. destruct (media !! id); [|done].
  cbn [fst]. by rewrite lookup_insert_ne.
Qed.

Definition receive_frame (frame : OwnedLiveFrame) (m : ClientMediaState) : ClientMediaState :=
  set_queue (snd (push (m_queue m) (Some frame))) m.

Lemma push_all_media frame ids acc k :
  NoDup ids ->
  fst (fold_left (push_to_client frame) ids acc) !! k =
  (if bool_decide (k ∈ ids) then receive_frame frame <$> (fst acc !! k) else fst acc !! k).
Proof.
  intros Hnd. revert acc. induction Hnd as [|id ids Hid Hnd IH]; intros acc; cbn [fold_left]; [done|]. rewrite IH.
  destruct (decide (k = id)) as [->|Hk].
  - rewrite (bool_decide_eq_false_2 (id ∈ ids)), (bool_decide_eq_true_2 (id ∈ id :: ids)) by set_solver.
    destruct acc as [media st]. unfold push_to_client. cbn [fst]. destruct (media !! id) eqn:E; cbn [fst fmap option_fmap option_map].
    + by rewrite lookup_insert_eq.
    + done.
  - rewrite push_to_client_others by done. by rewrite (bool_decide_ext (k ∈ ids) (k ∈ id :: ids)) by set_solver.
Qed.

Lemma push_all_counters frame ids acc :
  let st := snd (fold_left (push_to_client frame) ids acc) in
  sessions_created st = sessions_created (snd acc) /\ sessions_closed st = sessions_closed (snd acc) /\
  active_clients st = active_clients (snd acc).
Proof.
  revert acc. induction ids as [|id ids IH]; intros acc; [done|]. cbn [fold_left].
  destruct (IH (push_to_client frame acc id)) as (-> & -> & ->). destruct acc as [media st].
  unfold push_to_client. destruct (media !! id); [|done]. cbn [snd]. by destruct (_ >? _).
Qed.

(** The clients of a frame, in one lookup: who gets it and what the others keep. *)
Lemma on_frame_media view data channel s k :
  NoDup (s_clients s) -> (forall id, is_Some (s_media s !! id) -> id ∈ s_clients s) ->
  v_data view = Some data -> data <> [] -> registered_channel s (v_channel_id view) = Some channel ->
  lc_codec channel = v_codec view ->
  s_media (on_frame view s) !! k =
  (fun m => if wants_frame (v_channel_id view) m then receive_frame (own_frame view data) m else m) <$> s_media s !! k.
Proof.
  intros Hnd Hal Hd Hne Hc Hcodec. unfold on_frame. rewrite Hd, Hc. destruct data as [|b data]; [done|].
  rewrite bool_decide_eq_true_2 by done. cbn [is_empty negb orb].
  set (ids := filter _ (filter _ _)). set (frame := own_frame view (b :: data)).
  pose proof (push_all_media frame ids (s_media s, s_stats s) k) as Hp.
  destruct (fold_left _ ids _) as [media st]. cbn [fst s_media] in *. rewrite Hp by (by repeat apply NoDup_filter).
  destruct (s_media s !! k) as [m|] eqn:E; cbn [fmap option_fmap option_map]; [|by case_match].
  assert (k ∈ ids <-> wants_frame (v_channel_id view) m = true) as Hk.
  { unfold ids. rewrite !list_elem_of_filter. unfold selected, alive. rewrite E. split; [by intros [? _]|].
    intros ?. split_and!; [done|by apply bool_decide_eq_true_2|apply Hal; by eexists]. }
  destruct (wants_frame _ m).
  - by rewrite bool_decide_eq_true_2 by by apply Hk.
  - rewrite bool_decide_eq_false_2; [done|]. by intros H%Hk.
Qed.

Lemma size_same_dom {A} (m1 m2 : gmap nat A) :
  (forall k, is_Some (m1 !! k) <-> is_Some (m2 !! k)) -> size m1 = size m2.
Proof.
  intros H. rewrite <- !(size_dom (D := gset nat)). f_equal. apply set_eq. intros k. by rewrite !elem_of_dom.
Qed.

(** A frame the server takes, or no change. *)
Lemma on_frame_cases view s :
  on_frame view s = s \/
  exists data channel, v_data view = Some data /\ data <> [] /\ registered_channel s (v_channel_id view) = Some channel /\
    lc_codec channel = v_codec view.
Proof.
  unfold on_frame. destruct (v_data view) as [data|]; [|by left].
  destruct (registered_channel s _) as [channel|]; [|by left].
  destruct (_ || _) eqn:E; [by left|]. right. exists data, channel. apply orb_false_iff in E as [E1 E2]. bprop.
  split_and!; try done. by intros ->.
Qed.

Lemma on_frame_ok config view s : server_ok config s -> server_ok config (on_frame view s).
Proof.
  intros [Hcfg Hnd Hal Hact Hcr Hset].
  destruct (on_frame_cases view s) as [->|(data & channel & Hd & Hne & Hc & Hcodec)]; [by constructor|].
  pose proof (fun k => on_frame_media view data channel s k Hnd Hal Hd Hne Hc Hcodec) as Hm.
  assert (forall k, is_Some (s_media (on_frame view s) !! k) <-> is_Some (s_media s !! k)) as Hdom.
  { intros k. rewrite Hm. apply fmap_is_Some. }
  pose proof (size_same_dom _ _ Hdom) as Hsize.
  revert Hm Hdom Hsize. unfold on_frame. rewrite Hd, Hc. destruct (_ || _); [by constructor|].
  set (ids := filter _ (filter _ _)). set (frame := own_frame view data).
  pose proof (push_all_counters frame ids (s_media s, s_stats s)) as (C1 & C2 & C3).
  destruct (fold_left _ ids _) as [media st]. cbn [snd s_media] in *. intros Hm Hdom Hsize.
  constructor; cbn.
  - done.
  - by apply NoDup_filter.
  - intros id Hid. apply list_elem_of_filter. unfold alive. apply Hdom in Hid.
    split; [by apply bool_decide_eq_true_2|by apply Hal].
  - by rewrite C3, Hsize.
  - by rewrite C1, C2, Hsize.
  - unfold update_parameter_sets. by rewrite length_insert.
Qed.

(** OpenSSL makes a context and accepts the certificate, the key and their match. *)
Definition tls_loads (os : TlsOs) : bool :=
  ts_ctx_new os && (ts_use_certificate os =? 1) && (ts_use_key os =? 1) && (ts_check_key os =? 1).

Definition tls_error (os : TlsOs) : bytes :=
  if ts_ctx_new os then $"failed to load matching TLS certificate and private key" else $"SSL_CTX_new failed".

(** [initialize_tls]: one more context, or an error and none. *)
Lemma initialize_tls_spec os s :
  initialize_tls os s =
  if tls_loads os then (Ok tt, with_tls s true (s_contexts s + 1))
  else (Throw (tls_error os), with_tls s false (s_contexts s)).
Proof.
  unfold initialize_tls, tls_loads, tls_error. destruct (ts_ctx_new os); [|done]. cbn [negb andb].
  destruct (_ =? 1), (ts_use_key os =? 1), (ts_check_key os =? 1); cbn; try done;
    (unfold with_tls; cbn; do 2 f_equal; lia).
Qed.

(** [start] changes only what belongs to the listeners. *)
Lemma start_shape tls o1 o2 s :
  exists started plain tls_fd ctx n threads,
    snd (start tls o1 o2 s) = with_tls (with_listeners s started plain tls_fd (s_tls_context s) threads) ctx n.
Proof.
  unfold start. destruct (s_started s) eqn:Es.
  { exists (s_started s), (s_plain_fd s), (s_tls_fd s), (s_tls_context s), (s_contexts s), (s_listeners s).
    rewrite Es. cbn. rewrite <- Es. by destruct s. }
  set (s1 := with_listeners s _ _ _ _ _). cbn [s_config with_listeners].
  assert (exists ctx n, snd (if rtsps_port (s_config s) >? 0 then initialize_tls tls s1 else (Ok tt, s1)) = with_tls s1 ctx n) as (ctx & n & E).
  { destruct (_ >? _); [rewrite initialize_tls_spec; destruct (tls_loads _); by do 2 eexists|]. exists (s_tls_context s1), (s_contexts s1). by destruct s. }
  change (s_config s1) with (s_config s).
  destruct (if rtsps_port (s_config s) >? 0 then _ else _) as [[[]|w] s2]; cbn [snd] in E; subst s2.
  2: { do 6 eexists. reflexivity. }
  destruct (if rtsp_port _ >? 0 then _ else _) as [plain_fd|w].
  2: { do 6 eexists. unfold with_tls, with_listeners. cbn. reflexivity. }
  destruct (if rtsps_port _ >? 0 then _ else _) as [tls_fd|w]; do 6 eexists; unfold with_tls, with_listeners; cbn;
    reflexivity.
Qed.

Lemma stop_end_shape s :
  exists ctx n, stop_end s = with_tls (with_session_threads (with_listeners s (s_started s) (s_plain_fd s) (s_tls_fd s)
    (s_tls_context s) []) []) ctx n.
Proof.
  unfold stop_end. destruct (s_tls_context _) eqn:E; [by do 2 eexists|]. cbn in E.
  exists false, (s_contexts s). destruct s; cbn in *. by subst.
Qed.

(** Neither the listeners nor the threads matter for the registry of clients. *)
Lemma server_ok_with_listeners config s started plain tls ctx threads :
  server_ok config s -> server_ok config (with_listeners s started plain tls ctx threads).
Proof. intros []. by constructor. Qed.
Lemma server_ok_with_tls config s ctx n : server_ok config s -> server_ok config (with_tls s ctx n).
Proof. intros []. by constructor. Qed.
Lemma server_ok_with_session_threads config s threads :
  server_ok config s -> server_ok config (with_session_threads s threads).
Proof. intros []. by constructor. Qed.
#[export] Hint Resolve server_ok_with_listeners server_ok_with_tls server_ok_with_session_threads : rtsps.

Lemma stop_begin_ok config s : server_ok config s -> server_ok config (stop_begin s).
Proof. unfold stop_begin. auto with rtsps. Qed.
Lemma stop_end_ok config s : server_ok config s -> server_ok config (stop_end s).
Proof. destruct (stop_end_shape s) as (ctx & n & ->). auto with rtsps. Qed.

Lemma accept_turn_shape running ev id s fd s' :
  accept_turn running ev id s = Some (fd, s') ->
  running = true /\ s_started s = true /\
  (fd = None /\ s' = s \/ exists z, fd = Some z /\ 0 <= z /\ s' = with_session_threads s (s_session_threads s ++ [id])).
Proof.
  unfold accept_turn. destruct running, (s_started s); try done. cbn [andb].
  destruct (_ <=? 0); [intros [= <- <-]; auto|].
  destruct (Z.ltb_spec (ae_accept ev) 0); intros [= <- <-]; eauto 10.
Qed.

Lemma server_step_ok config s s' : server_ok config s -> server_step s s' -> server_ok config s'.
Proof.
  intros Hok Hs. destruct Hs as [tls o1 o2| |view|id m Hn Hid|id m m' k n Hm|id m Hm|run ev id fd s' Ha].
  - destruct (start_shape tls o1 o2 s) as (? & ? & ? & ? & ? & ? & ->). auto with rtsps.
  - unfold stop. destruct (s_started s); [|done]. by apply stop_end_ok, stop_begin_ok.
  - by apply on_frame_ok.
  - destruct Hok as [Hcfg Hnd Hal Hact Hcr Hset]. constructor; cbn; try done.
    + apply NoDup_app. split_and!; [done|set_solver|apply NoDup_singleton].
    + intros j Hj. apply elem_of_app. destruct (decide (j = id)) as [->|]; [set_solver|].
      left. apply Hal. by rewrite lookup_insert_ne in Hj.
    + rewrite Hact, map_size_insert_None by done. rewrite u64_idem_l. f_equal. lia.
    + rewrite Hcr, map_size_insert_None by done. rewrite u64_idem_l. f_equal. lia.
  - destruct Hok as [Hcfg Hnd Hal Hact Hcr Hset]. constructor; cbn; try done.
    + intros j Hj. apply Hal. destruct (decide (j = id)) as [->|]; [by eexists|by rewrite lookup_insert_ne in Hj].
    + by rewrite Hact, map_size_insert_Some by by eexists.
    + by rewrite Hcr, map_size_insert_Some by by eexists.
  - destruct Hok as [Hcfg Hnd Hal Hact Hcr Hset].
    assert (size (delete id (s_media s)) = pred (size (s_media s))) as Hsz by by apply map_size_delete_Some.
    assert (size (s_media s) <> 0%nat) as Hpos by (intros E; apply map_size_empty_inv in E; by rewrite E, lookup_empty in Hm).
    constructor; cbn; try done.
    + intros j Hj. apply Hal. destruct (decide (j = id)) as [->|]; [by eexists|by rewrite lookup_delete_ne in Hj].
    + rewrite Hact, Hsz. change (u64 (u64 (Z.of_nat (size (s_media s))) + -1) = u64 (Z.of_nat (pred (size (s_media s))))).
      rewrite u64_idem_l. f_equal. lia.
    + rewrite Hcr, Hsz, u64_idem_l. f_equal. lia.
  - apply accept_turn_shape in Ha as (_ & _ & [[_ ->]|(z & _ & _ & ->)]); auto with rtsps.
Qed.

Lemma server_reachable_ok config s : server_reachable config s -> server_ok config s.
Proof.
  intros (s0 & Hn & Hr). assert (server_ok config s0) as H0.
  { unfold server_new in Hn. bind_inv Hn. injection Hn as <-. constructor; cbn; try done.
    - constructor.
    - intros id [m Hm]. by rewrite lookup_empty in Hm. }
  clear Hn. induction Hr as [s|s s1 s2 Hs _ IH]; [done|]. apply IH. by eapply server_step_ok.
Qed.

(** ** A sample server, for the examples *)

Definition sample_config (tls_port : Z) : LiveRtspServerConfig :=
  {| listen_host := $"0.0.0.0"; rtsp_port := 8554; rtsps_port := tls_port; tls_cert_file := $"cert.pem";
     tls_key_file := $"key.pem"; listen_backlog := 32; max_header := 16384; max_body := 1048576;
     client_queue_frames := 30; client_queue_bytes := 8388608; rtp_mtu := 1200; io_timeout_ms := 1000;
     channels := [{| lc_channel_id := 1; lc_codec := H264 |}; {| lc_channel_id := 2; lc_codec := H265 |}];
     cfg_channel_id := 1; cfg_codec := H264 |}.

Definition sample_server (tls_port : Z) : Server :=
  {| s_config := sample_config tls_port; s_started := false; s_plain_fd := -1; s_tls_fd := -1; s_tls_context := false;
     s_contexts := 0; s_listeners := []; s_session_threads := []; s_clients := []; s_media := ∅;
     s_sets := replicate 5 no_sets; s_stats := stats_zero |}.

Lemma sample_reachable tls_port : server_reachable (sample_config tls_port) (sample_server tls_port).
Proof.
  exists (sample_server tls_port). split; [|apply rtc_refl]. unfold server_new, impl_config. cbn.
  by rewrite andb_false_r.
Qed.

Definition sample_media : ClientMediaState :=
  {| m_queue := sample_queue; m_playing := true; m_connected := true; m_channel_id := 1; m_sequence := 65535;
     m_ssrc := 9; m_timestamp_origin := 1000; m_first_pts_ns := -1; m_last_timestamp := 0; m_packet_count := 0;
     m_octet_count := 0; m_first_rtp_sent := false; m_waiting_for_keyframe := true; m_last_rtcp := 0 |}.

(** One client that plays channel 1. *)
Definition busy_server : Server := session_open 7 sample_media (sample_server 0).

Lemma busy_reachable : server_reachable (sample_config 0) busy_server.
Proof.
  destruct (sample_reachable 0) as (s0 & Hn & Hr). exists s0. split; [done|].
  eapply rtc_r; [exact Hr|]. apply ss_open; [done|]. apply not_elem_of_nil.
Qed.

Definition sample_view (channel : Z) : LiveEncodedFrameView :=
  {| v_data := Some [0; 0; 1; 103; 66]; v_pts_ns := 0; v_dts_ns := 0; v_duration_ns := -1; v_key_frame := true;
     v_channel_id := channel; v_codec := H264 |}.

Definition good_os (fd : Z) : ListenOs :=
  {| os_socket := fd; os_inet_pton := 1; os_bind := 0; os_listen := 0; os_strerror := [] |}.

Definition accepts (s : Server) (view : LiveEncodedFrameView) (data : bytes) : Prop :=
  v_data view = Some data /\ data <> [] /\
  exists channel, registered_channel s (v_channel_id view) = Some channel /\ lc_codec channel = v_codec view.

Lemma find_channel_Some chs id ch : find_channel chs id = Some ch -> ch ∈ chs /\ lc_channel_id ch = id.
Proof.
  unfold find_channel. destruct (list_find _ chs) as [[i c]|] eqn:E; [|done]. intros [= <-].
  apply list_find_Some in E as (Hl & Hid & _). split; [by eapply list_elem_of_lookup_2|done].
Qed.

(** C10: A frame of a registered channel reaches every connected client that plays this
    channel, once, with the data and times it was published with; every other client
    keeps its whole state, and no client comes or goes.  Only the parameter sets of the
    frame's channel can change. *)
Theorem frame_distribution config s view data :
  server_reachable config s -> accepts s view data ->
  (forall k m, s_media s !! k = Some m ->
     m_connected m = true /\ m_playing m = true /\ m_channel_id m = v_channel_id view ->
     s_media (on_frame view s) !! k =
       Some (set_queue (snd (push (m_queue m)
         (Some {| f_data := data; f_pts_ns := v_pts_ns view; f_duration_ns := v_duration_ns view; f_key_frame := v_key_frame view;
                  f_channel_id := v_channel_id view; f_codec := v_codec view |}))) m)) /\
  (forall k m, s_media s !! k = Some m ->
     m_connected m = false \/ m_playing m = false \/ m_channel_id m <> v_channel_id view ->
     s_media (on_frame view s) !! k = Some m) /\
  (forall k, s_media s !! k = None -> s_media (on_frame view s) !! k = None) /\
  (forall c, 1 <= c <= 4 -> c <> v_channel_id view -> sets_of (s_sets (on_frame view s)) c = sets_of (s_sets s) c).
Proof.
  intros Hr%server_reachable_ok (Hd & Hne & channel & Hc & Hcodec).
  pose proof (fun k => on_frame_media view data channel s k (sv_clients _ _ Hr) (sv_alive _ _ Hr) Hd Hne Hc Hcodec) as Hm.
  split_and!.
  - intros k m Hk (E1 & E2 & E3). rewrite Hm, Hk. cbn. unfold wants_frame. by rewrite E1, E2, E3, Z.eqb_refl.
  - intros k m Hk Hno. rewrite Hm, Hk. cbn. unfold wants_frame.
    destruct Hno as [->|[->|E%Z.eqb_neq]]; [done|by rewrite andb_false_r|by rewrite E, andb_false_r].
  - intros k Hk. by rewrite Hm, Hk.
  - intros c Hcr Hcv. apply find_channel_Some in Hc as Hin. destruct Hin as [Hin Hid].
    pose proof (sv_config _ _ Hr) as Hcfg. apply impl_config_ok in Hcfg as (Ecfg & Hrange & _).
    rewrite Ecfg in Hin. cbn in Hin. rewrite Forall_forall in Hrange. specialize (Hrange _ Hin).
    unfold on_frame. rewrite Hd, Hc. destruct (_ || _); [done|].
    destruct (fold_left _ _ _) as [media st]. cbn [s_sets]. unfold update_parameter_sets, sets_of.
    cbn [f_channel_id own_frame]. rewrite list_lookup_insert_ne; [done|]. lia.
Qed.

Lemma frame_distribution_witness :
  exists m, s_media busy_server !! 7%nat = Some m /\
    s_media (on_frame (sample_view 1) busy_server) !! 7%nat =
      Some (set_queue (snd (push (m_queue m) (Some (own_frame (sample_view 1) [0; 0; 1; 103; 66])))) m).
Proof.
  destruct (s_media busy_server !! 7%nat) as [m|] eqn:E; [|vm_compute in E; discriminate]. exists m. split; [reflexivity|].
  apply (proj1 (frame_distribution (sample_config 0) busy_server (sample_view 1) [0; 0; 1; 103; 66] busy_reachable
             ltac:(split_and!; [reflexivity|discriminate|exists {| lc_channel_id := 1; lc_codec := H264 |}; split; reflexivity])) 7%nat m E).
  vm_compute in E. injection E as <-. split_and!; reflexivity.
Defined.

(** The session counters balance: the active sessions are the clients that are
    registered, and created sessions are closed or active (all modulo [2 ^ 64]). *)
Lemma session_accounting config s :
  server_reachable config s ->
  active_clients (s_stats s) = u64 (Z.of_nat (size (s_media s))) /\
  sessions_created (s_stats s) = u64 (sessions_closed (s_stats s) + Z.of_nat (size (s_media s))).
Proof. intros Hr%server_reachable_ok. split; apply Hr. Qed.

Lemma session_accounting_witness : active_clients (s_stats busy_server) = 1.
Proof. rewrite (proj1 (session_accounting (sample_config 0) busy_server busy_reachable)). reflexivity. Defined.

(** ** Starting and stopping *)

(** A server that is not started has no listener. *)
Definition idle (s : Server) : Prop :=
  s_started s = false -> s_plain_fd s = -1 /\ s_tls_fd s = -1 /\ s_listeners s = [].

Lemma start_idle tls o1 o2 s : idle s -> idle (snd (start tls o1 o2 s)).
Proof.
  intros Hi. unfold start, idle in *. destruct (s_started s) eqn:E; [cbn; by rewrite E|]. destruct (Hi eq_refl) as (_ & _ & Hl).
  set (s1 := with_listeners s _ _ _ _ _). cbn [s_config with_listeners].
  assert (s_listeners (snd (if rtsps_port (s_config s1) >? 0 then initialize_tls tls s1 else (Ok tt, s1))) = [] /\
          s_started (snd (if rtsps_port (s_config s1) >? 0 then initialize_tls tls s1 else (Ok tt, s1))) = true) as [H1 H2].
  { destruct (_ >? 0); [rewrite initialize_tls_spec; by destruct (tls_loads _)|done]. }
  destruct (if rtsps_port (s_config s1) >? 0 then _ else _) as [[[]|w] s2]; cbn [snd] in *; [|by rewrite H2].
  destruct (if rtsp_port _ >? 0 then _ else _) as [plain_fd|w]; cbn; [|done].
  destruct (if rtsps_port _ >? 0 then _ else _) as [tls_fd|w]; by cbn.
Qed.

Lemma server_step_idle s s' : idle s -> server_step s s' -> idle s'.
Proof.
  intros Hi Hs. destruct Hs as [tls o1 o2| |view|id m Hn Hid|id m m' k n Hm|id m Hm|run ev id fd s' Ha]; try done.
  - by apply start_idle.
  - unfold stop, idle in *. destruct (s_started s) eqn:E; [|intros _; by apply Hi].
    by destruct (stop_end_shape (stop_begin s)) as (? & ? & ->).
  - unfold on_frame. repeat case_match; done.
  - by apply accept_turn_shape in Ha as (_ & _ & [[_ ->]|(z & _ & _ & ->)]).
Qed.

Lemma server_reachable_idle config s : server_reachable config s -> idle s.
Proof.
  intros (s0 & Hn & Hr). assert (idle s0) as H0 by (unfold server_new in Hn; bind_inv Hn; by injection Hn as <-).
  clear Hn. induction Hr as [s|s s1 s2 Hs _ IH]; [done|]. apply IH. by eapply server_step_idle.
Qed.

Lemma open_listener_fd c port os fd : open_listener c port os = Ok fd -> 0 <= fd.
Proof.
  unfold open_listener. destruct (Z.ltb_spec (os_socket os) 0); [done|]. destruct (_ || _); [done|]. by intros [= <-].
Qed.

(** The listeners of a configuration: whether each speaks TLS. *)
Definition enabled (c : LiveRtspServerConfig) : list bool :=
  (if rtsp_port c >? 0 then [false] else []) ++ (if rtsps_port c >? 0 then [true] else []).

(** Starting a stopped server either opens exactly the enabled listeners, each on a
    valid descriptor, or throws and leaves no listener open. *)
Lemma start_opens_listeners config s tls o1 o2 :
  server_reachable config s -> s_started s = false ->
  match start tls o1 o2 s with
  | (Ok _, s') => s_started s' = true /\ snd <$> s_listeners s' = enabled (s_config s') /\
                  Forall (fun l => 0 <= fst l) (s_listeners s')
  | (Throw _, s') => s_listeners s' = [] /\ s_plain_fd s' = -1 /\ s_tls_fd s' = -1
  end.
Proof.
  intros Hr%server_reachable_idle Hst. destruct (Hr Hst) as (H1 & H2 & H3). unfold start, enabled. rewrite Hst.
  cbn [s_config with_listeners]. rewrite initialize_tls_spec.
  destruct (rtsps_port (s_config s) >? 0) eqn:E2; [destruct (tls_loads tls); [|cbn; by rewrite H1, H2, H3]|].
  all: cbn [s_config s_plain_fd s_tls_fd s_listeners with_listeners with_tls]; rewrite ?H1, ?H2, ?H3.
  all: destruct (rtsp_port (s_config s) >? 0) eqn:E1; [destruct (open_listener _ _ o1) as [fd1|] eqn:O1; [apply open_listener_fd in O1|done]|].
  all: try (destruct (open_listener _ _ o2) as [fd2|] eqn:O2; [apply open_listener_fd in O2|done]).
  all: cbn [s_started s_listeners s_config with_listeners with_tls]; rewrite ?E1, ?E2; rewrite ?Z.geb_leb.
  all: try replace (0 <=? fd1) with true by lia; try replace (0 <=? fd2) with true by lia.
  all: split_and!; [done|done|repeat (constructor; [cbn; lia|]); constructor].
Qed.

Definition good_tls : TlsOs := {| ts_ctx_new := true; ts_use_certificate := 1; ts_use_key := 1; ts_check_key := 1 |}.
Definition bad_tls : TlsOs := {| ts_ctx_new := true; ts_use_certificate := 1; ts_use_key := 1; ts_check_key := 0 |}.

Lemma start_opens_listeners_witness :
  snd <$> s_listeners (snd (start good_tls (good_os 3) (good_os 4) (sample_server 8555))) = [false; true].
Proof.
  pose proof (start_opens_listeners (sample_config 8555) (sample_server 8555) good_tls (good_os 3) (good_os 4)
                (sample_reachable 8555) eq_refl) as H.
  exact (proj1 (proj2 H)).
Defined.

(** When the TLS context cannot be made, [start] throws but the server counts as
    started: every later call of [start] returns normally without opening a listener. *)
Lemma start_after_tls_failure config s os o1 o2 :
  server_reachable config s -> s_started s = false -> 0 < rtsps_port (s_config s) -> tls_loads os = false ->
  exists s1, start os o1 o2 s = (Throw (tls_error os), s1) /\
    forall tls o3 o4, start tls o3 o4 s1 = (Ok tt, s1) /\ s_listeners s1 = [].
Proof.
  intros Hr%server_reachable_idle Hst Hp Hos. destruct (Hr Hst) as (_ & _ & H3). unfold start. rewrite Hst.
  cbn [s_config with_listeners]. replace (rtsps_port (s_config s) >? 0) with true by lia.
  rewrite initialize_tls_spec, Hos. eexists. split; [reflexivity|]. done.
Qed.

Lemma start_after_tls_failure_witness :
  exists s1, start bad_tls (good_os 3) (good_os 4) (sample_server 8555) = (Throw (tls_error bad_tls), s1) /\
    forall tls o3 o4, start tls o3 o4 s1 = (Ok tt, s1) /\ s_listeners s1 = [].
Proof.
  apply (start_after_tls_failure (sample_config 8555)); [apply sample_reachable|reflexivity|cbn; lia|reflexivity].
Defined.

(** When a listener cannot be opened after the TLS context was made, [start] resets
    [started_] but keeps the context: [stop] and the destructor then return at once and
    it is never freed, and a second attempt makes another one. *)
Lemma tls_context_lost config s os o1 o2 w :
  server_reachable config s -> s_started s = false -> 0 < rtsps_port (s_config s) -> tls_loads os = true ->
  open_listener (s_config s) (rtsps_port (s_config s)) o2 = Throw w ->
  let s1 := stop (snd (start os o1 o2 s)) in
  s_started s1 = false /\ s_contexts s1 = s_contexts s + 1 /\
  s_contexts (stop (snd (start os o1 o2 s1))) = s_contexts s + 2.
Proof.
  intros Hr%server_reachable_idle Hst Hp Hos Ho s1.
  assert (forall s', s_started s' = false -> s_config s' = s_config s ->
    s_started (stop (snd (start os o1 o2 s'))) = false /\ s_config (stop (snd (start os o1 o2 s'))) = s_config s /\
    s_contexts (stop (snd (start os o1 o2 s'))) = s_contexts s' + 1) as H.
  { intros s' Hs' Hc. unfold start. rewrite Hs'. cbn [s_config with_listeners].
    rewrite initialize_tls_spec, Hos, Hc. replace (rtsps_port (s_config s) >? 0) with true by lia.
    rewrite Ho. by destruct (if rtsp_port _ >? 0 then _ else _). }
  destruct (H s Hst eq_refl) as (H1 & H2 & H3). split_and!; [done|done|].
  destruct (H s1 H1 H2) as (_ & _ & ->). unfold s1. rewrite H3. lia.
Qed.

Lemma tls_context_lost_witness :
  s_contexts (stop (snd (start good_tls (good_os 3) {| os_socket := -1; os_inet_pton := 1; os_bind := 0; os_listen := 0;
                                                       os_strerror := [] |} (sample_server 8555)))) = 1.
Proof.
  apply (tls_context_lost (sample_config 8555) (sample_server 8555) good_tls (good_os 3)
           {| os_socket := -1; os_inet_pton := 1; os_bind := 0; os_listen := 0; os_strerror := [] |}
           $"live listener socket failed"); [apply sample_reachable|reflexivity|cbn; lia|reflexivity|reflexivity].
Defined.
