(* ===== verification/Session.v ===== *)
(** * A client session (src/live/live_rtsp_server.cpp: ClientConnection, frame_timestamp,
    send_frame, run_session)

    The parts a session reaches outside the program are arguments: the transport
    (class [Transport]: one [send] or [SSL_write]), the bytes a read returns, the
    frames other threads queue, the clocks and the random words.  A session runs on
    the state [Sess] in the monad [act]. *)

From S2P Require Import Prelude CStr Parser Rtp FrameQueue Control LiveServer.

(** ** Writing to a client *)

(** One [SSL_write] or [send]: how many bytes it took (zero or less for an error). *)
Class Transport (T : Type) := {
  send_some : bytes -> T -> Z * T;
  send_some_bound : forall data t, fst (send_some data t) <= zlen data
}.

(** [c_sent] is what the peer has been sent so far. *)
Record ClientConnection (T : Type) := { c_transport : T; c_sent : bytes }.
Arguments c_transport {T} c.
Arguments c_sent {T} c.

Section Session.
Context {T : Type} `{Transport T}.

(** [ClientConnection::write]; each round sends at least one byte. *)
Fixpoint write_loop (fuel : nat) (data : bytes) (c : ClientConnection T) : bool * ClientConnection T :=
  match fuel with
  | O => (true, c)
  | S f =>
    match data with
    | [] => (true, c)
    | _ =>
      let '(written, t) := send_some data (c_transport c) in
      if written <=? 0 then (false, {| c_transport := t; c_sent := c_sent c |})
      else write_loop f (drop (Z.to_nat written) data)
             {| c_transport := t; c_sent := c_sent c ++ take (Z.to_nat written) data |}
    end
  end.

Definition write (data : bytes) (c : ClientConnection T) : bool * ClientConnection T :=
  write_loop (S (length data)) data c.

(** ** One session

    [se_first_rtp] and [se_failures] are what the session has added to the server's
    counters [first_rtp_transmissions_] and [write_failures_]. *)
Record Sess := {
  se_media : ClientMediaState;
  se_conn : ClientConnection T;
  se_control : RtspControlState;
  se_input : bytes;
  se_connected : bool;
  se_first_rtp : Z;
  se_failures : Z
}.

Definition set_media (m : ClientMediaState) (s : Sess) : Sess :=
  {| se_media := m; se_conn := se_conn s; se_control := se_control s; se_input := se_input s;
     se_connected := se_connected s; se_first_rtp := se_first_rtp s; se_failures := se_failures s |}.
Definition set_conn (c : ClientConnection T) (s : Sess) : Sess :=
  {| se_media := se_media s; se_conn := c; se_control := se_control s; se_input := se_input s;
     se_connected := se_connected s; se_first_rtp := se_first_rtp s; se_failures := se_failures s |}.
Definition set_control (c : RtspControlState) (s : Sess) : Sess :=
  {| se_media := se_media s; se_conn := se_conn s; se_control := c; se_input := se_input s;
     se_connected := se_connected s; se_first_rtp := se_first_rtp s; se_failures := se_failures s |}.
Definition set_input (i : bytes) (s : Sess) : Sess :=
  {| se_media := se_media s; se_conn := se_conn s; se_control := se_control s; se_input := i;
     se_connected := se_connected s; se_first_rtp := se_first_rtp s; se_failures := se_failures s |}.
Definition disconnect (s : Sess) : Sess :=
  {| se_media := se_media s; se_conn := se_conn s; se_control := se_control s; se_input := se_input s;
     se_connected := false; se_first_rtp := se_first_rtp s; se_failures := se_failures s |}.
Definition count_first_rtp (s : Sess) : Sess :=
  {| se_media := se_media s; se_conn := se_conn s; se_control := se_control s; se_input := se_input s;
     se_connected := se_connected s; se_first_rtp := se_first_rtp s + 1; se_failures := se_failures s |}.
Definition count_failure (s : Sess) : Sess :=
  {| se_media := se_media s; se_conn := se_conn s; se_control := se_control s; se_input := se_input s;
     se_connected := se_connected s; se_first_rtp := se_first_rtp s; se_failures := se_failures s + 1 |}.

Definition write_conn (data : bytes) : act Sess bool := fun s =>
  let '(ok, c) := write data (se_conn s) in Some (Ok ok, set_conn c s).

(** The RTP time stamp of a frame; [None] when the 64-bit product overflows. *)
Definition frame_timestamp (frame : OwnedLiveFrame) (media : ClientMediaState) : option (Z * ClientMediaState) :=
  if f_pts_ns frame >=? 0 then
    let first := if m_first_pts_ns media <? 0 then f_pts_ns frame else m_first_pts_ns media in
    let delta := Z.max 0 (f_pts_ns frame - first) in
    if in_i64 (delta * 90000) then
      let last := u32 (m_timestamp_origin media + u32 (Z.quot (delta * 90000) 1000000000)) in
      Some (last, set_clock first last media)
    else None
  else
    let duration := if f_duration_ns frame >? 0 then f_duration_ns frame else 33333333 in
    if in_i64 (duration * 90000) then
      let last := u32 (m_last_timestamp media + u32 (Z.quot (duration * 90000) 1000000000)) in
      let last := if last =? 0 then m_timestamp_origin media else last in
      Some (last, set_clock (m_first_pts_ns media) last media)
    else None.

Definition count_packet (p : RtpPacket) (s : Sess) : Sess :=
  let m := se_media s in
  set_media (set_flow (m_sequence m) (u64 (m_packet_count m + 1)) (u64 (m_octet_count m + u64 (zlen (packet_bytes p) - 12)))
               (m_first_rtp_sent m) (m_waiting_for_keyframe m) (m_last_rtcp m) m) s.

Fixpoint send_packets (channel : Z) (packets : list RtpPacket) : act Sess bool :=
  match packets with
  | [] => mret true
  | packet :: rest =>
    wire ← lift (interleaved channel (packet_bytes packet));
    ok ← write_conn wire;
    if negb ok then mret false
    else _ ← modify (count_packet packet); send_packets channel rest
  end.

Definition stop_waiting (m : ClientMediaState) : ClientMediaState :=
  set_flow (m_sequence m) (m_packet_count m) (m_octet_count m) (m_first_rtp_sent m) false (m_last_rtcp m) m.
Definition with_sequence (seq : Z) (m : ClientMediaState) : ClientMediaState :=
  set_flow seq (m_packet_count m) (m_octet_count m) (m_first_rtp_sent m) (m_waiting_for_keyframe m) (m_last_rtcp m) m.
Definition first_sent (m : ClientMediaState) : ClientMediaState :=
  set_flow (m_sequence m) (m_packet_count m) (m_octet_count m) true (m_waiting_for_keyframe m) (m_last_rtcp m) m.
Definition rtcp_sent (now : Z) (m : ClientMediaState) : ClientMediaState :=
  set_flow (m_sequence m) (m_packet_count m) (m_octet_count m) (m_first_rtp_sent m) (m_waiting_for_keyframe m) now m.

Definition kRtcpInterval : Z := 5000000000.

(** The NAL units sent for a frame: the parameter sets first while the client waits
    for a key frame. *)
Definition frame_nals (sets : list ParameterSets) (frame : OwnedLiveFrame) (m : ClientMediaState) : list bytes :=
  (if m_waiting_for_keyframe m
   then filter (fun nal => is_empty nal = false) (parameter_sets sets (f_channel_id frame) (f_codec frame)) else []) ++
  split_access_unit (f_data frame).

(** The sender report that follows the first frame and then every five seconds. *)
Definition send_report (steady system timestamp : Z) : act Sess bool :=
  s ← get;
  let m := se_media s in
  if (m_last_rtcp m =? 0) || (steady - m_last_rtcp m >=? kRtcpInterval) then
    wire ← lift (interleaved (rtcp_channel (se_control s))
                   (make_rtcp_sender_report (m_ssrc m) (m_packet_count m) (m_octet_count m) system timestamp));
    ok ← write_conn wire;
    if negb ok then mret false
    else _ ← modify (fun s => set_media (rtcp_sent steady (se_media s)) s); mret true
  else mret true.

(** [steady] and [system] are the two clocks in nanoseconds. *)
Definition send_frame (mtu : Z) (sets : list ParameterSets) (steady system : Z) (frame : OwnedLiveFrame) : act Sess bool :=
  s ← get;
  let m := se_media s in
  if m_waiting_for_keyframe m && negb (f_key_frame frame) then mret true
  else
    let nal_units := frame_nals sets frame m in
    '(timestamp, m) ← defined (frame_timestamp frame (stop_waiting m));
    _ ← modify (set_media m);
    '(packets, sequence) ← lift (packetize_access_unit (f_codec frame) nal_units (m_sequence m) timestamp (m_ssrc m) mtu);
    _ ← modify (set_media (with_sequence sequence m));
    ok ← send_packets (rtp_channel (se_control s)) packets;
    if negb ok then mret false
    else
      s ← get;
      _ ← (if negb (is_empty packets) && negb (m_first_rtp_sent (se_media s))
           then modify (fun s => count_first_rtp (set_media (first_sent (se_media s)) s)) else mret tt);
      send_report steady system timestamp.

(** ** The loop of [run_session] *)

Inductive ReadEvent := NotReady | ReadFail | ReadData (data : bytes).

(** What one turn of the loop meets: the flags of the loop condition, the read, the
    frames that [on_frame] offers to this client during the turn, the random words
    of the [n]-th request of the turn, the clocks. *)
Record SessionEvent := {
  ev_running : bool;
  ev_read : ReadEvent;
  ev_frames : list OwnedLiveFrame;
  ev_random : nat -> Z * Z;
  ev_steady : Z;
  ev_system : Z
}.

Definition session_limits (cfg : LiveRtspServerConfig) : ParserLimits :=
  {| max_header_bytes := max_header cfg; max_body_bytes := max_body cfg |}.

Definition start_playing (s : Sess) : Sess :=
  set_media (set_playing (channel_id (se_control s)) true (m_connected (se_media s)) (se_media s)) s.

(** One request; [true] when the loop over the requests goes on. *)
Definition handle_request (cfg : LiveRtspServerConfig) (sets : list ParameterSets) (rnd : Z * Z) (request : bytes)
    : act Sess bool :=
  let requested := parse_public_channel_id (extract_request_target request) in
  let channel := find_channel (channels cfg) requested in
  let registered_id := match channel with Some ch => lc_channel_id ch | None => -1 end in
  let codec := match channel with Some ch => lc_codec ch | None => H264 end in
  let fmtp := match channel with Some _ => codec_fmtp sets registered_id codec | None => [] end in
  s ← get;
  let '(result, control) := process_rtsp_request request registered_id codec fmtp rnd.1 rnd.2 (se_control s) in
  _ ← modify (set_control control);
  ok ← write_conn (response result);
  if negb ok then _ ← modify disconnect; mret false
  else
    _ ← (if start_play result then modify start_playing else mret tt);
    if close_session result then _ ← modify disconnect; mret false else mret true.

(** [while (extract_one_rtsp_message(input, request, ...))]; every message taken
    shortens the input. *)
Fixpoint request_loop (fuel : nat) (cfg : LiveRtspServerConfig) (sets : list ParameterSets) (rnd : nat -> Z * Z) (n : nat)
    : act Sess unit :=
  match fuel with
  | O => fun _ => None
  | S f =>
    s ← get;
    '(more, request, input) ← defined (extract_one_rtsp_message (se_input s) (session_limits cfg));
    _ ← modify (set_input input);
    if negb more then mret tt
    else if is_prefix $"$" request then request_loop f cfg sets rnd n
    else
      go ← handle_request cfg sets (rnd n) request;
      if (go : bool) then request_loop f cfg sets rnd (S n) else mret tt
  end.

Definition known_request (input : bytes) : bool :=
  existsb (starts_with_ci input)
    [$"OPTIONS "; $"DESCRIBE "; $"SETUP "; $"PLAY "; $"TEARDOWN "; $"GET_PARAMETER "].

(** A complete header that is no request of the protocol. *)
Definition bad_input (input : bytes) : bool :=
  negb (is_empty input) && bool_decide (is_Some (find0 CRLFCRLF input)) && negb (known_request input).

(** The part of a turn that follows a successful read; [false] leaves the loop. *)
Definition handle_input (cfg : LiveRtspServerConfig) (sets : list ParameterSets) (rnd : nat -> Z * Z) (data : bytes)
    : act Sess bool :=
  _ ← modify (fun s => set_input (se_input s ++ data) s);
  s ← get;
  if zlen (se_input s) >? u64 (max_header cfg + max_body cfg) then
    _ ← write_conn (make_response 400 [] [] []); mret false
  else
    _ ← request_loop (S (length (se_input s))) cfg sets rnd 0;
    s ← get;
    if bad_input (se_input s) then _ ← write_conn (make_response 400 [] [] []); mret false else mret true.

(** The part of a turn that sends the next queued frame. *)
Definition send_next (cfg : LiveRtspServerConfig) (sets : list ParameterSets) (steady system : Z) : act Sess bool :=
  s ← get;
  if m_playing (se_media s) then
    let '(frame, q) := try_pop (m_queue (se_media s)) in
    _ ← modify (fun s => set_media (set_queue q (se_media s)) s);
    match frame with
    | None => mret true
    | Some frame =>
      ok ← send_frame (rtp_mtu cfg) sets steady system frame;
      if negb ok then _ ← modify count_failure; mret false else mret true
    end
  else mret true.

(** [on_frame] from its own thread: a playing client of the frame's channel gets it. *)
Definition deliver (frame : OwnedLiveFrame) (m : ClientMediaState) : ClientMediaState :=
  if wants_frame (f_channel_id frame) m then set_queue (snd (push (m_queue m) (Some frame))) m else m.

(** The first half of a turn: [select], the read and what follows from it. *)
Definition read_part (cfg : LiveRtspServerConfig) (sets : list ParameterSets) (read : ReadEvent) (rnd : nat -> Z * Z)
    : act Sess bool :=
  match read with
  | NotReady => mret true
  | ReadFail => mret false
  | ReadData data => handle_input cfg sets rnd data
  end.

(** One turn of the loop body; [false] for a [break]. *)
Definition session_turn (cfg : LiveRtspServerConfig) (sets : list ParameterSets) (ev : SessionEvent) : act Sess bool :=
  go ← read_part cfg sets (ev_read ev) (ev_random ev);
  if (go : bool) then
    _ ← modify (fun s => set_media (fold_left (fun m f => deliver f m) (ev_frames ev) (se_media s)) s);
    send_next cfg sets (ev_steady ev) (ev_system ev)
  else mret false.

(** The loop over the turns; [true] when all turns were taken and it still runs. *)
Fixpoint session_loop (cfg : LiveRtspServerConfig) (turns : list (list ParameterSets * SessionEvent)) : act Sess bool :=
  match turns with
  | [] => mret true
  | (sets, ev) :: rest =>
    s ← get;
    if se_connected s && ev_running ev then
      go ← session_turn cfg sets ev;
      if (go : bool) then session_loop cfg rest else mret false
    else mret false
  end.

Definition new_session (media : ClientMediaState) (t : T) : Sess :=
  {| se_media := media; se_conn := {| c_transport := t; c_sent := [] |}; se_control := initial_control; se_input := [];
     se_connected := true; se_first_rtp := 0; se_failures := 0 |}.

End Session.

(** ** Facts: writing *)

(** A transport that always takes something, as a blocking socket with a live peer. *)
Class Reliable (T : Type) `{Transport T} := {
  send_some_takes : forall data t, data <> [] -> 0 < fst (send_some data t)
}.

Section Facts.
Context {T : Type} `{Transport T}.

Lemma write_loop_spec f data (c : ClientConnection T) :
  (length data < f)%nat ->
  let '(ok, c') := write_loop f data c in
  exists p rest, data = p ++ rest /\ c_sent c' = c_sent c ++ p /\ (ok = true <-> rest = []).
Proof.
  revert data c. induction f as [|f IH]; intros data c Hf; [lia|]. cbn [write_loop].
  destruct data as [|b data]; [exists [], []; by split_and!; rewrite ?app_nil_r|].
  pose proof (send_some_bound (b :: data) (c_transport c)) as Hb.
  destruct (send_some (b :: data) (c_transport c)) as [w t]. cbn [fst] in Hb.
  destruct (Z.leb_spec w 0) as [Hw|Hw]; [exists [], (b :: data); by split_and!; rewrite ?app_nil_r|].
  set (n := Z.to_nat w). specialize (IH (drop n (b :: data)) {| c_transport := t; c_sent := c_sent c ++ take n (b :: data) |}).
  destruct (write_loop f _ _) as [ok c']. destruct IH as (p & rest & E & Hs & Hok).
  { rewrite length_drop. cbn [length] in *. lia. }
  exists (take n (b :: data) ++ p), rest. split_and!; [|by rewrite Hs; cbn [c_sent]; rewrite <- app_assoc|done].
  by rewrite <- app_assoc, <- E, take_drop.
Qed.

Lemma write_spec data (c : ClientConnection T) :
  let '(ok, c') := write data c in
  exists p rest, data = p ++ rest /\ c_sent c' = c_sent c ++ p /\ (ok = true <-> rest = []).
Proof. apply write_loop_spec. lia. Qed.

Lemma write_loop_reliable `{!Reliable T} f data (c : ClientConnection T) :
  (length data < f)%nat -> fst (write_loop f data c) = true.
Proof.
  revert data c. induction f as [|f IH]; intros data c Hf; [lia|]. cbn [write_loop].
  destruct data as [|b data]; [done|].
  pose proof (send_some_takes (b :: data) (c_transport c) ltac:(done)) as Hb.
  destruct (send_some (b :: data) (c_transport c)) as [w t]. cbn [fst] in Hb.
  replace (w <=? 0) with false by lia. apply IH. rewrite length_drop. cbn [length] in *. lia.
Qed.

(** A write on a reliable transport sends everything. *)
Lemma write_reliable `{!Reliable T} data (c : ClientConnection T) :
  exists t, write data c = (true, {| c_transport := t; c_sent := c_sent c ++ data |}).
Proof.
  pose proof (write_spec data c) as Hs. pose proof (write_loop_reliable (S (length data)) data c ltac:(lia)) as Hr.
  fold (write data c) in Hr. destruct (write data c) as [ok [t snt]]. cbn [fst] in Hr. subst ok.
  destruct Hs as (p & rest & -> & Hs & Hok). rewrite (proj1 Hok eq_refl), app_nil_r in *. cbn in Hs. subst.
  by exists t.
Qed.

End Facts.

(** ** A scripted transport: the list says how many bytes each call takes. *)

Definition script_send (data : bytes) (t : list Z) : Z * list Z :=
  match t with
  | [] => (zlen data, [])
  | n :: rest => (Z.min n (zlen data), rest)
  end.

#[export] Program Instance script_transport : Transport (list Z) := {| send_some := script_send |}.
Next Obligation. intros data [|n t]; cbn; lia. Qed.

(** [ClientConnection::write] reports success exactly when every byte was sent, in
    order, over however many partial sends; otherwise a proper prefix went out.  If
    every call takes something it succeeds. *)
Lemma write_sends_all {T} `{Transport T} data (c : ClientConnection T) :
  (let '(ok, c') := write data c in
   exists p rest, data = p ++ rest /\ c_sent c' = c_sent c ++ p /\ (ok = true <-> rest = [])) /\
  (Reliable T -> exists t, write data c = (true, {| c_transport := t; c_sent := c_sent c ++ data |})).
Proof. split; [apply write_spec|intros Hr; apply write_reliable]. Qed.

(** Takes two bytes at a time. *)
Record TwoBytes := two_bytes {}.
#[export] Program Instance two_bytes_transport : Transport TwoBytes :=
  {| send_some := fun data t => (Z.min 2 (zlen data), t) |}.
Next Obligation. intros; cbn; lia. Qed.
#[export] Instance two_bytes_reliable : Reliable TwoBytes.
Proof. constructor. intros [|b data] t Hd; [done|]. cbn [send_some two_bytes_transport fst]. rewrite zlen_cons. pose proof (zlen_nonneg data). lia. Qed.

Lemma write_sends_all_witness :
  exists t, write $"RTSP/1.0 200 OK" {| c_transport := two_bytes; c_sent := $"..." |} =
    (true, {| c_transport := t; c_sent := $"..." ++ $"RTSP/1.0 200 OK" |}).
Proof. apply (write_sends_all $"RTSP/1.0 200 OK" {| c_transport := two_bytes; c_sent := $"..." |}), two_bytes_reliable. Defined.

Lemma request_not_dollar lim m : rtsp_message_ok lim m -> is_prefix $"$" m = false.
Proof.
  intros [Hs _]. apply message_start_iff in Hs as (p & Hp & Hm).
  destruct (message_prefixes_not_dollar p Hp) as [Hd Hne]. destruct p as [|c p]; [done|]. destruct m as [|d m]; [done|].
  cbn [is_prefix] in Hm. apply andb_true_iff in Hm as [Hcd%Z.eqb_eq _]. subst d.
  change $"$" with [36]. cbn [is_prefix]. rewrite andb_true_r. apply Z.eqb_neq. intros <-. by apply Hd.
Qed.

(** ** The stream a session sends *)

(** A message in the stream: a response, or a frame on one of the session's two
    channels once it plays. *)
Definition sent_ok {T} (lim : ParserLimits) (s : Sess (T := T)) (m : bytes) : Prop :=
  rtsp_message_ok lim m \/
  (frame_ok m /\ m_playing (se_media s) = true /\
   (m !! 1%nat = Some (u8 (rtp_channel (se_control s))) \/ m !! 1%nat = Some (u8 (rtcp_channel (se_control s))))).

(** The answer that grants a session, with its channels and its id, and the answer that
    starts it. *)
Definition setup_response (c : RtspControlState) (m : bytes) : Prop :=
  exists cseq, m = make_response 200 cseq
    [$"Transport: RTP/AVP/TCP;unicast;interleaved=" ++ to_string (rtp_channel c) ++ $"-" ++ to_string (rtcp_channel c);
     $"Session: " ++ session_id c ++ $";timeout=60"] [].
Definition play_response (c : RtspControlState) (m : bytes) : Prop :=
  exists cseq, m = make_response 200 cseq
    [$"Session: " ++ session_id c; $"RTP-Info: url=/ch" ++ to_string (channel_id c) ++ $"/trackID=0"] [].

(** Both have been sent before the message at place [n], in this order. *)
Definition played (c : RtspControlState) (ms : list bytes) (n : nat) : Prop :=
  exists j k p q, (j < k < n)%nat /\ ms !! j = Some p /\ setup_response c p /\ ms !! k = Some q /\ play_response c q.

(** What the peer has been told by the messages sent. *)
Record told (c : RtspControlState) (playing : bool) (ms : list bytes) : Prop := {
  to_frames : forall i m, ms !! i = Some m -> is_prefix $"$" m = true -> playing = true /\ played c ms i;
  to_played : playing = true -> played c ms (length ms);
  to_granted : phase c <> Initial -> exists j p, ms !! j = Some p /\ setup_response c p
}.

Lemma played_app c ms ext n n' : played c ms n -> (n <= n')%nat -> played c (ms ++ ext) n'.
Proof. intros (j & k & p & q & Hjk & Hj & Hp & Hk & Hq) Hn. exists j, k, p, q. split_and!; try lia; try done; by apply lookup_app_l_Some. Qed.

(** Frames follow what a playing session has told. *)
Lemma told_frames c ms ext : told c true ms -> told c true (ms ++ ext).
Proof.
  intros [Hf Hp Hg]. constructor.
  - intros i m Hi Hm. destruct (decide (i < length ms)%nat) as [Hl|Hl].
    + rewrite lookup_app_l in Hi by done. split; [done|]. eapply played_app; [by eapply Hf|lia].
    + split; [done|]. eapply played_app; [by apply Hp|lia].
  - intros _. eapply played_app; [by apply Hp|]. rewrite length_app. lia.
  - intros Hi. destruct (Hg Hi) as (j & p & Hj & ?). exists j, p. split; [by apply lookup_app_l_Some|done].
Qed.

(** A response tells the state it belongs to. *)
Lemma told_response c c' playing start ms m :
  told c playing ms -> is_prefix $"$" m = false ->
  (phase c <> Initial -> session_id c' = session_id c /\ channel_id c' = channel_id c /\ rtp_channel c' = rtp_channel c /\
     rtcp_channel c' = rtcp_channel c) ->
  (playing = true -> phase c <> Initial) ->
  (phase c = Initial -> phase c' <> Initial -> setup_response c' m) -> (start = true -> phase c <> Initial /\ play_response c' m) ->
  told c' (playing || start) (ms ++ [m]).
Proof.
  intros [Hf Hp Hg] Hm Hsame Hpl Hset Hst.
  assert (forall r, phase c <> Initial -> setup_response c r -> setup_response c' r) as H1.
  { intros r Hi [cseq ->]. destruct (Hsame Hi) as (E1 & E2 & E3 & E4). exists cseq. by rewrite E1, E3, E4. }
  assert (forall r, phase c <> Initial -> play_response c r -> play_response c' r) as H2.
  { intros r Hi [cseq ->]. destruct (Hsame Hi) as (E1 & E2 & _). exists cseq. by rewrite E1, E2. }
  assert (forall n n', phase c <> Initial -> played c ms n -> (n <= n')%nat -> played c' (ms ++ [m]) n') as H3.
  { intros n n' Hi (j & k & p & q & Hjk & Hj & Hjp & Hk & Hkq) Hn. exists j, k, p, q.
    split_and!; auto; try lia; by apply lookup_app_l_Some. }
  constructor.
  - intros i x Hi Hx. apply lookup_app_Some in Hi as [Hi|[Hl Hi]].
    + destruct (Hf _ _ Hi Hx) as [-> Hpi]. split; [done|]. eapply H3; [by apply Hpl|done|done].
    + destruct (i - length ms)%nat; [|done]. injection Hi as <-. congruence.
  - intros [Hpt|Hs]%orb_true_iff.
    + eapply H3; [by apply Hpl|by apply Hp|]. rewrite length_app. lia.
    + destruct (Hst Hs) as [Hi Hq]. destruct (Hg Hi) as (j & p & Hj & Hp1). exists j, (length ms), p, m.
      pose proof (lookup_lt_Some _ _ _ Hj). rewrite length_app. cbn [length].
      split_and!; [lia|lia|by apply lookup_app_l_Some|by apply H1|by apply list_lookup_middle|done].
  - intros Hi'. destruct (decide (phase c = Initial)) as [Ei|Ei].
    + exists (length ms), m. split; [by apply list_lookup_middle|by apply Hset].
    + destruct (Hg Ei) as (j & p & Hj & Hp1). exists j, p. split; [by apply lookup_app_l_Some|by apply H1].
Qed.

(** The invariant of a session; [P] is what else is known of the messages sent. *)
Record session_ok {T} (lim : ParserLimits) (P : list bytes -> Prop) (s : Sess (T := T)) : Prop := {
  so_stream : exists ms, c_sent (se_conn s) = concat ms /\ Forall (sent_ok lim s) ms /\ P ms /\ told (se_control s) (m_playing (se_media s)) ms;
  so_control : control_ok (se_control s);
  so_playing : m_playing (se_media s) = true ->
    phase (se_control s) <> Initial /\ m_channel_id (se_media s) = channel_id (se_control s);
  so_queue : Forall (fun f => m_playing (se_media s) = true /\ f_channel_id f = channel_id (se_control s))
               (q_frames (m_queue (se_media s)))
}.

(** The peer's parser accepts what the server may write. *)
Definition peer_limits (cfg : LiveRtspServerConfig) (lim : ParserLimits) : Prop :=
  max_header cfg + max_body cfg + 66051 <= max_header_bytes lim /\ 66051 <= max_header_bytes lim /\
  256 <= max_body_bytes lim.

Definition sets_fit (lim : ParserLimits) (sets : list ParameterSets) : Prop :=
  forall c codec, zlen (codec_fmtp sets c codec) + 256 <= Z.min int_max (max_body_bytes lim).

Lemma session_ok_ext {T} lim P (s s' : Sess (T := T)) :
  session_ok lim P s -> c_sent (se_conn s') = c_sent (se_conn s) -> se_control s' = se_control s ->
  m_playing (se_media s') = m_playing (se_media s) -> m_channel_id (se_media s') = m_channel_id (se_media s) ->
  q_frames (m_queue (se_media s')) = q_frames (m_queue (se_media s)) -> session_ok lim P s'.
Proof.
  intros [Hst Hc Hp Hq] E1 E2 E3 E4 E5.
  constructor; unfold sent_ok in *; rewrite ?E1, ?E2, ?E3, ?E4, ?E5; done.
Qed.

Lemma told_same c playing ms m : told c playing ms -> is_prefix $"$" m = false -> (playing = true -> phase c <> Initial) -> told c playing (ms ++ [m]).
Proof. intros Ht Hm Hp. rewrite <- (orb_false_r playing). by apply (told_response c c playing false). Qed.

(** A message that says nothing of the state, or a frame. *)
Lemma session_ok_write {T} lim P (s : Sess (T := T)) t m :
  session_ok lim P s -> sent_ok lim s m -> (forall ms, P ms -> P (ms ++ [m])) ->
  session_ok lim P (set_conn {| c_transport := t; c_sent := c_sent (se_conn s) ++ m |} s).
Proof.
  intros [(ms & Hst & Hms & HPms & Hto) Hc Hp Hq] Hm HPm. constructor; try done.
  exists (ms ++ [m]). cbn. rewrite Hst, concat_app. cbn [concat]. rewrite app_nil_r. split_and!; [done| |by apply HPm|].
  - apply Forall_app. split; [done|by apply Forall_singleton].
  - destruct Hm as [Hm|(_ & Hpl & _)].
    + apply told_same; [done|by eapply request_not_dollar|]. intros E. by apply Hp.
    + rewrite Hpl in *. by apply told_frames.
Qed.

Lemma push_frames q f :
  Forall (fun g => g = f \/ g ∈ q_frames q) (q_frames (snd (push q (Some f)))).
Proof.
  assert (forall q, Forall (fun g => g = f \/ g ∈ q_frames q) (q_frames q)) as Hid.
  { intros q'. apply Forall_forall. auto. }
  unfold push. destruct (q_closed q); [exact (Hid q)|]. destruct (_ >? _); [exact (Hid q)|].
  generalize false as dr. generalize (q_drops q) as d. generalize (q_bytes q) as b.
  assert (forall fs b d dr, let '(fs', _, _, _) := drop_oldest (q_max_frames q) (q_max_bytes q) (f_size f) fs b d dr in
    fs' `suffix_of` fs) as Hsuf.
  { induction fs as [|x fs IH]; intros b d dr; cbn [drop_oldest]; [done|]. destruct (_ || _); [|done].
    specialize (IH (u64 (b - f_size x)) (u64 (d + 1)) true).
    destruct (drop_oldest _ _ _ fs _ _ _) as [[[fs' ?] ?] ?]. by apply suffix_cons_r. }
  intros b d dr. specialize (Hsuf (q_frames q) b d dr).
  destruct (drop_oldest _ _ _ _ _ _ _) as [[[fs' b'] d'] dr']. cbn. apply Forall_app. split; [|constructor; auto].
  apply Forall_forall. intros g Hg. right. destruct Hsuf as [k ->]. set_solver.
Qed.

Lemma deliver_ok {T} lim P frames (s : Sess (T := T)) :
  session_ok lim P s -> session_ok lim P (set_media (fold_left (fun m f => deliver f m) frames (se_media s)) s).
Proof.
  revert s. induction frames as [|f fs IH]; intros s Hs; cbn [fold_left]; [by destruct s|].
  assert (session_ok lim P (set_media (deliver f (se_media s)) s)) as Hs1; [|apply (IH _ Hs1)].
  unfold deliver, wants_frame. destruct (_ && _ && _) eqn:E; [|by destruct s].
  apply andb_true_iff in E as [[_ Ep]%andb_true_iff Ec%Z.eqb_eq].
  destruct Hs as [Hst Hc Hp Hq]. destruct (Hp Ep) as [Hi Hch]. constructor; try done. cbn.
  eapply Forall_impl; [apply push_frames|]. cbn. intros g [->|Hg]; [split; [done|congruence]|].
  rewrite Forall_forall in Hq. by apply Hq.
Qed.

Section Stream.
Context {T : Type} `{!Transport T} `{!Reliable T}.
Context (lim : ParserLimits) (P : list bytes -> Prop).
Hypothesis response_P : forall ms m, P ms -> rtsp_message_ok lim m -> P (ms ++ [m]).
Hypothesis frame_P : forall ms m, P ms -> frame_ok m -> P (ms ++ [m]).
Implicit Type s : Sess (T := T).

Lemma wlp_write data Q E s :
  (forall t, Q true (set_conn {| c_transport := t; c_sent := c_sent (se_conn s) ++ data |} s)) ->
  wlp (write_conn data) Q E s.
Proof. intros HQ. unfold wlp, write_conn. destruct (write_reliable data (se_conn s)) as [t ->]. apply HQ. Qed.

Lemma send_packets_ok channel packets s :
  session_ok lim P s -> m_playing (se_media s) = true -> channel = rtp_channel (se_control s) ->
  wlp (send_packets channel packets) (fun _ s' => session_ok lim P s' /\ m_playing (se_media s') = true)
      (session_ok lim P) s.
Proof.
  revert s. induction packets as [|p ps IH]; intros s Hs Hp Hc; cbn [send_packets]; [done|].
  apply wlp_bind, wlp_lift; [|done]. intros wire Hw. apply interleaved_frame_ok in Hw as (Hf & Hch & _).
  apply wlp_bind, wlp_write. intros t. cbn [negb].
  apply wlp_bind. unfold wlp at 1, modify.
  apply IH; [|done|done].
  eapply session_ok_ext; [eapply (session_ok_write _ _ s t wire); [done| |auto]|done..].
  right. rewrite <- Hc. by split_and!; [| |left].
Qed.

Lemma frame_timestamp_media frame m ts m' :
  frame_timestamp frame m = Some (ts, m') ->
  m_playing m' = m_playing m /\ m_channel_id m' = m_channel_id m /\ m_queue m' = m_queue m /\
  m_waiting_for_keyframe m' = m_waiting_for_keyframe m /\ m_sequence m' = m_sequence m /\ m_ssrc m' = m_ssrc m /\
  m_packet_count m' = m_packet_count m /\ m_octet_count m' = m_octet_count m /\ m_last_rtcp m' = m_last_rtcp m /\
  m_first_rtp_sent m' = m_first_rtp_sent m.
Proof.
  unfold frame_timestamp. destruct (f_pts_ns frame >=? 0), (in_i64 _); try done; intros [= <- <-]; done.
Qed.

Lemma send_report_ok steady system ts s :
  session_ok lim P s -> m_playing (se_media s) = true ->
  wlp (send_report steady system ts) (fun _ => session_ok lim P) (session_ok lim P) s.
Proof.
  intros Hs Hp. unfold send_report. apply wlp_bind. unfold wlp at 1, get.
  destruct (_ || _); [|done]. apply wlp_bind, wlp_lift; [|done].
  intros wire Hw. apply interleaved_frame_ok in Hw as (Hf & Hch & _).
  apply wlp_bind, wlp_write. intros t. cbn [negb]. apply wlp_bind. unfold wlp at 1, modify. unfold wlp, mret, act_ret.
  eapply session_ok_ext; [eapply (session_ok_write _ _ s t wire); [done| |auto]|done..].
  right. by split_and!; [| |right].
Qed.

Lemma send_frame_ok mtu sets steady system frame s :
  session_ok lim P s -> m_playing (se_media s) = true ->
  wlp (send_frame mtu sets steady system frame) (fun _ => session_ok lim P) (session_ok lim P) s.
Proof.
  intros Hs Hp. unfold send_frame. apply wlp_bind. unfold wlp at 1, get.
  destruct (_ && _); [done|].
  apply wlp_bind, wlp_defined. intros [ts m] (Hm1 & Hm2 & Hm3 & _)%frame_timestamp_media.
  apply wlp_bind. unfold wlp at 1, modify. apply wlp_bind, wlp_lift.
  2: { eapply session_ok_ext; [done|done|done|done|done|cbn; by rewrite Hm3]. }
  intros [packets seq] _. apply wlp_bind. unfold wlp at 1, modify. apply wlp_bind.
  eapply wlp_mono; [apply send_packets_ok|].
  - eapply session_ok_ext; [done|done|done|done|done|cbn; by rewrite Hm3].
  - cbn. by rewrite Hm1.
  - done.
  - intros ok s1 [Hs1 Hp1]. destruct (negb ok); [done|]. apply wlp_bind. unfold wlp at 1, get.
    apply wlp_bind. destruct (_ && _).
    + unfold wlp at 1, modify. apply send_report_ok; [|done]. by eapply session_ok_ext.
    + by apply send_report_ok.
Qed.

Lemma session_step_channels request registered c status start close c' :
  session_step request registered c status start close c' -> phase c <> Initial ->
  phase c' <> Initial /\ session_id c' = session_id c /\ channel_id c' = channel_id c /\ rtp_channel c' = rtp_channel c /\
  rtcp_channel c' = rtcp_channel c.
Proof. by destruct 1. Qed.

(** What the answers announce. *)
Lemma process_announces request reg codec fmtp r1 r2 c :
  control_ok c ->
  let out := process_rtsp_request request reg codec fmtp r1 r2 c in
  (phase c = Initial -> phase out.2 <> Initial -> setup_response out.2 (response out.1)) /\
  (start_play out.1 = true -> phase c <> Initial /\ play_response out.2 (response out.1)).
Proof.
  intros Hok. assert (phase c = Initial -> forall h, valid_session_header h (session_id c) = false) as Hv.
  { intros E h. unfold control_ok in Hok. rewrite E in Hok. by subst c. }
  assert (forall r, start_play r = false -> (phase c = Initial -> phase (r, c).2 <> Initial -> setup_response (r, c).2 (response (r, c).1)) /\
    (start_play (r, c).1 = true -> phase c <> Initial /\ play_response (r, c).2 (response (r, c).1))) as Hsame.
  { intros r Hr. cbn. split; congruence. }
  unfold process_rtsp_request. cbv zeta. set (channel := parse_public_channel_id _).
  destruct (is_empty _); [by apply Hsame|]. destruct (str_eqb _ _); [by apply Hsame|]. destruct (_ || _); [by apply Hsame|].
  destruct (str_eqb _ _); [by apply Hsame|]. destruct (str_eqb _ _).
  { destruct (negb _); [by apply Hsame|]. destruct (parse_interleaved_channels _) as [[rtp rtcp]|]; [|by apply Hsame].
    split; [|done]. intros _ _. by eexists. }
  destruct (str_eqb _ _).
  { destruct (_ || _) eqn:E; [by apply Hsame|]. apply orb_false_iff in E as [E1%negb_false_iff%bool_decide_eq_true E2%negb_false_iff%Z.eqb_eq].
    destruct (negb _); [by apply Hsame|]. split; [cbn; congruence|]. intros _. split; [congruence|]. eexists. cbn. by rewrite E2. }
  destruct (str_eqb _ _); [by destruct (negb _); apply Hsame|]. destruct (str_eqb _ _); [|by apply Hsame].
  destruct (negb _) eqn:E; [by apply Hsame|]. apply negb_false_iff in E. split; [|done]. intros Ei. by rewrite Hv in E.
Qed.

(** A session takes over the state of an answer and writes it. *)
Lemma answered_ok request registered status result control t s :
  session_ok lim P s -> rtsp_message_ok lim (response result) ->
  session_step request registered (se_control s) status (start_play result) (close_session result) control ->
  (phase (se_control s) = Initial -> phase control <> Initial -> setup_response control (response result)) ->
  (start_play result = true -> phase (se_control s) <> Initial /\ play_response control (response result)) ->
  let s1 := set_conn {| c_transport := t; c_sent := c_sent (se_conn s) ++ response result |} (set_control control s) in
  session_ok lim P (if start_play result then start_playing s1 else s1).
Proof.
  intros [(ms & Hst & Hms & HPms & Hto) Hc Hp Hq] Hm Hstep Hset Hplay s1.
  assert (told control (m_playing (se_media s) || start_play result) (ms ++ [response result])) as Hto'.
  { apply (told_response (se_control s)); try done; [by eapply request_not_dollar| |by intros E; apply Hp].
    intros Hi. by destruct (session_step_channels _ _ _ _ _ _ _ Hstep Hi) as [_ ?]. }
  assert (control_ok control) as Hc' by by eapply session_step_ok.
  assert (phase (se_control s) <> Initial -> phase control <> Initial /\ channel_id control = channel_id (se_control s) /\
    rtp_channel control = rtp_channel (se_control s) /\ rtcp_channel control = rtcp_channel (se_control s)) as Hsame.
  { intros Hi. by destruct (session_step_channels _ _ _ _ _ _ _ Hstep Hi) as (? & _ & ?). }
  assert (forall b, (m_playing (se_media s) = true -> b = true) -> Forall (fun m => rtsp_message_ok lim m \/ (frame_ok m /\ b = true /\
    (m !! 1%nat = Some (u8 (rtp_channel control)) \/ m !! 1%nat = Some (u8 (rtcp_channel control))))) (ms ++ [response result])) as Hall.
  { intros b Hb. apply Forall_app. split; [|apply Forall_singleton; by left]. eapply Forall_impl; [exact Hms|].
    intros m [?|(? & E & Hch)]; [by left|]. right. destruct (Hp E) as [Hi _]. destruct (Hsame Hi) as (_ & _ & -> & ->). auto. }
  assert (c_sent (se_conn s) ++ response result = concat (ms ++ [response result])) as Hsent.
  { rewrite Hst, concat_app. cbn [concat]. by rewrite app_nil_r. }
  destruct (start_play result) eqn:Est.
  - destruct (Hplay eq_refl) as [Hi _]. destruct (Hsame Hi) as (Hi' & Ec & _). rewrite orb_true_r in Hto'.
    constructor; cbn; [|done|done|].
    + exists (ms ++ [response result]). split_and!; [done|by apply Hall|by apply response_P|done].
    + rewrite Ec. eapply Forall_impl; [exact Hq|]. by intros f [_ ?].
  - rewrite orb_false_r in Hto'. constructor; cbn; [|done|..].
    + exists (ms ++ [response result]). split_and!; [done|by apply Hall|by apply response_P|done].
    + intros E. destruct (Hp E) as [Hi Hch]. destruct (Hsame Hi) as (? & -> & _). done.
    + eapply Forall_impl; [exact Hq|]. intros f [E Hf]. destruct (Hp E) as [Hi _]. by destruct (Hsame Hi) as (_ & -> & _).
Qed.

Lemma handle_request_ok cfg sets rnd request s :
  peer_limits cfg lim -> sets_fit lim sets -> session_ok lim P s ->
  zlen request <= 65539 \/ zlen request <= max_header cfg + max_body cfg ->
  wlp (handle_request cfg sets rnd request) (fun _ => session_ok lim P) (session_ok lim P) s.
Proof.
  intros (Hl1 & Hl2 & Hl3) Hsets Hs Hz. unfold handle_request. apply wlp_bind. unfold wlp at 1, get.
  set (ch := find_channel _ _).
  set (reg := match ch with Some ch => lc_channel_id ch | None => -1 end).
  set (codec := match ch with Some ch => lc_codec ch | None => H264 end).
  set (fmtp := match ch with Some _ => codec_fmtp sets reg codec | None => [] end).
  assert (zlen fmtp + 256 <= Z.min int_max (max_body_bytes lim)) as Hf.
  { unfold fmtp. destruct ch; [apply Hsets|]. unfold zlen, int_max. cbn. lia. }
  pose proof (zlen_cseq request) as Hcs. pose proof (so_control _ _ _ Hs) as Hctl.
  pose proof (response_message_ok lim request reg codec fmtp rnd.1 rnd.2 (se_control s) Hctl ltac:(lia) ltac:(lia) ltac:(lia)) as [Hm _].
  pose proof (process_answered request reg codec fmtp rnd.1 rnd.2 (se_control s) Hctl) as (status & headers & body & _ & Hstep & _).
  pose proof (process_announces request reg codec fmtp rnd.1 rnd.2 (se_control s) Hctl) as Ha.
  destruct (process_rtsp_request _ _ _ _ _ _ _) as [result control]. cbn [fst snd] in Hm, Hstep. destruct Ha as [Ha1 Ha2].
  apply wlp_bind. unfold wlp at 1, modify. apply wlp_bind, wlp_write. intros t. cbn [negb].
  pose proof (answered_ok _ _ _ result control t s Hs Hm Hstep Ha1 Ha2) as Hs2. cbv zeta in Hs2.
  apply wlp_bind. destruct (start_play result); [unfold wlp at 1, modify|unfold wlp at 1, mret, act_ret];
    (destruct (close_session result); [|exact Hs2]; apply wlp_bind; by eapply session_ok_ext).
Qed.

Lemma request_loop_ok fuel cfg sets rnd n s :
  peer_limits cfg lim -> sets_fit lim sets -> session_ok lim P s ->
  wlp (request_loop fuel cfg sets rnd n) (fun _ => session_ok lim P) (session_ok lim P) s.
Proof.
  intros Hl Hsets. revert n s. induction fuel as [|fuel IH]; intros n s Hs; [done|]. cbn [request_loop].
  apply wlp_bind. unfold wlp at 1, get. apply wlp_bind, wlp_defined.
  intros [[more request] input] Hx. apply extract_loop_result in Hx.
  apply wlp_bind. unfold wlp at 1, modify.
  assert (session_ok lim P (set_input input s)) as Hs1 by by eapply session_ok_ext.
  destruct more; cbn [negb]; [|exact Hs1]. destruct (is_prefix _ _); [by apply IH|].
  apply wlp_bind. eapply wlp_mono; [apply (handle_request_ok cfg); try done; apply Hx|].
  intros [] s2 Hs2; [by apply IH|done].
Qed.

Lemma bad_request_ok cfg : peer_limits cfg lim -> rtsp_message_ok lim (make_response 400 [] [] []).
Proof.
  intros (Hl1 & Hl2 & Hl3). apply make_response_message; [done|done|done|..];
    change (zlen (@nil Z)) with 0; [unfold int_max; lia|lia|].
  let v := eval vm_compute in (zlen (make_response 400 [] [] [])) in
    change (zlen (make_response 400 [] [] [])) with v.
  lia.
Qed.

Lemma handle_input_ok cfg sets rnd data s :
  peer_limits cfg lim -> sets_fit lim sets -> session_ok lim P s ->
  wlp (handle_input cfg sets rnd data) (fun _ => session_ok lim P) (session_ok lim P) s.
Proof.
  intros Hl Hsets Hs. pose proof (bad_request_ok _ Hl) as Hbad. unfold handle_input.
  apply wlp_bind. unfold wlp at 1, modify. apply wlp_bind. unfold wlp at 1, get.
  assert (session_ok lim P (set_input (se_input s ++ data) s)) as Hs1 by by eapply session_ok_ext.
  destruct (_ >? _).
  - apply wlp_bind, wlp_write. intros t. apply session_ok_write; [done|by left|auto].
  - apply wlp_bind. eapply wlp_mono; [by apply (request_loop_ok _ cfg)|].
    intros u s2 Hs2. apply wlp_bind. unfold wlp at 1, get. destruct (bad_input _); [|done].
    apply wlp_bind, wlp_write. intros t. apply session_ok_write; [done|by left|auto].
Qed.

Lemma send_next_ok cfg sets steady system s :
  session_ok lim P s -> wlp (send_next cfg sets steady system) (fun _ => session_ok lim P) (session_ok lim P) s.
Proof.
  intros Hs. unfold send_next. apply wlp_bind. unfold wlp at 1, get.
  destruct (m_playing (se_media s)) eqn:Ep; [|done].
  assert (session_ok lim P (set_media (set_queue (snd (try_pop (m_queue (se_media s)))) (se_media s)) s)) as Hs1.
  { destruct Hs as [Hst Hc Hp Hq]. constructor; try done. cbn. unfold try_pop.
    destruct (q_frames (m_queue (se_media s))) eqn:E; cbn; [by rewrite E|]. by apply Forall_cons in Hq as [_ Hq]. }
  destruct (try_pop _) as [[frame|] q]; apply wlp_bind; unfold wlp at 1, modify; [|done].
  apply wlp_bind. eapply wlp_mono; [by apply send_frame_ok|].
  intros [] s2 Hs2; [done|]. cbn [negb]. apply wlp_bind. by eapply session_ok_ext.
Qed.

Lemma session_turn_ok cfg sets ev s :
  peer_limits cfg lim -> sets_fit lim sets -> session_ok lim P s ->
  wlp (session_turn cfg sets ev) (fun _ => session_ok lim P) (session_ok lim P) s.
Proof.
  intros Hl Hsets Hs. unfold session_turn. apply wlp_bind.
  assert (forall s1, session_ok lim P s1 -> wlp (_ ← modify (fun s => set_media (fold_left (fun m f => deliver f m)
    (ev_frames ev) (se_media s)) s); send_next cfg sets (ev_steady ev) (ev_system ev))
    (fun _ => session_ok lim P) (session_ok lim P) s1) as Hnext.
  { intros s1 Hs1. apply wlp_bind. unfold wlp at 1, modify. apply send_next_ok. by apply deliver_ok. }
  unfold read_part. destruct (ev_read ev); [apply Hnext, Hs|exact Hs|].
  eapply wlp_mono; [by apply (handle_input_ok cfg)|]. intros [] s2 Hs2; [by apply Hnext|exact Hs2].
Qed.

Lemma session_loop_ok cfg turns s :
  peer_limits cfg lim -> Forall (fun t => sets_fit lim t.1) turns -> session_ok lim P s ->
  wlp (session_loop cfg turns) (fun _ => session_ok lim P) (session_ok lim P) s.
Proof.
  intros Hl Ht. revert s. induction Ht as [|[sets ev] turns Hsets _ IH]; intros s Hs; cbn [session_loop]; [done|].
  apply wlp_bind. unfold wlp at 1, get. destruct (_ && _); [|done].
  apply wlp_bind. eapply wlp_mono; [by apply (session_turn_ok cfg)|]. intros [] s2 Hs2; [by apply IH|done].
Qed.
End Stream.

Lemma new_session_ok {T} lim (P : list bytes -> Prop) frames_limit bytes_limit seq ssrc origin media (t : T) :
  media_new frames_limit bytes_limit seq ssrc origin = Ok media -> P [] -> session_ok lim P (new_session media t).
Proof.
  intros Hm HP. unfold media_new in Hm. bind_inv Hm. injection Hm as <-. unfold queue_new in Hv. destruct (_ || _); [done|].
  injection Hv as <-. constructor; cbn; [|done|done|constructor].
  exists []. split_and!; [done|done|done|]. by constructor.
Qed.

(** C4: On a transport that takes every byte, the stream a session sends is at any time
    a sequence of whole messages, RTSP responses and interleaved frames.  Every frame is on
    one of the two channels that the response to SETUP announced, and comes after that
    response and, later, the response to a PLAY which presents the RTP-Info of the
    session's channel.  The peer's receive loop gets exactly these messages, however the
    stream is cut into reads. *)
Theorem session_stream_wellformed {T} `{!Transport T} `{!Reliable T} cfg lim turns frames_limit bytes_limit seq ssrc
    origin media (t : T) outcome s :
  peer_limits cfg lim -> Forall (fun turn => sets_fit lim turn.1) turns ->
  media_new frames_limit bytes_limit seq ssrc origin = Ok media ->
  session_loop cfg turns (new_session media t) = Some (outcome, s) ->
  exists ms, c_sent (se_conn s) = concat ms /\ Forall (sent_ok lim s) ms /\
    (forall i m, ms !! i = Some m -> is_prefix $"$" m = true ->
       exists j k granted started, (j < k < i)%nat /\ ms !! j = Some granted /\ setup_response (se_control s) granted /\
         ms !! k = Some started /\ play_response (se_control s) started) /\
    (forall chunks, concat chunks = c_sent (se_conn s) -> receive_all [] chunks lim = Some (ms, [])).
Proof.
  intros Hl Ht Hm Hloop.
  pose proof (new_session_ok lim (fun _ => True) _ _ _ _ _ _ t Hm I) as H0.
  pose proof (session_loop_ok lim (fun _ => True) ltac:(done) ltac:(done) cfg turns _ Hl Ht H0) as Hw. unfold wlp in Hw.
  rewrite Hloop in Hw. assert (session_ok lim (fun _ => True) s) as [(ms & Hs & Hms & _ & Hto) _ _ _] by by destruct outcome.
  exists ms. split_and!; [done|done| |].
  - intros i m Hi Hd. by apply (to_frames _ _ _ Hto i m).
  - intros chunks Hc. apply receive_all_messages; [|by left|by rewrite Hc, Hs].
    eapply Forall_impl; [exact Hms|]. intros m [?|(? & _)]; [by left|by right].
Qed.

(** A configuration, a client and the turns SETUP, PLAY and two frames. *)
Definition demo_config : LiveRtspServerConfig :=
  {| listen_host := $"0.0.0.0"; rtsp_port := 8554; rtsps_port := 0; tls_cert_file := []; tls_key_file := [];
     listen_backlog := 32; max_header := 16384; max_body := 1048576; client_queue_frames := 30;
     client_queue_bytes := 8388608; rtp_mtu := 1200; io_timeout_ms := 1000;
     channels := [{| lc_channel_id := 1; lc_codec := H264 |}]; cfg_channel_id := 1; cfg_codec := H264 |}.

Definition demo_frame (key : bool) (pts : Z) : OwnedLiveFrame :=
  {| f_data := [0; 0; 0; 1; if key then 101 else 65; 136]; f_pts_ns := pts; f_duration_ns := -1; f_key_frame := key;
     f_channel_id := 1; f_codec := H264 |}.

Definition demo_sets : list ParameterSets :=
  [no_sets; {| h264_sps := [103; 66]; h264_pps := [104; 206]; h265_vps := []; h265_sps := []; h265_pps := [] |};
   no_sets; no_sets; no_sets].

Definition turn (read : ReadEvent) (frames : list OwnedLiveFrame) : list ParameterSets * SessionEvent :=
  (demo_sets, {| ev_running := true; ev_read := read; ev_frames := frames; ev_random := fun _ => (1, 2);
                 ev_steady := 7000000000; ev_system := 1700000000000000000 |}).

Definition demo_turns : list (list ParameterSets * SessionEvent) :=
  [turn (ReadData (take 20 demo_setup)) []; turn (ReadData (drop 20 demo_setup ++ demo_play)) [];
   turn NotReady [demo_frame false 0; demo_frame true 40000000]; turn NotReady []].

Definition demo_media : ClientMediaState :=
  {| m_queue := {| q_max_frames := 30; q_max_bytes := 8388608; q_frames := []; q_bytes := 0; q_drops := 0;
                   q_closed := false |};
     m_playing := false; m_connected := true; m_channel_id := -1; m_sequence := 65535; m_ssrc := 9;
     m_timestamp_origin := 1000; m_first_pts_ns := -1; m_last_timestamp := 0; m_packet_count := 0; m_octet_count := 0;
     m_first_rtp_sent := false; m_waiting_for_keyframe := true; m_last_rtcp := 0 |}.

Definition demo_limits : ParserLimits := {| max_header_bytes := 2000000; max_body_bytes := 2000000 |}.

Lemma demo_sets_fit : sets_fit demo_limits demo_sets.
Proof.
  intros c codec. unfold codec_fmtp, sets_of.
  destruct (Z.to_nat c) as [|[|[|[|[|k]]]]]; destruct codec; vm_compute; congruence.
Qed.

Lemma session_stream_wellformed_witness :
  exists outcome s ms, session_loop demo_config demo_turns (new_session demo_media two_bytes) = Some (outcome, s) /\
    c_sent (se_conn s) = concat ms /\
    receive_all [] [c_sent (se_conn s)] demo_limits = Some (ms, []).
Proof.
  destruct (session_loop demo_config demo_turns (new_session demo_media two_bytes)) as [[outcome s]|] eqn:E.
  - destruct (session_stream_wellformed demo_config demo_limits demo_turns 30 8388608 65535 9 1000 demo_media
                two_bytes outcome s) as (ms & H1 & _ & H2).
    + vm_compute. split_and!; congruence.
    + repeat (apply Forall_cons; split); [apply demo_sets_fit..|apply Forall_nil; exact I].
    + reflexivity.
    + exact E.
    + exists outcome, s, ms. split_and!; [reflexivity|exact H1|apply H2; cbn [concat]; apply app_nil_r].
  - exfalso. vm_compute in E. congruence.
Defined.

(** ** What one frame puts on the wire *)

Record media_ok (m : ClientMediaState) : Prop := {
  mo_sequence : 0 <= m_sequence m < 65536;
  mo_ssrc : 0 <= m_ssrc m < 4294967296;
  mo_origin : 0 <= m_timestamp_origin m < 4294967296;
  mo_last : 0 <= m_last_timestamp m < 4294967296;
  mo_packets : 0 <= m_packet_count m < 18446744073709551616;
  mo_octets : 0 <= m_octet_count m < 18446744073709551616
}.

Lemma frame_timestamp_range frame m ts m' :
  media_ok m -> frame_timestamp frame m = Some (ts, m') -> 0 <= ts < 4294967296.
Proof.
  intros Hm. unfold frame_timestamp. destruct (f_pts_ns frame >=? 0), (in_i64 _); try done; intros [= <- _].
  - apply u32_range.
  - destruct (_ =? 0); [apply Hm|apply u32_range].
Qed.

(** The media state after the packets have been counted. *)
Definition counted (packets : list RtpPacket) (m : ClientMediaState) : ClientMediaState :=
  fold_left (fun m p => set_flow (m_sequence m) (u64 (m_packet_count m + 1))
      (u64 (m_octet_count m + u64 (zlen (packet_bytes p) - 12))) (m_first_rtp_sent m) (m_waiting_for_keyframe m)
      (m_last_rtcp m) m) packets m.

Definition octets (packets : list RtpPacket) : Z := foldr (fun p n => zlen (rtp_payload p) + n) 0 packets.

Lemma counted_fields packets m :
  Forall (fun p => 12 <= zlen (packet_bytes p)) packets ->
  0 <= m_packet_count m < 18446744073709551616 -> 0 <= m_octet_count m < 18446744073709551616 ->
  let m' := counted packets m in
  m_packet_count m' = u64 (m_packet_count m + zlen packets) /\ m_octet_count m' = u64 (m_octet_count m + octets packets) /\
  m_sequence m' = m_sequence m /\ m_ssrc m' = m_ssrc m /\ m_first_rtp_sent m' = m_first_rtp_sent m /\
  m_waiting_for_keyframe m' = m_waiting_for_keyframe m /\ m_last_rtcp m' = m_last_rtcp m.
Proof.
  intros Hp. revert m. induction Hp as [|p ps Hlen _ IH]; intros m Hc Ho; cbn [counted fold_left].
  { unfold zlen, octets. cbn. rewrite !Z.add_0_r. unfold u64. by rewrite !Z.mod_small. }
  destruct (IH (set_flow (m_sequence m) (u64 (m_packet_count m + 1))
      (u64 (m_octet_count m + u64 (zlen (packet_bytes p) - 12))) (m_first_rtp_sent m) (m_waiting_for_keyframe m)
      (m_last_rtcp m) m)) as (H1 & H2 & H3); cbn; [unfold u64; lia..|].
  fold (counted ps). split_and!; try apply H3.
  - etrans; [exact H1|]. rewrite zlen_cons. cbn. unfold u64. rewrite Z.add_mod_idemp_l by lia. f_equal. lia.
  - etrans; [exact H2|]. cbn. unfold octets. cbn [foldr]. fold (octets ps).
    assert (zlen (rtp_payload p) = zlen (packet_bytes p) - 12) as ->.
    { unfold rtp_payload, zlen in *. rewrite length_drop. lia. }
    unfold u64. rewrite Z.add_mod_idemp_r, Z.add_mod_idemp_l by lia. f_equal. lia.
Qed.

Lemma send_packets_exact {T} `{!Transport T} `{!Reliable T} channel packets (s : Sess (T := T)) :
  Forall (fun p => zlen (packet_bytes p) <= 65535) packets ->
  exists wires t, Forall2 (fun p w => interleaved channel (packet_bytes p) = Ok w) packets wires /\
    send_packets channel packets s =
    Some (Ok true, set_media (counted packets (se_media s))
                     (set_conn {| c_transport := t; c_sent := c_sent (se_conn s) ++ concat wires |} s)).
Proof.
  intros Hp. revert s. induction Hp as [|p ps Hlen _ IH]; intros s; cbn [send_packets].
  { exists [], (c_transport (se_conn s)). split; [constructor|]. cbn. rewrite app_nil_r.
    destruct s as [? [] ? ? ? ? ?]. done. }
  assert (exists w, interleaved channel (packet_bytes p) = Ok w) as [w Hw].
  { unfold interleaved. replace (_ >? _) with false by lia. eauto. }
  destruct (write_reliable w (se_conn s)) as [t Ht].
  destruct (IH (count_packet p (set_conn {| c_transport := t; c_sent := c_sent (se_conn s) ++ w |} s)))
    as (ws & t' & Hws & E).
  exists (w :: ws), t'. split; [by constructor|].
  rewrite Hw. unfold mbind, act_bind, lift, write_conn. cbn [mbind]. rewrite Ht. cbn [negb]. unfold modify.
  rewrite E. cbn. by rewrite <- app_assoc.
Qed.

Lemma stamped_sizes ts ssrc seq ps seq' :
  stamped ts ssrc seq ps seq' -> Forall (fun p => 12 <= zlen (packet_bytes p)) ps.
Proof.
  revert seq; induction ps as [|p ps IH]; intros seq; cbn [stamped]; [done|]. intros [Hp Hps].
  constructor; [|by eapply IH].
  destruct (packet_bytes p) as [|b0 [|b1 [|b2 [|b3 [|b4 [|b5 [|b6 [|b7 [|b8 [|b9 [|b10 [|b11 rest]]]]]]]]]]]]; try done.
  rewrite !zlen_cons. pose proof (zlen_nonneg rest). lia.
Qed.

Lemma report_size ssrc packets octs now ts : zlen (make_rtcp_sender_report ssrc packets octs now ts) = 28.
Proof. reflexivity. Qed.

(** Whether a sender report follows a frame. *)
Definition report_due (steady : Z) (m : ClientMediaState) : bool :=
  (m_last_rtcp m =? 0) || (steady - m_last_rtcp m >=? kRtcpInterval).

Lemma send_report_exact {T} `{!Transport T} `{!Reliable T} steady system ts (s : Sess (T := T)) :
  let m := se_media s in
  exists wire s', send_report steady system ts s = Some (Ok true, s') /\
    (if report_due steady m
     then interleaved (rtcp_channel (se_control s))
            (make_rtcp_sender_report (m_ssrc m) (m_packet_count m) (m_octet_count m) system ts) = Ok wire
     else wire = []) /\
    c_sent (se_conn s') = c_sent (se_conn s) ++ wire /\
    m_sequence (se_media s') = m_sequence m /\ m_packet_count (se_media s') = m_packet_count m /\
    m_octet_count (se_media s') = m_octet_count m /\ m_waiting_for_keyframe (se_media s') = m_waiting_for_keyframe m /\
    m_last_rtcp (se_media s') = (if report_due steady m then steady else m_last_rtcp m).
Proof.
  intros m. unfold send_report. unfold mbind, act_bind at 1, get. fold (report_due steady (se_media s)). fold m.
  destruct (report_due steady m).
  - unfold interleaved. rewrite report_size. change (28 >? 65535) with false. cbv iota.
    set (wire := append_u16 _ _ ++ _). destruct (write_reliable wire (se_conn s)) as [t Ht].
    unfold act_bind, lift, write_conn. rewrite Ht. cbn [negb]. unfold modify, mret, act_ret.
    eexists wire, _. by split_and!.
  - exists [], s. by rewrite app_nil_r.
Qed.

(** The state after the packets of a frame, before the report. *)
Definition note_first {T} (packets : list RtpPacket) (s : Sess (T := T)) : Sess :=
  if negb (is_empty packets) && negb (m_first_rtp_sent (se_media s))
  then count_first_rtp (set_media (first_sent (se_media s)) s) else s.

Lemma note_first_fields {T} packets (s : Sess (T := T)) :
  let s' := note_first packets s in
  se_conn s' = se_conn s /\ se_control s' = se_control s /\ m_sequence (se_media s') = m_sequence (se_media s) /\
  m_ssrc (se_media s') = m_ssrc (se_media s) /\ m_packet_count (se_media s') = m_packet_count (se_media s) /\
  m_octet_count (se_media s') = m_octet_count (se_media s) /\
  m_waiting_for_keyframe (se_media s') = m_waiting_for_keyframe (se_media s) /\
  m_last_rtcp (se_media s') = m_last_rtcp (se_media s).
Proof. unfold note_first. by destruct (_ && _). Qed.

(** Up to the report: the packets are sent and counted. *)
Lemma send_frame_packets {T} `{!Transport T} `{!Reliable T} mtu sets steady system frame (s : Sess (T := T)) ts m1 :
  let m := se_media s in
  media_ok m -> 15 < mtu <= 65535 -> m_waiting_for_keyframe m = false \/ f_key_frame frame = true ->
  frame_timestamp frame (stop_waiting m) = Some (ts, m1) ->
  let '(packets, sequence) :=
    packetize_nals (f_codec frame) (frame_nals sets frame m) (m_sequence m) ts (m_ssrc m) mtu in
  exists wires t, Forall2 (fun p w => interleaved (rtp_channel (se_control s)) (packet_bytes p) = Ok w) packets wires /\
    send_frame mtu sets steady system frame s =
    send_report steady system ts
      (note_first packets (set_media (counted packets (with_sequence sequence m1))
         (set_conn {| c_transport := t; c_sent := c_sent (se_conn s) ++ concat wires |} s))).
Proof.
  intros m Hm Hmtu Hwait Hts.
  pose proof (frame_timestamp_media _ _ _ _ Hts) as (_ & _ & _ & _ & Fs & Fc & _). cbn in Fs, Fc.
  pose proof (packetize_nals_sizes (f_codec frame) (frame_nals sets frame m) (m_sequence m) ts (m_ssrc m) mtu ltac:(lia)) as Hsz.
  destruct (packetize_nals _ (frame_nals sets frame m) _ _ _ _) as [packets seq'] eqn:Ep. cbn [fst] in Hsz.
  destruct (send_packets_exact (rtp_channel (se_control s)) packets (set_media (with_sequence seq' m1) (set_media m1 s)))
    as (wires & t & Hw & E).
  { eapply Forall_impl; [exact Hsz|]. cbn. lia. }
  exists wires, t. split; [exact Hw|].
  unfold send_frame. unfold mbind at 1, act_bind at 1, get. fold m.
  replace (m_waiting_for_keyframe m && negb (f_key_frame frame)) with false
    by (destruct Hwait as [->| ->]; [done|by rewrite andb_false_r]).
  unfold mbind at 1, act_bind at 1, defined. rewrite Hts. cbn [fmap option_fmap option_map].
  unfold mbind at 1, act_bind at 1, modify at 1. unfold mbind at 1, act_bind at 1, lift, packetize_access_unit.
  replace (mtu <=? 15) with false by lia. rewrite Fs, Fc, Ep.
  unfold mbind at 1, act_bind at 1, modify at 1.
  unfold mbind at 1, act_bind at 1. rewrite E. cbn [negb]. unfold mbind at 1, act_bind at 1, get.
  unfold mbind at 1, act_bind at 1, note_first. by destruct (_ && _).
Qed.

(** What [send_frame] does for a client that is not held back for a key frame. *)
Lemma send_frame_exact {T} `{!Transport T} `{!Reliable T} mtu sets steady system frame (s : Sess (T := T)) ts m1 :
  let m := se_media s in
  media_ok m -> 15 < mtu <= 65535 -> m_waiting_for_keyframe m = false \/ f_key_frame frame = true ->
  Forall (nal_ok (f_codec frame)) (frame_nals sets frame m) ->
  frame_timestamp frame (stop_waiting m) = Some (ts, m1) ->
  exists packets wires report s',
    packets = fst (packetize_nals (f_codec frame) (frame_nals sets frame m) (m_sequence m) ts (m_ssrc m) mtu) /\
    send_frame mtu sets steady system frame s = Some (Ok true, s') /\
    c_sent (se_conn s') = c_sent (se_conn s) ++ concat wires ++ report /\
    Forall2 (fun p w => interleaved (rtp_channel (se_control s)) (packet_bytes p) = Ok w) packets wires /\
    depayload (f_codec frame) [] (rtp_payload <$> packets) = frame_nals sets frame m /\
    stamped ts (m_ssrc m) (m_sequence m) packets (m_sequence (se_media s')) /\
    m_packet_count (se_media s') = u64 (m_packet_count m + zlen packets) /\
    m_octet_count (se_media s') = u64 (m_octet_count m + octets packets) /\
    m_waiting_for_keyframe (se_media s') = false /\
    (if report_due steady m
     then interleaved (rtcp_channel (se_control s))
            (make_rtcp_sender_report (m_ssrc m) (m_packet_count (se_media s')) (m_octet_count (se_media s')) system ts)
          = Ok report
     else report = []).
Proof.
  intros m Hm Hmtu Hwait Hnals Hts.
  pose proof (frame_timestamp_range frame (stop_waiting m) ts m1 ltac:(by destruct Hm) Hts) as Hr.
  pose proof (frame_timestamp_media _ _ _ _ Hts) as (_ & _ & _ & Fw & _ & Fc & Fp & Fo & Fl & _).
  cbn in Fw, Fc, Fp, Fo, Fl. pose proof (send_frame_packets mtu sets steady system frame s ts m1 Hm Hmtu Hwait Hts) as Hp.
  fold m in Hp. set (nals := frame_nals sets frame m) in *.
  pose proof (packetize_nals_stamped (f_codec frame) nals (m_sequence m) ts (m_ssrc m) mtu (mo_sequence _ Hm) Hr
                (mo_ssrc _ Hm)) as Hst.
  pose proof (packetize_nals_depayload (f_codec frame) nals (m_sequence m) ts (m_ssrc m) mtu ltac:(lia) Hnals) as Hdp.
  destruct (packetize_nals _ nals _ _ _ _) as [packets seq'] eqn:Epk. destruct Hp as (wires & t & Hw & E). cbn [fst snd] in Hst, Hdp.
  destruct (counted_fields packets (with_sequence seq' m1)) as (C1 & C2 & C3 & C4 & _ & C6 & C7).
  { by eapply stamped_sizes. } { cbn. rewrite Fp. apply Hm. } { cbn. rewrite Fo. apply Hm. }
  set (s2 := set_media _ _) in E. destruct (note_first_fields packets s2) as (N1 & N2 & N3 & N4 & N5 & N6 & N7 & N8).
  destruct (send_report_exact steady system ts (note_first packets s2)) as
    (report & s' & R1 & R2 & R3 & R4 & R5 & R6 & R7 & _).
  unfold report_due in *. rewrite N4, N5, N6, N8, N2 in R2. rewrite N1 in R3. rewrite N3 in R4. rewrite N5 in R5.
  rewrite N6 in R6. rewrite N7 in R7.
  cbn in R2, R3, R4, R5, R6, R7, C1, C2, C3, C4, C6, C7.
  rewrite C4, Fc, C7, Fl in R2. rewrite Fp in C1. rewrite Fo in C2.
  exists packets, wires, report, s'. rewrite E, R4, C3, R5, R6, R7, C6, Fw.
  split_and!; try done. by rewrite R3, <- app_assoc.
Qed.

(** What sending a frame leaves alone. *)
Definition same_client {T} (s s' : Sess (T := T)) : Prop :=
  se_control s' = se_control s /\ se_connected s' = se_connected s /\ se_input s' = se_input s /\
  m_playing (se_media s') = m_playing (se_media s) /\ m_connected (se_media s') = m_connected (se_media s) /\
  m_channel_id (se_media s') = m_channel_id (se_media s) /\ m_queue (se_media s') = m_queue (se_media s) /\
  (media_ok (se_media s) -> media_ok (se_media s')).

#[export] Instance same_client_preorder {T} : PreOrder (same_client (T := T)).
Proof.
  split; [intros s; by split_and!|].
  intros s1 s2 s3 (?&?&?&?&?&?&?&?) (?&?&?&?&?&?&?&?). split_and!; try congruence. auto.
Qed.

Lemma write_conn_client {T} `{!Transport T} data : keeps (same_client (T := T)) (write_conn data).
Proof. intros s. unfold wlp, write_conn. destruct (write data (se_conn s)) as [ok c]. by split_and!. Qed.

Lemma frame_timestamp_ok frame m ts m' : media_ok m -> frame_timestamp frame m = Some (ts, m') -> media_ok m'.
Proof.
  intros [] H. unfold frame_timestamp in H. destruct (f_pts_ns frame >=? 0), (in_i64 _); try done; injection H as <- <-;
    constructor; cbn; try done.
  - apply u32_range.
  - destruct (_ =? 0); [done|apply u32_range].
Qed.

Lemma stamped_sequence ts ssrc seq ps seq' : stamped ts ssrc seq ps seq' -> 0 <= seq < 65536 -> 0 <= seq' < 65536.
Proof.
  revert seq; induction ps as [|p ps IH]; intros seq; cbn [stamped]; [by intros ->|].
  intros [_ Hps] Hs. eapply IH; [done|apply u16_range].
Qed.

Section SameClient.
Context {T : Type} `{!Transport T}.
Implicit Type s : Sess (T := T).

Lemma count_packet_client p s : same_client s (count_packet p s).
Proof. split_and!; try done. intros []. constructor; cbn; try done; unfold u64; lia. Qed.

Lemma send_packets_client channel packets : keeps (same_client (T := T)) (send_packets channel packets).
Proof.
  induction packets as [|p ps IH]; cbn [send_packets]; repeat keeps_step; try apply write_conn_client;
    auto using count_packet_client.
Qed.

Lemma send_report_client steady system ts : keeps (same_client (T := T)) (send_report steady system ts).
Proof.
  unfold send_report. repeat keeps_step; try apply write_conn_client. split_and!; try done. intros []. by constructor.
Qed.

Lemma send_frame_client mtu sets steady system frame s :
  wlp (send_frame mtu sets steady system frame) (fun _ => same_client s) (same_client s) s.
Proof.
  unfold send_frame. apply wlp_bind, wlp_get. destruct (_ && _); [done|].
  apply wlp_bind, wlp_defined. intros [ts m] Hts.
  pose proof (frame_timestamp_media _ _ _ _ Hts) as (F1 & F2 & F3 & F4 & F5 & F6 & _). cbn in F1, F2, F3, F4, F5, F6.
  assert (m_connected m = m_connected (se_media s)) as Fc.
  { unfold frame_timestamp in Hts. destruct (f_pts_ns frame >=? 0), (in_i64 _); try done; by injection Hts as _ <-. }
  assert (media_ok (se_media s) -> media_ok m) as Fm.
  { intros Hm. eapply frame_timestamp_ok; [|done]. destruct Hm. by constructor. }
  apply wlp_bind, wlp_modify, wlp_bind, wlp_lift; [|by split_and!].
  intros [packets seq] Hp. apply wlp_bind, wlp_modify.
  assert (same_client s (set_media (with_sequence seq m) (set_media m s))) as H1.
  { split_and!; try done. intros Hm. specialize (Fm Hm). unfold packetize_access_unit in Hp. destruct (mtu <=? 15); [done|].
    injection Hp as Hp. pose proof (frame_timestamp_range _ (stop_waiting (se_media s)) _ _ ltac:(by destruct Hm) Hts) as Hr.
    pose proof (packetize_nals_stamped (f_codec frame) (frame_nals sets frame (se_media s)) (m_sequence m) ts (m_ssrc m) mtu
                  (mo_sequence _ Fm) Hr (mo_ssrc _ Fm)) as Hst. rewrite Hp in Hst.
    destruct Fm. constructor; cbn; try done. by eapply stamped_sequence. }
  assert (keeps (same_client (T := T)) (ok ← send_packets (rtp_channel (se_control s)) packets;
    (if negb ok then mret false
     else
       s ← get;
       _ ← (if negb (is_empty packets) && negb (m_first_rtp_sent (se_media s))
            then modify (fun s => count_first_rtp (set_media (first_sent (se_media s)) s)) else mret tt);
       send_report steady system ts))) as Hk.
  { repeat keeps_step; try apply send_packets_client; try apply send_report_client.
    split_and!; try done. intros []. by constructor. }
  eapply wlp_weaken; [apply Hk|..]; cbv beta; intros; by etrans.
Qed.
End SameClient.

(** C9: What a frame puts on the wire.  For a client that is not held back for a key
    frame, [send_frame] succeeds: it sends the packets of one access unit on the RTP
    channel, which depacketise to the NAL units of the frame (after the parameter
    sets if the client was waiting), numbered on from the client's sequence counter;
    then a sender report with the updated counts when one is due. *)
Theorem send_frame_delivers {T} `{!Transport T} `{!Reliable T} mtu sets steady system frame (s : Sess (T := T)) ts m1 :
  let m := se_media s in
  let nals := (if m_waiting_for_keyframe m
               then filter (fun nal => is_empty nal = false) (parameter_sets sets (f_channel_id frame) (f_codec frame)) else []) ++
              split_access_unit (f_data frame) in
  media_ok m -> 15 < mtu <= 65535 -> m_waiting_for_keyframe m = false \/ f_key_frame frame = true ->
  Forall (nal_ok (f_codec frame)) nals ->
  frame_timestamp frame (stop_waiting m) = Some (ts, m1) ->
  exists packets wires report s',
    send_frame mtu sets steady system frame s = Some (Ok true, s') /\
    c_sent (se_conn s') = c_sent (se_conn s) ++ concat wires ++ report /\
    Forall2 (fun p w => interleaved (rtp_channel (se_control s)) (packet_bytes p) = Ok w) packets wires /\
    depayload (f_codec frame) [] (rtp_payload <$> packets) = nals /\
    stamped ts (m_ssrc m) (m_sequence m) packets (m_sequence (se_media s')) /\
    m_packet_count (se_media s') = u64 (m_packet_count m + zlen packets) /\
    m_octet_count (se_media s') = u64 (m_octet_count m + octets packets) /\
    m_waiting_for_keyframe (se_media s') = false /\
    (if report_due steady m
     then interleaved (rtcp_channel (se_control s))
            (make_rtcp_sender_report (m_ssrc m) (m_packet_count (se_media s')) (m_octet_count (se_media s')) system ts)
          = Ok report
     else report = []).
Proof.
  intros m nals Hm Hmtu Hwait Hnals Hts.
  destruct (send_frame_exact mtu sets steady system frame s ts m1 Hm Hmtu Hwait Hnals Hts) as (packets & wires & report & s' & _ & H').
  by exists packets, wires, report, s'.
Qed.

Definition demo_session : Sess (T := TwoBytes) :=
  {| se_media := demo_media; se_conn := {| c_transport := two_bytes; c_sent := [] |}; se_control := demo_playing.2;
     se_input := []; se_connected := true; se_first_rtp := 0; se_failures := 0 |}.

Lemma send_frame_delivers_witness :
  exists packets wires report s',
    send_frame 1200 demo_sets 7000000000 1700000000000000000 (demo_frame true 40000000) demo_session = Some (Ok true, s') /\
    c_sent (se_conn s') = concat wires ++ report /\
    depayload H264 [] (rtp_payload <$> packets) = [[103; 66]; [104; 206]; [101; 136]].
Proof.
  destruct (send_frame_delivers 1200 demo_sets 7000000000 1700000000000000000 (demo_frame true 40000000) demo_session
              1000 (set_clock 40000000 1000 (stop_waiting demo_media)))
    as (packets & wires & report & s' & H1 & H2 & _ & H4 & _).
  - constructor; cbn; lia.
  - lia.
  - right. reflexivity.
  - repeat (apply Forall_cons; split); [..|apply Forall_nil; exact I];
      (split; [repeat (constructor; [unfold byte_ok; lia|]); constructor|discriminate]).
  - reflexivity.
  - exists packets, wires, report, s'. split_and!; [exact H1|exact H2|exact H4].
Defined.

(** ** The RTP clock *)

(** The longest time since the first frame for which the 64-bit product is exact. *)
Definition clock_limit_ns : Z := 102481911520608.

(** The time stamp of a frame with a presentation time runs at 90 kHz from the
    client's random origin, modulo [2 ^ 32], as long as the client has been playing for
    no more than about 28 hours. *)
Lemma rtp_clock frame m :
  0 <= f_pts_ns frame ->
  let first := if m_first_pts_ns m <? 0 then f_pts_ns frame else m_first_pts_ns m in
  f_pts_ns frame - first <= clock_limit_ns ->
  exists m', frame_timestamp frame m =
    Some ((m_timestamp_origin m + Z.max 0 (f_pts_ns frame - first) * 9 / 100000) mod 4294967296, m') /\
    m_first_pts_ns m' = first.
Proof.
  intros Hp first Hd. unfold frame_timestamp, clock_limit_ns in *. fold first.
  replace (f_pts_ns frame >=? 0) with true by lia. set (delta := Z.max 0 (f_pts_ns frame - first)).
  assert (0 <= delta <= 102481911520608) as Hdl by lia. clearbody delta.
  replace (in_i64 (delta * 90000)) with true by (unfold in_i64, i64_min, i64_max; lia).
  assert (u32 (m_timestamp_origin m + u32 (Z.quot (delta * 90000) 1000000000)) =
          (m_timestamp_origin m + delta * 9 / 100000) mod 4294967296) as ->.
  { rewrite Z.quot_div_nonneg by lia. unfold u32. rewrite Z.add_mod_idemp_r by lia. f_equal. f_equal.
    replace (delta * 90000) with (delta * 9 * 10000) by lia. change 1000000000 with (100000 * 10000).
    apply Z.div_mul_cancel_r; lia. }
  by eexists.
Qed.

Lemma rtp_clock_witness :
  exists m', frame_timestamp (demo_frame false 73000000000) (set_clock 40000000 0 demo_media) = Some (6567400, m').
Proof.
  destruct (rtp_clock (demo_frame false 73000000000) (set_clock 40000000 0 demo_media)) as (m' & H1 & _).
  - cbn. lia.
  - cbn. unfold clock_limit_ns. lia.
  - exists m'. exact H1.
Defined.

(** C38: Past that time the 64-bit product of the clock overflows, so a client that has
    been playing for more than about 28 hours and 28 minutes gets no defined time stamp. *)
Theorem rtp_clock_overflows frame m :
  0 <= m_first_pts_ns m -> m_first_pts_ns m + clock_limit_ns < f_pts_ns frame -> frame_timestamp frame m = None.
Proof.
  intros H1 H2. unfold frame_timestamp, clock_limit_ns in *.
  replace (f_pts_ns frame >=? 0) with true by lia. replace (m_first_pts_ns m <? 0) with false by lia.
  replace (in_i64 _) with false; [done|]. symmetry. unfold in_i64, i64_min, i64_max. lia.
Qed.

Lemma rtp_clock_overflows_witness :
  frame_timestamp (demo_frame false 102500000000000) (set_clock 0 0 demo_media) = None.
Proof. apply rtp_clock_overflows; cbn; unfold clock_limit_ns; lia. Defined.

(** ** Requests are answered *)

(** The channel a request addresses and the answer to it. *)
Definition answer (cfg : LiveRtspServerConfig) (sets : list ParameterSets) (rnd : Z * Z) (request : bytes)
    (control : RtspControlState) : RtspControlResult * RtspControlState :=
  match find_channel (channels cfg) (parse_public_channel_id (extract_request_target request)) with
  | Some ch => process_rtsp_request request (lc_channel_id ch) (lc_codec ch)
                 (codec_fmtp sets (lc_channel_id ch) (lc_codec ch)) rnd.1 rnd.2 control
  | None => process_rtsp_request request (-1) H264 [] rnd.1 rnd.2 control
  end.

(** The session after an answer has been sent. *)
Definition answered_session {T} (out : RtspControlResult * RtspControlState) (t : T) (s : Sess (T := T)) : Sess :=
  let s := set_conn {| c_transport := t; c_sent := c_sent (se_conn s) ++ response out.1 |} (set_control out.2 s) in
  let s := if start_play out.1 then start_playing s else s in
  if close_session out.1 then disconnect s else s.

Lemma handle_request_exact {T} `{!Transport T} `{!Reliable T} cfg sets rnd request (s : Sess (T := T)) :
  exists t, handle_request cfg sets rnd request s =
    Some (Ok (negb (close_session (answer cfg sets rnd request (se_control s)).1)),
          answered_session (answer cfg sets rnd request (se_control s)) t s).
Proof.
  unfold handle_request, answer, answered_session. unfold mbind at 1, act_bind at 1, get.
  destruct (find_channel _ _) as [ch|].
  all: destruct (process_rtsp_request _ _ _ _ _ _ _) as [result control]; cbn [fst snd];
    destruct (write_reliable (response result) (se_conn (set_control control s))) as [t Ht]; exists t;
    unfold mbind, act_bind, modify, write_conn; rewrite Ht; cbn [negb];
    by destruct (start_play result), (close_session result).
Qed.

Lemma answered_session_fields {T} out t (s : Sess (T := T)) :
  let s' := answered_session out t s in
  se_input s' = se_input s /\ m_queue (se_media s') = m_queue (se_media s) /\
  c_sent (se_conn s') = c_sent (se_conn s) ++ response out.1 /\ se_control s' = out.2 /\
  se_connected s' = (se_connected s && negb (close_session out.1)) /\
  m_playing (se_media s') = (m_playing (se_media s) || start_play out.1).
Proof.
  unfold answered_session. destruct (start_play out.1), (close_session out.1); cbn;
    rewrite ?andb_true_r, ?andb_false_r, ?orb_true_r, ?orb_false_r; by split_and!.
Qed.

Lemma request_loop_empty {T} `{!Transport T} f cfg sets rnd n (s : Sess (T := T)) :
  se_input s = [] -> request_loop (S f) cfg sets rnd n s = Some (Ok tt, s).
Proof.
  intros Hi. cbn [request_loop]. unfold mbind, act_bind, get, defined, modify. rewrite Hi.
  replace (extract_one_rtsp_message [] (session_limits cfg)) with (Some (false, @nil Z, @nil Z)) by done.
  cbn. rewrite <- Hi. by destruct s.
Qed.

Lemma request_loop_one {T} `{!Transport T} `{!Reliable T} cfg sets rnd request (s : Sess (T := T)) :
  rtsp_message_ok (session_limits cfg) request -> se_input s = request ->
  exists t, request_loop (S (length request)) cfg sets rnd 0 s =
    Some (Ok tt, answered_session (answer cfg sets (rnd 0%nat) request (se_control s)) t (set_input [] s)).
Proof.
  intros Hm Hi. destruct (handle_request_exact cfg sets (rnd 0%nat) request (set_input [] s)) as [t Ht]. exists t.
  pose proof (message_ok_nonempty _ _ (or_introl Hm)) as Hne. destruct request as [|b request]; [done|].
  cbn [length]. remember (S (length request)) as f eqn:Ef. cbn [request_loop].
  unfold mbind at 1, act_bind at 1, get. unfold mbind at 1, act_bind at 1, defined.
  rewrite Hi, <- (app_nil_r (b :: request)) at 1. rewrite extract_message by by left.
  cbn [fmap option_fmap option_map]. unfold mbind at 1, act_bind at 1, modify at 1. cbn [negb].
  rewrite (request_not_dollar _ _ Hm). unfold mbind at 1, act_bind at 1. rewrite Ht. cbn [se_control set_input].
  set (out := answer _ _ _ _ _). destruct (close_session out.1) eqn:Ec; cbn [negb]; [done|].
  subst f. apply request_loop_empty. by rewrite (proj1 (answered_session_fields out t _)).
Qed.

Lemma send_next_idle {T} `{!Transport T} cfg sets steady system (s : Sess (T := T)) :
  q_frames (m_queue (se_media s)) = [] -> send_next cfg sets steady system s = Some (Ok true, s).
Proof.
  intros Hq. unfold send_next, mbind, act_bind, get, modify. destruct (m_playing _); [|done].
  unfold try_pop. rewrite Hq. by destruct s as [[] ? ? ? ? ? ?].
Qed.

(** The first half of a turn that reads one whole request. *)
Lemma read_answers {T} `{!Transport T} `{!Reliable T} cfg sets rnd request (s : Sess (T := T)) :
  se_input s = [] -> rtsp_message_ok (session_limits cfg) request -> zlen request <= u64 (max_header cfg + max_body cfg) ->
  exists t, read_part cfg sets (ReadData request) rnd s =
    Some (Ok true, answered_session (answer cfg sets (rnd 0%nat) request (se_control s)) t (set_input [] s)).
Proof.
  intros Hin Hm Hz. unfold read_part, handle_input.
  unfold mbind at 1, act_bind at 1, modify at 1. unfold mbind at 1, act_bind at 1, get at 1.
  rewrite Hin. cbn [app se_input set_input]. replace (_ >? _) with false by lia.
  destruct (request_loop_one cfg sets rnd request (set_input request s) Hm eq_refl) as [t El]. exists t.
  unfold mbind at 1, act_bind at 1. rewrite El. change (se_control (set_input request s)) with (se_control s).
  change (set_input [] (set_input request s)) with (set_input [] s).
  unfold mbind at 1, act_bind at 1, get at 1. by rewrite (proj1 (answered_session_fields _ t (set_input [] s))).
Qed.

(** A turn that reads one whole request. *)
Lemma turn_answers {T} `{!Transport T} `{!Reliable T} cfg sets ev request (s : Sess (T := T)) :
  ev_read ev = ReadData request -> ev_frames ev = [] -> se_input s = [] -> q_frames (m_queue (se_media s)) = [] ->
  rtsp_message_ok (session_limits cfg) request -> zlen request <= u64 (max_header cfg + max_body cfg) ->
  let out := answer cfg sets (ev_random ev 0%nat) request (se_control s) in
  exists s', session_turn cfg sets ev s = Some (Ok true, s') /\
    c_sent (se_conn s') = c_sent (se_conn s) ++ response out.1 /\ se_control s' = out.2 /\ se_input s' = [] /\
    m_queue (se_media s') = m_queue (se_media s) /\
    se_connected s' = (se_connected s && negb (close_session out.1)) /\
    m_playing (se_media s') = (m_playing (se_media s) || start_play out.1).
Proof.
  intros Hev Hfr Hin Hq Hm Hz out. destruct (read_answers cfg sets (ev_random ev) request s Hin Hm Hz) as [t Er]. fold out in Er.
  destruct (answered_session_fields out t (set_input [] s)) as (I1 & I2 & I3 & I4 & I5 & I6).
  unfold session_turn. rewrite Hev, Hfr. unfold mbind at 1, act_bind at 1. rewrite Er.
  set (s1 := answered_session _ _ _) in *. unfold mbind at 1, act_bind at 1, modify at 1. cbn [fold_left].
  rewrite send_next_idle; [|cbn; by rewrite I2]. eexists. split; [reflexivity|]. by split_and!.
Qed.

(** C14: A well-formed request that arrives alone is answered within the turn: the session
    sends exactly the response of [process_rtsp_request] for the channel the target
    names, takes over its session state, keeps no input, and stays connected unless
    the answer closes the session. *)
Theorem turn_answers_request {T} `{!Transport T} `{!Reliable T} cfg sets ev request (s : Sess (T := T)) :
  ev_read ev = ReadData request -> ev_frames ev = [] -> se_input s = [] -> q_frames (m_queue (se_media s)) = [] ->
  rtsp_message_ok (session_limits cfg) request -> zlen request <= u64 (max_header cfg + max_body cfg) ->
  let out := answer cfg sets (ev_random ev 0%nat) request (se_control s) in
  exists s', session_turn cfg sets ev s = Some (Ok true, s') /\
    c_sent (se_conn s') = c_sent (se_conn s) ++ response out.1 /\ se_control s' = out.2 /\ se_input s' = [] /\
    se_connected s' = (se_connected s && negb (close_session out.1)) /\
    m_playing (se_media s') = (m_playing (se_media s) || start_play out.1).
Proof.
  intros Hev Hfr Hin Hq Hm Hz out. destruct (turn_answers cfg sets ev request s Hev Hfr Hin Hq Hm Hz) as (s' & H1 & H2 & H3 & H4 & _ & H5 & H6).
  by exists s'.
Qed.

Lemma demo_setup_ok : rtsp_message_ok (session_limits demo_config) demo_setup.
Proof.
  split; [reflexivity|]. exists (take (length demo_setup - 4) demo_setup), [].
  split_and!; [reflexivity|vm_compute; reflexivity|vm_compute; congruence|vm_compute; reflexivity|vm_compute; congruence].
Qed.

Lemma turn_answers_request_witness :
  exists s', session_turn demo_config demo_sets (turn (ReadData demo_setup) []).2 (new_session demo_media two_bytes) =
    Some (Ok true, s') /\ phase (se_control s') = Ready /\ session_id (se_control s') = $"0000000100000002".
Proof.
  destruct (turn_answers_request demo_config demo_sets (turn (ReadData demo_setup) []).2 demo_setup
              (new_session demo_media two_bytes)) as (s' & H1 & _ & H3 & _); try reflexivity.
  - apply demo_setup_ok.
  - vm_compute. congruence.
  - exists s'. split; [exact H1|]. rewrite H3. split; vm_compute; reflexivity.
Defined.

Definition demo_teardown : bytes :=
  $"TEARDOWN rtsp://10.0.0.2:8554/ch1 RTSP/1.0" ++ CRLF ++ $"CSeq: 5" ++ CRLF ++ $"Session: 0000000100000002" ++ CRLFCRLF.

(** The answer to a TEARDOWN that presents the session's id. *)
Lemma teardown_answered cfg sets rnd request ch control :
  find_channel (channels cfg) (parse_public_channel_id (extract_request_target request)) = Some ch ->
  0 <= lc_channel_id ch -> cseq_from_message request <> [] -> rtsp_method_from_request request = $"TEARDOWN" ->
  valid_session_header (session_of request) (session_id control) = true ->
  answer cfg sets rnd request control =
    ({| response := make_response 200 (cseq_from_message request) [$"Session: " ++ session_id control] [];
        start_play := false; close_session := true |}, with_phase Closed control).
Proof.
  intros Hch Hc Hcs Hm Hv. unfold answer. rewrite Hch. apply find_channel_Some in Hch as [_ Hid]. unfold process_rtsp_request.
  assert (is_empty (cseq_from_message request) = false) as -> by by destruct (cseq_from_message request).
  rewrite Hm, Hid, Z.eqb_refl. replace (_ <? 0) with false by lia.
  repeat match goal with |- context [str_eqb (lit ?a) (lit ?b)] =>
    let v := eval vm_compute in (str_eqb (lit a) (lit b)) in change (str_eqb (lit a) (lit b)) with v end.
  cbn [orb negb]. by rewrite Hv.
Qed.

(** The frame at the head of the queue of a playing client is sent. *)
Lemma send_next_frame {T} `{!Transport T} `{!Reliable T} cfg sets steady system f fs (s : Sess (T := T)) ts m1 :
  let m := se_media s in
  m_playing m = true -> q_frames (m_queue m) = f :: fs -> media_ok m -> 15 < rtp_mtu cfg <= 65535 ->
  m_waiting_for_keyframe m = false \/ f_key_frame f = true ->
  Forall (nal_ok (f_codec f)) (frame_nals sets f m) -> frame_timestamp f (stop_waiting m) = Some (ts, m1) ->
  exists packets wires report s', send_next cfg sets steady system s = Some (Ok true, s') /\
    c_sent (se_conn s') = c_sent (se_conn s) ++ concat wires ++ report /\
    Forall2 (fun p w => interleaved (rtp_channel (se_control s)) (packet_bytes p) = Ok w) packets wires /\
    depayload (f_codec f) [] (rtp_payload <$> packets) = frame_nals sets f m /\
    se_control s' = se_control s /\ se_connected s' = se_connected s.
Proof.
  intros m Hp Hq Hm Hmtu Hwait Hn Hts. unfold send_next. unfold mbind at 1, act_bind at 1, get at 1. fold m. rewrite Hp.
  unfold try_pop. rewrite Hq. unfold mbind at 1, act_bind at 1, modify at 1. set (q := with_frames _ _ _ _).
  set (s1 := set_media (set_queue q m) s).
  assert (exists m2, frame_timestamp f (stop_waiting (se_media s1)) = Some (ts, m2)) as [m2 Hts2].
  { revert Hts. unfold frame_timestamp. cbn. repeat case_match; try done; intros [= <- _]; by eexists. }
  destruct (send_frame_exact (rtp_mtu cfg) sets steady system f s1 ts m2 ltac:(by destruct Hm) Hmtu Hwait Hn Hts2)
    as (packets & wires & report & s' & _ & Hs & Hsent & Hw & Hd & _).
  pose proof (send_frame_client (rtp_mtu cfg) sets steady system f s1) as Hk. unfold wlp in Hk. rewrite Hs in Hk. destruct Hk as (K1 & K2 & _).
  exists packets, wires, report, s'. unfold mbind at 1, act_bind at 1. cbv beta.
  match goal with |- context [send_frame _ _ _ _ _ ?x] => change x with s1 end. rewrite Hs. by split_and!.
Qed.

(** C40: TEARDOWN does not stop the delivery at once.  When a playing session with a
    queued frame reads a TEARDOWN that presents its id, the turn answers it with success,
    closes the session, and then still sends the packets of the queued frame: the peer
    gets the NAL units of that frame after the response that ended the session. *)
Theorem frame_after_teardown {T} `{!Transport T} `{!Reliable T} cfg sets ev request ch f fs (s : Sess (T := T)) ts m1 :
  let m := se_media s in
  ev_read ev = ReadData request -> ev_frames ev = [] -> se_input s = [] ->
  rtsp_message_ok (session_limits cfg) request -> zlen request <= u64 (max_header cfg + max_body cfg) ->
  find_channel (channels cfg) (parse_public_channel_id (extract_request_target request)) = Some ch -> 0 <= lc_channel_id ch ->
  cseq_from_message request <> [] -> rtsp_method_from_request request = $"TEARDOWN" ->
  valid_session_header (session_of request) (session_id (se_control s)) = true ->
  m_playing m = true -> q_frames (m_queue m) = f :: fs -> media_ok m -> 15 < rtp_mtu cfg <= 65535 ->
  m_waiting_for_keyframe m = false \/ f_key_frame f = true ->
  Forall (nal_ok (f_codec f)) (frame_nals sets f m) -> frame_timestamp f (stop_waiting m) = Some (ts, m1) ->
  exists packets wires report s',
    session_turn cfg sets ev s = Some (Ok true, s') /\ phase (se_control s') = Closed /\ se_connected s' = false /\
    c_sent (se_conn s') = c_sent (se_conn s) ++
      make_response 200 (cseq_from_message request) [$"Session: " ++ session_id (se_control s)] [] ++ concat wires ++ report /\
    Forall2 (fun p w => interleaved (rtp_channel (se_control s)) (packet_bytes p) = Ok w) packets wires /\
    depayload (f_codec f) [] (rtp_payload <$> packets) = frame_nals sets f m.
Proof.
  intros m Hev Hfr Hin Hmsg Hz Hch Hc Hcs Hmt Hv Hp Hq Hm Hmtu Hwait Hn Hts.
  destruct (read_answers cfg sets (ev_random ev) request s Hin Hmsg Hz) as [t Er].
  rewrite (teardown_answered cfg sets _ request ch (se_control s)) in Er by done. set (s1 := answered_session _ _ _) in Er.
  destruct (send_next_frame cfg sets (ev_steady ev) (ev_system ev) f fs s1 ts m1) as (packets & wires & report & s' & Es & Hsent & Hw & Hd & Hctl & Hcon);
    try done.
  exists packets, wires, report, s'. unfold session_turn. rewrite Hev, Hfr. unfold mbind at 1, act_bind at 1. rewrite Er.
  unfold mbind at 1, act_bind at 1, modify at 1. cbn [fold_left].
  assert (set_media (se_media s1) s1 = s1) as -> by by destruct s1.
  split_and!; [done|by rewrite Hctl|by rewrite Hcon| |done|done]. rewrite Hsent. cbn. by rewrite <- app_assoc.
Qed.

(** A playing session with a key frame in its queue. *)
Definition teardown_session : Sess (T := TwoBytes) :=
  set_media (set_queue (snd (push (m_queue demo_media) (Some (demo_frame true 40000000)))) (set_playing 1 true true demo_media)) demo_session.

Lemma demo_teardown_ok : rtsp_message_ok (session_limits demo_config) demo_teardown.
Proof.
  split; [reflexivity|]. exists (take (length demo_teardown - 4) demo_teardown), [].
  split_and!; [reflexivity|vm_compute; reflexivity|vm_compute; congruence|vm_compute; reflexivity|vm_compute; congruence].
Qed.

Lemma frame_after_teardown_witness :
  exists packets wires report s',
    session_turn demo_config demo_sets (turn (ReadData demo_teardown) []).2 teardown_session = Some (Ok true, s') /\
    phase (se_control s') = Closed /\
    c_sent (se_conn s') = make_response 200 $"5" [$"Session: 0000000100000002"] [] ++ concat wires ++ report /\
    depayload H264 [] (rtp_payload <$> packets) = [[103; 66]; [104; 206]; [101; 136]].
Proof.
  destruct (frame_after_teardown demo_config demo_sets (turn (ReadData demo_teardown) []).2 demo_teardown {| lc_channel_id := 1; lc_codec := H264 |}
    (demo_frame true 40000000) [] teardown_session 1000
    (set_clock 40000000 1000 (stop_waiting (se_media teardown_session)))) as (packets & wires & report & s' & H1 & H2 & _ & H4 & _ & H6).
  1-3, 6-12: reflexivity || (vm_compute; discriminate).
  - apply demo_teardown_ok.
  - vm_compute. discriminate.
  - constructor; cbn; lia.
  - cbn. lia.
  - right. reflexivity.
  - repeat (apply Forall_cons; split); [..|apply Forall_nil; exact I];
      (split; [repeat (constructor; [unfold byte_ok; lia|]); constructor|discriminate]).
  - reflexivity.
  - exists packets, wires, report, s'. split_and!; [exact H1|exact H2|exact H4|exact H6].
Defined.
