(* ===== verification/TestClient.v ===== *)
(** * The test client (tools/test_rtsps_client.cpp)

    The client that ships with the server: its URL, its requests, the reader of responses,
    the four requests it makes and the loop that counts interleaved packets.  The other
    end is the argument [exchange]: what it answers to the bytes written, cut into what
    single calls of [SSL_read] return.  At the end the client is put together with a
    session of the server. *)

From S2P Require Import Prelude CStr Parser Rtp FrameQueue Control LiveServer Session.

(** ** URLs *)

Record RtspUrl := { u_host : bytes; u_port : Z; u_path : bytes; u_base : bytes }.

Definition parse_rtsps_url (url : bytes) : result RtspUrl :=
  let scheme := $"rtsps://" in
  if negb (is_prefix scheme url) then Throw $"URL must start with rtsps://"
  else
    match str_find url $"/" (length scheme) with
    | None => Throw $"URL must include path, for example /ch1"
    | Some path_start =>
      let host_port := substr url (length scheme) (path_start - length scheme) in
      let path := substr_from url path_start in
      '(host, port) ← (match find_last_if (Z.eqb 58) host_port with
                       | None => Ok (host_port, 8554)
                       | Some colon =>
                         '(port, _) ← stoi (substr_from host_port (colon + 1));
                         Ok (substr host_port 0 colon, port)
                       end);
      if is_empty host || is_empty path then Throw $"invalid rtsps URL"
      else Ok {| u_host := host; u_port := port; u_path := path; u_base := url |}
    end.

(** ** The connection *)

Inductive Handshake := HsDone | HsWant | HsFails.

(** What the system answers: the error text of [getaddrinfo] or, for each address, the
    descriptor of [socket] and whether [connect] succeeds; whether OpenSSL makes a context
    and a connection; the results of the calls of [SSL_connect]. *)
Record ConnectOs := {
  co_addresses : bytes + list (Z * bool); co_ctx_new : bool; co_ssl_new : bool; co_handshake : list Handshake
}.

(** The loop over the addresses, with the descriptors it closes. *)
Fixpoint connect_addresses (addresses : list (Z * bool)) : Z * list Z :=
  match addresses with
  | [] => (-1, [])
  | (fd, connects) :: rest =>
    if fd <? 0 then connect_addresses rest
    else if connects then (fd, [])
    else let '(found, closed) := connect_addresses rest in (found, fd :: closed)
  end.

Definition connect_tcp (addresses : bytes + list (Z * bool)) : result Z * list Z :=
  match addresses with
  | inl error => (Throw ($"getaddrinfo failed: " ++ error), [])
  | inr addresses =>
    let '(fd, closed) := connect_addresses addresses in
    (if fd <? 0 then Throw $"connect failed" else Ok fd, closed)
  end.

(** The loop of [SSL_connect]; [None] when [select] waits for ever. *)
Fixpoint handshake_loop (calls : list Handshake) : option (result unit) :=
  match calls with
  | [] => None
  | HsDone :: _ => Some (Ok tt)
  | HsWant :: rest => handshake_loop rest
  | HsFails :: _ => Some (Throw $"SSL_connect failed")
  end.

(** From the context to the end of the handshake: the descriptor of the connection, and
    the descriptors closed. *)
Definition client_connect (os : ConnectOs) : option (result Z * list Z) :=
  if negb (co_ctx_new os) then Some (Throw $"SSL_CTX_new failed", [])
  else
    match connect_tcp (co_addresses os) with
    | (Throw w, closed) => Some (Throw w, closed)
    | (Ok fd, closed) =>
      if negb (co_ssl_new os) then Some (Throw $"SSL_new failed", closed ++ [fd])
      else
        match handshake_loop (co_handshake os) with
        | None => None
        | Some (Throw w) => Some (Throw w, closed)
        | Some (Ok _) => Some (Ok fd, closed)
        end
    end.

(** ** Responses *)

Record Response := { r_status : Z; r_header : bytes; r_body : bytes }.

Fixpoint client_length_in (lines : list bytes) : result Z :=
  match lines with
  | [] => Ok 0
  | line :: rest =>
    if starts_with_ci line $"Content-Length:" then
      '(value, _) ← stoi (substr_from line (length $"Content-Length:")); Ok (Z.max 0 value)
    else client_length_in rest
  end.

Definition client_content_length (header : bytes) : result Z := client_length_in (terminated_lines header).

Definition find_session_in : list bytes -> bytes :=
  fix go lines :=
    match lines with
    | [] => []
    | line :: rest =>
      if starts_with_ci line $"Session:" then
        let value := substr_from line (length $"Session:") in
        match find_first_not_of value [32; 9] with
        | None => []
        | Some first =>
          let value := substr_from value first in
          match find0 $";" value with
          | Some semicolon => take semicolon value
          | None => value
          end
        end
      else go rest
    end.

Definition find_session (header : bytes) : bytes := find_session_in (terminated_lines header).

(** The lines [std::getline] reads, without a carriage return at the end. *)
Fixpoint getlines (cur s : bytes) : list bytes :=
  match s with
  | [] => if is_empty cur then [] else [cur]
  | c :: s' => if c =? 10 then cur :: getlines [] s' else getlines (cur ++ [c]) s'
  end.

Definition chop_cr (line : bytes) : bytes :=
  match last line with
  | Some c => if c =? 13 then take (length line - 1) line else line
  | None => line
  end.

Fixpoint media_control_in (lines : list bytes) (in_video : bool) (session_control : bytes) : bytes :=
  match lines with
  | [] => session_control
  | line :: rest =>
    let line := chop_cr line in
    if is_prefix $"m=" line then media_control_in rest (is_prefix $"m=video" line) session_control
    else if is_prefix $"a=control:" line then
      let control := substr_from line (length $"a=control:") in
      if in_video && negb (str_eqb control $"*") then control
      else if negb in_video && is_empty session_control && negb (str_eqb control $"*")
           then media_control_in rest in_video control
           else media_control_in rest in_video session_control
    else media_control_in rest in_video session_control
  end.

Definition find_first_media_control (sdp : bytes) : bytes := media_control_in (getlines [] sdp) false [].

(** [base.back()] is a character: a base is a parsed URL. *)
Definition make_control_url (base control : bytes) : bytes :=
  if is_empty control || str_eqb control $"*" then base
  else
    let l := lower_copy control in
    if is_prefix $"rtsp://" l || is_prefix $"rtsps://" l then control
    else if match last base with Some c => c =? 47 | None => false end || is_prefix $"/" control then base ++ control
    else base ++ $"/" ++ control.

Definition make_request (method url : bytes) (cseq : Z) (headers : list bytes) : bytes :=
  method ++ $" " ++ url ++ $" RTSP/1.0" ++ CRLF ++
  $"CSeq: " ++ to_string cseq ++ CRLF ++
  $"User-Agent: rpi-rtsps-test-client/1.0" ++ CRLF ++
  concat ((fun h => h ++ CRLF) <$> headers) ++
  CRLF.

(** ** Reading *)

Inductive Progress := RtpFirst | NeedMore | Complete (r : Response) (rest : bytes).

(** One look at the buffer. *)
Definition response_step (buffer : bytes) : result Progress :=
  if is_prefix $"$" buffer then Ok RtpFirst
  else
    match find0 CRLFCRLF buffer with
    | None => Ok NeedMore
    | Some header_end =>
      let header := substr buffer 0 (header_end + 4) in
      body_len ← client_content_length header;
      let total := (header_end + 4 + Z.to_nat body_len)%nat in
      if (total <=? length buffer)%nat then
        let '(version, iss) := read_word (Some header) [] in
        let '(status, iss) := read_int iss 0 in
        Ok (Complete {| r_status := status; r_header := header;
                        r_body := substr buffer (header_end + 4) (Z.to_nat body_len) |} (substr_from buffer total))
      else Ok NeedMore
    end.

(** The loop of [read_one_rtsp_response]; an empty read is an [SSL_read] that failed. *)
Fixpoint response_loop (reads : list bytes) (buffer : bytes) : result (option Response) * list bytes * bytes :=
  match response_step buffer with
  | Throw w => (Throw w, reads, buffer)
  | Ok RtpFirst => (Ok None, reads, buffer)
  | Ok (Complete r rest) => (Ok (Some r), reads, rest)
  | Ok NeedMore =>
    match reads with
    | [] => (Throw $"SSL_read failed while waiting RTSP response", [], buffer)
    | chunk :: reads' =>
      if is_empty chunk then (Throw $"SSL_read failed while waiting RTSP response", reads', buffer)
      else response_loop reads' (buffer ++ chunk)
    end
  end.

Section Client.
Context {S : Type} (exchange : bytes -> S -> option (list bytes * S)).

(** [c_reads] is what [SSL_read] will return, [c_peer] the other end. *)
Record Client := { c_buffer : bytes; c_reads : list bytes; c_peer : S }.

(** The peer gets the whole request, or [SSL_write] fails. *)
Definition client_write (data : bytes) : act Client unit := fun c =>
  match exchange data (c_peer c) with
  | Some (reads, peer) => Some (Ok tt, {| c_buffer := c_buffer c; c_reads := c_reads c ++ reads; c_peer := peer |})
  | None => Some (Throw $"SSL_write failed", c)
  end.

Definition read_one_rtsp_response : act Client (option Response) := fun c =>
  let '(r, reads, buffer) := response_loop (c_reads c) (c_buffer c) in
  Some (r, {| c_buffer := buffer; c_reads := reads; c_peer := c_peer c |}).

Definition send_request (label request : bytes) : act Client Response :=
  _ ← client_write request;
  res ← read_one_rtsp_response;
  match res with
  | None => throw ($"unexpected RTP data while waiting for " ++ label)
  | Some res =>
    if (r_status res <? 200) || (r_status res >=? 300) then throw (label ++ $" failed") else mret res
  end.

(** The requests of [main], up to the session that plays. *)
Definition client_session (base : bytes) : act Client bytes :=
  _ ← send_request $"OPTIONS" (make_request $"OPTIONS" base 1 []);
  describe ← send_request $"DESCRIBE" (make_request $"DESCRIBE" base 2 [$"Accept: application/sdp"]);
  let setup_url := make_control_url base (find_first_media_control (r_body describe)) in
  setup ← send_request $"SETUP" (make_request $"SETUP" setup_url 3 [$"Transport: RTP/AVP/TCP;unicast;interleaved=0-1"]);
  let session := find_session (r_header setup) in
  if is_empty session then throw $"SETUP response has no Session header"
  else
    _ ← send_request $"PLAY" (make_request $"PLAY" base 4 [$"Session: " ++ session]);
    mret session.

End Client.

(** ** Counting packets *)

Record RtpCount := { rc_packets : Z; rc_bytes : Z; rc_messages : Z; rc_dump : bytes }.

Definition count_zero : RtpCount := {| rc_packets := 0; rc_bytes := 0; rc_messages := 0; rc_dump := [] |}.

(** One turn of the inner loop; [None] for its [break].  [dump] says whether a dump file is open. *)
Definition count_step (dump : bool) (buffer : bytes) (n : RtpCount) : result (option (bytes * RtpCount)) :=
  if (4 <=? length buffer)%nat && is_prefix $"$" buffer then
    let len := interleaved_len buffer in
    let total := (4 + Z.to_nat len)%nat in
    if (length buffer <? total)%nat then Ok None
    else Ok (Some (substr_from buffer total,
                   {| rc_packets := u64 (rc_packets n + 1); rc_bytes := u64 (rc_bytes n + len); rc_messages := rc_messages n;
                      rc_dump := if dump then rc_dump n ++ take total buffer else rc_dump n |}))
  else
    match find0 CRLFCRLF buffer with
    | None => Ok None
    | Some header_end =>
      body_len ← client_content_length (substr buffer 0 (header_end + 4));
      let total := (header_end + 4 + Z.to_nat body_len)%nat in
      if (length buffer <? total)%nat then Ok None
      else Ok (Some (substr_from buffer total,
                     {| rc_packets := rc_packets n; rc_bytes := rc_bytes n; rc_messages := u64 (rc_messages n + 1);
                        rc_dump := rc_dump n |}))
    end.

(** Each turn takes at least four bytes. *)
Fixpoint count_loop (fuel : nat) (dump : bool) (buffer : bytes) (n : RtpCount) : result (bytes * RtpCount) :=
  match fuel with
  | O => Ok (buffer, n)
  | S f =>
    r ← count_step dump buffer n;
    match r with
    | None => Ok (buffer, n)
    | Some (buffer, n) => count_loop f dump buffer n
    end
  end.

Definition count_buffer (dump : bool) (buffer : bytes) (n : RtpCount) : result (bytes * RtpCount) :=
  count_loop (S (length buffer)) dump buffer n.

(** What [select] and [SSL_read] bring before the deadline. *)
Inductive CountEvent := SelectFails | NothingYet | WantIo | ReadError | ReadBytes (data : bytes).

(** The loop of [count_rtp_packets]; the list of events ends at the deadline. *)
Fixpoint count_rtp_packets (dump : bool) (events : list CountEvent) (buffer : bytes) (n : RtpCount) : result (bytes * RtpCount) :=
  match events with
  | [] => Ok (buffer, n)
  | ev :: rest =>
    '(buffer, n) ← count_buffer dump buffer n;
    match ev with
    | SelectFails => Throw $"select failed while receiving RTP"
    | NothingYet | WantIo => count_rtp_packets dump rest buffer n
    | ReadError => Throw $"SSL_read failed while receiving RTP"
    | ReadBytes data => count_rtp_packets dump rest (buffer ++ data) n
    end
  end.

Section ClientMain.
Context {S : Type} (exchange : bytes -> S -> option (list bytes * S)).

(** The [try] block of [main]: [dump_opens] says whether the dump file can be opened; the
    reads that are left come before [events]. *)
Definition client_body (url_text dump_path : bytes) (os : ConnectOs) (dump_opens : bool) (events : list CountEvent)
    : act (Client (S := S)) RtpCount :=
  url ← lift (parse_rtsps_url url_text);
  connection ← defined (client_connect os);
  _ ← lift connection.1;
  session ← client_session exchange (u_base url);
  c ← get;
  let dump := negb (is_empty dump_path) in
  if dump && negb dump_opens then throw ($"failed to open dump file: " ++ dump_path)
  else
    '(buffer, n) ← lift (count_rtp_packets dump ((ReadBytes <$> c_reads c) ++ events) (c_buffer c) count_zero);
    _ ← modify (fun c => {| c_buffer := buffer; c_reads := []; c_peer := c_peer c |});
    _ ← client_write exchange (make_request $"TEARDOWN" (u_base url) 5 [$"Session: " ++ session]);
    mret n.

(** [catch (const std::exception&)]: the exit code. *)
Definition exit_code {A} (body : act (Client (S := S)) A) : act (Client (S := S)) Z := fun c =>
  match body c with
  | Some (Ok _, c) => Some (Ok 0, c)
  | Some (Throw _, c) => Some (Ok 1, c)
  | None => None
  end.

(** No outcome when the number of seconds cannot be read: that exception is not caught. *)
Definition client_main (args : list bytes) (os : ConnectOs) (dump_opens : bool) (events : list CountEvent)
    : act (Client (S := S)) Z :=
  if (length args <? 1)%nat || (3 <? length args)%nat then mret 1
  else
    _ ← defined (match args !! 1%nat with
                 | Some seconds => match stoi seconds with Ok _ => Some tt | Throw _ => None end
                 | None => Some tt
                 end);
    exit_code (client_body (default [] (args !! 0%nat)) (default [] (args !! 2%nat)) os dump_opens events).
End ClientMain.

(** ** Facts: the connection *)

(** Every socket made is closed, but for the one that connects. *)
Lemma connect_addresses_closes addresses fd closed :
  connect_addresses addresses = (fd, closed) ->
  exists rest, filter (fun a => (0 <=? a.1) = true) addresses = ((fun d => (d, false)) <$> closed) ++ rest /\
    (0 <= fd /\ head rest = Some (fd, true) \/ fd = -1 /\ rest = []).
Proof.
  revert fd closed. induction addresses as [|[d connects] addresses IH]; intros fd closed; cbn [connect_addresses].
  - intros [= <- <-]. exists []. auto.
  - rewrite filter_cons. cbn [fst]. destruct (Z.ltb_spec d 0).
    { rewrite decide_False by lia. apply IH. }
    rewrite decide_True by lia. destruct connects.
    { intros [= <- <-]. by eexists; split; [|left]. }
    destruct (connect_addresses addresses) as [found closed']. intros [= <- <-].
    destruct (IH _ _ eq_refl) as (rest & -> & Hr). by exists rest.
Qed.

(** ** Facts: the reader *)

Lemma trim_is_space c : is_trim c = true -> is_space c = true.
Proof. unfold is_trim, mem, trim_set, is_space. cbn. intros H. bprop. zcase; cbn; try done; lia. Qed.

(** [std::stoi] of a number with white space around it. *)
Lemma stoi_trimmed value :
  trim_copy value <> [] -> forallb is_digit (trim_copy value) = true ->
  match stoi (trim_copy value), stoi value with
  | Ok (v, _), Ok (w, _) => v = w
  | Throw _, Throw _ => True
  | _, _ => False
  end.
Proof.
  intros Hne Hd. destruct (trim_copy_spec value) as [[_ ?]|(a & b & Hv & Ha & Hb & _)]; [done|].
  set (t := trim_copy value) in *. rewrite forallb_forall in Hd.
  assert (Forall (fun c => is_digit c = true) t) as Ht by (apply Forall_forall; intros x Hx; apply Hd; by apply list_elem_of_In).
  rewrite stoi_digits by done. unfold stoi. rewrite Hv. unfold scan_integer.
  rewrite span_app; [|eapply Forall_impl; [exact Ha|]; apply trim_is_space|].
  2: { intros c r E. destruct t as [|d t']; [done|]. injection E as <- _. apply Forall_cons in Ht as [Hd0 _]. by apply digit_not_space. }
  destruct t as [|d t']; [done|]. pose proof Ht as [Hd0 _]%Forall_cons. cbn [app take_sign].
  replace (d =? 45) with false by (unfold is_digit in Hd0; bprop; lia). replace (d =? 43) with false by (unfold is_digit in Hd0; bprop; lia).
  change (d :: t' ++ b) with ((d :: t') ++ b). rewrite span_app; [|done|].
  2: { intros c r ->. apply Forall_cons in Hb as [Hc%trim_is_space _]. unfold is_space, is_digit in *. bprop. zcase; cbn; try done; lia. }
  cbn [is_empty]. by destruct (in_i32 _).
Qed.

(** What the server's parser takes for the length of a body the client does too. *)
Lemma client_length lines :
  0 <= content_length_in lines -> client_length_in lines = Ok (content_length_in lines).
Proof.
  induction lines as [|line lines IH]; cbn [content_length_in client_length_in]; [done|].
  destruct (starts_with_ci line _); cbn [negb]; [|exact IH].
  set (value := substr_from line _). destruct (_ || _) eqn:E; [lia|]. apply orb_false_iff in E as [E1 E2%negb_false_iff].
  pose proof (stoi_trimmed value ltac:(by intros E; rewrite E in E1) E2) as Hs.
  destruct (stoi (trim_copy value)) as [[v ?]|], (stoi value) as [[w ?]|]; try done. subst w.
  intros Hv. cbn. f_equal. lia.
Qed.

(** The lines of a header that ends with a line break are all terminated. *)
Lemma lines_loop_terminated f s :
  (exists h, s = h ++ CRLF) -> (length s < f)%nat -> lines_loop true f s = lines_loop false f s.
Proof.
  revert s. induction f as [|f IH]; intros s [h ->] Hf; [done|]. cbn [lines_loop].
  destruct (is_empty (h ++ CRLF)) eqn:Ee; [done|]. destruct (find0 CRLF (h ++ CRLF)) as [e|] eqn:E.
  2: { apply (find0_None _ _ (length h)) in E. rewrite drop_app_length in E. done. }
  f_equal. pose proof (find0_bound _ _ _ E) as Hb. apply find0_Some in E as (_ & [t Hp]%is_prefix_true & _).
  rewrite length_app in Hb, Hf. change (length CRLF) with 2%nat in *.
  destruct (decide (e = length h)) as [->|Hne].
  { assert (length (drop (length h + 2) (h ++ CRLF)) = 0%nat) as ->%nil_length_inv; [|by destruct f].
    rewrite length_drop, length_app. change (length CRLF) with 2%nat. lia. }
  destruct (decide (e + 1 = length h)%nat) as [He|He].
  { exfalso. assert ((h ++ CRLF) !! (e + 1)%nat = Some 10) as H10.
    { rewrite <- (lookup_drop (h ++ CRLF) e 1), Hp. done. }
    rewrite lookup_app_r in H10 by lia. replace (e + 1 - length h)%nat with 0%nat in H10 by lia. done. }
  rewrite drop_app_le by lia. apply IH; [by eexists|]. rewrite length_app, length_drop. change (length CRLF) with 2%nat. lia.
Qed.

Lemma client_content_length_ok head (body : bytes) :
  content_length_from_header (head ++ CRLFCRLF) = zlen body -> client_content_length (head ++ CRLFCRLF) = Ok (zlen body).
Proof.
  intros Hl. unfold client_content_length, content_length_from_header, terminated_lines, split_lines_keep_empty in *.
  rewrite lines_loop_terminated in Hl; [|by exists (head ++ CRLF); rewrite <- app_assoc|lia].
  rewrite client_length; rewrite Hl; [done|apply zlen_nonneg].
Qed.

(** The response a message is. *)
Definition response_of (m : bytes) : Response :=
  let header := message_header_part m in
  {| r_status := fst (read_int (snd (read_word (Some header) [])) 0); r_header := header; r_body := drop (length header) m |}.

(** A look at a buffer that begins with a message, or with a part of one. *)
Lemma response_step_message lim m rest :
  rtsp_message_ok lim m -> response_step (m ++ rest) = Ok (Complete (response_of m) rest).
Proof.
  intros Hm. pose proof (request_not_dollar lim m Hm) as Hd. destruct Hm as [_ (head & body & Em & Hf & _ & Hl & _)].
  pose proof (client_content_length_ok head body Hl) as Hc. unfold response_step.
  assert (is_prefix $"$" (m ++ rest) = false) as ->.
  { destruct m as [|b m]; [by destruct head|]. change $"$" with [36] in *. exact Hd. }
  rewrite (find0_app _ _ rest _ Hf). unfold response_of, message_header_part. rewrite Hf.
  assert (substr m 0 (length head + 4) = head ++ CRLFCRLF) as Eh.
  { rewrite Em, app_assoc. unfold substr. rewrite drop_0. apply take_app_length'. rewrite length_app. done. }
  assert (substr (m ++ rest) 0 (length head + 4) = head ++ CRLFCRLF) as ->.
  { rewrite <- Eh. unfold substr. rewrite !drop_0. apply take_app_le. rewrite Em, !length_app. cbn. lia. }
  rewrite Hc, Eh. cbn [mbind result_bind]. unfold zlen. rewrite Nat2Z.id.
  assert (length head + 4 + length body = length m)%nat as -> by (rewrite Em, !length_app; cbn; lia).
  replace (length m <=? length (m ++ rest))%nat with true by (symmetry; apply Nat.leb_le; rewrite length_app; lia).
  destruct (read_word _ _) as [version iss]. cbn [snd]. destruct (read_int iss 0) as [status iss']. cbn [fst].
  assert (substr (m ++ rest) (length head + 4) (length body) = drop (length (head ++ CRLFCRLF)) m) as ->.
  { rewrite Em, app_assoc, <- app_assoc. unfold substr. replace (length head + 4)%nat with (length (head ++ CRLFCRLF)) by (rewrite length_app; done).
    rewrite !drop_app_length. by apply take_app_length. }
  unfold substr_from. by rewrite drop_app_length.
Qed.

Lemma response_step_partial lim m p q :
  rtsp_message_ok lim m -> m = p ++ q -> q <> [] -> response_step p = Ok NeedMore.
Proof.
  intros Hm E Hq. pose proof (request_not_dollar lim m Hm) as Hd. destruct Hm as [_ (head & body & Em & Hf & _ & Hl & _)].
  pose proof (client_content_length_ok head body Hl) as Hc. unfold response_step.
  assert (is_prefix $"$" p = false) as ->.
  { rewrite E in Hd. destruct p as [|b p]; [done|]. exact Hd. }
  destruct (find0 CRLFCRLF p) as [i|] eqn:Ei; [|done].
  pose proof (find0_app _ _ q _ Ei) as Ei'. rewrite <- E, Hf in Ei'. injection Ei' as <-.
  pose proof (find0_bound _ _ _ Ei) as Hb. change (length CRLFCRLF) with 4%nat in Hb.
  assert (substr p 0 (length head + 4) = head ++ CRLFCRLF) as ->.
  { unfold substr. rewrite drop_0, <- (take_app_le p q) by lia. rewrite <- E, Em, app_assoc. apply take_app_length'. rewrite length_app. done. }
  rewrite Hc. cbn [mbind result_bind]. unfold zlen. rewrite Nat2Z.id.
  replace (_ <=? _)%nat with false; [done|]. symmetry. apply Nat.leb_gt.
  assert (length m = length p + length q)%nat as H1 by (by rewrite E, length_app).
  rewrite Em, !length_app in H1. change (length CRLFCRLF) with 4%nat in H1. destruct q; [done|]. cbn in H1. lia.
Qed.

(** However a response is cut into reads, the client gets it. *)
Lemma response_loop_message lim m reads buffer :
  rtsp_message_ok lim m -> Forall (fun c => c <> []) reads -> buffer ++ concat reads = m ->
  response_loop reads buffer = (Ok (Some (response_of m)), [], []).
Proof.
  intros Hm Hr. revert buffer. induction Hr as [|chunk reads Hc Hr IH]; intros buffer E; cbn [response_loop concat] in *.
  - rewrite app_nil_r in E. subst buffer. rewrite <- (app_nil_r m) at 1. by rewrite (response_step_message lim).
  - rewrite (response_step_partial lim m buffer (chunk ++ concat reads) Hm); [|done|by destruct chunk].
    assert (is_empty chunk = false) as -> by by destruct chunk. apply IH. by rewrite <- app_assoc.
Qed.

(** ** Facts: counting *)

(** What one message adds to the counts. *)
Definition tally (dump : bool) (n : RtpCount) (m : bytes) : RtpCount :=
  if is_prefix $"$" m
  then {| rc_packets := u64 (rc_packets n + 1); rc_bytes := u64 (rc_bytes n + (zlen m - 4)); rc_messages := rc_messages n;
          rc_dump := if dump then rc_dump n ++ m else rc_dump n |}
  else {| rc_packets := rc_packets n; rc_bytes := rc_bytes n; rc_messages := u64 (rc_messages n + 1); rc_dump := rc_dump n |}.

(** A message whose header is in the buffer as the client reads it. *)
Lemma header_in_buffer lim m p q i :
  rtsp_message_ok lim m -> m = p ++ q -> find0 CRLFCRLF p = Some i ->
  exists body : bytes, client_content_length (substr p 0 (i + 4)) = Ok (zlen body) /\ (i + 4 + length body = length m)%nat.
Proof.
  intros [_ (head & body & Em & Hf & _ & Hl & _)] E Ei.
  pose proof (find0_app _ _ q _ Ei) as Ei'. rewrite <- E, Hf in Ei'. injection Ei' as <-.
  pose proof (find0_bound _ _ _ Ei) as Hb. change (length CRLFCRLF) with 4%nat in Hb. exists body.
  assert (substr p 0 (length head + 4) = head ++ CRLFCRLF) as ->.
  { unfold substr. rewrite drop_0, <- (take_app_le p q) by lia. rewrite <- E, Em, app_assoc. apply take_app_length'. rewrite length_app. done. }
  split; [by apply client_content_length_ok|]. rewrite Em, !length_app. change (length CRLFCRLF) with 4%nat. lia.
Qed.

Lemma count_step_message lim dump m rest n :
  message_ok lim m -> count_step dump (m ++ rest) n = Ok (Some (rest, tally dump n m)).
Proof.
  intros [Hm|(ch & hi & lo & pl & -> & Hl)]; unfold count_step, tally.
  - pose proof (request_not_dollar lim m Hm) as Hd. rewrite Hd. pose proof Hm as [_ (head & body & Em & Hf & _)].
    assert (is_prefix $"$" (m ++ rest) = false) as -> by (destruct m as [|b m]; [by destruct head|exact Hd]).
    rewrite andb_false_r, (find0_app _ _ rest _ Hf).
    destruct (header_in_buffer lim m m [] (length head) Hm) as (body' & Hc & Hlen); [by rewrite app_nil_r|done|].
    assert (substr (m ++ rest) 0 (length head + 4) = substr m 0 (length head + 4)) as ->.
    { unfold substr. rewrite !drop_0. apply take_app_le. lia. }
    rewrite Hc. cbn [mbind result_bind]. unfold zlen. rewrite Nat2Z.id, Hlen.
    replace (_ <? _)%nat with false by (symmetry; apply Nat.ltb_ge; rewrite length_app; lia).
    unfold substr_from. by rewrite drop_app_length.
  - change (interleaved_len ((36 :: ch :: hi :: lo :: pl) ++ rest)) with (interleaved_len (36 :: ch :: hi :: lo :: pl)).
    rewrite Hl. change (is_prefix $"$" ((36 :: ch :: hi :: lo :: pl) ++ rest)) with true.
    change (is_prefix $"$" (36 :: ch :: hi :: lo :: pl)) with true.
    replace (4 <=? _)%nat with true by (symmetry; apply Nat.leb_le; cbn; lia). cbn [andb].
    unfold zlen at 1 2 3 4. rewrite !Nat2Z.id. set (m := 36 :: ch :: hi :: lo :: pl).
    assert (4 + length pl = length m)%nat as -> by done.
    replace (_ <? _)%nat with false by (symmetry; apply Nat.ltb_ge; rewrite length_app; lia).
    unfold substr_from. rewrite drop_app_length, take_app_length. do 4 f_equal. unfold m. rewrite !zlen_cons. unfold zlen. f_equal. lia.
Qed.

Lemma count_step_partial lim dump p q n : message_ok lim (p ++ q) -> q <> [] -> count_step dump p n = Ok None.
Proof.
  intros [Hm|(ch & hi & lo & pl & Hm & Hl)] Hq; unfold count_step.
  - pose proof (request_not_dollar lim _ Hm) as Hd.
    assert (is_prefix $"$" p = false) as -> by (by destruct p).
    rewrite andb_false_r. destruct (find0 CRLFCRLF p) as [i|] eqn:E; [|done].
    destruct (header_in_buffer lim (p ++ q) p q i Hm eq_refl E) as (body & -> & Hlen). cbn [mbind result_bind].
    unfold zlen. rewrite Nat2Z.id, Hlen, length_app. destruct q; [done|]. cbn [length].
    by replace (_ <? _)%nat with true by (symmetry; apply Nat.ltb_lt; lia).
  - destruct (4 <=? length p)%nat eqn:E4; cbn [andb].
    2: { apply Nat.leb_gt in E4. destruct (find0 CRLFCRLF p) as [i|] eqn:E; [|done].
         apply find0_bound in E. change (length CRLFCRLF) with 4%nat in E. lia. }
    destruct p as [|a [|b [|c [|d p]]]]; try done. injection Hm as -> -> -> -> Hm. change (is_prefix $"$" (36 :: ch :: hi :: lo :: p)) with true.
    change (interleaved_len (36 :: ch :: hi :: lo :: p)) with (interleaved_len ((36 :: ch :: hi :: lo :: p) ++ q)).
    rewrite Hl. unfold zlen. rewrite Nat2Z.id. rewrite <- Hm, length_app. destruct q; [done|]. cbn [length].
    by replace (_ <? _)%nat with true by (symmetry; apply Nat.ltb_lt; lia).
Qed.

Lemma count_loop_messages lim dump f ms rest p n :
  Forall (message_ok lim) (ms ++ rest) -> partial_of lim p rest -> (length ms < f)%nat ->
  count_loop f dump (concat ms ++ p) n = Ok (p, fold_left (tally dump) ms n).
Proof.
  revert ms n; induction f as [|f IH]; intros ms n Hok Hp Hf; [lia|]. cbn [count_loop].
  destruct ms as [|m ms]; cbn [concat app fold_left].
  - assert (count_step dump p n = Ok None) as ->; [|done].
    destruct Hp as [->|(m & q & ms' & -> & -> & Hq)]; [done|]. apply Forall_cons in Hok as [Hok _]. by eapply count_step_partial.
  - apply Forall_cons in Hok as [Hm Hok]. rewrite <- app_assoc, (count_step_message lim) by done. cbn [mbind result_bind].
    apply IH; [done|done|cbn in Hf; lia].
Qed.

(** The bytes that events bring. *)
Definition event_bytes (ev : CountEvent) : option bytes :=
  match ev with
  | ReadBytes data => Some data
  | NothingYet | WantIo => Some []
  | SelectFails | ReadError => None
  end.

Lemma count_messages lim dump events datas ms b n :
  Forall2 (fun ev data => event_bytes ev = Some data) events datas -> Forall (message_ok lim) ms -> b ++ concat datas = concat ms ->
  count_rtp_packets dump (events ++ [NothingYet]) b n = Ok ([], fold_left (tally dump) ms n).
Proof.
  intros He. revert ms b n. induction He as [|ev data events datas Hev He IH]; intros ms b n Hok E; cbn [app concat count_rtp_packets] in *.
  - rewrite app_nil_r in E. unfold count_buffer. rewrite E. pose proof (length_concat_messages lim ms Hok).
    rewrite <- (app_nil_r (concat ms)). rewrite (count_loop_messages lim dump _ ms [] []); [done|by rewrite app_nil_r|by left|].
    rewrite app_nil_r. lia.
  - rewrite app_assoc in E. pose proof E as E0. rewrite <- app_assoc in E0.
    destruct (cut_messages lim ms b (data ++ concat datas) Hok E0) as (d & r & p & -> & Hd & Hp).
    pose proof Hok as [Hokd Hokr]%Forall_app. pose proof (length_concat_messages lim d Hokd).
    unfold count_buffer. rewrite Hd, (count_loop_messages lim dump _ d r p); [|done|done|rewrite length_app; lia].
    cbn [mbind result_bind]. rewrite fold_left_app.
    assert (p ++ data ++ concat datas = concat r) as E1.
    { rewrite Hd, concat_app, <- !app_assoc in E. by apply app_inv_head in E. }
    destruct ev; cbn [event_bytes] in Hev; try done; injection Hev as <-.
    + by apply IH.
    + by apply IH.
    + apply IH; [done|]. by rewrite <- app_assoc.
Qed.

(** ** Facts: requests *)

Definition request_lines (method url : bytes) (cseq : Z) (headers : list bytes) : list bytes :=
  (method ++ $" " ++ url ++ $" RTSP/1.0") :: ($"CSeq: " ++ to_string cseq) :: $"User-Agent: rpi-rtsps-test-client/1.0" :: headers.

Lemma make_request_lines method url cseq headers :
  make_request method url cseq headers = with_crlf (request_lines method url cseq headers) ++ CRLF ++ [].
Proof. unfold make_request, request_lines, with_crlf. rewrite !fmap_cons. cbn [concat]. by rewrite <- !app_assoc. Qed.

(** A method of the protocol, told apart from the header names that are looked up. *)
Record method_ok (method : bytes) : Prop := {
  mt_prefix : method ++ $" " ∈ message_prefixes;
  mt_word : method <> [] /\ Forall (fun c => negb (is_space c) = true) method;
  mt_names : forall name t, name ∈ [$"Content-Length:"; $"cseq:"; $"session:"; $"transport:"] ->
    is_prefix (lower_copy name) (lower_copy method ++ t) = false
}.

Lemma methods_ok : Forall method_ok [$"OPTIONS"; $"DESCRIBE"; $"SETUP"; $"PLAY"; $"TEARDOWN"].
Proof.
  repeat constructor; try (by repeat constructor); try done.
  all: intros name t Hn; repeat (apply elem_of_cons in Hn as [->|Hn]; [reflexivity|]); by apply not_elem_of_nil in Hn.
Qed.

Definition url_ok (url : bytes) : Prop := url <> [] /\ Forall (fun c => negb (is_space c) = true) url.

Lemma words_no_cr s : Forall (fun c => negb (is_space c) = true) s -> no_cr s.
Proof. intros H. eapply Forall_impl; [exact H|]. intros c Hc ->. done. Qed.

Section Request.
Context (method url : bytes) (cseq : Z) (headers : list bytes).
Hypothesis (Hmethod : method_ok method) (Hurl : url_ok url) (Hheaders : Forall line_ok headers) (Hcseq : 0 <= cseq <= int_max).
Let request := make_request method url cseq headers.
Let first := method ++ $" " ++ url ++ $" RTSP/1.0".

Lemma first_no_cr : no_cr first.
Proof. unfold first. repeat apply no_cr_app; auto with rtsps; apply words_no_cr; [apply Hmethod|apply Hurl]. Qed.

Lemma request_lines_ok : Forall line_ok (request_lines method url cseq headers).
Proof.
  unfold request_lines. repeat (apply Forall_cons; split); [..|done].
  - split; [apply no_cr_no_crlf, first_no_cr|]. destruct (mt_word _ Hmethod) as [? _]. by destruct method.
  - split; [|done]. apply no_cr_no_crlf. auto with rtsps.
  - split; [|done]. apply no_cr_no_crlf. auto with rtsps.
Qed.

Lemma request_first_line : get_first_line request = first.
Proof.
  unfold get_first_line, request. rewrite make_request_lines. unfold with_crlf, request_lines. fold first. rewrite fmap_cons. cbn [concat].
  rewrite <- !app_assoc. rewrite find0_crlf by apply no_cr_no_crlf, first_no_cr.
  unfold substr. by rewrite drop_0, take_app_length.
Qed.

Lemma request_method : rtsp_method_from_request request = method.
Proof.
  unfold rtsp_method_from_request. rewrite request_first_line. unfold first.
  rewrite read_word_app; [done|apply Hmethod|apply Hmethod|by intros c b [= <- _]].
Qed.

Lemma request_target : extract_request_target request = url.
Proof.
  unfold extract_request_target. rewrite request_first_line. unfold first.
  rewrite read_word_app; [|apply Hmethod|apply Hmethod|by intros c b [= <- _]].
  assert (read_word (Some ($" " ++ url ++ $" RTSP/1.0")) [] = (url, Some $" RTSP/1.0")) as ->; [|done].
  rewrite <- (read_word_app url $" RTSP/1.0" []); [|apply Hurl|apply Hurl|by intros c b [= <- _]].
  unfold read_word, skip_ws. change ($" " ++ url ++ $" RTSP/1.0") with (32 :: url ++ $" RTSP/1.0"). cbn [span].
  by destruct (span is_space (url ++ $" RTSP/1.0")).
Qed.

Lemma request_cseq : cseq_from_message request = to_string cseq.
Proof.
  unfold cseq_from_message, request. rewrite make_request_lines, lines_header_value; [|done|apply request_lines_ok].
  unfold request_lines. cbn [app]. fold first.
  unfold first. rewrite header_value_in_skip by (intros t; apply (mt_names _ Hmethod); set_solver).
  change (67 :: 83 :: 101 :: 113 :: 58 :: 32 :: to_string cseq) with ($"CSeq: " ++ to_string cseq).
  rewrite header_value_in_hit; [|done|done|by exists 32].
  assert (to_string cseq = dec_unsigned cseq) as -> by (unfold to_string; by destruct (Z.ltb_spec cseq 0); [lia|]).
  apply trim_digits; [apply dec_unsigned_nonempty|apply dec_unsigned_digits].
Qed.

Lemma request_header name :
  lower_copy name ++ $":" ∈ [$"session:"; $"transport:"] ->
  header_value (message_header_part request) name =
  header_value_in (headers ++ terminated_lines CRLF) (lower_copy name ++ $":") (length name + 1).
Proof.
  intros Hn. unfold request. rewrite make_request_lines, lines_header_value; [|done|apply request_lines_ok].
  unfold request_lines. cbn [app]. fold first. unfold first.
  assert (forall p, p ∈ [$"session:"; $"transport:"] -> lower_copy p = p) as Hl.
  { intros p Hp. repeat (apply elem_of_cons in Hp as [->|Hp]; [reflexivity|]). by apply not_elem_of_nil in Hp. }
  rewrite header_value_in_skip by (intros t; apply (mt_names _ Hmethod); set_solver).
  change (67 :: 83 :: 101 :: 113 :: 58 :: 32 :: to_string cseq) with ($"CSeq: " ++ to_string cseq).
  rewrite header_value_in_skip.
  2: { intros t. repeat (apply elem_of_cons in Hn as [->|Hn]; [reflexivity|]). by apply not_elem_of_nil in Hn. }
  rewrite <- (app_nil_r $"User-Agent: rpi-rtsps-test-client/1.0"), header_value_in_skip; [done|].
  intros t. repeat (apply elem_of_cons in Hn as [->|Hn]; [reflexivity|]). by apply not_elem_of_nil in Hn.
Qed.

Lemma request_fields :
  cseq_from_message request = to_string cseq /\ rtsp_method_from_request request = method /\ extract_request_target request = url.
Proof. split_and!; [apply request_cseq|apply request_method|apply request_target]. Qed.

Lemma request_message lim :
  Forall header_ok headers -> zlen request <= max_header_bytes lim -> 0 <= max_body_bytes lim -> rtsp_message_ok lim request.
Proof.
  intros Hh Hz Hb. unfold request in *. rewrite make_request_lines in *.
  destruct (header_end (request_lines method url cseq headers) [] ltac:(done) request_lines_ok) as (h & Eh & Hf).
  rewrite Eh, <- app_assoc in Hf, Hz |- *. split.
  { apply message_start_iff. exists (method ++ $" "). split; [apply Hmethod|].
    assert (exists t, with_crlf (request_lines method url cseq headers) = (method ++ $" ") ++ t) as [t Et].
    { unfold with_crlf, request_lines. rewrite fmap_cons. cbn [concat]. eexists. rewrite <- !app_assoc. reflexivity. }
    assert (h ++ CRLF ++ CRLF ++ [] = (h ++ CRLF) ++ CRLF) as -> by by rewrite <- !app_assoc, ?app_nil_r.
    rewrite <- Eh, Et, <- app_assoc. apply is_prefix_app. }
  exists h, []. split_and!; [done|done| | |].
  - rewrite !zlen_app in Hz. change (zlen CRLF) with 2 in Hz. change (zlen (@nil Z)) with 0 in Hz. lia.
  - assert (h ++ CRLFCRLF = with_crlf (request_lines method url cseq headers) ++ CRLF) as -> by by rewrite Eh, <- app_assoc.
    unfold content_length_from_header. rewrite split_lines_with_crlf by apply request_lines_ok.
    rewrite content_length_in_skip; [done|]. unfold request_lines.
    repeat (apply Forall_cons; split); [..|eapply Forall_impl; [exact Hh|]; by intros x []].
    + rewrite starts_with_ci_prefix. unfold lower_copy at 2. rewrite fmap_app. apply (mt_names _ Hmethod). set_solver.
    + rewrite starts_with_ci_prefix. unfold lower_copy at 2. rewrite fmap_app. reflexivity.
    + reflexivity.
  - done.
Qed.
End Request.

(** ** Facts: what the server's responses say *)

Lemma response_of_make status cseq headers body :
  no_crlf cseq -> Forall line_ok headers -> 0 <= status <= int_max ->
  let lines := response_lines status cseq headers body in
  response_of (make_response status cseq headers body) =
  {| r_status := status; r_header := with_crlf lines ++ CRLF; r_body := body |}.
Proof.
  intros Hc Hh Hs lines. pose proof (response_lines_ok status cseq headers body Hc Hh) as Hok. unfold response_of.
  rewrite make_response_lines. fold lines. rewrite (lines_header_part lines body) by done. f_equal.
  - unfold lines, response_lines, with_crlf. rewrite fmap_cons. cbn [concat]. unfold status_line.
    change $"RTSP/1.0 " with ($"RTSP/1.0" ++ [32]). rewrite <- !app_assoc.
    rewrite read_word_app; [|done|repeat (constructor; [reflexivity|]); constructor|by intros c b [= <- _]].
    cbn [snd app]. rewrite read_int_to_string; [done|done|by intros c b [= <- _]].
  - rewrite app_assoc. apply drop_app_length.
Qed.

Lemma find_session_skip (name rest : bytes) lines :
  (forall t, is_prefix $"session:" (lower_copy name ++ t) = false) ->
  find_session_in ((name ++ rest) :: lines) = find_session_in lines.
Proof.
  intros H. cbn [find_session_in]. rewrite starts_with_ci_prefix. unfold lower_copy at 2. rewrite fmap_app.
  change (lower_copy $"Session:") with $"session:". by rewrite H.
Qed.

Lemma hex_clean sid :
  Forall (fun c => is_hex c = true) sid -> Forall (fun c => c <> 59 /\ is_trim c = false /\ c <> 13) sid.
Proof.
  intros H. eapply Forall_impl; [exact H|]. intros c Hc. unfold is_hex, is_digit in Hc. unfold is_trim, mem, trim_set. cbn. bprop.
  split_and!; [lia| |lia]. zcase; cbn; try done; lia.
Qed.

Lemma find_session_hit sid more lines :
  Forall (fun c => is_hex c = true) sid -> sid <> [] ->
  find_session_in (($"Session: " ++ sid ++ $";" ++ more) :: lines) = sid.
Proof.
  intros Hh Hne. pose proof (hex_clean sid Hh) as Hc. cbn [find_session_in]. rewrite starts_with_ci_prefix.
  unfold lower_copy at 2. rewrite fmap_app. change (is_prefix _ _) with true. cbv iota.
  change (substr_from ($"Session: " ++ sid ++ $";" ++ more) (length $"Session:")) with (32 :: sid ++ $";" ++ more).
  destruct sid as [|d sid]; [done|].
  assert (find_first_not_of (32 :: (d :: sid) ++ $";" ++ more) [32; 9] = Some 1%nat) as ->.
  { apply Forall_cons in Hc as [(_ & Hd & _) _]. unfold is_trim, mem, trim_set in Hd. cbn in Hd. bprop.
    unfold find_first_not_of, mem. cbn [find_if app existsb]. change (32 =? 32) with true. cbn [orb negb].
    replace (d =? 32) with false by lia. replace (d =? 9) with false by lia. done. }
  change (substr_from (32 :: (d :: sid) ++ $";" ++ more) 1) with ((d :: sid) ++ 59 :: more). change $";" with [59].
  rewrite find0_char.
  - by rewrite take_app_length.
  - eapply Forall_impl; [exact Hc|]. cbn. intros x (? & _). done.
Qed.

Lemma trim_hex sid : Forall (fun c => is_hex c = true) sid -> sid <> [] -> trim_copy sid = sid.
Proof.
  intros Hh Hne. pose proof (hex_clean sid Hh) as Hc. rewrite <- (app_nil_r sid) at 1. apply (trim_copy_intro []); [done|done|..].
  - destruct sid as [|d sid]; [done|]. apply Forall_cons in Hc as [(_ & Hd & _) _]. eauto.
  - destruct sid as [|d sid _] using rev_ind; [done|]. apply Forall_app in Hc as [_ [(_ & Hd & _) _]%Forall_cons]. eauto.
Qed.

(** The control attribute of the server's session descriptions. *)
Definition no_lf (s : bytes) : Prop := Forall (fun c => c <> 10) s.

Lemma getlines_line l rest cur : no_lf l -> getlines cur (l ++ CRLF ++ rest) = (cur ++ l ++ [13]) :: getlines [] rest.
Proof.
  intros Hl. revert cur. induction Hl as [|c l Hc _ IH]; intros cur; [done|]. cbn [app getlines].
  rewrite (proj2 (Z.eqb_neq c 10) Hc), IH, <- app_assoc. done.
Qed.

Lemma chop_cr_line l : chop_cr (l ++ [13]) = l.
Proof. unfold chop_cr. rewrite last_snoc, length_app. cbn. rewrite Nat.add_sub. apply take_app_length. Qed.

Lemma media_control_with_crlf lines rest v sc :
  Forall no_lf lines ->
  media_control_in (getlines [] (with_crlf lines ++ rest)) v sc =
  media_control_in (((fun l => l ++ [13]) <$> lines) ++ getlines [] rest) v sc.
Proof.
  intros Hl. f_equal. induction Hl as [|l ls Hl _ IH]; [done|]. unfold with_crlf in *. rewrite !fmap_cons. cbn [concat].
  rewrite <- !app_assoc, getlines_line by done. by rewrite IH.
Qed.

Lemma base64_no_lf input : no_lf (base64_encode input).
Proof.
  assert (forall i, base64_char i <> 10) as Hc.
  { intros i. unfold base64_char. destruct (base64_alphabet !! Z.to_nat i) as [c|] eqn:E; [|done]. cbn.
    assert (Forall (fun c => c <> 10) base64_alphabet) as Ha by (apply (bool_decide_unpack _); vm_compute; exact I).
    rewrite Forall_lookup in Ha. by eapply Ha. }
  enough (forall n input, (length input <= n)%nat -> no_lf (base64_encode input)) as H by by eapply H.
  clear input. induction n as [|n IH]; intros input Hl.
  { destruct input; [constructor|cbn in Hl; lia]. }
  destruct input as [|a [|b [|c rest]]]; cbn [base64_encode]; repeat constructor; try done; try apply Hc.
  apply IH. cbn in Hl. lia.
Qed.

Lemma no_lf_lit s : forallb (fun c => negb (c =? 10)) s = true -> no_lf s.
Proof.
  intros H. apply Forall_forall. intros x Hx. rewrite forallb_forall in H.
  specialize (H x). rewrite <- list_elem_of_In in H. specialize (H Hx). bprop. done.
Qed.

Lemma no_lf_app a b : no_lf a -> no_lf b -> no_lf (a ++ b).
Proof. intros. by apply Forall_app. Qed.

Lemma no_lf_to_string n : no_lf (to_string n).
Proof.
  assert (forall s, Forall (fun c => is_digit c = true) s -> no_lf s) as Hd.
  { intros s Hs. eapply Forall_impl; [exact Hs|]. intros c Hc. unfold is_digit in Hc. bprop. lia. }
  unfold to_string. destruct (n <? 0); [constructor; [lia|]|]; apply Hd, dec_unsigned_digits.
Qed.

#[local] Hint Resolve no_lf_app no_lf_to_string base64_no_lf : core.
#[local] Hint Extern 1 (no_lf (lit _)) => apply no_lf_lit; reflexivity : core.
#[local] Hint Extern 1 (no_lf []) => constructor : core.

Lemma codec_fmtp_no_lf sets c codec : no_lf (codec_fmtp sets c codec).
Proof. unfold codec_fmtp. destruct codec; case_match; auto 10. Qed.

Definition sdp_lines (c : Z) (codec : VideoCodec) (fmtp : bytes) : list bytes :=
  [$"v=0"; $"o=- 0 0 IN IP4 0.0.0.0"; $"s=RPi VMS channel " ++ to_string c; $"t=0 0"; $"a=control:*";
   $"m=video 0 RTP/AVP " ++ to_string kPayloadType;
   $"a=rtpmap:" ++ to_string kPayloadType ++ $" " ++ (match codec with H265 => $"H265" | H264 => $"H264" end) ++ $"/90000"] ++
  (if is_empty fmtp then [] else [$"a=fmtp:" ++ to_string kPayloadType ++ $" " ++ fmtp]) ++ [$"a=control:trackID=0"].

Lemma build_sdp_lines c codec fmtp : build_sdp c codec fmtp = with_crlf (sdp_lines c codec fmtp).
Proof.
  unfold build_sdp, sdp_lines, with_crlf. rewrite !fmap_app, !concat_app, !fmap_cons. cbn [concat fmap list_fmap].
  destruct (is_empty fmtp); cbn [concat fmap list_fmap]; rewrite <- ?app_assoc, ?app_nil_r; reflexivity.
Qed.

Lemma media_skip (name rest : bytes) lines v sc :
  (forall t, is_prefix $"m=" (name ++ t) = false /\ is_prefix $"a=control:" (name ++ t) = false) ->
  media_control_in (((name ++ rest) ++ [13]) :: lines) v sc = media_control_in lines v sc.
Proof. intros H. cbn [media_control_in]. rewrite chop_cr_line. by destruct (H rest) as [-> ->]. Qed.

Lemma sdp_lines_no_lf c codec fmtp : no_lf fmtp -> Forall no_lf (sdp_lines c codec fmtp).
Proof.
  intros Hf. unfold sdp_lines. destruct (is_empty fmtp), codec; cbn [app];
    repeat (refine (@List.Forall_cons _ no_lf _ _ _ _)); auto 10.
Qed.

(** The client finds the track of the server's description. *)
Lemma find_control_in_sdp c codec fmtp : no_lf fmtp -> find_first_media_control (build_sdp c codec fmtp) = $"trackID=0".
Proof.
  intros Hf. unfold find_first_media_control.
  rewrite build_sdp_lines, <- (app_nil_r (with_crlf _)), media_control_with_crlf by by apply sdp_lines_no_lf.
  unfold sdp_lines. rewrite !fmap_app, !fmap_cons. cbn [fmap list_fmap app getlines is_empty].
  rewrite <- (app_nil_r $"v=0"), media_skip by done. rewrite <- (app_nil_r $"o=- 0 0 IN IP4 0.0.0.0"), media_skip by done.
  rewrite media_skip by done. rewrite <- (app_nil_r $"t=0 0"), media_skip by done.
  assert (forall r, media_control_in (($"a=control:*" ++ [13]) :: r) false [] = media_control_in r false []) as -> by done.
  assert (forall r, media_control_in ((($"m=video 0 RTP/AVP " ++ to_string kPayloadType) ++ [13]) :: r) false [] =
                    media_control_in r true []) as -> by done.
  rewrite media_skip by done. destruct (is_empty fmtp); cbn [fmap list_fmap app]; [done|]. by rewrite media_skip.
Qed.

(** ** The client with a session of the server *)

Section Together.
Context {T : Type} `{!Transport T} `{!Reliable T}.
Context (cfg : LiveRtspServerConfig) (sets : list ParameterSets).
Context (rnd : bytes -> Z * Z) (cut : bytes -> list bytes).
Implicit Type s : Sess (T := T).

(** The turn of the session that reads a request. *)
Definition server_turn (request : bytes) : SessionEvent :=
  {| ev_running := true; ev_read := ReadData request; ev_frames := []; ev_random := fun _ => rnd request;
     ev_steady := 0; ev_system := 0 |}.

(** What the client reads then is what the session has written, cut by the network. *)
Definition server_exchange (request : bytes) (s : Sess (T := T)) : option (list bytes * Sess) :=
  match session_turn cfg sets (server_turn request) s with
  | Some (Ok true, s') => Some (cut (drop (length (c_sent (se_conn s))) (c_sent (se_conn s'))), s')
  | _ => None
  end.

Definition waits s : Prop := se_input s = [] /\ q_frames (m_queue (se_media s)) = [] /\ se_connected s = true.

Hypothesis cut_whole : forall data, concat (cut data) = data /\ Forall (fun c => c <> []) (cut data).

Lemma send_request_server label request s cseq headers body :
  waits s -> rtsp_message_ok (session_limits cfg) request -> zlen request <= u64 (max_header cfg + max_body cfg) ->
  let out := answer cfg sets (rnd request) request (se_control s) in
  response out.1 = make_response 200 cseq headers body -> close_session out.1 = false ->
  no_crlf cseq -> Forall header_ok headers -> zlen body <= int_max ->
  exists s', send_request server_exchange label request {| c_buffer := []; c_reads := []; c_peer := s |} =
      Some (Ok {| r_status := 200; r_header := with_crlf (response_lines 200 cseq headers body) ++ CRLF; r_body := body |},
            {| c_buffer := []; c_reads := []; c_peer := s' |}) /\
    waits s' /\ se_control s' = out.2 /\ m_playing (se_media s') = (m_playing (se_media s) || start_play out.1).
Proof.
  intros (Hin & Hq & Hcon) Hm Hz out Hr Hcl Hcs Hh Hb.
  destruct (turn_answers cfg sets (server_turn request) request s) as (s' & Ht & Hsent & Hctl & Hin' & Hq' & Hcon' & Hpl); try done.
  exists s'. cbn [ev_random server_turn] in Hsent, Hctl, Hcon', Hpl. fold out in Hsent, Hctl, Hcon', Hpl.
  assert (Forall line_ok headers) as Hl by (eapply Forall_impl; [exact Hh|]; by intros h []).
  set (m := make_response 200 cseq headers body) in *.
  set (lim := {| max_header_bytes := zlen m; max_body_bytes := zlen body |}).
  assert (rtsp_message_ok lim m) as Hok.
  { apply make_response_message; try done; [by eapply Forall_impl; [exact Hh|]; intros h []|].
    fold m. change (max_header_bytes lim) with (zlen m). pose proof (zlen_nonneg body). lia. }
  destruct (cut_whole m) as [Hcut Hne].
  split.
  - unfold send_request, client_write, read_one_rtsp_response. unfold mbind at 1, act_bind at 1. cbn [c_peer c_buffer c_reads].
    unfold server_exchange. rewrite Ht, Hsent, drop_app_length, Hr. unfold mbind at 1, act_bind at 1. cbn [app c_reads c_buffer].
    rewrite (response_loop_message lim m (cut m) []); [|done|done|by cbn]. cbn [c_peer].
    unfold m. rewrite (response_of_make 200 cseq headers body Hcs Hl) by (unfold int_max; lia). done.
  - unfold waits. split_and!; [done|congruence|by rewrite Hcon', Hcon, Hcl|done|done].
Qed.

(** ** The four requests *)

Context (host : bytes) (c : Z) (ch : LiveChannel).
Hypothesis registered : find_channel (channels cfg) c = Some ch.
Hypothesis channel_range : 1 <= c <= 4.
Hypothesis host_ok : Forall (fun x => x <> 47 /\ is_space x = false) host.
Let base := $"rtsps://" ++ host ++ $"/ch" ++ to_string c.
Let fmtp := codec_fmtp sets c (lc_codec ch).
Hypothesis fmtp_fits : zlen fmtp + 256 <= int_max.
Hypothesis url_fits : zlen base + 256 <= max_header cfg.
Hypothesis limits_fit : 0 <= max_body cfg /\ max_header cfg + max_body cfg < 18446744073709551616.

Lemma base_ok more : Forall (fun x => negb (is_space x) = true) more -> url_ok (base ++ more).
Proof.
  intros Hmore. split; [done|]. unfold base. rewrite !Forall_app. split_and!; [|by eapply Forall_impl; [exact host_ok|]; cbn; intros x [_ ->]| | |done].
  - apply (bool_decide_unpack _). vm_compute. exact I.
  - apply (bool_decide_unpack _). vm_compute. exact I.
  - assert (to_string c = dec_unsigned c) as -> by (unfold to_string; by destruct (Z.ltb_spec c 0); [lia|]).
    eapply Forall_impl; [apply dec_unsigned_digits|]. intros x Hx. by rewrite (digit_not_space x Hx).
Qed.

Lemma base_channel more : more = [] \/ more = $"/trackID=0" -> parse_public_channel_id (base ++ more) = c.
Proof.
  intros Hmore. unfold base.
  assert (c = 1 \/ c = 2 \/ c = 3 \/ c = 4) as Hc by lia.
  assert ((($"rtsps://" ++ host ++ $"/ch" ++ to_string c) ++ more) =
          $"rtsps" ++ $"://" ++ host ++ 47 :: ($"ch" ++ to_string c ++ more) ++ []) as ->.
  { rewrite app_nil_r, <- !app_assoc. reflexivity. }
  rewrite url_channel_at; [| |by eapply Forall_impl; [exact host_ok|]; cbn; intros x [? _]| |by left|].
  - destruct Hmore as [->| ->]; destruct Hc as [->|[->|[->| ->]]]; reflexivity.
  - reflexivity.
  - destruct Hmore as [->| ->]; destruct Hc as [->|[->|[->| ->]]]; (apply (bool_decide_unpack _); vm_compute; exact I).
  - destruct Hmore as [->| ->]; destruct Hc as [->|[->|[->| ->]]]; reflexivity.
Qed.

Lemma channel_of_ch : lc_channel_id ch = c.
Proof. by apply find_channel_Some in registered as [_ ?]. Qed.

(** The answer to a request for the channel. *)
Lemma answer_registered request control :
  parse_public_channel_id (extract_request_target request) = c ->
  answer cfg sets (rnd request) request control =
  process_rtsp_request request c (lc_codec ch) fmtp (rnd request).1 (rnd request).2 control.
Proof. intros Hc. unfold answer. rewrite Hc, registered, channel_of_ch. done. Qed.

Lemma to_string_nonempty n : is_empty (to_string n) = false.
Proof.
  unfold to_string. destruct (n <? 0); [done|]. destruct (dec_unsigned n) eqn:E; [|done]. by apply dec_unsigned_nonempty in E.
Qed.

Ltac eval_methods :=
  repeat match goal with
  | |- context [str_eqb (lit ?a) (lit ?b)] =>
    let v := eval vm_compute in (str_eqb (lit a) (lit b)) in change (str_eqb (lit a) (lit b)) with v
  end.

(** [process_rtsp_request] on a request of the client for the channel. *)
Ltac client_request Hf :=
  destruct Hf as (Ec & Em & Et);
  match goal with request := make_request _ _ _ _ |- _ => fold request in Ec, Em, Et end; unfold process_rtsp_request; rewrite Ec, Em, Et, to_string_nonempty; eval_methods; cbv iota;
  rewrite ?base_channel by auto; rewrite ?Z.eqb_refl; try replace (c <? 0) with false by lia; cbn [negb orb].

Lemma method_in m : m ∈ [$"OPTIONS"; $"DESCRIBE"; $"SETUP"; $"PLAY"; $"TEARDOWN"] -> method_ok m.
Proof. pose proof methods_ok as H. rewrite Forall_forall in H. apply H. Qed.

Lemma base_url : url_ok base.
Proof. rewrite <- (app_nil_r base). by apply base_ok. Qed.

Lemma options_answer control :
  let request := make_request $"OPTIONS" (base ++ []) 1 [] in
  process_rtsp_request request c (lc_codec ch) fmtp (rnd request).1 (rnd request).2 control =
  (reply 200 (to_string 1) [$"Public: " ++ methods_line] [], control).
Proof.
  intros request. assert (method_ok $"OPTIONS") as Hm by (apply method_in; set_solver).
  client_request (request_fields _ _ 1 _ Hm (base_ok [] ltac:(done)) (@List.Forall_nil _ line_ok) ltac:(unfold int_max; lia)). done.
Qed.

Lemma describe_answer control :
  let request := make_request $"DESCRIBE" (base ++ []) 2 [$"Accept: application/sdp"] in
  process_rtsp_request request c (lc_codec ch) fmtp (rnd request).1 (rnd request).2 control =
  (reply 200 (to_string 2) [$"Content-Type: application/sdp"; $"Content-Base: /ch" ++ to_string c ++ $"/"]
     (build_sdp c (lc_codec ch) fmtp), control).
Proof.
  intros request. assert (method_ok $"DESCRIBE") as Hm by (apply method_in; set_solver).
  assert (Forall line_ok [$"Accept: application/sdp"]) as Hh by (constructor; [by split|done]).
  client_request (request_fields _ _ 2 _ Hm (base_ok [] ltac:(done)) Hh ltac:(unfold int_max; lia)). done.
Qed.

Definition transport_header : bytes := $"Transport: RTP/AVP/TCP;unicast;interleaved=0-1".

(** The session SETUP makes. *)
Definition set_up (request : bytes) : RtspControlState :=
  {| phase := Ready; session_id := random_session_id (rnd request).1 (rnd request).2; channel_id := c; rtp_channel := 0;
     rtcp_channel := 1 |}.

Lemma setup_answer :
  let request := make_request $"SETUP" (base ++ $"/trackID=0") 3 [transport_header] in
  process_rtsp_request request c (lc_codec ch) fmtp (rnd request).1 (rnd request).2 initial_control =
  (reply 200 (to_string 3) [transport_header; $"Session: " ++ session_id (set_up request) ++ $";timeout=60"] [], set_up request).
Proof.
  intros request. assert (method_ok $"SETUP") as Hm by (apply method_in; set_solver).
  assert (Forall line_ok [transport_header]) as Hh by (constructor; [by split|done]).
  assert (url_ok (base ++ $"/trackID=0")) as Hu by (apply base_ok; apply (bool_decide_unpack _); vm_compute; exact I).
  assert (header_value (message_header_part request) $"Transport" = $"RTP/AVP/TCP;unicast;interleaved=0-1") as Ht.
  { unfold request. rewrite (request_header _ _ _ _ Hm Hu Hh) by first [unfold int_max; lia|apply elem_of_cons; right; apply elem_of_cons; left; reflexivity]. vm_compute. reflexivity. }
  client_request (request_fields _ _ 3 _ Hm Hu Hh ltac:(unfold int_max; lia)). fold request.
  rewrite Ht. change (parse_interleaved_channels _) with (Some (0, 1)). reflexivity.
Qed.

(** The Session header of a request. *)
Lemma session_header method n sid :
  method_ok method -> 0 <= n <= int_max -> Forall (fun x => is_hex x = true) sid -> sid <> [] ->
  header_ok ($"Session: " ++ sid) /\ Forall line_ok [$"Session: " ++ sid] /\
  session_of (make_request method (base ++ []) n [$"Session: " ++ sid]) = sid.
Proof.
  intros Hm Hn Hhex Hne.
  assert (no_cr sid) as Hcr by (eapply Forall_impl; [by apply hex_clean|]; by intros x (_ & _ & ?)).
  assert (header_ok ($"Session: " ++ sid)) as Hok by header_tac.
  assert (Forall line_ok [$"Session: " ++ sid]) as Hh by (constructor; [apply Hok|done]). split_and!; [done|done|].
  unfold session_of. rewrite (request_header _ _ _ _ Hm (base_ok [] ltac:(done)) Hh) by first [done|apply elem_of_cons; left; reflexivity].
  cbn [app]. change (83 :: 101 :: 115 :: 115 :: 105 :: 111 :: 110 :: 58 :: 32 :: sid) with ($"Session: " ++ sid).
  rewrite header_value_in_hit; [by apply trim_hex|done|done|by exists 32].
Qed.

Lemma play_answer control sid :
  sid = session_id control -> phase control = Ready -> channel_id control = c ->
  Forall (fun x => is_hex x = true) sid -> sid <> [] ->
  let request := make_request $"PLAY" (base ++ []) 4 [$"Session: " ++ sid] in
  process_rtsp_request request c (lc_codec ch) fmtp (rnd request).1 (rnd request).2 control =
  ({| response := make_response 200 (to_string 4)
        [$"Session: " ++ sid; $"RTP-Info: url=/ch" ++ to_string c ++ $"/trackID=0"] [];
      start_play := true; close_session := false |}, with_phase Playing control).
Proof.
  intros -> Hp Hch Hhex Hne request. set (sid := session_id control) in *.
  assert (method_ok $"PLAY") as Hm by (apply method_in; set_solver).
  destruct (session_header $"PLAY" 4 sid Hm ltac:(unfold int_max; lia) Hhex Hne) as (_ & Hh & Hs). fold request in Hs.
  client_request (request_fields _ _ 4 _ Hm (base_ok [] ltac:(done)) Hh ltac:(unfold int_max; lia)). fold request.
  rewrite Hs, Hp, Hch, Z.eqb_refl. fold sid. unfold valid_session_header. rewrite str_eqb_refl. by destruct sid.
Qed.

Lemma teardown_answer control sid :
  sid = session_id control -> Forall (fun x => is_hex x = true) sid -> sid <> [] ->
  let request := make_request $"TEARDOWN" (base ++ []) 5 [$"Session: " ++ sid] in
  process_rtsp_request request c (lc_codec ch) fmtp (rnd request).1 (rnd request).2 control =
  ({| response := make_response 200 (to_string 5) [$"Session: " ++ sid] []; start_play := false; close_session := true |},
   with_phase Closed control).
Proof.
  intros -> Hhex Hne request. set (sid := session_id control) in *.
  assert (method_ok $"TEARDOWN") as Hm by (apply method_in; set_solver).
  destruct (session_header $"TEARDOWN" 5 sid Hm ltac:(unfold int_max; lia) Hhex Hne) as (_ & Hh & Hs). fold request in Hs.
  client_request (request_fields _ _ 5 _ Hm (base_ok [] ltac:(done)) Hh ltac:(unfold int_max; lia)). fold request.
  rewrite Hs. fold sid. unfold valid_session_header. rewrite str_eqb_refl. by destruct sid.
Qed.

(** The server takes a request of the client whole and answers it for the channel. *)
Lemma request_taken method more n headers s :
  method_ok method -> Forall (fun x => negb (is_space x) = true) more -> more = [] \/ more = $"/trackID=0" ->
  Forall header_ok headers -> 0 <= n <= int_max ->
  let request := make_request method (base ++ more) n headers in
  zlen request <= max_header cfg ->
  answer cfg sets (rnd request) request (se_control s) =
    process_rtsp_request request c (lc_codec ch) fmtp (rnd request).1 (rnd request).2 (se_control s) /\
  rtsp_message_ok (session_limits cfg) request /\ zlen request <= u64 (max_header cfg + max_body cfg).
Proof.
  intros Hm Hmore Hin Hh Hn request Hz.
  assert (Forall line_ok headers) as Hl by (eapply Forall_impl; [exact Hh|]; by intros h []).
  destruct (request_fields _ _ n _ Hm (base_ok more Hmore) Hl Hn) as (_ & _ & Et). fold request in Et. split_and!.
  - apply answer_registered. rewrite Et. by apply base_channel.
  - apply request_message; try done; [by apply base_ok|apply limits_fit].
  - destruct limits_fit. pose proof (zlen_nonneg request). unfold u64. rewrite Z.mod_small; lia.
Qed.

(** One request of the client, answered with 200. *)
Lemma client_step label method more n headers s hs body start control' :
  method_ok method -> Forall (fun x => negb (is_space x) = true) more -> more = [] \/ more = $"/trackID=0" ->
  Forall header_ok headers -> 0 <= n <= int_max -> waits s ->
  let request := make_request method (base ++ more) n headers in
  zlen request <= max_header cfg ->
  process_rtsp_request request c (lc_codec ch) fmtp (rnd request).1 (rnd request).2 (se_control s) =
    ({| response := make_response 200 (to_string n) hs body; start_play := start; close_session := false |}, control') ->
  Forall header_ok hs -> zlen body <= int_max ->
  exists s', send_request server_exchange label request {| c_buffer := []; c_reads := []; c_peer := s |} =
      Some (Ok {| r_status := 200; r_header := with_crlf (response_lines 200 (to_string n) hs body) ++ CRLF; r_body := body |},
            {| c_buffer := []; c_reads := []; c_peer := s' |}) /\
    waits s' /\ se_control s' = control' /\ m_playing (se_media s') = (m_playing (se_media s) || start).
Proof.
  intros Hm Hmore Hin Hh Hn Hw request Hz Hp Hhs Hb.
  destruct (request_taken method more n headers s Hm Hmore Hin Hh Hn Hz) as (Ha & Hmsg & Hlen). fold request in Ha, Hmsg, Hlen.
  rewrite Hp in Ha.
  destruct (send_request_server label request s (to_string n) hs body Hw) as (s' & H1 & H2 & H3 & H4); rewrite ?Ha in *; try done.
  - apply no_cr_no_crlf. auto with rtsps.
  - by exists s'.
Qed.

Lemma request_size method more n headers :
  0 <= n < 10 -> zlen (make_request method (base ++ more) n headers) <=
  zlen base + zlen method + zlen more + zlen (concat ((fun h => h ++ CRLF) <$> headers)) + 80.
Proof.
  intros Hn. pose proof (zlen_to_string n 0 ltac:(cbn; lia)). unfold make_request. rewrite !zlen_app. lit_len. change (zlen CRLF) with 2. lia.
Qed.

Ltac client_step_tac :=
  try done; try (by auto); try (by apply method_in; set_solver); try headers_tac; try lia; try (unfold int_max; lia);
  try (etrans; [apply request_size; lia|]; size_tac; lia).

Lemma step_options s :
  waits s ->
  exists res s', send_request server_exchange $"OPTIONS" (make_request $"OPTIONS" base 1 []) {| c_buffer := []; c_reads := []; c_peer := s |} =
      Some (Ok res, {| c_buffer := []; c_reads := []; c_peer := s' |}) /\
    waits s' /\ se_control s' = se_control s /\ m_playing (se_media s') = m_playing (se_media s).
Proof.
  intros Hw. rewrite <- (app_nil_r base). destruct (client_step $"OPTIONS" $"OPTIONS" [] 1 [] s [$"Public: " ++ methods_line] [] false (se_control s))
    as (s' & H1 & H2 & H3 & H4); client_step_tac; [exact (options_answer _)|].
  rewrite orb_false_r in H4. by eexists _, s'.
Qed.

Lemma step_describe s :
  waits s ->
  exists res s', send_request server_exchange $"DESCRIBE" (make_request $"DESCRIBE" base 2 [$"Accept: application/sdp"])
      {| c_buffer := []; c_reads := []; c_peer := s |} = Some (Ok res, {| c_buffer := []; c_reads := []; c_peer := s' |}) /\
    find_first_media_control (r_body res) = $"trackID=0" /\
    waits s' /\ se_control s' = se_control s /\ m_playing (se_media s') = m_playing (se_media s).
Proof.
  intros Hw. rewrite <- (app_nil_r base). pose proof (build_sdp_size c (lc_codec ch) fmtp channel_range).
  destruct (client_step $"DESCRIBE" $"DESCRIBE" [] 2 [$"Accept: application/sdp"] s
    [$"Content-Type: application/sdp"; $"Content-Base: /ch" ++ to_string c ++ $"/"] (build_sdp c (lc_codec ch) fmtp) false (se_control s))
    as (s' & H1 & H2 & H3 & H4); client_step_tac; [exact (describe_answer _)|].
  rewrite orb_false_r in H4. eexists _, s'. split_and!; try done. apply find_control_in_sdp, codec_fmtp_no_lf.
Qed.

Lemma step_setup s :
  waits s -> se_control s = initial_control ->
  exists res s' session, send_request server_exchange $"SETUP" (make_request $"SETUP" (base ++ $"/trackID=0") 3 [transport_header])
      {| c_buffer := []; c_reads := []; c_peer := s |} = Some (Ok res, {| c_buffer := []; c_reads := []; c_peer := s' |}) /\
    find_session (r_header res) = session /\ Forall (fun x => is_hex x = true) session /\ length session = 16%nat /\
    waits s' /\ m_playing (se_media s') = m_playing (se_media s) /\
    se_control s' = {| phase := Ready; session_id := session; channel_id := c; rtp_channel := 0; rtcp_channel := 1 |}.
Proof.
  intros Hw Hc. set (request := make_request _ _ _ _). set (session := session_id (set_up request)).
  destruct (random_session_id_hex (rnd request).1 (rnd request).2) as [Hhex Hlen].
  assert (no_cr session) as Hcr by (eapply Forall_impl; [by apply hex_clean|]; by intros x (_ & _ & ?)).
  destruct (client_step $"SETUP" $"SETUP" $"/trackID=0" 3 [transport_header] s
    [transport_header; $"Session: " ++ session ++ $";timeout=60"] [] false (set_up request))
    as (s' & H1 & H2 & H3 & H4); [apply method_in; set_solver| |by right| |unfold int_max; lia|exact Hw| | | |by apply (bool_decide_unpack _)|].
  { apply (bool_decide_unpack _). vm_compute. exact I. }
  { constructor; [|done]. split; [by split|done]. }
  { etrans; [apply request_size; lia|]. unfold transport_header. size_tac. lia. }
  { rewrite Hc. exact setup_answer. }
  { constructor; [split; [by split|done]|]. headers_tac. }
  rewrite orb_false_r in H4. eexists _, s', session. split_and!; try done.
  cbn [r_header]. unfold find_session. rewrite terminated_lines_with_crlf.
  2: { apply response_lines_ok; [apply no_cr_no_crlf; auto with rtsps|]. constructor; [by split|constructor; [|done]].
       split; [apply no_cr_no_crlf; auto 6 with rtsps|done]. }
  unfold response_lines. rewrite to_string_nonempty. cbn [app is_empty]. unfold status_line.
  rewrite find_session_skip by done.
  change (67 :: 83 :: 101 :: 113 :: 58 :: 32 :: to_string 3) with ($"CSeq: " ++ to_string 3). rewrite find_session_skip by done.
  rewrite <- (app_nil_r $"Server: rpi-vms-m3"), find_session_skip by done.
  rewrite <- (app_nil_r transport_header), find_session_skip by done.
  apply (find_session_hit session $"timeout=60"); [done|]. intros E. change (length session = 16%nat) in Hlen. by rewrite E in Hlen.
Qed.

Lemma step_play s session :
  waits s -> Forall (fun x => is_hex x = true) session -> length session = 16%nat ->
  se_control s = {| phase := Ready; session_id := session; channel_id := c; rtp_channel := 0; rtcp_channel := 1 |} ->
  exists res s', send_request server_exchange $"PLAY" (make_request $"PLAY" base 4 [$"Session: " ++ session])
      {| c_buffer := []; c_reads := []; c_peer := s |} = Some (Ok res, {| c_buffer := []; c_reads := []; c_peer := s' |}) /\
    waits s' /\ m_playing (se_media s') = true /\ se_control s' = with_phase Playing (se_control s).
Proof.
  intros Hw Hhex Hlen Hc. rewrite <- (app_nil_r base). assert (zlen session = 16) as Hz by (unfold zlen; lia).
  assert (no_cr session) as Hcr by (eapply Forall_impl; [by apply hex_clean|]; by intros x (_ & _ & ?)).
  destruct (client_step $"PLAY" $"PLAY" [] 4 [$"Session: " ++ session] s
    [$"Session: " ++ session; $"RTP-Info: url=/ch" ++ to_string c ++ $"/trackID=0"] [] true (with_phase Playing (se_control s)))
    as (s' & H1 & H2 & H3 & H4); client_step_tac.
  { apply play_answer; rewrite ?Hc; try done. by intros ->. }
  rewrite orb_true_r in H4. by eexists _, s'.
Qed.

Lemma client_session_plays s :
  waits s -> se_control s = initial_control ->
  exists s' session, client_session server_exchange base {| c_buffer := []; c_reads := []; c_peer := s |} =
      Some (Ok session, {| c_buffer := []; c_reads := []; c_peer := s' |}) /\
    waits s' /\ m_playing (se_media s') = true /\
    se_control s' = {| phase := Playing; session_id := session; channel_id := c; rtp_channel := 0; rtcp_channel := 1 |} /\
    Forall (fun x => is_hex x = true) session /\ length session = 16%nat.
Proof.
  intros Hw Hc. unfold client_session.
  destruct (step_options s Hw) as (res1 & s1 & E1 & W1 & C1 & _). unfold mbind at 1, act_bind at 1. rewrite E1.
  destruct (step_describe s1 W1) as (res2 & s2 & E2 & Ectl & W2 & C2 & _). unfold mbind at 1, act_bind at 1. rewrite E2. cbv zeta. rewrite Ectl.
  assert (make_control_url base $"trackID=0" = base ++ $"/trackID=0") as ->.
  { unfold make_control_url. change (is_empty _ || _) with false. cbv iota. change (is_prefix _ _ || is_prefix _ _) with false. cbv iota.
    assert (last base <> Some 47) as Hl.
    { assert (c = 1 \/ c = 2 \/ c = 3 \/ c = 4) as Hc' by lia.
      unfold base. rewrite !app_assoc, last_app. destruct Hc' as [->|[->|[->| ->]]]; done. }
    destruct (last base) as [z|]; [|done]. by destruct (Z.eqb_spec z 47) as [->|]. }
  destruct (step_setup s2 W2) as (res3 & s3 & session & E3 & Es & Hhex & Hlen & W3 & _ & C3); [congruence|].
  unfold mbind at 1, act_bind at 1. fold transport_header. rewrite E3, Es.
  assert (is_empty session = false) as -> by by destruct session.
  destruct (step_play s3 session W3 Hhex Hlen C3) as (res4 & s4 & E4 & W4 & P4 & C4). unfold mbind at 1, act_bind at 1. rewrite E4.
  exists s4, session. split_and!; try done. by rewrite C4, C3.
Qed.

Lemma step_teardown s session :
  waits s -> session_id (se_control s) = session -> Forall (fun x => is_hex x = true) session -> length session = 16%nat ->
  exists reads s', server_exchange (make_request $"TEARDOWN" base 5 [$"Session: " ++ session]) s = Some (reads, s') /\
    se_control s' = with_phase Closed (se_control s) /\ se_connected s' = false.
Proof.
  intros (Hin & Hq & Hcon) Hsid Hhex Hlen. assert (zlen session = 16) as Hz by (unfold zlen; lia).
  assert (session <> []) as Hne by by intros ->. rewrite <- (app_nil_r base).
  assert (method_ok $"TEARDOWN") as Hm by (apply method_in; set_solver).
  destruct (session_header $"TEARDOWN" 5 session Hm ltac:(unfold int_max; lia) Hhex Hne) as (Hok & _ & _).
  destruct (request_taken $"TEARDOWN" [] 5 [$"Session: " ++ session] s Hm) as (Ha & Hmsg & Hl); client_step_tac.
  rewrite (teardown_answer (se_control s) session) in Ha by done. set (request := make_request _ _ _ _) in *.
  destruct (turn_answers cfg sets (server_turn request) request s) as (s' & Ht & _ & Hctl & _ & _ & Hcon' & _); try done.
  unfold server_exchange. rewrite Ht. eexists _, s'. split_and!; [done|..].
  - rewrite Hctl. cbn [ev_random server_turn]. by rewrite Ha.
  - rewrite Hcon'. cbn [ev_random server_turn]. rewrite Ha. cbn. apply andb_false_r.
Qed.
End Together.

(** ** A whole run *)

(** What the client should report of the messages it is sent. *)
Definition counted (dump : bool) (ms : list bytes) : RtpCount :=
  let packets := filter (fun m => is_prefix $"$" m = true) ms in
  {| rc_packets := u64 (zlen packets); rc_bytes := u64 (zlen (concat packets) - 4 * zlen packets);
     rc_messages := u64 (zlen ms - zlen packets); rc_dump := if dump then concat packets else [] |}.

Lemma tally_counted dump ms m : tally dump (counted dump ms) m = counted dump (ms ++ [m]).
Proof.
  unfold tally, counted. rewrite filter_app. cbn [rc_packets rc_bytes rc_messages rc_dump]. rewrite !u64_idem_l.
  destruct (is_prefix $"$" m) eqn:E.
  - rewrite filter_cons_True, filter_nil, concat_app by done. cbn [concat]. rewrite app_nil_r, !zlen_app, !zlen_cons.
    f_equal; try (f_equal; change (zlen []) with 0; lia). by destruct dump.
  - rewrite filter_cons_False, filter_nil, app_nil_r, !zlen_app by congruence. f_equal. f_equal. rewrite zlen_cons. change (zlen []) with 0. lia.
Qed.

Lemma tally_all dump ms : fold_left (tally dump) ms count_zero = counted dump ms.
Proof.
  induction ms as [|m ms IH] using rev_ind; [by destruct dump|]. rewrite fold_left_app, IH. apply tally_counted.
Qed.

Lemma parse_rtsps_url_base url_text url : parse_rtsps_url url_text = Ok url -> u_base url = url_text.
Proof.
  unfold parse_rtsps_url. destruct (negb _); [done|]. destruct (str_find _ _ _) as [i|]; [|done].
  destruct (match find_last_if _ _ with Some _ => _ | None => _ end) as [[h p]|]; [|done]. cbn [mbind result_bind].
  destruct (_ || _); [done|]. by intros [= <-].
Qed.

(** C6: The test client and a session of the server work together: however the network
    cuts the answers into reads, the client's OPTIONS, DESCRIBE, SETUP and PLAY for a
    registered channel are all answered with success, so that the session plays the channel
    on the transport and under the session id the client read from the answers; the client
    then counts exactly the interleaved packets, their payload bytes and the other messages
    among what it is sent, however that is cut, dumps exactly those packets, and its
    TEARDOWN closes the session. *)
Theorem test_client_plays {T} `{!Transport T} `{!Reliable T} cfg sets rnd cut host c ch (s : Sess (T := T)) url
    dump_path os fd closed events datas lim ms :
  let base := $"rtsps://" ++ host ++ $"/ch" ++ to_string c in
  (forall data, concat (cut data) = data /\ Forall (fun chunk => chunk <> []) (cut data)) ->
  find_channel (channels cfg) c = Some ch -> 1 <= c <= 4 ->
  Forall (fun x => x <> 47 /\ is_space x = false) host -> parse_rtsps_url base = Ok url -> client_connect os = Some (Ok fd, closed) ->
  zlen (codec_fmtp sets c (lc_codec ch)) + 256 <= int_max -> zlen base + 256 <= max_header cfg ->
  0 <= max_body cfg /\ max_header cfg + max_body cfg < 18446744073709551616 ->
  waits s -> se_control s = initial_control ->
  Forall2 (fun ev data => event_bytes ev = Some data) events datas -> Forall (message_ok lim) ms -> concat datas = concat ms ->
  exists session s1 s2 reads,
    client_session (server_exchange cfg sets rnd cut) base {| c_buffer := []; c_reads := []; c_peer := s |} =
      Some (Ok session, {| c_buffer := []; c_reads := []; c_peer := s1 |}) /\
    m_playing (se_media s1) = true /\
    se_control s1 = {| phase := Playing; session_id := session; channel_id := c; rtp_channel := 0; rtcp_channel := 1 |} /\
    client_body (server_exchange cfg sets rnd cut) base dump_path os true (events ++ [NothingYet])
      {| c_buffer := []; c_reads := []; c_peer := s |} =
      Some (Ok (counted (negb (is_empty dump_path)) ms), {| c_buffer := []; c_reads := reads; c_peer := s2 |}) /\
    se_control s2 = with_phase Closed (se_control s1) /\ se_connected s2 = false.
Proof.
  intros base Hcut Hch Hc Hhost Hurl Hos Hf Hb Hl Hw Hini He Hok E.
  destruct (client_session_plays cfg sets rnd cut Hcut host c ch Hch Hc Hhost Hf Hb Hl s Hw Hini) as (s1 & session & Es & W1 & P1 & C1 & Hhex & Hlen).
  fold base in Es. destruct (step_teardown cfg sets rnd cut Hcut host c ch Hch Hc Hhost Hf Hb Hl s1 session W1) as (reads & s2 & Et & Ct & Cn); [by rewrite C1|done|done|].
  fold base in Et. exists session, s1, s2, reads. split_and!; try done.
  unfold client_body. rewrite Hurl, Hos. unfold mbind at 1, act_bind at 1, lift at 1, mbind at 1, act_bind at 1, defined at 1. cbn [fmap option_fmap option_map fst].
  unfold mbind at 1, act_bind at 1, lift at 1.
  rewrite (parse_rtsps_url_base _ _ Hurl). unfold mbind at 1, act_bind at 1. rewrite Es.
  unfold mbind at 1, act_bind at 1, get at 1. cbv zeta. rewrite andb_false_r. cbn [c_reads c_buffer fmap list_fmap app].
  rewrite (count_messages lim _ events datas ms []) by done. rewrite tally_all.
  unfold mbind at 1, act_bind at 1, lift at 1, mbind at 1, act_bind at 1, modify at 1, mbind at 1, act_bind at 1, client_write at 1.
  cbn [c_peer c_buffer c_reads]. by rewrite Et.
Qed.

Definition single_bytes (data : bytes) : list bytes := (fun b => [b]) <$> data.

(** Two packets, cut inside the header of the first. *)
Definition demo_packets : list bytes := [[36; 0; 0; 2; 128; 96]; [36; 1; 0; 1; 7]].
Definition demo_events : list CountEvent := [ReadBytes [36; 0; 0]; WantIo; ReadBytes [2; 128; 96; 36; 1; 0; 1]; NothingYet; ReadBytes [7]].

(** The second of two addresses connects. *)
Definition demo_connect : ConnectOs :=
  {| co_addresses := inr [(3, false); (4, true)]; co_ctx_new := true; co_ssl_new := true; co_handshake := [HsWant; HsDone] |}.

Lemma test_client_plays_witness :
  exists session s1 s2 reads,
    client_session (server_exchange demo_config demo_sets (fun _ => (1, 2)) single_bytes) $"rtsps://10.0.0.2:8554/ch1"
      {| c_buffer := []; c_reads := []; c_peer := new_session demo_media two_bytes |} =
      Some (Ok session, {| c_buffer := []; c_reads := []; c_peer := s1 |}) /\
    phase (se_control s1) = Playing /\
    client_body (server_exchange demo_config demo_sets (fun _ => (1, 2)) single_bytes) $"rtsps://10.0.0.2:8554/ch1" $"dump.bin" demo_connect true
      (demo_events ++ [NothingYet]) {| c_buffer := []; c_reads := []; c_peer := new_session demo_media two_bytes |} =
      Some (Ok {| rc_packets := 2; rc_bytes := 3; rc_messages := 0; rc_dump := concat demo_packets |},
            {| c_buffer := []; c_reads := reads; c_peer := s2 |}) /\
    phase (se_control s2) = Closed.
Proof.
  destruct (test_client_plays demo_config demo_sets (fun _ => (1, 2)) single_bytes $"10.0.0.2:8554" 1 {| lc_channel_id := 1; lc_codec := H264 |}
    (new_session demo_media two_bytes) {| u_host := $"10.0.0.2"; u_port := 8554; u_path := $"/ch1"; u_base := $"rtsps://10.0.0.2:8554/ch1" |}
    $"dump.bin" demo_connect 4 [3] demo_events [[36; 0; 0]; []; [2; 128; 96; 36; 1; 0; 1]; []; [7]] demo_limits demo_packets)
    as (session & s1 & s2 & reads & H1 & _ & H3 & H4 & H5 & _).
  - intros data. unfold single_bytes. split; [induction data as [|b data IH]; [done|cbn; by f_equal]|].
    apply Forall_fmap, Forall_true. done.
  - reflexivity.
  - lia.
  - apply (bool_decide_unpack _). vm_compute. exact I.
  - vm_compute. reflexivity.
  - reflexivity.
  - vm_compute. congruence.
  - vm_compute. congruence.
  - vm_compute. split; congruence.
  - repeat split.
  - reflexivity.
  - repeat constructor.
  - apply Forall_cons. split; [right; by eexists 0, 0, 2, [128; 96]|]. apply Forall_cons. split; [right; by eexists 1, 0, 1, [7]|]. constructor.
  - reflexivity.
  - exists session, s1, s2, reads. split_and!; [exact H1|by rewrite H3|exact H4|by rewrite H5].
Defined.
