(* ===== verification/Threads.v ===== *)
(** * The threads of the live server (src/live/live_rtsp_server.cpp: ClientConnection,
    accept_loop, run_session, start, stop)

    The server with everything that runs in it, as one transition system: the listener
    threads in [accept_loop], the session threads in [run_session], the frames that other
    threads hand to [on_frame], and the calls of [start] and [stop].  A label says who
    moves and what the outside answers; [live_step] makes the move and gives what can be
    observed of it.  A session moves in half turns (the read with its requests, then the
    queue), so frames arrive between any two of them; the test of [running_] and
    [connected] belongs to the half turn that follows it, so that a [stop] that falls in
    between acts as one right after that half turn, and the requests one read completes
    are handled in one step.  [Transport] stands for the connection of each client. *)

From stdpp Require Import gmap.
From S2P Require Import Prelude CStr Parser Rtp FrameQueue Control LiveServer Session.

(** ** What can be observed *)

(** What a session holds: the descriptor of its connection and its SSL object. *)
Inductive Resource := Fd (fd : Z) | Ssl (id : nat).

#[export] Instance Resource_eq_dec : EqDecision Resource.
Proof. solve_decision. Defined.
#[export] Instance Resource_countable : Countable Resource.
Proof.
  apply (inj_countable' (fun r => match r with Fd z => inl z | Ssl n => inr n end)
                        (fun r => match r with inl z => Fd z | inr n => Ssl n end)).
  by intros [].
Defined.

(** A frame the server takes, and a frame a session sends. *)
Inductive Obs :=
| Acquire (r : Resource)
| Release (r : Resource)
| Publish (f : OwnedLiveFrame)
| Send (id : nat) (f : OwnedLiveFrame).

(** ** Connections *)

(** [SSL_new] and [SSL_accept]. *)
Inductive SslOutcome := SslNewFails | HandshakeFails | HandshakeDone.

(** The constructor of [ClientConnection]; [None] for a plain connection. *)
Definition connection_new (id : nat) (tls : option SslOutcome) : result unit * list Obs :=
  match tls with
  | None => (Ok tt, [])
  | Some SslNewFails => (Throw $"SSL_new failed", [])
  | Some HandshakeFails => (Throw $"TLS handshake failed", [Acquire (Ssl id); Release (Ssl id)])
  | Some HandshakeDone => (Ok tt, [Acquire (Ssl id)])
  end.

(** [if (fd >= 0) ::close(fd);] *)
Definition release_fd (fd : Z) : list Obs := if fd >=? 0 then [Release (Fd fd)] else [].

(** The destructor of [ClientConnection]. *)
Definition connection_free (id : nat) (fd : Z) (tls : bool) : list Obs :=
  (if tls then [Release (Ssl id)] else []) ++ release_fd fd.

Section Threads.
Context {T : Type} `{Transport T}.

(** ** State *)

(** A session thread: not begun; in its loop, before the [select] or (when [sending])
    before it looks at the queue; hanging in the message loop; past the loop; over. *)
Inductive Thread :=
| Created (fd : Z) (tls : bool)
| Serving (fd : Z) (tls : bool) (sending : bool) (sess : Sess (T := T))
| Hanging (fd : Z) (tls : bool)
| Leaving (fd : Z) (tls : bool)
| Over.

(** [l_running] is [running_]; [l_accepting] the listener threads that are in their loop;
    [l_stopping] holds between the two parts of [stop]; [l_aborted] after [std::terminate]. *)
Record Live := {
  l_server : Server;
  l_running : bool;
  l_stopping : bool;
  l_aborted : bool;
  l_accepting : list (Z * bool);
  l_threads : gmap nat Thread
}.

Definition with_server (s : Server) (l : Live) : Live :=
  {| l_server := s; l_running := l_running l; l_stopping := l_stopping l; l_aborted := l_aborted l;
     l_accepting := l_accepting l; l_threads := l_threads l |}.
Definition with_thread_state (id : nat) (t : Thread) (l : Live) : Live :=
  {| l_server := l_server l; l_running := l_running l; l_stopping := l_stopping l; l_aborted := l_aborted l;
     l_accepting := l_accepting l; l_threads := <[id := t]> (l_threads l) |}.
Definition with_accepting (a : list (Z * bool)) (l : Live) : Live :=
  {| l_server := l_server l; l_running := l_running l; l_stopping := l_stopping l; l_aborted := l_aborted l;
     l_accepting := a; l_threads := l_threads l |}.
Definition with_flags (running stopping aborted : bool) (l : Live) : Live :=
  {| l_server := l_server l; l_running := running; l_stopping := stopping; l_aborted := aborted;
     l_accepting := l_accepting l; l_threads := l_threads l |}.

(** The loop condition of both kinds of threads. *)
Definition keeps_going (l : Live) : bool := l_running l && s_started (l_server l).

Definition thread_fd (t : Thread) : option Z :=
  match t with
  | Created fd _ | Serving fd _ _ _ | Hanging fd _ | Leaving fd _ => Some fd
  | Over => None
  end.

(** ** Moves of a session thread *)

(** [run_session] up to its loop. *)
Definition session_begin (id : nat) (fd : Z) (tls : bool) (ssl : SslOutcome) (rnd : nat -> Z * Z) (t : T) (l : Live)
    : list Obs * Live :=
  let cfg := s_config (l_server l) in
  let draw n := random_u32 (rnd n).1 (rnd n).2 in
  match media_new (client_queue_frames cfg) (client_queue_bytes cfg) (draw 0%nat) (draw 1%nat) (draw 2%nat) with
  | Throw _ => ([], with_flags (l_running l) (l_stopping l) true l)
  | Ok media =>
    match connection_new id (if tls then Some ssl else None) with
    | (Throw _, obs) => (obs ++ release_fd fd, with_thread_state id Over l)
    | (Ok _, obs) =>
      (obs, with_thread_state id (Serving fd tls false (new_session media t))
              (with_server (session_open id media (l_server l)) l))
    end
  end.

(** What the session keeps for itself; its media state and what it counted go to the server. *)
Definition keep_counts (s : Sess (T := T)) : Sess :=
  {| se_media := se_media s; se_conn := se_conn s; se_control := se_control s; se_input := se_input s;
     se_connected := se_connected s; se_first_rtp := 0; se_failures := 0 |}.

(** The outcome of a half turn: the loop goes on with [next], or it is left by a [break]
    or by an exception, which is caught behind it. *)
Definition session_moved (id : nat) (fd : Z) (tls next : bool) (r : result bool) (s' : Sess) (l : Live) : Live :=
  with_thread_state id
    (match r with Ok true => Serving fd tls next (keep_counts s') | _ => Leaving fd tls end)
    (with_server (session_update id (se_media s') (se_first_rtp s') (se_failures s') (l_server l)) l).

(** The frame the second half of a turn sends. *)
Definition next_frame (m : ClientMediaState) : option OwnedLiveFrame :=
  if m_playing m then fst (try_pop (m_queue m)) else None.
Definition sent_frame (m : ClientMediaState) : option OwnedLiveFrame :=
  match next_frame m with
  | Some f => if m_waiting_for_keyframe m && negb (f_key_frame f) then None else Some f
  | None => None
  end.

(** ** Steps *)

Inductive Label :=
| LStart (tls : TlsOs) (os_plain os_tls : ListenOs)
| LSignal
| LStopBegin
| LStopEnd
| LFrame (view : LiveEncodedFrameView)
| LAccept (i : nat) (ev : AcceptEvent) (id : nat)
| LAcceptEnd (i : nat)
| LSession (id : nat) (ssl : SslOutcome) (rnd : nat -> Z * Z) (t : T)
| LRead (id : nat) (ev : ReadEvent) (rnd : nat -> Z * Z)
| LNext (id : nat) (steady system : Z)
| LLeave (id : nat)
| LFinish (id : nat).

(** What the server takes of a frame. *)
Definition accepted_frame (view : LiveEncodedFrameView) (s : Server) : option OwnedLiveFrame :=
  match v_data view, registered_channel s (v_channel_id view) with
  | Some data, Some channel =>
    if is_empty data || negb (bool_decide (lc_codec channel = v_codec view)) then None else Some (own_frame view data)
  | _, _ => None
  end.

Definition is_over (t : option Thread) : bool := match t with Some Over => true | _ => false end.

Definition live_step (lb : Label) (l : Live) : option (list Obs * Live) :=
  let s := l_server l in
  if l_aborted l then None
  else
    match lb with
    | LStart tls os_plain os_tls =>
      if l_stopping l then None
      else
        let s' := snd (start tls os_plain os_tls s) in
        Some ([], with_accepting (l_accepting l ++ drop (length (s_listeners s)) (s_listeners s')) (with_server s' l))
    | LSignal => Some ([], with_flags false (l_stopping l) (l_aborted l) l)
    | LStopBegin =>
      if l_stopping l then None
      else if s_started s then Some ([], with_server (stop_begin s) (with_flags (l_running l) true (l_aborted l) l))
      else Some ([], l)
    | LStopEnd =>
      if l_stopping l && is_empty (l_accepting l) && forallb (fun id => is_over (l_threads l !! id)) (s_session_threads s)
      then Some ([], with_server (stop_end s) (with_flags (l_running l) false (l_aborted l) l))
      else None
    | LFrame view =>
      Some (match accepted_frame view s with Some f => [Publish f] | None => [] end, with_server (on_frame view s) l)
    | LAccept i ev id =>
      match l_accepting l !! i, l_threads l !! id with
      | Some (_, tls), None =>
        match accept_turn (l_running l) ev id s with
        | None => None
        | Some (None, s') => Some ([], with_server s' l)
        | Some (Some fd, s') =>
          if bool_decide (map_Forall (fun _ t => thread_fd t <> Some fd) (l_threads l))
          then Some ([Acquire (Fd fd)], with_thread_state id (Created fd tls) (with_server s' l))
          else None
        end
      | _, _ => None
      end
    | LAcceptEnd i =>
      if keeps_going l then None
      else match l_accepting l !! i with
           | Some _ => Some ([], with_accepting (delete i (l_accepting l)) l)
           | None => None
           end
    | LSession id ssl rnd t =>
      match l_threads l !! id with
      | Some (Created fd tls) => Some (session_begin id fd tls ssl rnd t l)
      | _ => None
      end
    | LRead id ev rnd =>
      match l_threads l !! id, s_media s !! id with
      | Some (Serving fd tls false sess), Some m =>
        if se_connected sess && keeps_going l then
          match read_part (s_config s) (s_sets s) ev rnd (set_media m sess) with
          | None => Some ([], with_thread_state id (Hanging fd tls) l)
          | Some (r, s') => Some ([], session_moved id fd tls true r s' l)
          end
        else None
      | _, _ => None
      end
    | LNext id steady system =>
      match l_threads l !! id, s_media s !! id with
      | Some (Serving fd tls true sess), Some m =>
        match send_next (s_config s) (s_sets s) steady system (set_media m sess) with
        | None => None
        | Some (r, s') =>
          Some (match sent_frame m with Some f => [Send id f] | None => [] end, session_moved id fd tls false r s' l)
        end
      | _, _ => None
      end
    | LLeave id =>
      match l_threads l !! id with
      | Some (Serving fd tls false sess) =>
        if se_connected sess && keeps_going l then None else Some ([], with_thread_state id (Leaving fd tls) l)
      | _ => None
      end
    | LFinish id =>
      match l_threads l !! id with
      | Some (Leaving fd tls) =>
        Some (connection_free id fd tls, with_thread_state id Over (with_server (session_close id s) l))
      | _ => None
      end
    end.

Fixpoint live_run (labels : list Label) (l : Live) : option (list Obs * Live) :=
  match labels with
  | [] => Some ([], l)
  | lb :: rest =>
    '(obs, l) ← live_step lb l;
    '(obs', l) ← live_run rest l;
    Some (obs ++ obs', l)
  end.

(** A server that has just been constructed. *)
Definition live_new (s : Server) (running : bool) : Live :=
  {| l_server := s; l_running := running; l_stopping := false; l_aborted := false; l_accepting := []; l_threads := ∅ |}.

End Threads.

(** ** The ledger of resources *)

(** Reads a trace: a resource is acquired when it is not held and released when it is. *)
Fixpoint ledger (obs : list Obs) (held : gset Resource) : option (gset Resource) :=
  match obs with
  | [] => Some held
  | Acquire r :: rest => if bool_decide (r ∈ held) then None else ledger rest ({[r]} ∪ held)
  | Release r :: rest => if bool_decide (r ∈ held) then ledger rest (held ∖ {[r]}) else None
  | _ :: rest => ledger rest held
  end.

Lemma ledger_app obs1 obs2 held : ledger (obs1 ++ obs2) held = (ledger obs1 held ≫= ledger obs2).
Proof.
  revert held. induction obs1 as [|[r|r|f|id f] obs1 IH]; intros held; cbn [ledger app]; try done.
  - by destruct (bool_decide _).
  - by destruct (bool_decide _).
Qed.

Lemma ledger_acquire r held : r ∉ held -> ledger [Acquire r] held = Some ({[r]} ∪ held).
Proof. intros Hr. cbn [ledger]. by rewrite bool_decide_eq_false_2. Qed.
Lemma ledger_release r held : r ∈ held -> ledger [Release r] held = Some (held ∖ {[r]}).
Proof. intros Hr. cbn [ledger]. by rewrite bool_decide_eq_true_2. Qed.

Section Invariant.
Context {T : Type} `{Transport T}.
Implicit Types (l : Live (T := T)) (t : Thread (T := T)).

(** What matters of a thread for the resources: its descriptor, whether it has an SSL
    object, and whether its session is registered. *)
Abbreviation shape := (option Z * bool * bool)%type.

Definition thread_shape t : shape :=
  match t with
  | Created fd _ => (Some fd, false, false)
  | Serving fd tls _ _ | Hanging fd tls | Leaving fd tls => (Some fd, tls, true)
  | Over => (None, false, false)
  end.

Definition shapes l : gmap nat shape := thread_shape <$> l_threads l.

(** Who holds what. *)
Definition owned l (r : Resource) : Prop :=
  match r with
  | Fd fd => exists id ssl b, shapes l !! id = Some (Some fd, ssl, b)
  | Ssl id => exists fd b, shapes l !! id = Some (Some fd, true, b)
  end.

(** No thread, no listener. *)
Definition quiet l : Prop :=
  l_accepting l = [] /\ idle (l_server l) /\ forall id sh, shapes l !! id = Some sh -> sh = (None, false, false).

Record live_ok (config : LiveRtspServerConfig) (held : gset Resource) l : Prop := {
  lo_server : server_ok config (l_server l);
  lo_media : forall id, is_Some (s_media (l_server l) !! id) <-> exists fd ssl, shapes l !! id = Some (Some fd, ssl, true);
  lo_clients : forall id, id ∈ s_clients (l_server l) -> exists fd ssl b, shapes l !! id = Some (fd, ssl, b) /\ (fd = None \/ b = true);
  lo_joined : forall id fd ssl b, shapes l !! id = Some (Some fd, ssl, b) -> id ∈ s_session_threads (l_server l) /\ 0 <= fd;
  lo_known : forall id, id ∈ s_session_threads (l_server l) -> is_Some (shapes l !! id);
  lo_distinct : forall id1 id2 fd ssl1 ssl2 b1 b2, shapes l !! id1 = Some (Some fd, ssl1, b1) ->
    shapes l !! id2 = Some (Some fd, ssl2, b2) -> id1 = id2;
  lo_held : forall r, r ∈ held <-> owned l r;
  lo_stopping : l_stopping l = true ->
    s_started (l_server l) = false /\ s_plain_fd (l_server l) = -1 /\ s_tls_fd (l_server l) = -1;
  lo_quiet : s_started (l_server l) = false -> l_stopping l = false -> quiet l
}.

Lemma shapes_insert id t l : shapes (with_thread_state id t l) = <[id := thread_shape t]> (shapes l).
Proof. unfold shapes. cbn. by rewrite fmap_insert. Qed.

Lemma shapes_lookup id t l : l_threads l !! id = Some t -> shapes l !! id = Some (thread_shape t).
Proof. intros Ht. unfold shapes. by rewrite lookup_fmap, Ht. Qed.

(** A step that moves no resource. *)
Lemma live_ok_ext config held l l' :
  live_ok config held l -> server_ok config (l_server l') -> shapes l' = shapes l ->
  (forall id, is_Some (s_media (l_server l') !! id) <-> is_Some (s_media (l_server l) !! id)) ->
  (forall id, id ∈ s_clients (l_server l') -> id ∈ s_clients (l_server l)) ->
  s_session_threads (l_server l') = s_session_threads (l_server l) ->
  (l_stopping l' = true ->
   s_started (l_server l') = false /\ s_plain_fd (l_server l') = -1 /\ s_tls_fd (l_server l') = -1) ->
  (s_started (l_server l') = false -> l_stopping l' = false -> quiet l') -> live_ok config held l'.
Proof.
  intros [H1 H2 H3 H4 HK H5 H6 _ _] Hs Hsh Hm Hc Hj Hst Hq. constructor; try done.
  - intros id. by rewrite Hm, H2, Hsh.
  - intros id Hid%Hc. rewrite Hsh. by apply H3.
  - intros id fd ssl b. rewrite Hsh, Hj. apply H4.
  - rewrite Hsh, Hj. apply HK.
  - rewrite Hsh. apply H5.
  - intros r. rewrite H6. unfold owned. by rewrite Hsh.
Qed.

(** What a step of the server itself leaves alone. *)
Lemma on_frame_shape view s :
  s_started (on_frame view s) = s_started s /\ s_plain_fd (on_frame view s) = s_plain_fd s /\
  s_tls_fd (on_frame view s) = s_tls_fd s /\ s_listeners (on_frame view s) = s_listeners s /\
  s_session_threads (on_frame view s) = s_session_threads s /\ s_config (on_frame view s) = s_config s /\
  (forall id, id ∈ s_clients (on_frame view s) -> id ∈ s_clients s).
Proof.
  unfold on_frame. destruct (v_data view); [|done]. destruct (registered_channel _ _); [|done]. destruct (_ || _); [done|].
  destruct (fold_left _ _ _). split_and!; try done. cbn. intros id [_ Hid]%list_elem_of_filter. done.
Qed.

Lemma on_frame_alive config view s id :
  server_ok config s -> is_Some (s_media (on_frame view s) !! id) <-> is_Some (s_media s !! id).
Proof.
  intros Hok. destruct (on_frame_cases view s) as [->|(data & channel & Hd & Hne & Hc & Hcodec)]; [done|].
  rewrite (on_frame_media view data channel s id (sv_clients _ _ Hok) (sv_alive _ _ Hok) Hd Hne Hc Hcodec).
  apply fmap_is_Some.
Qed.

(** Looking up a thread that may have changed. *)
Ltac at_thread k id :=
  destruct (decide (k = id)) as [->|];
  [rewrite ?lookup_insert_eq in *; cbn [thread_shape] in * |rewrite ?(lookup_insert_ne _ id k) in * by done].

(** A descriptor is accepted for a new thread. *)
Lemma accept_ok config held l id fd tls :
  live_ok config held l -> l_threads l !! id = None -> 0 <= fd -> s_started (l_server l) = true ->
  map_Forall (fun _ t => thread_fd t <> Some fd) (l_threads l) ->
  Fd fd ∉ held /\
  live_ok config ({[Fd fd]} ∪ held)
    (with_thread_state id (Created fd tls)
       (with_server (with_session_threads (l_server l) (s_session_threads (l_server l) ++ [id])) l)).
Proof.
  intros [H1 H2 H3 H4 HK H5 H6 H7 H8] Hid Hfd Hst Hnew.
  assert (shapes l !! id = None) as Hsid by (unfold shapes; by rewrite lookup_fmap, Hid).
  assert (forall k ssl b, shapes l !! k <> Some (Some fd, ssl, b)) as Hfree.
  { intros k ssl b. unfold shapes. rewrite lookup_fmap. destruct (l_threads l !! k) as [t|] eqn:E; [|done].
    specialize (Hnew k t E). cbn. destruct t; cbn in *; congruence. }
  split; [intros (k & ssl & b & Hk)%H6; by apply Hfree in Hk|].
  constructor; cbn [l_server with_thread_state with_server l_stopping l_accepting]; rewrite ?shapes_insert; unfold shapes;
    cbn [l_threads with_server]; fold (shapes l).
  - auto with rtsps.
  - intros k. cbn. rewrite H2. at_thread k id; [|done]. rewrite Hsid. naive_solver.
  - intros k Hk. cbn in Hk. apply H3 in Hk as (fd' & ssl & b & Hk & Hor). at_thread k id; [by rewrite Hsid in Hk|eauto 10].
  - intros k fd' ssl b Hk. cbn. rewrite elem_of_app, list_elem_of_singleton. at_thread k id.
    + injection Hk as <- <- <-. auto.
    + apply H4 in Hk as [? ?]. auto.
  - intros k. cbn. rewrite elem_of_app, list_elem_of_singleton. intros Hk. at_thread k id; [by eexists|].
    destruct Hk as [Hk|Hk]; [by apply HK|done].
  - intros k1 k2 fd' s1 s2 b1 b2 Hk1 Hk2. at_thread k1 id; at_thread k2 id; try done.
    + injection Hk1 as <- <- <-. by apply Hfree in Hk2.
    + injection Hk2 as <- <- <-. by apply Hfree in Hk1.
    + by eapply H5.
  - intros r. rewrite elem_of_union, elem_of_singleton, H6. unfold owned. rewrite shapes_insert. unfold shapes. cbn. fold (shapes l).
    destruct r as [fd'|k]; cbn.
    + split.
      * intros [[= ->]|(k & ssl & b & Hk)]; [exists id; rewrite lookup_insert_eq; eauto|].
        exists k. rewrite lookup_insert_ne; [eauto|]. intros <-. by rewrite Hsid in Hk.
      * intros (k & ssl & b & Hk). at_thread k id; [injection Hk as <- <- <-; by left|right; eauto].
    + split.
      * intros [[=]|(fd' & b & Hk)]. exists fd', b. rewrite lookup_insert_ne; [done|]. intros <-. by rewrite Hsid in Hk.
      * intros (fd' & b & Hk). right. at_thread k id; [done|eauto].
  - done.
  - cbn. congruence.
Qed.

(** A thread that was created registers its session. *)
Lemma session_open_ok config held l id fd tls media sess :
  live_ok config held l -> l_threads l !! id = Some (Created fd tls) ->
  Ssl id ∉ held /\
  live_ok config (if tls then {[Ssl id]} ∪ held else held)
    (with_thread_state id (Serving fd tls false sess) (with_server (session_open id media (l_server l)) l)).
Proof.
  intros [H1 H2 H3 H4 HK H5 H6 H7 H8] Hid. apply shapes_lookup in Hid as Hsid. cbn in Hsid.
  assert (Ssl id ∉ held) as Hssl by (intros (fd' & b & Hk)%H6; congruence). split; [done|].
  assert (server_ok config (session_open id media (l_server l))) as Hok.
  { eapply server_step_ok; [done|]. apply ss_open.
    - apply eq_None_not_Some. intros (fd' & ssl & Hk)%H2. congruence.
    - intros (fd' & ssl & b & Hk & [->| ->])%H3; congruence. }
  constructor; cbn [l_server with_thread_state with_server l_stopping l_accepting]; rewrite ?shapes_insert; unfold shapes;
    cbn [l_threads with_server]; fold (shapes l).
  - done.
  - intros k. cbn. at_thread k id; [|by rewrite H2]. split; [eauto|]. intros _. by eexists.
  - intros k Hk. cbn in Hk. rewrite elem_of_app, list_elem_of_singleton in Hk. at_thread k id; [eauto 10|].
    destruct Hk as [Hk|Hk]; [by apply H3|done].
  - intros k fd' ssl b Hk. cbn. at_thread k id; [injection Hk as <- <- <-|]; by eapply H4.
  - intros k Hk. at_thread k id; [by eexists|by apply HK].
  - intros k1 k2 fd' s1 s2 b1 b2 Hk1 Hk2. at_thread k1 id; at_thread k2 id; try done.
    + injection Hk1 as <- <- <-. by eapply H5.
    + injection Hk2 as <- <- <-. by eapply H5.
    + by eapply H5.
  - intros r. unfold owned. rewrite shapes_insert. unfold shapes. cbn. fold (shapes l). destruct r as [fd'|k].
    + transitivity (Fd fd' ∈ held); [destruct tls; set_solver|]. rewrite H6. cbn. split.
      * intros (k & ssl & b & Hk). exists k. at_thread k id; [rewrite Hsid in Hk; injection Hk as <- _ _|]; eauto.
      * intros (k & ssl & b & Hk). exists k. at_thread k id; [injection Hk as <- _ _|]; eauto.
    + at_thread k id.
      * destruct tls; [|split; [done|]; by intros (? & ? & [=])]. split; [eauto|set_solver].
      * transitivity (Ssl k ∈ held); [destruct tls; set_solver|]. apply H6.
  - done.
  - cbn. intros Hs Hst. destruct (H8 Hs Hst) as (_ & _ & Hq). apply Hq in Hsid. congruence.
Qed.

(** What a thread gives back at its end. *)
Definition thread_obs (id : nat) t : list Obs :=
  match t with
  | Created fd _ => release_fd fd
  | Serving fd tls _ _ | Hanging fd tls | Leaving fd tls => connection_free id fd tls
  | Over => []
  end.

Lemma ledger_thread_obs config held l id t fd ssl b :
  live_ok config held l -> l_threads l !! id = Some t -> thread_shape t = (Some fd, ssl, b) ->
  ledger (thread_obs id t) held = Some (held ∖ {[Fd fd]} ∖ (if ssl then {[Ssl id]} else ∅)).
Proof.
  intros Hok Hid Ht. apply shapes_lookup in Hid as Hsid. rewrite Ht in Hsid.
  assert (Fd fd ∈ held) as Hfd by (apply (lo_held _ _ _ Hok); cbn; eauto).
  pose proof (proj2 (lo_joined _ _ _ Hok _ _ _ _ Hsid)) as Hpos.
  assert (release_fd fd = [Release (Fd fd)]) as Hclose by (unfold release_fd; by replace (fd >=? 0) with true by lia).
  assert (forall tls : bool, (tls = true -> Ssl id ∈ held) -> ledger (connection_free id fd tls) held =
    Some (held ∖ {[Fd fd]} ∖ (if tls then {[Ssl id]} else ∅))) as Hfree.
  { intros tls Htls. unfold connection_free. rewrite ledger_app, Hclose. destruct tls; cbn [ledger mbind option_bind].
    - rewrite (bool_decide_eq_true_2 (_ ∈ held)) by auto. cbn [mbind option_bind].
      rewrite bool_decide_eq_true_2 by set_solver. f_equal. set_solver.
    - rewrite bool_decide_eq_true_2 by done. f_equal. set_solver. }
  destruct t as [fd' tls|fd' tls sd ss|fd' tls|fd' tls|]; cbn [thread_shape thread_obs] in *; try done.
  - injection Ht as <- <- <-. rewrite Hclose, ledger_release by done. f_equal. set_solver.
  - injection Ht as <- <- <-. apply Hfree. intros ->. apply (lo_held _ _ _ Hok). cbn. eauto.
  - injection Ht as <- <- <-. apply Hfree. intros ->. apply (lo_held _ _ _ Hok). cbn. eauto.
  - injection Ht as <- <- <-. apply Hfree. intros ->. apply (lo_held _ _ _ Hok). cbn. eauto.
Qed.

(** A thread ends: its session is counted out when it was registered. *)
Lemma thread_over_ok config held l id t fd ssl b s' :
  live_ok config held l -> l_threads l !! id = Some t -> thread_shape t = (Some fd, ssl, b) ->
  s' = (if b then session_close id (l_server l) else l_server l) ->
  live_ok config (held ∖ {[Fd fd]} ∖ (if ssl then {[Ssl id]} else ∅)) (with_thread_state id Over (with_server s' l)).
Proof.
  intros [H1 H2 H3 H4 HK H5 H6 H7 H8] Hid Ht ->. apply shapes_lookup in Hid as Hsid. rewrite Ht in Hsid.
  set (s' := if b then _ else _).
  assert (s_media s' = delete id (s_media (l_server l)) /\ s_clients s' = s_clients (l_server l) /\
          s_session_threads s' = s_session_threads (l_server l) /\ s_started s' = s_started (l_server l) /\
          s_plain_fd s' = s_plain_fd (l_server l) /\ s_tls_fd s' = s_tls_fd (l_server l)) as (E1 & E2 & E3 & E4 & E5 & E6).
  { unfold s'. destruct b; [done|]. split_and!; try done. symmetry. apply delete_id, eq_None_not_Some.
    intros (fd' & ssl' & Hk)%H2. congruence. }
  assert (server_ok config s') as Hok.
  { unfold s'. destruct b; [|done]. destruct (proj2 (H2 id)) as [m Hm]; [eauto|].
    eapply server_step_ok; [done|]. by eapply ss_close. }
  clearbody s'.
  constructor; cbn [l_server with_thread_state with_server l_stopping l_accepting]; rewrite ?shapes_insert; unfold shapes;
    cbn [l_threads with_server]; fold (shapes l); rewrite ?E1, ?E2, ?E3, ?E4, ?E5, ?E6.
  - done.
  - intros k. at_thread k id; [rewrite lookup_delete_eq; split; [by intros []|naive_solver]|].
    rewrite lookup_delete_ne by done. apply H2.
  - intros k Hk%H3. at_thread k id; [eauto 10|done].
  - intros k fd' ssl' b' Hk. at_thread k id; [done|]. by eapply H4.
  - intros k Hk. at_thread k id; [by eexists|by apply HK].
  - intros k1 k2 fd' s1 s2 b1 b2 Hk1 Hk2. at_thread k1 id; at_thread k2 id; try done. by eapply H5.
  - intros r. rewrite !elem_of_difference, H6. unfold owned. rewrite shapes_insert. unfold shapes. cbn. fold (shapes l).
    destruct r as [fd'|k]; split.
    + intros [[(k & ssl' & b' & Hk) Hfd] _]. exists k. at_thread k id; [|eauto].
      rewrite Hsid in Hk. injection Hk as <- _ _. set_solver.
    + intros (k & ssl' & b' & Hk). at_thread k id; [done|]. split; [split; [eauto|]|destruct ssl; set_solver].
      intros [= ->]%elem_of_singleton. assert (k = id) by by eapply H5. done.
    + intros [[(fd' & b' & Hk) _] Hs]. at_thread k id; [|eauto]. rewrite Hsid in Hk. injection Hk as -> -> ->. set_solver.
    + intros (fd' & b' & Hk). at_thread k id; [done|]. split; [split; [eauto|set_solver]|destruct ssl; set_solver].
  - done.
  - intros Hs Hst. destruct (H8 Hs Hst) as (_ & _ & Hq). apply Hq in Hsid. congruence.
Qed.

(** A session in its loop: only its own state and the counters change. *)
Lemma session_half_turn_ok config held l id t t' m' k n fd ssl m :
  live_ok config held l -> l_threads l !! id = Some t -> s_media (l_server l) !! id = Some m ->
  thread_shape t = (Some fd, ssl, true) -> thread_shape t' = thread_shape t ->
  live_ok config held (with_thread_state id t' (with_server (session_update id m' k n (l_server l)) l)).
Proof.
  intros Hok Hid Hm Ht Ht'. eapply live_ok_ext; [exact Hok|..].
  - eapply server_step_ok; [apply Hok|]. by eapply ss_update.
  - rewrite shapes_insert, Ht'. apply insert_id. by apply shapes_lookup.
  - intros j. cbn. destruct (decide (j = id)) as [->|]; [rewrite lookup_insert_eq, Hm|by rewrite lookup_insert_ne]. by split.
  - done.
  - done.
  - cbn. apply Hok.
  - cbn. intros Hs Hst. destruct (lo_quiet _ _ _ Hok Hs Hst) as (_ & _ & Hq). apply shapes_lookup in Hid.
    apply Hq in Hid. congruence.
Qed.

Lemma thread_step_ok config held l id t t' fd ssl :
  live_ok config held l -> l_threads l !! id = Some t -> thread_shape t = (Some fd, ssl, true) ->
  thread_shape t' = thread_shape t -> live_ok config held (with_thread_state id t' l).
Proof.
  intros Hok Hid Ht Ht'. eapply live_ok_ext; [exact Hok|..]; try done.
  - apply Hok.
  - rewrite shapes_insert, Ht'. apply insert_id. by apply shapes_lookup.
  - apply Hok.
  - cbn. intros Hs Hst. destruct (lo_quiet _ _ _ Hok Hs Hst) as (_ & _ & Hq). apply shapes_lookup in Hid.
    apply Hq in Hid. congruence.
Qed.

Lemma session_begin_ok config held l id fd tls ssl rnd (tr : T) :
  live_ok config held l -> l_threads l !! id = Some (Created fd tls) ->
  let '(obs, l') := session_begin id fd tls ssl rnd tr l in
  exists held', ledger obs held = Some held' /\ live_ok config held' l'.
Proof.
  intros Hok Hid. unfold session_begin. cbv zeta. destruct (media_new _ _ _ _ _) as [media|w].
  2: { exists held. split; [done|]. destruct Hok. by constructor. }
  destruct (session_open_ok config held l id fd tls media (new_session media tr) Hok Hid) as [Hssl Hopen].
  pose proof (ledger_thread_obs config held l id _ fd false false Hok Hid eq_refl) as Hl. cbn [thread_obs] in Hl.
  pose proof (thread_over_ok config held l id _ fd false false _ Hok Hid eq_refl eq_refl) as Ho. cbn iota in Ho.
  replace (with_server (l_server l) l) with l in Ho by by destruct l.
  destruct tls; cbn [connection_new]; [destruct ssl; cbn [connection_new]|].
  - cbn [app]. eauto.
  - eexists. split; [|exact Ho]. rewrite ledger_app. cbn [ledger]. rewrite bool_decide_eq_false_2 by done.
    rewrite bool_decide_eq_true_2 by set_solver. cbn [mbind option_bind].
    rewrite difference_union_distr_l_L, difference_diag_L, union_empty_l_L, (difference_disjoint_L held) by set_solver. done.
  - eexists. split; [by apply ledger_acquire|exact Hopen].
  - eexists. split; [done|exact Hopen].
Qed.

(** All threads are joined and [stop] returns. *)
Lemma stop_end_live_ok config held aborted l :
  live_ok config held l ->
  l_stopping l && is_empty (l_accepting l) && forallb (fun id => is_over (l_threads l !! id)) (s_session_threads (l_server l)) = true ->
  live_ok config held (with_server (stop_end (l_server l)) (with_flags (l_running l) false aborted l)).
Proof.
  intros Hok E.
  apply andb_true_iff in E as [[Est Ha]%andb_true_iff Hth]. rewrite forallb_forall in Hth.
  destruct (lo_stopping _ _ _ Hok Est) as (Hs1 & Hs2 & Hs3).
  assert (forall id sh, shapes l !! id = Some sh -> sh = (None, false, false)) as Hall.
  { intros id sh Hsh. pose proof Hsh as Hsh'. unfold shapes in Hsh. rewrite lookup_fmap, fmap_Some in Hsh.
    destruct Hsh as (t & Ht & ->). destruct (thread_shape t) as [[[fd|] ssl] b] eqn:Esh; [|by destruct t].
    destruct (lo_joined _ _ _ Hok _ _ _ _ Hsh') as [Hin _]. apply list_elem_of_In, Hth in Hin.
    rewrite Ht in Hin. by destruct t. }
  destruct (stop_end_shape (l_server l)) as (ctx & n & Ese).
  destruct Hok as [H1 H2 H3 H4 HK H5 H6 H7 H8]. constructor; cbn [with_server with_flags l_server l_stopping]; try done.
  - by apply stop_end_ok.
  - intros id. rewrite Ese. apply H2.
  - intros id. rewrite Ese. apply H3.
  - intros id fd ssl b Hsh. by apply Hall in Hsh.
  - rewrite Ese. by intros id ?%not_elem_of_nil.
  - intros _ _. split_and!; [cbn; by destruct (l_accepting l)|intros _; cbn; rewrite Ese; cbn; by rewrite Hs2, Hs3|exact Hall].
Qed.

Lemma live_step_ok config held l lb obs l' :
  live_ok config held l -> live_step lb l = Some (obs, l') ->
  exists held', ledger obs held = Some held' /\ live_ok config held' l'.
Proof.
  intros Hok. unfold live_step. destruct (l_aborted l); [done|].
  destruct lb as [tls o1 o2| | | |view|i ev id|i|id ssl rnd t|id ev rnd|id steady system|id|id].
  - destruct (l_stopping l) eqn:Est; [done|]. intros [= <- <-]. exists held. split; [done|].
    destruct (start_shape tls o1 o2 (l_server l)) as (st & pl & tl & ctx & n & ths & E).
    eapply live_ok_ext; [exact Hok|..]; cbn [with_accepting with_server l_server l_stopping]; rewrite ?E; try done.
    + rewrite <- E. eapply server_step_ok; [apply Hok|]. apply ss_start.
    + by rewrite Est.
    + rewrite <- E. intros Hs _. destruct (s_started (l_server l)) eqn:Es.
      { unfold start in Hs. rewrite Es in Hs. cbn in Hs. congruence. }
      destruct (lo_quiet _ _ _ Hok Es Est) as (Ha & Hi & Hq). apply (start_idle tls o1 o2) in Hi.
      unfold quiet. cbn. rewrite Ha. destruct (Hi Hs) as (_ & _ & ->). by rewrite drop_nil.
  - intros [= <- <-]. exists held. split; [done|]. destruct Hok. by constructor.
  - destruct (l_stopping l) eqn:Est; [done|]. destruct (s_started (l_server l)) eqn:Es; intros [= <- <-].
    + exists held. split; [done|]. eapply live_ok_ext; [exact Hok|..]; try done. cbn. apply stop_begin_ok, Hok.
    + by exists held.
  - destruct (_ && _ && _) eqn:E; [|done]. intros [= <- <-]. exists held. split; [done|]. by apply stop_end_live_ok.
  - intros [= <- <-]. exists held. split; [by destruct (accepted_frame _ _)|].
    destruct (on_frame_shape view (l_server l)) as (F1 & F2 & F3 & F4 & F5 & F6 & F7).
    eapply live_ok_ext; [exact Hok|..]; try done; cbn.
    + apply on_frame_ok, Hok.
    + intros id. apply (on_frame_alive config), Hok.
    + rewrite F1, F2, F3. apply Hok.
    + rewrite F1. intros Hs Hst. destruct (lo_quiet _ _ _ Hok Hs Hst) as (Ha & Hi & Hq).
      split_and!; [done|unfold idle in *; cbn; by rewrite F1, F2, F3, F4|exact Hq].
  - destruct (l_accepting l !! i) as [[lfd tls]|]; [|done]. destruct (l_threads l !! id) eqn:Hid; [done|].
    destruct (accept_turn _ _ _ _) as [[[fd|] s']|] eqn:Ea; [..|done].
    + destruct (bool_decide _) eqn:Eb; [|done]. intros [= <- <-]. apply bool_decide_eq_true in Eb.
      apply accept_turn_shape in Ea as (_ & Hs & [[[=] _]|(z & [= <-] & Hz & ->)]).
      destruct (accept_ok config held l id fd tls Hok Hid Hz Hs Eb) as [Hn Hok']. eexists. split; [by apply ledger_acquire|done].
    + intros [= <- <-]. apply accept_turn_shape in Ea as (_ & Hs & [[_ ->]|(z & [=] & _)]). exists held. split; [done|]. by destruct l.
  - destruct (keeps_going l) eqn:Eg; [done|]. destruct (l_accepting l !! i) eqn:Ei; [|done]. intros [= <- <-].
    exists held. split; [done|]. eapply live_ok_ext; [exact Hok|..]; try done; cbn; [apply Hok|apply Hok|].
    intros Hs Hst. destruct (lo_quiet _ _ _ Hok Hs Hst) as (Ha & Hi & Hq). by rewrite Ha in Ei.
  - destruct (l_threads l !! id) as [[fd tls| | | |]|] eqn:Hid; try done. intros [= E].
    pose proof (session_begin_ok config held l id fd tls ssl rnd t Hok Hid) as Hb. by rewrite E in Hb.
  - destruct (l_threads l !! id) as [[|fd tls [] sess| | |]|] eqn:Hid; try done.
    destruct (s_media _ !! id) as [m|] eqn:Hm; [|done]. destruct (_ && _); [|done].
    destruct (read_part _ _ _ _ _) as [[r s']|]; intros [= <- <-]; exists held; (split; [done|]).
    + unfold session_moved. eapply session_half_turn_ok; [done..|]. by destruct r as [[]|].
    + by eapply thread_step_ok.
  - destruct (l_threads l !! id) as [[|fd tls [] sess| | |]|] eqn:Hid; try done.
    destruct (s_media _ !! id) as [m|] eqn:Hm; [|done].
    destruct (send_next _ _ _ _ _) as [[r s']|]; intros [= <- <-]. exists held. split; [by destruct (sent_frame m)|].
    unfold session_moved. eapply session_half_turn_ok; [done..|]. by destruct r as [[]|].
  - destruct (l_threads l !! id) as [[|fd tls [] sess| | |]|] eqn:Hid; try done. destruct (_ && _); [done|].
    intros [= <- <-]. exists held. split; [done|]. by eapply thread_step_ok.
  - destruct (l_threads l !! id) as [[| | |fd tls|]|] eqn:Hid; try done. intros [= <- <-].
    eexists. split; [by apply (ledger_thread_obs config held l id _ fd tls true Hok Hid)|].
    by eapply thread_over_ok.
Qed.

Lemma live_run_ok config labels held l obs l' :
  live_ok config held l -> live_run labels l = Some (obs, l') ->
  exists held', ledger obs held = Some held' /\ live_ok config held' l'.
Proof.
  revert held l obs. induction labels as [|lb labels IH]; intros held l obs Hok; cbn [live_run].
  { intros [= <- <-]. by exists held. }
  destruct (live_step lb l) as [[obs1 l1]|] eqn:E1; cbn [mbind option_bind]; [|done].
  destruct (live_run labels l1) as [[obs2 l2]|] eqn:E2; cbn [mbind option_bind]; [|done]. intros [= <- <-].
  destruct (live_step_ok config held l lb obs1 l1 Hok E1) as (h1 & Hl1 & Hok1).
  destruct (IH h1 l1 obs2 Hok1 E2) as (h2 & Hl2 & Hok2). exists h2. by rewrite ledger_app, Hl1.
Qed.

Lemma live_new_ok config s running : server_new config = Ok s -> live_ok config ∅ (live_new s running).
Proof.
  intros Hn. assert (server_ok config s) as Hs by (apply server_reachable_ok; exists s; split; [done|apply rtc_refl]).
  assert (idle s) as Hi by (apply (server_reachable_idle config); exists s; split; [done|apply rtc_refl]).
  unfold server_new in Hn. bind_inv Hn. injection Hn as <-.
  constructor; cbn; unfold shapes; cbn; rewrite ?fmap_empty.
  - done.
  - intros id. rewrite lookup_empty. split; [by intros []|]. intros (? & ? & [=]).
  - intros id []%not_elem_of_nil.
  - intros id fd ssl b Hk. by rewrite lookup_empty in Hk.
  - by intros id ?%not_elem_of_nil.
  - intros ? ? ? ? ? ? ? Hk. by rewrite lookup_empty in Hk.
  - intros r. split; [set_solver|]. unfold owned, shapes. cbn. rewrite fmap_empty. destruct r.
    + intros (? & ? & ? & Hk). by rewrite lookup_empty in Hk.
    + intros (? & ? & Hk). by rewrite lookup_empty in Hk.
  - done.
  - intros _ _. split_and!; [done|done|]. intros id sh Hk. unfold shapes in Hk. cbn in Hk. by rewrite fmap_empty, lookup_empty in Hk.
Qed.

Lemma live_run_new config s running labels obs l :
  server_new config = Ok s -> live_run labels (live_new s running) = Some (obs, l) ->
  exists held, ledger obs ∅ = Some held /\ live_ok config held l.
Proof. intros Hn. by apply live_run_ok, live_new_ok. Qed.

(** ** When a half turn has no outcome *)

(** A session has no outcome only where the RTP clock overflows. *)
Definition returns {S A} (a : act S A) : Prop := forall s, is_Some (a s).

Lemma returns_bind {S A B} (a : act S A) (f : A -> act S B) : returns a -> (forall x, returns (f x)) -> returns (a ≫= f).
Proof. intros Ha Hf s. unfold mbind, act_bind. destruct (Ha s) as [[[x|w] s'] ->]; [apply Hf|by eexists]. Qed.

Lemma returns_write data : returns (write_conn (T := T) data).
Proof. intros s. unfold write_conn. destruct (write data (se_conn s)). by eexists. Qed.

Lemma returns_lift {S A} (r : result A) : returns (lift (S := S) r).
Proof. intros s. unfold lift. by eexists. Qed.

Lemma returns_modify {S} (f : S -> S) : returns (modify f).
Proof. intros s. by eexists. Qed.

Lemma returns_ret {S A} (a : A) : returns (mret a : act S A).
Proof. intros s. by eexists. Qed.

Lemma returns_get {S} : returns (get (S := S)).
Proof. intros s. by eexists. Qed.

Ltac returns_step :=
  first [apply returns_bind; [|intros ?]|apply returns_write|apply returns_lift|apply returns_modify|apply returns_ret|apply returns_get
        |case_match].
Ltac returns_tac := repeat returns_step.

Lemma returns_packets channel packets : returns (send_packets (T := T) channel packets).
Proof. induction packets as [|p ps IH]; cbn [send_packets]; returns_tac. exact IH. Qed.

Lemma returns_report steady system ts : returns (send_report (T := T) steady system ts).
Proof. unfold send_report. returns_tac. Qed.

Lemma frame_timestamp_undefined frame m :
  frame_timestamp frame m = None -> clock_limit_ns < Z.max (f_pts_ns frame - m_first_pts_ns m) (f_duration_ns frame).
Proof.
  unfold frame_timestamp, clock_limit_ns. destruct (f_pts_ns frame >=? 0) eqn:Ep.
  - destruct (in_i64 _) eqn:Ei; [done|]. intros _. unfold in_i64, i64_min, i64_max in Ei. destruct (Z.ltb_spec (m_first_pts_ns m) 0); lia.
  - destruct (in_i64 _) eqn:Ei; [done|]. intros _. unfold in_i64, i64_min, i64_max in Ei. destruct (f_duration_ns frame >? 0) eqn:Ed; lia.
Qed.

Lemma send_frame_defined mtu sets steady system frame (s : Sess (T := T)) :
  is_Some (frame_timestamp frame (stop_waiting (se_media s))) -> is_Some (send_frame mtu sets steady system frame s).
Proof.
  intros [[ts m] Et]. unfold send_frame. unfold mbind at 1, act_bind at 1, get at 1. destruct (_ && _); [by eexists|].
  unfold mbind at 1, act_bind at 1. rewrite Et. cbn [defined fmap option_fmap option_map].
  apply returns_bind; [apply returns_modify|intros ?]. repeat first [apply returns_report|apply returns_packets|returns_step].
Qed.

Lemma send_next_undefined cfg sets steady system (s : Sess (T := T)) :
  send_next cfg sets steady system s = None ->
  exists f, next_frame (se_media s) = Some f /\
    clock_limit_ns < Z.max (f_pts_ns f - m_first_pts_ns (se_media s)) (f_duration_ns f).
Proof.
  unfold send_next, next_frame. unfold mbind at 1, act_bind at 1, get. destruct (m_playing (se_media s)); [|done].
  destruct (try_pop _) as [[frame|] q]; unfold mbind at 1, act_bind at 1, modify; [|done]. cbn [fst]. intros E. exists frame. split; [done|].
  destruct (frame_timestamp frame (stop_waiting (set_queue q (se_media s)))) as [[ts m]|] eqn:Et; [exfalso|by apply frame_timestamp_undefined in Et].
  destruct (send_frame_defined (rtp_mtu cfg) sets steady system frame (set_media (set_queue q (se_media s)) s)) as [[[ok|w] s'] Es]; [by eexists|..];
    unfold mbind at 1, act_bind at 1 in E; rewrite Es in E; [|done]. by destruct ok.
Qed.

(** ** Stopping *)

Definition thread_measure t : nat :=
  match t with
  | Created _ _ | Serving _ _ true _ => 3
  | Serving _ _ false _ => 2
  | Leaving _ _ => 1
  | Hanging _ _ | Over => 0
  end.

Definition threads_measure (ts : gmap nat (Thread (T := T))) : nat := map_fold (fun _ t n => thread_measure t + n)%nat 0%nat ts.

(** How many moves the threads can still make once [stop] was called. *)
Definition live_measure l : nat :=
  if l_aborted l then 0%nat else (length (l_accepting l) + threads_measure (l_threads l))%nat.

(** The moves of the server's own threads. *)
Definition thread_label (lb : Label (T := T)) : bool :=
  match lb with
  | LStart _ _ _ | LSignal | LStopBegin | LStopEnd | LFrame _ => false
  | _ => true
  end.

Lemma threads_measure_insert id t t' ts :
  ts !! id = Some t -> (threads_measure (<[id := t']> ts) + thread_measure t = threads_measure ts + thread_measure t')%nat.
Proof.
  intros Ht. unfold threads_measure. rewrite <- (insert_delete_id ts id t) at 2 by done.
  rewrite <- (insert_delete_eq ts id t'). rewrite !map_fold_insert_L; [lia|intros; lia|apply lookup_delete_eq|intros; lia|apply lookup_delete_eq].
Qed.

(** Once [stop] has begun every move of a thread brings it nearer to its end, and the
    other moves change nothing. *)
Lemma stopping_step config held l lb obs l' :
  live_ok config held l -> l_stopping l = true -> lb <> LStopEnd -> live_step lb l = Some (obs, l') ->
  l_stopping l' = true /\ (live_measure l' + (if thread_label lb then 1 else 0) <= live_measure l)%nat.
Proof.
  intros Hok Est Hend. destruct (lo_stopping _ _ _ Hok Est) as (Hs & _).
  assert (keeps_going l = false) as Hg by (unfold keeps_going; by rewrite Hs, andb_false_r).
  unfold live_step. destruct (l_aborted l) eqn:Eab; [done|]. rewrite Est, Hg.
  assert (live_measure l = length (l_accepting l) + threads_measure (l_threads l))%nat as Hml by (unfold live_measure; by rewrite Eab).
  destruct lb as [tls o1 o2| | | |view|i ev id|i|id ssl rnd t|id ev rnd|id steady system|id|id]; cbn [thread_label]; try done.
  - intros [= <- <-]. split; [done|]. rewrite Hml. unfold live_measure. cbn. rewrite ?Eab. lia.
  - intros [= <- <-]. split; [done|]. rewrite Hml. unfold live_measure. cbn. rewrite ?Eab. lia.
  - destruct (l_accepting l !! i) as [[lfd tls]|]; [|done]. destruct (l_threads l !! id); [done|].
    unfold accept_turn. by rewrite Hs, andb_false_r.
  - destruct (l_accepting l !! i) eqn:Ei; [|done]. intros [= <- <-]. split; [done|]. rewrite Hml. unfold live_measure. cbn.
    rewrite ?Eab, length_delete by (by rewrite Ei). apply lookup_lt_Some in Ei. lia.
  - destruct (l_threads l !! id) as [[fd tls| | | |]|] eqn:Hid; try done. intros [= E]. rewrite Hml.
    unfold session_begin in E. cbv zeta in E. pose proof (fun t' => threads_measure_insert id _ t' _ Hid) as Hi.
    cbn [thread_measure] in Hi. destruct (media_new _ _ _ _ _) as [media|w].
    + destruct (connection_new _ _) as [[[]|w] ob]; injection E as <- <-; (split; [done|]); unfold live_measure; cbn; rewrite ?Eab.
      * specialize (Hi (Serving fd tls false (new_session media t))). cbn in Hi. lia.
      * specialize (Hi Over). cbn in Hi. lia.
    + injection E as <- <-. split; [done|]. unfold live_measure. cbn. specialize (Hi Over). cbn in Hi. lia.
  - destruct (l_threads l !! id) as [[|fd tls [] sess| | |]|] eqn:Hid; try done.
    destruct (s_media _ !! id); [|done]. by rewrite andb_false_r.
  - destruct (l_threads l !! id) as [[|fd tls [] sess| | |]|] eqn:Hid; try done.
    destruct (s_media _ !! id) as [m|]; [|done]. destruct (send_next _ _ _ _ _) as [[r s']|]; [|done]. intros [= <- <-].
    split; [done|]. rewrite Hml. unfold session_moved, live_measure. cbn. rewrite ?Eab.
    pose proof (fun t' => threads_measure_insert id _ t' _ Hid) as Hi. cbn [thread_measure] in Hi.
    set (t' := match r with Ok true => _ | _ => _ end). specialize (Hi t').
    assert (thread_measure t' <= 2)%nat by (unfold t'; destruct r as [[]|]; cbn; lia). lia.
  - destruct (l_threads l !! id) as [[|fd tls [] sess| | |]|] eqn:Hid; try done. rewrite andb_false_r.
    intros [= <- <-]. split; [done|]. rewrite Hml. unfold live_measure. cbn. rewrite ?Eab.
    pose proof (threads_measure_insert id _ (Leaving fd tls) _ Hid) as Hi. cbn [thread_measure] in Hi. lia.
  - destruct (l_threads l !! id) as [[| | |fd tls|]|] eqn:Hid; try done.
    intros [= <- <-]. split; [done|]. rewrite Hml. unfold live_measure. cbn. rewrite ?Eab.
    pose proof (threads_measure_insert id _ Over _ Hid) as Hi. cbn [thread_measure] in Hi. lia.
Qed.

Lemma stopping_run config held labels l obs l' :
  live_ok config held l -> l_stopping l = true -> Forall (fun lb => lb <> LStopEnd) labels ->
  live_run labels l = Some (obs, l') ->
  l_stopping l' = true /\ (live_measure l' + length (filter (fun lb => thread_label lb = true) labels) <= live_measure l)%nat.
Proof.
  intros Hok Est Hl. revert held l obs Hok Est. induction Hl as [|lb labels Hlb _ IH]; intros held l obs Hok Est; cbn [live_run].
  { intros [= <- <-]. split; [done|]. cbn. lia. }
  destruct (live_step lb l) as [[obs1 l1]|] eqn:E1; cbn [mbind option_bind]; [|done].
  destruct (live_run labels l1) as [[obs2 l2]|] eqn:E2; cbn [mbind option_bind]; [|done]. intros [= <- <-].
  destruct (live_step_ok config held l lb obs1 l1 Hok E1) as (h1 & _ & Hok1).
  destruct (stopping_step config held l lb obs1 l1 Hok Est Hlb E1) as [Est1 Hm1].
  destruct (IH h1 l1 obs2 Hok1 Est1 E2) as [Est2 Hm2]. split; [done|]. rewrite filter_cons.
  destruct (thread_label lb); [rewrite decide_True by done|rewrite decide_False by done]; cbn [length]; lia.
Qed.

Definition hangs l : Prop := exists id fd tls, l_threads l !! id = Some (Hanging fd tls).

(** Some client's next frame is past the time for which the RTP clock is exact. *)
Definition past_clock l : Prop :=
  exists id m f, s_media (l_server l) !! id = Some m /\ next_frame m = Some f /\
    clock_limit_ns < Z.max (f_pts_ns f - m_first_pts_ns m) (f_duration_ns f).

(** A thread of the server can move. *)
Definition can_move l : Prop := exists lb, thread_label lb = true /\ is_Some (live_step lb l).

Lemma stopping_progress config held l (tr : T) :
  live_ok config held l -> l_stopping l = true -> l_aborted l = false ->
  is_Some (live_step LStopEnd l) \/ can_move l \/ hangs l \/ past_clock l.
Proof.
  intros Hok Est Eab. destruct (lo_stopping _ _ _ Hok Est) as (Hs & _).
  assert (keeps_going l = false) as Hg by (unfold keeps_going; by rewrite Hs, andb_false_r).
  destruct (l_accepting l) as [|a rest] eqn:Ea.
  2: { right; left. exists (LAcceptEnd 0). split; [done|]. unfold live_step. rewrite Eab, Hg, Ea. by eexists. }
  destruct (decide (Forall (fun id => is_over (l_threads l !! id) = true) (s_session_threads (l_server l)))) as [Hall|Hex].
  { left. unfold live_step. rewrite Eab, Est, Ea. cbn [is_empty andb].
    replace (forallb _ _) with true; [by eexists|]. symmetry. apply forallb_forall. intros id Hid.
    rewrite Forall_forall in Hall. by apply Hall, list_elem_of_In. }
  apply not_Forall_Exists in Hex; [|solve_decision]. apply Exists_exists in Hex as (id & Hin & Hid).
  change (is_over (l_threads l !! id) <> true) in Hid. right.
  destruct (l_threads l !! id) as [[fd tls|fd tls [] sess|fd tls|fd tls|]|] eqn:Et; cbn in Hid; try done.
  - left. exists (LSession id SslNewFails (fun _ => (0, 0)) tr). split; [done|]. unfold live_step. rewrite Eab, Et. by eexists.
  - apply shapes_lookup in Et as Hsh. destruct (proj2 (lo_media _ _ _ Hok id)) as [m Hm]; [by eexists _, _|].
    destruct (send_next (s_config (l_server l)) (s_sets (l_server l)) 0 0 (set_media m sess)) as [r|] eqn:En.
    + left. exists (LNext id 0 0). split; [done|]. unfold live_step. rewrite Eab, Et, Hm, En. destruct r. by eexists.
    + right; right. destruct (send_next_undefined _ _ _ _ _ En) as (f & Hf & Hl). by exists id, m, f.
  - left. exists (LLeave id). split; [done|]. unfold live_step. rewrite Eab, Et, Hg, andb_false_r. by eexists.
  - right; left. by exists id, fd, tls.
  - left. exists (LFinish id). split; [done|]. unfold live_step. rewrite Eab, Et. by eexists.
  - apply (lo_known _ _ _ Hok) in Hin as [sh Hsh]. unfold shapes in Hsh. by rewrite lookup_fmap, Et in Hsh.
Qed.

(** A read that completes a buffer the message loop hangs on does not return. *)
Lemma read_hangs cfg sets data rnd b (s : Sess (T := T)) :
  rtc (goes_on (session_limits cfg)) (se_input s ++ data) b -> hangs_on (session_limits cfg) b -> zlen (se_input s ++ data) <= u64 (max_header cfg + max_body cfg) ->
  read_part cfg sets (ReadData data) rnd s = None.
Proof.
  intros Hg Hh Hz. unfold read_part, handle_input. unfold mbind at 1, act_bind at 1, modify, mbind at 1, act_bind at 1, get at 1.
  cbn [se_input set_input]. replace (_ >? _) with false by lia. cbn [request_loop].
  unfold mbind at 1, act_bind at 1. unfold mbind at 1, act_bind at 1, get at 1. cbn [se_input set_input].
  unfold extract_one_rtsp_message. by rewrite (hang_diverges _ _ _ _ Hg Hh).
Qed.

(** A thread that hangs stays where it is. *)
Lemma hanging_step lb l obs l' id fd tls :
  l_threads l !! id = Some (Hanging fd tls) -> live_step lb l = Some (obs, l') -> l_threads l' !! id = Some (Hanging fd tls).
Proof.
  intros Hid. unfold live_step. destruct (l_aborted l); [done|].
  assert (forall k t t' l1, l_threads l !! k = Some t -> t <> Hanging fd tls -> l_threads l1 = l_threads l ->
    l_threads (with_thread_state k t' l1) !! id = Some (Hanging fd tls)) as Hother.
  { intros k t t' l1 Hk Ht E. cbn. rewrite E, lookup_insert_ne; [done|]. intros ->. congruence. }
  destruct lb as [tl o1 o2| | | |view|i ev k|i|k ssl rnd t|k ev rnd|k steady system|k|k].
  - destruct (l_stopping l); [done|]. by intros [= <- <-].
  - by intros [= <- <-].
  - destruct (l_stopping l); [done|]. destruct (s_started (l_server l)); by intros [= <- <-].
  - destruct (_ && _); [|done]. by intros [= <- <-].
  - by intros [= <- <-].
  - destruct (l_accepting l !! i) as [[? ?]|]; [|done]. destruct (l_threads l !! k) eqn:Ek; [done|].
    destruct (accept_turn _ _ _ _) as [[[cfd|] sv']|]; [destruct (bool_decide _); [|done]|..|done]; intros [= <- <-]; [|done].
    cbn. rewrite lookup_insert_ne; [done|]. intros ->. congruence.
  - destruct (keeps_going l); [done|]. destruct (l_accepting l !! i); [|done]. by intros [= <- <-].
  - destruct (l_threads l !! k) as [[fd' tls'| | | |]|] eqn:Ek; try done. unfold session_begin. cbv zeta.
    destruct (media_new _ _ _ _ _); [destruct (connection_new _ _) as [[] ?]|]; intros [= <- <-]; try done; by eapply Hother.
  - destruct (l_threads l !! k) as [[|fd' tls' [] sess| | |]|] eqn:Ek; try done. destruct (s_media _ !! k); [|done].
    destruct (_ && _); [|done]. destruct (read_part _ _ _ _ _) as [[]|]; intros [= <- <-]; by eapply Hother.
  - destruct (l_threads l !! k) as [[|fd' tls' [] sess| | |]|] eqn:Ek; try done. destruct (s_media _ !! k); [|done].
    destruct (send_next _ _ _ _ _) as [[]|]; intros [= <- <-]; by eapply Hother.
  - destruct (l_threads l !! k) as [[|fd' tls' [] sess| | |]|] eqn:Ek; try done. destruct (_ && _); [done|].
    intros [= <- <-]. by eapply Hother.
  - destruct (l_threads l !! k) as [[| | |fd' tls'|]|] eqn:Ek; try done. intros [= <- <-]. by eapply Hother.
Qed.

Lemma hanging_run labels l obs l' id fd tls :
  l_threads l !! id = Some (Hanging fd tls) -> live_run labels l = Some (obs, l') -> l_threads l' !! id = Some (Hanging fd tls).
Proof.
  revert l obs. induction labels as [|lb labels IH]; intros l obs Hid; cbn [live_run]; [by intros [= _ <-]|].
  destruct (live_step lb l) as [[obs1 l1]|] eqn:E1; cbn [mbind option_bind]; [|done].
  destruct (live_run labels l1) as [[obs2 l2]|] eqn:E2; cbn [mbind option_bind]; [|done]. intros [= _ <-].
  eapply IH; [|done]. by eapply hanging_step.
Qed.

Lemma hanging_no_stop config held l : live_ok config held l -> hangs l -> live_step LStopEnd l = None.
Proof.
  intros Hok (id & fd & tls & Hid). unfold live_step. destruct (l_aborted l); [done|].
  destruct (_ && _ && _) eqn:E; [|done]. apply andb_true_iff in E as [_ Hth]. rewrite forallb_forall in Hth.
  apply shapes_lookup in Hid as Hsid. destruct (lo_joined _ _ _ Hok _ _ _ _ Hsid) as [Hin _].
  apply list_elem_of_In, Hth in Hin. by rewrite Hid in Hin.
Qed.

Lemma live_run_snoc labels lb l obs l' :
  live_run (labels ++ [lb]) l = Some (obs, l') ->
  exists obs1 l1 obs2, live_run labels l = Some (obs1, l1) /\ live_step lb l1 = Some (obs2, l') /\ obs = obs1 ++ obs2.
Proof.
  revert l obs. induction labels as [|a labels IH]; intros l obs; cbn [live_run app].
  { destruct (live_step lb l) as [[obs1 l1]|] eqn:E; cbn; [|done]. intros [= <- <-]. exists [], l, obs1. rewrite app_nil_r. done. }
  destruct (live_step a l) as [[obs1 l1]|]; cbn [mbind option_bind]; [|done].
  destruct (live_run (labels ++ [lb]) l1) as [[obs2 l2]|] eqn:E; cbn [mbind option_bind]; [|done]. intros [= <- <-].
  destruct (IH l1 obs2 E) as (oa & la & ob & -> & H2 & ->). cbn [mbind option_bind]. exists (obs1 ++ oa), la, ob.
  by rewrite app_assoc.
Qed.

(** With limits for the clients' queues no thread ends the program. *)
Lemma live_step_runs config held lb l obs l' :
  live_ok config held l -> client_queue_frames config <> 0 -> client_queue_bytes config <> 0 ->
  live_step lb l = Some (obs, l') -> l_aborted l' = false.
Proof.
  intros Hok Hf Hb. unfold live_step. destruct (l_aborted l) eqn:Eab; [done|].
  destruct lb as [tl o1 o2| | | |view|i ev k|i|k ssl rnd t|k ev rnd|k steady system|k|k].
  - destruct (l_stopping l); [done|]. by intros [= <- <-].
  - by intros [= <- <-].
  - destruct (l_stopping l); [done|]. destruct (s_started (l_server l)); by intros [= <- <-].
  - destruct (_ && _); [|done]. by intros [= <- <-].
  - by intros [= <- <-].
  - destruct (l_accepting l !! i) as [[? ?]|]; [|done]. destruct (l_threads l !! k); [done|].
    destruct (accept_turn _ _ _ _) as [[[cfd|] sv]|]; [destruct (bool_decide _); [|done]|..|done]; by intros [= <- <-].
  - destruct (keeps_going l); [done|]. destruct (l_accepting l !! i); [|done]. by intros [= <- <-].
  - destruct (l_threads l !! k) as [[fd tls| | | |]|]; try done. unfold session_begin, media_new, queue_new. cbv zeta.
    pose proof (sv_config _ _ (lo_server _ _ _ Hok)) as Hc. apply impl_config_ok in Hc as [-> _].
    cbn [client_queue_frames client_queue_bytes with_channels].
    rewrite (proj2 (Z.eqb_neq _ _) Hf), (proj2 (Z.eqb_neq _ _) Hb). cbn [orb mbind result_bind].
    destruct (connection_new _ _) as [[] ?]; by intros [= <- <-].
  - destruct (l_threads l !! k) as [[|fd' tls' [] sess| | |]|]; try done. destruct (s_media _ !! k); [|done].
    destruct (_ && _); [|done]. destruct (read_part _ _ _ _ _) as [[]|]; by intros [= <- <-].
  - destruct (l_threads l !! k) as [[|fd' tls' [] sess| | |]|]; try done. destruct (s_media _ !! k); [|done].
    destruct (send_next _ _ _ _ _) as [[]|]; by intros [= <- <-].
  - destruct (l_threads l !! k) as [[|fd' tls' [] sess| | |]|]; try done. destruct (_ && _); [done|]. by intros [= <- <-].
  - destruct (l_threads l !! k) as [[| | |fd' tls'|]|]; try done. by intros [= <- <-].
Qed.

Lemma live_run_runs config labels held l obs l' :
  live_ok config held l -> client_queue_frames config <> 0 -> client_queue_bytes config <> 0 -> l_aborted l = false ->
  live_run labels l = Some (obs, l') -> l_aborted l' = false.
Proof.
  intros Hok Hf Hb. revert held l obs Hok. induction labels as [|lb labels IH]; intros held l obs Hok Hab; cbn [live_run];
    [by intros [= _ <-]|].
  destruct (live_step lb l) as [[obs1 l1]|] eqn:E1; cbn [mbind option_bind]; [|done].
  destruct (live_run labels l1) as [[obs2 l2]|] eqn:E2; cbn [mbind option_bind]; [|done]. intros [= _ <-].
  destruct (live_step_ok config held l lb obs1 l1 Hok E1) as (h1 & _ & Hok1).
  eapply (IH h1 l1 obs2); [done| |done]. exact (live_step_runs config held lb l obs1 l1 Hok Hf Hb E1).
Qed.

End Invariant.

(** ** The demonstration server at work *)

Definition demo_server : Server :=
  {| s_config := demo_config; s_started := false; s_plain_fd := -1; s_tls_fd := -1; s_tls_context := false;
     s_contexts := 0; s_listeners := []; s_session_threads := []; s_clients := []; s_media := ∅;
     s_sets := replicate 5 no_sets; s_stats := stats_zero |}.

Definition demo_view (key : bool) (pts : Z) : LiveEncodedFrameView :=
  {| v_data := Some (f_data (demo_frame key pts)); v_pts_ns := pts; v_dts_ns := pts; v_duration_ns := -1;
     v_key_frame := key; v_channel_id := 1; v_codec := H264 |}.

Definition demo_random : nat -> Z * Z := fun _ => (1, 2).

(** A client connects and plays. *)
Definition demo_opening : list (Label (T := TwoBytes)) :=
  [LStart good_tls (good_os 3) (good_os 4); LAccept 0 {| ae_select := 1; ae_accept := 7 |} 1;
   LSession 1 HandshakeDone demo_random two_bytes;
   LRead 1 (ReadData demo_setup) demo_random; LNext 1 7000000000 0;
   LRead 1 (ReadData demo_play) demo_random; LNext 1 7000000000 0].

(** It gets the frames from the first key frame on, then the server is stopped. *)
Definition demo_frames : list (Label (T := TwoBytes)) :=
  [LFrame (demo_view false 0); LFrame (demo_view true 40000000); LFrame (demo_view false 80000000);
   LRead 1 NotReady demo_random; LNext 1 7000000000 0; LRead 1 NotReady demo_random; LNext 1 7000000000 0].

Definition demo_stop : list (Label (T := TwoBytes)) := [LStopBegin; LAcceptEnd 0; LLeave 1; LFinish 1].

Definition run_demo (labels : list (Label (T := TwoBytes))) : option (list Obs * Live) :=
  live_run labels (live_new demo_server true).

Lemma demo_server_new : server_new demo_config = Ok demo_server.
Proof. reflexivity. Qed.

(** ** Theorems *)

(** C5: Whatever the clients, the network and the frame source do, in any interleaving of
    the server's threads: every accepted descriptor and every SSL object is released
    exactly once and only by the session that holds it, also when the handshake fails or
    a session ends by an error; what is held at any time belongs to a thread that is not
    over; the active clients are the registered sessions, and created sessions are closed
    or active.  With limits for the clients' queues no session ends the program. *)
Theorem resources_balanced {T} `{Transport T} config s running (labels : list (Label (T := T))) obs l :
  server_new config = Ok s -> live_run labels (live_new s running) = Some (obs, l) ->
  exists held, ledger obs ∅ = Some held /\ (forall r, r ∈ held <-> owned l r) /\
    active_clients (s_stats (l_server l)) = u64 (Z.of_nat (size (s_media (l_server l)))) /\
    sessions_created (s_stats (l_server l)) =
      u64 (sessions_closed (s_stats (l_server l)) + Z.of_nat (size (s_media (l_server l)))) /\
    (forall id, is_Some (s_media (l_server l) !! id) <-> exists fd ssl, shapes l !! id = Some (Some fd, ssl, true)) /\
    (client_queue_frames config <> 0 -> client_queue_bytes config <> 0 -> l_aborted l = false).
Proof.
  intros Hn Hr. destruct (live_run_new config s running labels obs l Hn Hr) as (held & Hl & Hok). exists held.
  pose proof (fun Hf Hb => live_run_runs config labels ∅ _ obs l (live_new_ok config s running Hn) Hf Hb eq_refl Hr) as Hab.
  destruct Hok as [[] ? ? ? ? ? ? ? ?]. done.
Qed.

Lemma resources_balanced_witness :
  exists obs l held, run_demo (demo_opening ++ demo_frames) = Some (obs, l) /\ ledger obs ∅ = Some held /\
    Fd 7 ∈ held.
Proof.
  destruct (run_demo (demo_opening ++ demo_frames)) as [[obs l]|] eqn:E; [|vm_compute in E; discriminate].
  destruct (resources_balanced demo_config demo_server true (demo_opening ++ demo_frames) obs l) as (held & H1 & H2 & _);
    [reflexivity|exact E|].
  exists obs, l, held. split_and!; [reflexivity|exact H1|].
  apply H2. exists 1%nat, false, true. vm_compute in E. injection E as <- <-. vm_compute. reflexivity.
Defined.

(** C15: When [stop] returns nothing is left: every descriptor and SSL object has been
    released, no client is registered, as many sessions were closed as created, the
    listeners are closed, all threads are over and joined and no TLS context is kept. *)
Theorem stop_leaves_nothing {T} `{Transport T} config s running (labels : list (Label (T := T))) obs l :
  server_new config = Ok s -> live_run (labels ++ [LStopEnd]) (live_new s running) = Some (obs, l) ->
  ledger obs ∅ = Some ∅ /\ s_media (l_server l) = ∅ /\ active_clients (s_stats (l_server l)) = 0 /\
  sessions_created (s_stats (l_server l)) = u64 (sessions_closed (s_stats (l_server l))) /\
  s_started (l_server l) = false /\ s_plain_fd (l_server l) = -1 /\ s_tls_fd (l_server l) = -1 /\
  s_tls_context (l_server l) = false /\ s_session_threads (l_server l) = [] /\ quiet l.
Proof.
  intros Hn Hr. destruct (live_run_new config s running _ obs l Hn Hr) as (held & Hl & Hok).
  apply live_run_snoc in Hr as (obs1 & l1 & obs2 & Hr1 & Hstep & _).
  destruct (live_run_new config s running labels obs1 l1 Hn Hr1) as (held1 & _ & Hok1).
  unfold live_step in Hstep. destruct (l_aborted l1); [done|]. destruct (_ && _ && _) eqn:E; [|done].
  apply andb_true_iff in E as [[Est _]%andb_true_iff _]. destruct (lo_stopping _ _ _ Hok1 Est) as (Hs1 & Hs2 & Hs3).
  assert (s_started (l_server l) = false /\ s_plain_fd (l_server l) = -1 /\ s_tls_fd (l_server l) = -1 /\
          s_tls_context (l_server l) = false /\ s_session_threads (l_server l) = [] /\ l_stopping l = false)
    as (F1 & F2 & F3 & F4 & F5 & F6).
  { injection Hstep as _ <-. cbn. unfold stop_end. cbn. destruct (s_tls_context (l_server l1)) eqn:Ec; cbn; by rewrite ?Hs1. }
  pose proof (lo_quiet _ _ _ Hok F1 F6) as Hq. destruct Hq as (Q1 & Q2 & Q3).
  assert (s_media (l_server l) = ∅) as Hm.
  { apply map_eq. intros id. rewrite lookup_empty. apply eq_None_not_Some. intros (fd & ssl & Hk)%(lo_media _ _ _ Hok).
    by apply Q3 in Hk. }
  assert (held = ∅) as ->.
  { apply set_eq. intros r. rewrite (lo_held _ _ _ Hok). split; [|set_solver]. unfold owned. destruct r.
    - intros (id & ssl & b & Hk). by apply Q3 in Hk.
    - intros (fd & b & Hk). by apply Q3 in Hk. }
  destruct (lo_server _ _ _ Hok) as [_ _ _ Hact Hcr _]. rewrite Hm, map_size_empty in Hact, Hcr.
  split_and!; try done. by rewrite Hcr, Z.add_0_r.
Qed.

Lemma stop_leaves_nothing_witness :
  exists obs l, run_demo ((demo_opening ++ demo_frames ++ demo_stop) ++ [LStopEnd]) = Some (obs, l) /\ ledger obs ∅ = Some ∅.
Proof.
  destruct (run_demo ((demo_opening ++ demo_frames ++ demo_stop) ++ [LStopEnd])) as [[obs l]|] eqn:E; [|vm_compute in E; discriminate].
  exists obs, l. split; [reflexivity|].
  apply (stop_leaves_nothing demo_config demo_server true (demo_opening ++ demo_frames ++ demo_stop) obs l); [reflexivity|exact E].
Defined.

(** C16: [stop] ends.  Once it has begun the threads can make no more moves than
    [live_measure] says, three for each session and one for each listener, however
    frames and signals go on arriving; and until it can return some thread can move,
    unless a session hangs in the message loop or a client's next frame is more than
    [clock_limit_ns] (28 hours) past its first, where the RTP clock overflows. *)
Theorem stop_terminates {T} `{Transport T} config s running (labels : list (Label (T := T))) obs l (t : T) :
  server_new config = Ok s -> live_run labels (live_new s running) = Some (obs, l) -> l_stopping l = true ->
  (forall labels' obs' l', Forall (fun lb => lb <> LStopEnd) labels' -> live_run labels' l = Some (obs', l') ->
     (length (filter (fun lb => thread_label lb = true) labels') <= live_measure l)%nat) /\
  (l_aborted l = false -> is_Some (live_step LStopEnd l) \/ can_move l \/ hangs l \/ past_clock l).
Proof.
  intros Hn Hr Est. destruct (live_run_new config s running labels obs l Hn Hr) as (held & _ & Hok). split.
  - intros labels' obs' l' Hl Hr'. destruct (stopping_run config held labels' l obs' l' Hok Est Hl Hr') as [_ Hm]. lia.
  - by apply (stopping_progress config held).
Qed.

Lemma stop_terminates_witness :
  exists obs l, run_demo (demo_opening ++ demo_frames ++ [LStopBegin]) = Some (obs, l) /\ live_measure l = 3%nat /\
    (forall labels' obs' l', Forall (fun lb => lb <> LStopEnd) labels' -> live_run labels' l = Some (obs', l') ->
       (length (filter (fun lb => thread_label lb = true) labels') <= live_measure l)%nat).
Proof.
  destruct (run_demo (demo_opening ++ demo_frames ++ [LStopBegin])) as [[obs l]|] eqn:E; [|vm_compute in E; discriminate].
  exists obs, l. split; [reflexivity|]. split; [vm_compute in E; injection E as <- <-; vm_compute; reflexivity|].
  apply (stop_terminates demo_config demo_server true (demo_opening ++ demo_frames ++ [LStopBegin]) obs l two_bytes); [reflexivity|exact E|].
  vm_compute in E. injection E as <- <-. vm_compute. reflexivity.
Defined.

(** C37: One request keeps [stop] from ever returning.  When a session of a running
    server reads bytes whose resynchronisation ends in a header with a Content-Length that
    is refused, with nothing after it to resynchronise on and no more bytes than a header
    may have, its thread never leaves the message loop: whatever happens afterwards, the
    joins of [stop] do not end. *)
Theorem hanging_session_blocks_stop {T} `{Transport T} config s running (labels : list (Label (T := T))) obs l id fd tls sess data rnd b :
  server_new config = Ok s -> live_run labels (live_new s running) = Some (obs, l) -> l_aborted l = false ->
  keeps_going l = true -> l_threads l !! id = Some (Serving fd tls false sess) -> se_connected sess = true ->
  rtc (goes_on (session_limits (s_config (l_server l)))) (se_input sess ++ data) b ->
  hangs_on (session_limits (s_config (l_server l))) b ->
  zlen (se_input sess ++ data) <= u64 (max_header (s_config (l_server l)) + max_body (s_config (l_server l))) ->
  exists l1, live_step (LRead id (ReadData data) rnd) l = Some ([], l1) /\
    forall labels' obs' l', live_run labels' l1 = Some (obs', l') -> live_step LStopEnd l' = None.
Proof.
  intros Hn Hr Hab Hg Ht Hc Hb Hh Hz. destruct (live_run_new config s running labels obs l Hn Hr) as (held & _ & Hok).
  apply shapes_lookup in Ht as Hsh. destruct (proj2 (lo_media _ _ _ Hok id)) as [m Hm]; [by eexists _, _|].
  set (l1 := with_thread_state id (Hanging fd tls) l). exists l1.
  assert (live_step (LRead id (ReadData data) rnd) l = Some ([], l1)) as Es.
  { unfold live_step. rewrite Hab, Ht, Hm, Hc, Hg. cbn [andb]. by rewrite (read_hangs _ _ _ _ b). }
  split; [done|]. intros labels' obs' l' Hr'.
  destruct (live_step_ok config held l _ [] l1 Hok Es) as (h1 & _ & Hok1).
  destruct (live_run_ok config labels' h1 l1 obs' l' Hok1 Hr') as (held' & _ & Hok').
  eapply hanging_no_stop; [done|]. exists id, fd, tls. eapply hanging_run; [|done]. cbn. apply lookup_insert_eq.
Qed.

Lemma hanging_session_blocks_stop_witness :
  exists obs l l1, run_demo demo_opening = Some (obs, l) /\ live_step (LRead 1 (ReadData bad_length_request) demo_random) l = Some ([], l1) /\
    forall labels' obs' l', live_run labels' l1 = Some (obs', l') -> live_step LStopEnd l' = None.
Proof.
  destruct (run_demo demo_opening) as [[obs l]|] eqn:E; [|vm_compute in E; discriminate].
  exists obs, l. destruct (l_threads l !! 1%nat) as [[|fd tls [] sess| | |]|] eqn:Et;
    try (vm_compute in E; injection E as <- <-; vm_compute in Et; discriminate).
  destruct (hanging_session_blocks_stop demo_config demo_server true demo_opening obs l 1 fd tls sess bad_length_request demo_random
    (drop 13 bad_length_request) ltac:(reflexivity) E) as (l1 & H1 & H2); [..|exists l1; split; [reflexivity|split; [exact H1|exact H2]]].
  all: vm_compute in E; injection E as <- <-; vm_compute in Et; injection Et as <- <- <-; try reflexivity.
  - apply rtc_once. vm_compute. reflexivity.
  - split_and!; [vm_compute; discriminate|vm_compute; reflexivity|..|vm_compute; reflexivity|vm_compute; discriminate].
    eexists. split_and!; [vm_compute; reflexivity|vm_compute; discriminate|]. left. vm_compute. reflexivity.
  - vm_compute. discriminate.
Defined.
