(* ===== verification/Delivery.v ===== *)
(** * From published frames to what a client receives

    The path of a frame through the whole server: [on_frame] puts it into the queues of
    the clients that play its channel, the session threads take it out and send it as RTP
    packets between their responses, and the client takes the stream apart again.  The
    theorem holds for every interleaving of the transition system of Threads. *)

From stdpp Require Import gmap.
From S2P Require Import Prelude CStr Parser Rtp FrameQueue Control LiveServer Session Threads.

(** ** What a client sees *)

(** The RTP payload of a message on the given channel. *)
Definition rtp_payload_of (channel : Z) (m : bytes) : option bytes :=
  if is_prefix $"$" m && bool_decide (m !! 1%nat = Some (u8 channel)) then Some (drop 16 m) else None.

Definition rtp_payloads (channel : Z) (ms : list bytes) : list bytes := omap (rtp_payload_of channel) ms.

(** The payloads make up whole NAL units, whatever follows. *)
Definition assembles (codec : VideoCodec) (payloads nals : list bytes) : Prop :=
  forall rest, depayload codec [] (payloads ++ rest) = nals ++ depayload codec [] rest.

Lemma assembles_nil codec : assembles codec [] [].
Proof. done. Qed.

Lemma assembles_app codec p1 p2 n1 n2 : assembles codec p1 n1 -> assembles codec p2 n2 -> assembles codec (p1 ++ p2) (n1 ++ n2).
Proof. intros H1 H2 rest. by rewrite <- !app_assoc, H1, H2. Qed.

Lemma assembles_depayload codec p n : assembles codec p n -> depayload codec [] p = n.
Proof. intros Ha. specialize (Ha []). rewrite app_nil_r in Ha. rewrite Ha. cbn. apply app_nil_r. Qed.

Lemma packetize_assembles codec nals seq ts ssrc mtu :
  15 < mtu -> Forall (nal_ok codec) nals -> assembles codec (rtp_payload <$> fst (packetize_nals codec nals seq ts ssrc mtu)) nals.
Proof.
  intros Hm Hn. revert seq; induction Hn as [|nal nals Hnal _ IH]; intros seq rest; [done|].
  rewrite packetize_nals_cons. cbn [fst]. rewrite fmap_app, <- app_assoc, packetize_nal_depayload by done.
  cbn [app]. by rewrite IH.
Qed.

Lemma rtp_payloads_app channel ms1 ms2 : rtp_payloads channel (ms1 ++ ms2) = rtp_payloads channel ms1 ++ rtp_payloads channel ms2.
Proof. apply omap_app. Qed.

(** Responses carry no RTP. *)
Lemma rtp_payloads_responses channel lim ms : Forall (rtsp_message_ok lim) ms -> rtp_payloads channel ms = [].
Proof.
  induction 1 as [|m ms Hm _ IH]; [done|]. unfold rtp_payloads in *. cbn [omap list_omap]. unfold rtp_payload_of at 1.
  by rewrite (request_not_dollar lim m Hm).
Qed.

Lemma frame_dollar m : frame_ok m -> is_prefix $"$" m = true.
Proof. by intros (? & ? & ? & ? & -> & _). Qed.

(** The packets of a frame. *)
Lemma rtp_payloads_wires channel packets wires :
  Forall2 (fun p w => interleaved channel (packet_bytes p) = Ok w) packets wires ->
  rtp_payloads channel wires = rtp_payload <$> packets.
Proof.
  induction 1 as [|p w ps ws Hw _ IH]; [done|]. unfold rtp_payloads in *. cbn [omap list_omap]. unfold rtp_payload_of at 1.
  apply interleaved_frame_ok in Hw as (Hf & Hch & Hd). rewrite (frame_dollar w Hf), bool_decide_eq_true_2 by done. cbn [andb].
  rewrite IH, fmap_cons. f_equal. unfold rtp_payload. rewrite <- Hd, drop_drop. done.
Qed.

(** A sender report is no RTP. *)
Lemma rtp_payloads_report channel rtcp packet report :
  0 <= channel <= 255 -> 0 <= rtcp <= 255 -> channel <> rtcp -> interleaved rtcp packet = Ok report ->
  rtp_payloads channel [report] = [].
Proof.
  intros H1 H2 Hne Hr. apply interleaved_frame_ok in Hr as (_ & Hch & _). unfold rtp_payloads. cbn [omap list_omap].
  unfold rtp_payload_of. rewrite bool_decide_eq_false_2; [by rewrite andb_false_r|]. rewrite Hch. unfold u8. intros [= E]. lia.
Qed.

(** ** Observations *)

Definition sent_to (id : nat) (obs : list Obs) : list OwnedLiveFrame :=
  omap (fun o => match o with Send k f => if bool_decide (k = id) then Some f else None | _ => None end) obs.

Definition published_on (channel : Z) (obs : list Obs) : list OwnedLiveFrame :=
  omap (fun o => match o with Publish f => if f_channel_id f =? channel then Some f else None | _ => None end) obs.

Definition frame_units (f : OwnedLiveFrame) : list bytes := split_access_unit (f_data f).

(** A unit of a frame published on a channel. *)
Definition known_unit (obs : list Obs) (channel : Z) (codec : VideoCodec) (nal : bytes) : Prop :=
  exists f, f ∈ published_on channel obs /\ f_codec f = codec /\ nal ∈ frame_units f.

Lemma sent_to_app id o1 o2 : sent_to id (o1 ++ o2) = sent_to id o1 ++ sent_to id o2.
Proof. apply omap_app. Qed.
Lemma published_on_app c o1 o2 : published_on c (o1 ++ o2) = published_on c o1 ++ published_on c o2.
Proof. apply omap_app. Qed.

Lemma known_unit_app obs obs' c codec nal : known_unit obs c codec nal -> known_unit (obs ++ obs') c codec nal.
Proof. intros (f & Hf & ?). exists f. rewrite published_on_app, elem_of_app. auto. Qed.

(** ** What reading requests leaves alone *)

(** A session that plays goes on with its channel and its RTP channel. *)
Definition plays_on {T} (s s' : Sess (T := T)) : Prop :=
  m_playing (se_media s) = true -> phase (se_control s) <> Initial ->
  m_channel_id (se_media s) = channel_id (se_control s) ->
  m_playing (se_media s') = true /\ phase (se_control s') <> Initial /\
  m_channel_id (se_media s') = channel_id (se_control s') /\ m_channel_id (se_media s') = m_channel_id (se_media s) /\
  rtp_channel (se_control s') = rtp_channel (se_control s) /\ rtcp_channel (se_control s') = rtcp_channel (se_control s).

Definition read_rel {T} (s s' : Sess (T := T)) : Prop :=
  m_queue (se_media s') = m_queue (se_media s) /\
  m_waiting_for_keyframe (se_media s') = m_waiting_for_keyframe (se_media s) /\
  m_connected (se_media s') = m_connected (se_media s) /\
  (media_ok (se_media s) -> media_ok (se_media s')) /\
  (control_ok (se_control s) -> control_ok (se_control s') /\ plays_on s s').

#[export] Instance read_rel_preorder {T} : PreOrder (read_rel (T := T)).
Proof.
  split; [by intros s; split_and!|].
  intros s1 s2 s3 (Q1 & W1 & D1 & M1 & C1) (Q2 & W2 & D2 & M2 & C2). split_and!; [congruence|congruence|congruence|auto|].
  intros Hc. destruct (C1 Hc) as [Hc2 P1]. destruct (C2 Hc2) as [Hc3 P2]. split; [done|]. intros Hp Hi He.
  destruct (P1 Hp Hi He) as (A1 & A2 & A3 & A4 & A5 & A6). destruct (P2 A1 A2 A3) as (B1 & B2 & B3 & B4 & B5 & B6).
  split_and!; congruence.
Qed.

Section Reading.
Context {T : Type} `{!Transport T}.
Implicit Type s : Sess (T := T).

Lemma write_conn_read data : keeps (read_rel (T := T)) (write_conn data).
Proof.
  intros s. unfold wlp, write_conn. destruct (write data (se_conn s)) as [ok c]. by split_and!.
Qed.

Lemma read_rel_same s s' :
  se_media s' = se_media s -> se_control s' = se_control s -> read_rel s s'.
Proof. intros E1 E2. unfold read_rel, plays_on. rewrite E1, E2. by split_and!. Qed.

Lemma handle_request_read cfg sets rnd request : keeps (read_rel (T := T)) (handle_request cfg sets rnd request).
Proof.
  intros s. unfold handle_request. apply wlp_bind, wlp_get.
  set (reg := match find_channel _ _ with Some ch => lc_channel_id ch | None => -1 end).
  set (codec := match find_channel _ _ with Some ch => lc_codec ch | None => H264 end).
  set (fmtp := match find_channel _ _ with Some _ => _ | None => [] end).
  pose proof (process_answered request reg codec fmtp rnd.1 rnd.2 (se_control s)) as Ha.
  destruct (process_rtsp_request _ _ _ _ _ _ _) as [result control].
  assert (control_ok (se_control s) -> exists status,
    session_step request reg (se_control s) status (start_play result) (close_session result) control) as Hstep.
  { intros Hc. destruct (Ha Hc) as (status & headers & body & _ & Hst & _). eauto. }
  apply wlp_bind, wlp_modify, wlp_bind. unfold wlp at 1, write_conn.
  destruct (write _ _) as [ok c]. set (s1 := set_conn c (set_control control s)).
  assert (read_rel s s1) as H1.
  { split_and!; try done. intros Hc. destruct (Hstep Hc) as [status Hst]. split; [by eapply session_step_ok|].
    intros Hp Hi He. destruct (session_step_channels _ _ _ _ _ _ _ Hst Hi) as (I1 & _ & I2 & I3 & I4).
    cbn. split_and!; congruence. }
  assert (start_play result = true -> read_rel s (start_playing s1)) as H2.
  { intros Hsp. split_and!; try done; [intros []; by constructor|]. intros Hc. destruct (Hstep Hc) as [status Hst].
    split; [by eapply session_step_ok|]. intros Hp Hi He.
    destruct (session_step_channels _ _ _ _ _ _ _ Hst Hi) as (I1 & _ & I2 & I3 & I4). cbn. split_and!; congruence. }
  destruct ok; cbn [negb]; [|apply wlp_bind, wlp_modify, wlp_ret; etrans; [exact H1|]; by apply read_rel_same].
  apply wlp_bind. destruct (start_play result).
  - apply wlp_modify. specialize (H2 eq_refl). destruct (close_session result); [|exact H2].
    apply wlp_bind, wlp_modify, wlp_ret. etrans; [exact H2|]. by apply read_rel_same.
  - apply wlp_ret. destruct (close_session result); [|exact H1].
    apply wlp_bind, wlp_modify, wlp_ret. etrans; [exact H1|]. by apply read_rel_same.
Qed.

Lemma request_loop_read fuel cfg sets rnd n : keeps (read_rel (T := T)) (request_loop fuel cfg sets rnd n).
Proof.
  revert n. induction fuel as [|fuel IH]; intros n; cbn [request_loop]; [by keeps_step|].
  repeat keeps_step; try apply IH; try apply handle_request_read. by apply read_rel_same.
Qed.

Lemma read_part_read cfg sets ev rnd : keeps (read_rel (T := T)) (read_part cfg sets ev rnd).
Proof.
  unfold read_part, handle_input. repeat keeps_step; try apply write_conn_read; try apply request_loop_read;
    by apply read_rel_same.
Qed.
End Reading.

(** ** Parameter sets come from published frames *)

(** A NAL unit that the server keeps as a parameter set. *)
Definition set_unit (codec : VideoCodec) (nal : bytes) : bool :=
  match nal with
  | [] => false
  | b :: _ =>
    match codec with
    | H264 => (Z.land b 31 =? 7) || (Z.land b 31 =? 8)
    | H265 => let type := Z.land (Z.shiftr b 1) 63 in (type =? 32) || (type =? 33) || (type =? 34)
    end
  end.

(** What a frame must be like: units RTP can carry, and parameter sets that fit into an SDP
    body the client accepts. *)
Definition good_frame (lim : ParserLimits) (f : OwnedLiveFrame) : Prop :=
  Forall (fun nal => nal_ok (f_codec f) nal /\
            (set_unit (f_codec f) nal = true -> 4 * zlen nal + 400 <= Z.min int_max (max_body_bytes lim))) (frame_units f).

Definition set_list (ps : ParameterSets) (codec : VideoCodec) : list bytes :=
  match codec with
  | H264 => [h264_sps ps; h264_pps ps]
  | H265 => [h265_vps ps; h265_sps ps; h265_pps ps]
  end.

Definition sets_known (obs : list Obs) (arr : list ParameterSets) : Prop :=
  forall i ps codec nal, arr !! i = Some ps -> nal ∈ set_list ps codec -> nal <> [] ->
    known_unit obs (Z.of_nat i) codec nal /\ set_unit codec nal = true.

Lemma note_set_cases codec nal ps codec' x :
  x ∈ set_list (note_parameter_set codec nal ps) codec' ->
  x ∈ set_list ps codec' \/ x = nal /\ codec' = codec /\ set_unit codec nal = true.
Proof.
  destruct nal as [|b nal]; [auto|]. unfold note_parameter_set.
  destruct codec; [|destruct (_ <? 2)%nat; [auto|]]; destruct codec'; cbn [set_list h264_sps h264_pps h265_vps h265_sps h265_pps set_unit];
    try (by left).
  all: repeat match goal with |- context [if ?c then _ else _] => destruct c eqn:? end; cbn [orb];
    rewrite !elem_of_cons; intros; naive_solver.
Qed.

Lemma note_sets_known codec nals ps codec' x :
  x ∈ set_list (fold_left (fun s nal => note_parameter_set codec nal s) nals ps) codec' ->
  x ∈ set_list ps codec' \/ x ∈ nals /\ codec' = codec /\ set_unit codec x = true.
Proof.
  revert ps. induction nals as [|nal nals IH]; intros ps; cbn [fold_left]; [auto|].
  intros [[Hx|(-> & -> & Hu)]%note_set_cases|(Hx & ? & ?)]%IH; [auto|right; split_and!; [by left|done..]|].
  right. split_and!; [by right|done..].
Qed.

Lemma update_sets_known obs arr f :
  1 <= f_channel_id f -> sets_known obs arr -> sets_known (obs ++ [Publish f]) (update_parameter_sets f arr).
Proof.
  intros Hc Hk i ps codec nal. unfold update_parameter_sets. rewrite list_lookup_insert. case_decide as Hd.
  - destruct Hd as [<- Hi]. intros [= <-] Hx Hne. apply note_sets_known in Hx as [Hx|(Hx & -> & Hu)].
    + unfold sets_of in Hx. destruct (arr !! Z.to_nat (f_channel_id f)) as [ps|] eqn:E.
      * destruct (Hk _ _ _ _ E Hx Hne) as [? ?]. split; [by apply known_unit_app|done].
      * by destruct codec; repeat (apply elem_of_cons in Hx as [?|Hx]; [done|]); apply not_elem_of_nil in Hx.
    + split; [|done]. exists f. rewrite published_on_app, elem_of_app. split_and!; [right|done|done].
      unfold published_on. cbn. rewrite Z2Nat.id, Z.eqb_refl by lia. by left.
  - intros Hl Hx Hne. destruct (Hk _ _ _ _ Hl Hx Hne) as [? ?]. split; [by apply known_unit_app|done].
Qed.

Lemma sets_known_app obs obs' arr : sets_known obs arr -> sets_known (obs ++ obs') arr.
Proof. intros Hk i ps codec nal H1 H2 H3. destruct (Hk i ps codec nal H1 H2 H3). split; [by apply known_unit_app|done]. Qed.

Lemma base64_size input : 3 * zlen (base64_encode input) <= 4 * zlen input + 8.
Proof.
  enough (forall n input, (length input <= n)%nat -> 3 * zlen (base64_encode input) <= 4 * zlen input + 8) as H by by eapply H.
  clear input. induction n as [|n IH]; intros input Hl.
  { destruct input; [|cbn in Hl; lia]. unfold zlen. cbn. lia. }
  destruct input as [|a [|b [|c rest]]]; cbn [base64_encode]; [unfold zlen; cbn; lia..|].
  rewrite !zlen_cons. cbn [length] in Hl. specialize (IH rest ltac:(lia)). lia.
Qed.

(** Every frame published so far is good. *)
Definition all_good (lim : ParserLimits) (obs : list Obs) : Prop := forall f, Publish f ∈ obs -> good_frame lim f.

Lemma published_on_Publish c obs f : f ∈ published_on c obs <-> Publish f ∈ obs /\ f_channel_id f = c.
Proof.
  unfold published_on. rewrite list_elem_of_omap. split.
  - intros ([r|r|g|k g] & Ho & E); try done. destruct (Z.eqb_spec (f_channel_id g) c); [|done]. by injection E as ->.
  - intros [Ho Hc]. exists (Publish f). by rewrite Hc, Z.eqb_refl.
Qed.

Lemma known_unit_good lim obs c codec nal :
  all_good lim obs -> known_unit obs c codec nal ->
  nal_ok codec nal /\ (set_unit codec nal = true -> 4 * zlen nal + 400 <= Z.min int_max (max_body_bytes lim)).
Proof.
  intros Hg (f & [Hf _]%published_on_Publish & <- & Hn). specialize (Hg f Hf). unfold good_frame in Hg.
  rewrite Forall_forall in Hg. by apply Hg.
Qed.

Lemma sets_known_fit lim obs arr :
  256 <= max_body_bytes lim -> all_good lim obs -> sets_known obs arr -> sets_fit lim arr.
Proof.
  intros Hmax Hg Hk c codec. unfold codec_fmtp. set (ps := sets_of arr c).
  assert (forall nal, nal ∈ set_list ps codec -> nal <> [] -> 4 * zlen nal + 400 <= Z.min int_max (max_body_bytes lim)) as Hs.
  { intros nal Hn Hne. unfold ps, sets_of in Hn. destruct (arr !! Z.to_nat c) as [ps'|] eqn:E.
    - destruct (Hk _ _ _ _ E Hn Hne) as [Hu Hb]. by apply (known_unit_good lim) in Hu as [_ Hu]; [apply Hu|].
    - by destruct codec; repeat (apply elem_of_cons in Hn as [?|Hn]; [done|]); apply not_elem_of_nil in Hn. }
  assert (zlen (@nil Z) + 256 <= Z.min int_max (max_body_bytes lim)) as Hempty by (rewrite zlen_nil; unfold int_max; lia).
  destruct codec; cbn [set_list] in Hs.
  - destruct (h264_sps ps) as [|a x] eqn:E1; [exact Hempty|]. destruct (h264_pps ps) as [|b y] eqn:E2; [exact Hempty|].
    cbn [is_empty negb andb]. pose proof (Hs (a :: x) ltac:(set_solver) ltac:(done)). pose proof (Hs (b :: y) ltac:(set_solver) ltac:(done)).
    pose proof (base64_size (a :: x)). pose proof (zlen_nonneg (a :: x)). pose proof (base64_size (b :: y)). rewrite !zlen_app.
    change (zlen $"packetization-mode=1;sprop-parameter-sets=") with 42. change (zlen $",") with 1. lia.
  - destruct (h265_vps ps) as [|a x] eqn:E1; [exact Hempty|]. destruct (h265_sps ps) as [|b y] eqn:E2; [exact Hempty|].
    destruct (h265_pps ps) as [|d z] eqn:E3; [exact Hempty|].
    cbn [is_empty negb andb]. pose proof (Hs (a :: x) ltac:(set_solver) ltac:(done)). pose proof (Hs (b :: y) ltac:(set_solver) ltac:(done)).
    pose proof (Hs (d :: z) ltac:(set_solver) ltac:(done)).
    pose proof (base64_size (a :: x)). pose proof (zlen_nonneg (a :: x)). pose proof (base64_size (b :: y)). pose proof (base64_size (d :: z)). rewrite !zlen_app.
    change (zlen $"sprop-vps=") with 10. change (zlen $";sprop-sps=") with 11. change (zlen $";sprop-pps=") with 11. lia.
Qed.

(** ** What one client has got *)

(** A queue after one more frame: the oldest frames make room, or a frame larger than the
    whole queue is refused; either is counted. *)
Lemma push_cases q f k :
  q_closed q = false -> q_drops q = u64 k ->
  exists dropped rest, q_frames q = dropped ++ rest /\ q_closed (snd (push q (Some f))) = false /\
    ((q_frames (snd (push q (Some f))) = rest ++ [f] /\ q_drops (snd (push q (Some f))) = u64 (k + zlen dropped)) \/
     (q_frames (snd (push q (Some f))) = q_frames q /\ q_drops (snd (push q (Some f))) = u64 (k + 1))).
Proof.
  intros Hc Hk. cbn [push]. rewrite Hc. destruct (_ >? _).
  { exists [], (q_frames q). split_and!; [done|done|]. right. split; [done|]. cbn. rewrite Hk. unfold u64.
    by rewrite Z.add_mod_idemp_l by lia. }
  assert (forall mf mb need fs b d dr k, d = u64 k ->
    let '(fs', _, d', _) := drop_oldest mf mb need fs b d dr in
    exists dropped, fs = dropped ++ fs' /\ d' = u64 (k + zlen dropped)) as Hdrop.
  { clear. intros mf mb need fs. induction fs as [|x fs IH]; intros b d dr k ->; cbn [drop_oldest].
    { exists []. rewrite zlen_nil, Z.add_0_r. done. }
    destruct (_ || _); [|exists []; rewrite zlen_nil, Z.add_0_r; done].
    specialize (IH (u64 (b - f_size x)) (u64 (u64 k + 1)) true (k + 1)).
    destruct (drop_oldest _ _ _ fs _ _ _) as [[[fs' ?] ?] ?]. destruct IH as (dropped & -> & ->).
    { unfold u64. by rewrite Z.add_mod_idemp_l by lia. }
    exists (x :: dropped). split; [done|]. rewrite zlen_cons. f_equal. lia. }
  specialize (Hdrop (q_max_frames q) (q_max_bytes q) (f_size f) (q_frames q) (q_bytes q) (q_drops q) false k Hk).
  destruct (drop_oldest _ _ _ _ _ _ _) as [[[fs' ?] d'] ?]. destruct Hdrop as (dropped & E & ->).
  exists dropped, fs'. cbn. auto.
Qed.

(** The frames sent and queued are frames of the channel in their order; as long as
    nothing was dropped they are the latest ones without a gap. *)
Definition frames_kept (obs : list Obs) (id : nat) (channel : Z) (q : BoundedFrameQueue) : Prop :=
  exists k, q_drops q = u64 k /\ 0 <= k /\ k + zlen (sent_to id obs ++ q_frames q) <= zlen (published_on channel obs) /\
    sent_to id obs ++ q_frames q `sublist_of` published_on channel obs /\
    (k = 0 -> sent_to id obs ++ q_frames q `suffix_of` published_on channel obs).

(** The messages carry the units of the frames sent, after parameter sets that come from
    frames of the channel. *)
Definition carries (reg : Z -> VideoCodec) (obs : list Obs) (id : nat) (channel rtp : Z) (ms : list bytes) : Prop :=
  exists sets, assembles (reg channel) (rtp_payloads rtp ms) (sets ++ concat (frame_units <$> sent_to id obs)) /\
    Forall (known_unit obs channel (reg channel)) sets /\ (sent_to id obs = [] -> sets = []).

Record client_ok {T} (lim : ParserLimits) (reg : Z -> VideoCodec) (obs : list Obs) (id : nat) (s : Sess (T := T)) : Prop := {
  co_media : media_ok (se_media s);
  co_connected : m_connected (se_media s) = true;
  co_open : q_closed (m_queue (se_media s)) = false;
  co_session : session_ok lim (fun ms => m_playing (se_media s) = true ->
    carries reg obs id (m_channel_id (se_media s)) (rtp_channel (se_control s)) ms) s;
  co_idle : m_playing (se_media s) = false -> sent_to id obs = [] /\ q_drops (m_queue (se_media s)) = 0;
  co_waiting : m_waiting_for_keyframe (se_media s) = true <-> sent_to id obs = [];
  co_key : forall f, head (sent_to id obs) = Some f -> f_key_frame f = true;
  co_frames : m_playing (se_media s) = true -> frames_kept obs id (m_channel_id (se_media s)) (m_queue (se_media s))
}.

Lemma session_ok_impl {T} lim (P Q : list bytes -> Prop) (s : Sess (T := T)) :
  session_ok lim P s -> (forall ms, Forall (sent_ok lim s) ms -> P ms -> Q ms) -> session_ok lim Q s.
Proof. intros [(ms & H1 & H2 & H3 & H4) ? ? ?] HPQ. constructor; try done. exists ms. auto. Qed.

(** Before PLAY only responses are sent. *)
Lemma idle_responses {T} lim P (s : Sess (T := T)) :
  session_ok lim P s -> m_playing (se_media s) = false ->
  session_ok lim (Forall (rtsp_message_ok lim)) s /\ q_frames (m_queue (se_media s)) = [].
Proof.
  intros Hs Hp. split.
  - eapply session_ok_impl; [done|]. intros ms Hms _. eapply Forall_impl; [exact Hms|]. intros m [?|(_ & Hpl & _)]; [done|congruence].
  - pose proof (so_queue _ _ _ Hs) as Hq. destruct (q_frames _) as [|f fs]; [done|]. apply Forall_cons in Hq as [[Hpl _] _]. congruence.
Qed.

Lemma carries_nothing reg obs id channel rtp lim ms :
  Forall (rtsp_message_ok lim) ms -> sent_to id obs = [] -> carries reg obs id channel rtp ms.
Proof. intros Hms Hs. exists []. rewrite (rtp_payloads_responses _ lim ms Hms), Hs. split_and!; done. Qed.

(** Observations that are not about this client. *)
Lemma carries_app reg obs ext id channel rtp ms :
  sent_to id ext = [] -> carries reg obs id channel rtp ms -> carries reg (obs ++ ext) id channel rtp ms.
Proof.
  intros He (sets & H1 & H2 & H3). exists sets. rewrite sent_to_app, He, app_nil_r. split_and!; [done| |done].
  eapply Forall_impl; [exact H2|]. intros nal. apply known_unit_app.
Qed.

Lemma client_ok_app {T} lim reg obs ext id (s : Sess (T := T)) :
  sent_to id ext = [] -> (forall c, published_on c ext = []) -> client_ok lim reg obs id s -> client_ok lim reg (obs ++ ext) id s.
Proof.
  intros He Hp []. assert (sent_to id (obs ++ ext) = sent_to id obs) as Es by by rewrite sent_to_app, He, app_nil_r.
  constructor; rewrite ?Es; try done.
  - eapply session_ok_impl; [done|]. intros ms _ Hms Hpl. apply carries_app; auto.
  - unfold frames_kept. rewrite Es, published_on_app, Hp, app_nil_r. done.
Qed.

(** A frame is published. *)
Lemma frames_kept_other obs f id channel q :
  frames_kept obs id channel q -> f_channel_id f <> channel -> frames_kept (obs ++ [Publish f]) id channel q.
Proof.
  intros (k & H) Hne. exists k. rewrite sent_to_app, published_on_app. change (sent_to id [Publish f]) with (@nil OwnedLiveFrame).
  unfold published_on at 2 4 6. cbn [omap list_omap]. rewrite (proj2 (Z.eqb_neq _ _) Hne), !app_nil_r. exact H.
Qed.

Lemma frames_kept_push obs f id channel q :
  frames_kept obs id channel q -> q_closed q = false -> f_channel_id f = channel ->
  frames_kept (obs ++ [Publish f]) id channel (snd (push q (Some f))).
Proof.
  intros (k & Hk & H0 & Hlen & Hsub & Hsuf) Hc <-. unfold frames_kept. rewrite sent_to_app, published_on_app.
  change (sent_to id [Publish f]) with (@nil OwnedLiveFrame). rewrite app_nil_r.
  replace (published_on (f_channel_id f) [Publish f]) with [f] by (unfold published_on; cbn; by rewrite Z.eqb_refl).
  set (snt := sent_to id obs) in *. set (pub := published_on (f_channel_id f) obs) in *.
  destruct (push_cases q f k Hc Hk) as (dropped & rest & E & _ & [[-> ->]|[-> ->]]).
  - exists (k + zlen dropped). rewrite E in *. pose proof (zlen_nonneg dropped). rewrite !zlen_app in *.
    change (zlen [f]) with 1. split_and!; [done|lia|lia|..].
    + rewrite app_assoc. apply sublist_app; [|done]. etrans; [|exact Hsub]. apply sublist_app; [done|]. by apply sublist_inserts_l.
    + intros Hz. assert (dropped = []) as -> by (destruct dropped; [done|]; rewrite zlen_cons in *; pose proof (zlen_nonneg dropped); lia).
      rewrite app_assoc. apply suffix_app. apply Hsuf. rewrite zlen_nil in Hz. lia.
  - exists (k + 1). rewrite !zlen_app in *. change (zlen [f]) with 1. split_and!; [done|lia|lia|..].
    + by apply sublist_inserts_r.
    + lia.
Qed.

Lemma client_publish {T} lim reg obs f id (s : Sess (T := T)) :
  client_ok lim reg obs id s -> client_ok lim reg (obs ++ [Publish f]) id (set_media (deliver f (se_media s)) s).
Proof.
  intros []. assert (sent_to id (obs ++ [Publish f]) = sent_to id obs) as Es by (rewrite sent_to_app; apply app_nil_r).
  pose proof (deliver_ok lim _ [f] s co_session0) as Hd. cbn [fold_left] in Hd.
  assert (session_ok lim (fun ms => m_playing (se_media s) = true ->
    carries reg (obs ++ [Publish f]) id (m_channel_id (se_media s)) (rtp_channel (se_control s)) ms)
    (set_media (deliver f (se_media s)) s)) as Hd'.
  { eapply session_ok_impl; [exact Hd|]. intros ms _ Hms Hpl. apply carries_app; auto. }
  clear Hd. unfold deliver, wants_frame in *. rewrite co_connected0 in *. cbn [andb] in *.
  destruct (m_playing (se_media s)) eqn:Ep; cbn [andb] in *.
  - destruct (Z.eqb_spec (m_channel_id (se_media s)) (f_channel_id f)) as [Ec|Ec].
    + constructor; rewrite ?Es; cbn; rewrite ?Ep; try done.
      * destruct co_media0. by constructor.
      * destruct (co_frames0 eq_refl) as (k & Hk & _). destruct (push_cases (m_queue (se_media s)) f k co_open0 Hk) as (? & ? & _ & Hc & _). exact Hc.
      * intros _. apply frames_kept_push; auto.
    + constructor; rewrite ?Es; cbn; rewrite ?Ep; try done. intros _. apply frames_kept_other; auto.
  - constructor; rewrite ?Es; cbn; rewrite ?Ep; try done.
Qed.

(** The session reads: only responses are sent. *)
Lemma carries_response reg obs id channel rtp lim ms m :
  carries reg obs id channel rtp ms -> rtsp_message_ok lim m -> carries reg obs id channel rtp (ms ++ [m]).
Proof.
  intros (sets & H1 & H2 & H3) Hm. exists sets. split_and!; [|done|done].
  rewrite rtp_payloads_app, (rtp_payloads_responses rtp lim [m]), app_nil_r by by apply Forall_singleton. done.
Qed.

Lemma read_part_ok {T} `{!Transport T} `{!Reliable T} lim (P : list bytes -> Prop) cfg sets ev rnd (s : Sess (T := T)) :
  (forall ms m, P ms -> rtsp_message_ok lim m -> P (ms ++ [m])) ->
  peer_limits cfg lim -> sets_fit lim sets -> session_ok lim P s ->
  wlp (read_part cfg sets ev rnd) (fun _ => session_ok lim P) (session_ok lim P) s.
Proof. intros HP Hl Hs Hok. destruct ev; [done|done|]. by apply handle_input_ok. Qed.

Lemma client_read {T} `{!Transport T} `{!Reliable T} lim reg obs id cfg sets ev rnd (s s' : Sess (T := T)) r :
  peer_limits cfg lim -> sets_fit lim sets -> client_ok lim reg obs id s ->
  read_part cfg sets ev rnd s = Some (r, s') -> client_ok lim reg obs id s'.
Proof.
  intros Hl Hsets [] Hr.
  assert (read_rel s s') as (Rq & Rw & Rc & Rm & Rp).
  { pose proof (read_part_read cfg sets ev rnd s) as Hw. unfold wlp in Hw. rewrite Hr in Hw. by destruct r. }
  assert (forall P, (forall ms m, P ms -> rtsp_message_ok lim m -> P (ms ++ [m])) -> session_ok lim P s -> session_ok lim P s') as Hrun.
  { intros P HP Hok. pose proof (read_part_ok lim P cfg sets ev rnd s HP Hl Hsets Hok) as Hw. unfold wlp in Hw.
    rewrite Hr in Hw. by destruct r. }
  destruct (Rp (so_control _ _ _ co_session0)) as [Hc' Hplays]. destruct (m_playing (se_media s)) eqn:Ep.
  - destruct (so_playing _ _ _ co_session0 Ep) as [Hi Hch].
    destruct (Hplays Ep Hi Hch) as (P1 & P2 & P3 & P4 & P5 & P6). rewrite <- P4, <- P5 in co_session0.
    assert (session_ok lim (carries reg obs id (m_channel_id (se_media s')) (rtp_channel (se_control s'))) s') as Hs'.
    { apply Hrun; [by intros; eapply carries_response|]. eapply session_ok_impl; [done|]. auto. }
    constructor; rewrite ?Rq, ?Rw, ?Rc, ?P1; try done; [by apply Rm|eapply session_ok_impl; [exact Hs'|auto]|].
    rewrite P4. auto.
  - destruct (co_idle0 eq_refl) as [Hsent Hdrops]. destruct (idle_responses _ _ _ co_session0 Ep) as [Hresp Hempty].
    constructor; rewrite ?Rq, ?Rw, ?Rc; try done; [by apply Rm|..].
    + eapply session_ok_impl; [apply Hrun, Hresp|].
      * intros ms m Hms Hm. apply Forall_app. by split; [|apply Forall_singleton].
      * intros ms _ Hms _. by eapply carries_nothing.
    + intros _. exists 0. rewrite Hsent, Hempty, Hdrops. split_and!; [done|done| |apply sublist_nil_l|intros; apply suffix_nil].
      unfold zlen. cbn. lia.
Qed.

(** The session sends a frame. *)
Lemma session_ok_pop {T} lim P q (s : Sess (T := T)) :
  session_ok lim P s -> q_frames q `sublist_of` q_frames (m_queue (se_media s)) ->
  session_ok lim P (set_media (set_queue q (se_media s)) s).
Proof.
  intros [Hst Hc Hp Hq] Hsub. constructor; try done. cbn. rewrite Forall_forall in *. intros f Hf.
  apply Hq. by eapply elem_of_sublist.
Qed.

Lemma client_skip {T} lim reg obs id q (s : Sess (T := T)) f :
  client_ok lim reg obs id s -> sent_to id obs = [] -> q_frames (m_queue (se_media s)) = f :: q_frames q ->
  q_drops q = q_drops (m_queue (se_media s)) -> q_closed q = q_closed (m_queue (se_media s)) ->
  client_ok lim reg obs id (set_media (set_queue q (se_media s)) s).
Proof.
  intros [] Hsent Hq Hd Hcl. constructor; cbn; try done.
  - destruct co_media0. by constructor.
  - by rewrite Hcl.
  - apply (session_ok_pop _ _ q s); [done|]. rewrite Hq. by apply sublist_cons.
  - by rewrite Hd.
  - intros Hp. destruct (co_frames0 Hp) as (k & H1 & H2 & H3 & H4 & H5). exists k. rewrite Hsent, Hq, Hd in *. cbn [app] in *.
    rewrite zlen_cons in H3. split_and!; [done|done|lia|..].
    + etrans; [|exact H4]. by apply sublist_cons.
    + intros Hk. etrans; [|exact (H5 Hk)]. by apply suffix_cons_r.
Qed.

(** The units sent for a frame of a published channel can be carried. *)
Lemma frame_nals_ok lim reg obs arr f m :
  all_good lim obs -> sets_known obs arr -> Publish f ∈ obs -> f_codec f = reg (f_channel_id f) -> 1 <= f_channel_id f ->
  exists sets, frame_nals arr f m = sets ++ frame_units f /\ Forall (nal_ok (f_codec f)) (sets ++ frame_units f) /\
    Forall (known_unit obs (f_channel_id f) (reg (f_channel_id f))) sets /\ (m_waiting_for_keyframe m = false -> sets = []).
Proof.
  intros Hg Hk Hf Hcodec Hpos. unfold frame_nals. eexists. split; [reflexivity|].
  assert (Forall (known_unit obs (f_channel_id f) (f_codec f))
    (filter (fun nal => is_empty nal = false) (parameter_sets arr (f_channel_id f) (f_codec f)))) as Hsets.
  { apply Forall_forall. intros nal [Hne Hn]%list_elem_of_filter. unfold parameter_sets, sets_of in Hn.
    destruct (arr !! Z.to_nat (f_channel_id f)) as [ps|] eqn:E.
    - rewrite <- (Z2Nat.id (f_channel_id f)) by lia. eapply Hk; [exact E|by destruct (f_codec f)|by intros ->].
    - by destruct (f_codec f); cbn in Hn; repeat (apply elem_of_cons in Hn as [->|Hn]; [done|]); apply not_elem_of_nil in Hn. }
  rewrite <- Hcodec.
  assert (Forall (nal_ok (f_codec f)) (frame_units f)) as Hu.
  { specialize (Hg f Hf). eapply Forall_impl; [exact Hg|]. by intros nal [? _]. }
  destruct (m_waiting_for_keyframe m); split_and!; try done.
  - apply Forall_app. split; [|done]. eapply Forall_impl; [exact Hsets|]. intros nal Hn. by eapply known_unit_good.
Qed.

Lemma concat_units_snoc (l : list OwnedLiveFrame) f :
  concat (frame_units <$> (l ++ [f])) = concat (frame_units <$> l) ++ frame_units f.
Proof. rewrite fmap_app, concat_app. cbn. by rewrite app_nil_r. Qed.

(** The stream after the packets of one more frame. *)
Lemma carries_frame reg obs id f rtp rtcp ms packets wires reports sets :
  carries reg obs id (f_channel_id f) rtp ms -> (sent_to id obs <> [] -> sets = []) ->
  Forall2 (fun p w => interleaved rtp (packet_bytes p) = Ok w) packets wires ->
  assembles (reg (f_channel_id f)) (rtp_payload <$> packets) (sets ++ frame_units f) ->
  Forall (known_unit obs (f_channel_id f) (reg (f_channel_id f))) sets ->
  0 <= rtp <= 255 -> 0 <= rtcp <= 255 -> rtp <> rtcp -> Forall (fun r => exists p, interleaved rtcp p = Ok r) reports ->
  carries reg (obs ++ [Send id f]) id (f_channel_id f) rtp (ms ++ wires ++ reports).
Proof.
  intros (sets0 & H1 & H2 & H3) Hs Hw Ha Hk Hr Hc Hne Hrep.
  assert (sent_to id (obs ++ [Send id f]) = sent_to id obs ++ [f]) as Es.
  { rewrite sent_to_app. unfold sent_to at 2. cbn. by rewrite bool_decide_eq_true_2. }
  assert (rtp_payloads rtp reports = []) as Er.
  { clear -Hrep Hr Hc Hne. induction Hrep as [|r rs [p Hp] _ IH]; [done|].
    change (r :: rs) with ([r] ++ rs). by rewrite rtp_payloads_app, IH, (rtp_payloads_report rtp rtcp p r Hr Hc Hne Hp). }
  unfold carries. rewrite Es, concat_units_snoc, !rtp_payloads_app, Er, app_nil_r, (rtp_payloads_wires _ _ _ Hw).
  assert (forall l, Forall (known_unit obs (f_channel_id f) (reg (f_channel_id f))) l ->
    Forall (known_unit (obs ++ [Send id f]) (f_channel_id f) (reg (f_channel_id f))) l) as Hmono.
  { intros l Hl. eapply Forall_impl; [exact Hl|]. intros nal. apply known_unit_app. }
  destruct (sent_to id obs) as [|g gs] eqn:Eg.
  - rewrite (H3 eq_refl) in *. exists sets. split_and!; [|by apply Hmono|done].
    cbn [fmap list_fmap concat app] in *. change (sets ++ frame_units f) with ([] ++ sets ++ frame_units f). by apply assembles_app.
  - rewrite (Hs ltac:(done)) in *. exists sets0. split_and!; [|by apply Hmono|done].
    rewrite app_assoc. by apply assembles_app.
Qed.


(** The frame at the head of the queue goes out. *)
Lemma frames_kept_send obs id channel f q q' :
  frames_kept obs id channel q -> q_frames q = f :: q_frames q' -> q_drops q' = q_drops q ->
  frames_kept (obs ++ [Send id f]) id channel q'.
Proof.
  intros (k & H) Hq Hd. exists k. rewrite Hd. rewrite sent_to_app, published_on_app.
  replace (sent_to id [Send id f]) with [f] by (unfold sent_to; cbn; by rewrite bool_decide_eq_true_2).
  change (published_on channel [Send id f]) with (@nil OwnedLiveFrame). rewrite app_nil_r, <- app_assoc. cbn [app].
  by rewrite <- Hq.
Qed.

(** What [send_frame] adds to the stream. *)
Lemma send_frame_out {T} `{!Transport T} `{!Reliable T} mtu arr steady system f (s s' : Sess (T := T)) r :
  media_ok (se_media s) -> 15 < mtu <= 65535 -> m_waiting_for_keyframe (se_media s) = false \/ f_key_frame f = true ->
  Forall (nal_ok (f_codec f)) (frame_nals arr f (se_media s)) ->
  send_frame mtu arr steady system f s = Some (r, s') ->
  r = Ok true /\ same_client s s' /\ m_waiting_for_keyframe (se_media s') = false /\
  exists packets wires reports, c_sent (se_conn s') = c_sent (se_conn s) ++ concat (wires ++ reports) /\
    Forall2 (fun p w => interleaved (rtp_channel (se_control s)) (packet_bytes p) = Ok w) packets wires /\
    assembles (f_codec f) (rtp_payload <$> packets) (frame_nals arr f (se_media s)) /\
    Forall (fun r => exists p, interleaved (rtcp_channel (se_control s)) p = Ok r) reports.
Proof.
  intros Hm Hmtu Hwait Hnals Hr. pose proof (send_frame_client mtu arr steady system f s) as Hsame. unfold wlp in Hsame.
  assert (exists ts m1, frame_timestamp f (stop_waiting (se_media s)) = Some (ts, m1)) as (ts & m1 & Hts).
  { unfold send_frame in Hr. unfold mbind at 1, act_bind at 1, get in Hr.
    replace (m_waiting_for_keyframe (se_media s) && negb (f_key_frame f)) with false in Hr
      by (destruct Hwait as [->| ->]; [done|by rewrite andb_false_r]).
    unfold mbind at 1, act_bind at 1, defined in Hr. destruct (frame_timestamp _ _) as [[ts m1]|]; [by eexists _, _|done]. }
  destruct (send_frame_exact mtu arr steady system f s ts m1 Hm Hmtu Hwait Hnals Hts)
    as (packets & wires & report & s'' & Epk & Hsend & Hsent & Hw & _ & _ & _ & _ & Hwt & Hrep).
  rewrite Hsend in Hr, Hsame. injection Hr as <- <-. split_and!; [done|done|done|].
  exists packets, wires. subst packets.
  pose proof (packetize_assembles (f_codec f) _ (m_sequence (se_media s)) ts (m_ssrc (se_media s)) mtu ltac:(lia) Hnals) as Ha.
  destruct (report_due _ _).
  - exists [report]. rewrite concat_app. cbn [concat]. rewrite app_nil_r. split_and!; [done|done|done|].
    apply Forall_singleton. by eexists.
  - exists []. subst report. rewrite Hsent, !app_nil_r. by split_and!.
Qed.

Lemma sent_frames_ok {T} lim (s : Sess (T := T)) channel (wires : list bytes) :
  m_playing (se_media s) = true -> channel = rtp_channel (se_control s) \/ channel = rtcp_channel (se_control s) ->
  Forall (fun w => exists p, interleaved channel p = Ok w) wires -> Forall (sent_ok lim s) wires.
Proof.
  intros Hp Hc Hw. eapply Forall_impl; [exact Hw|]. intros w [p Hpw]. apply interleaved_frame_ok in Hpw as (? & ? & _). right.
  destruct Hc as [<-|<-]; auto.
Qed.

Lemma client_send {T} `{!Transport T} `{!Reliable T} lim reg obs id arr mtu steady system f q (s s' : Sess (T := T)) r :
  15 < mtu <= 65535 -> all_good lim obs -> sets_known obs arr ->
  (forall g, Publish g ∈ obs -> f_codec g = reg (f_channel_id g) /\ 1 <= f_channel_id g) ->
  client_ok lim reg obs id s -> m_playing (se_media s) = true ->
  q_frames (m_queue (se_media s)) = f :: q_frames q -> q_drops q = q_drops (m_queue (se_media s)) ->
  q_closed q = false -> m_waiting_for_keyframe (se_media s) = false \/ f_key_frame f = true ->
  send_frame mtu arr steady system f (set_media (set_queue q (se_media s)) s) = Some (r, s') ->
  r = Ok true /\ client_ok lim reg (obs ++ [Send id f]) id s'.
Proof.
  intros Hmtu Hg Hk Hcod [Cm Cc Co Cs Ci Cw Ck Cf] Hp Hq Hd Hcl Hwait Hr. set (s1 := set_media _ s) in Hr.
  pose proof (Cf Hp) as Hkept. assert (media_ok (se_media s1)) as Hm1 by (destruct Cm; by constructor).
  assert (Publish f ∈ obs /\ f_channel_id f = m_channel_id (se_media s)) as [Hpub Hchan].
  { destruct Hkept as (k & _ & _ & _ & Hsub & _). apply published_on_Publish. eapply elem_of_sublist; [|exact Hsub].
    rewrite Hq. set_solver. }
  destruct (Hcod f Hpub) as [Hcodec Hpos].
  destruct (frame_nals_ok lim reg obs arr f (se_media s1) Hg Hk Hpub Hcodec Hpos) as (sets & En & Hnals & Hks & Hns).
  rewrite <- En in Hnals.
  destruct (send_frame_out mtu arr steady system f s1 s' r Hm1 Hmtu Hwait Hnals Hr)
    as (-> & (S1 & _ & _ & S4 & S5 & S6 & S7 & S8) & Hwt & packets & wires & reports & Hsent & Hw & Ha & Hreps).
  split; [done|]. cbn in S1, S4, S5, S6, S7, Hsent, Hw, Hreps. rewrite En, Hcodec in Ha.
  pose proof (so_control _ _ _ Cs) as Hctl. destruct (so_playing _ _ _ Cs Hp) as [Hinit _].
  assert (transport_ok (se_control s)) as (_ & _ & _ & Hr1 & Hr2 & Hr3) by (unfold control_ok in Hctl; by destruct (phase _)).
  assert (sent_to id (obs ++ [Send id f]) = sent_to id obs ++ [f]) as Es.
  { rewrite sent_to_app. unfold sent_to at 2. cbn. by rewrite bool_decide_eq_true_2. }
  constructor; rewrite ?Es, ?S4, ?S5, ?S6, ?S7; try done; [by apply S8|..].
  - destruct Cs as [(ms & Hms & Hall & Hcar & Hto) Cctl Cpl Cq]. constructor; rewrite ?S1, ?S4, ?S6, ?S7; try done.
    + exists (ms ++ wires ++ reports). rewrite Hsent, Hms, <- concat_app. split_and!; [done| | |rewrite Hp in *; by apply told_frames].
      * rewrite !Forall_app. split_and!; [unfold sent_ok; by rewrite S1, S4| |].
        -- apply (sent_frames_ok lim s' (rtp_channel (se_control s))); [congruence|left; congruence|].
           clear -Hw. induction Hw; constructor; eauto.
        -- apply (sent_frames_ok lim s' (rtcp_channel (se_control s))); [congruence|right; congruence|done].
      * intros _. rewrite <- Hchan. apply (carries_frame _ _ _ _ _ (rtcp_channel (se_control s)) ms packets wires reports sets); try done.
        -- rewrite Hchan. by apply Hcar.
        -- intros Hne. apply Hns. cbn. apply not_true_is_false. by rewrite Cw.
    + cbn. rewrite Hq in Cq. by apply Forall_cons in Cq as [_ ?].
  - intros Hf. congruence.
  - rewrite Hwt. split; [done|]. by intros [_ ?]%app_eq_nil.
  - intros g. destruct (sent_to id obs) eqn:E; cbn [app head]; [|by apply Ck]. intros [= <-].
    destruct Hwait as [Hf|]; [|done]. rewrite (proj2 Cw eq_refl) in Hf. done.
  - intros _. cbn. by eapply frames_kept_send.
Qed.

(** The second half of a turn. *)
Lemma client_next {T} `{!Transport T} `{!Reliable T} lim reg obs id cfg arr steady system (s s' : Sess (T := T)) r :
  15 < rtp_mtu cfg <= 65535 -> all_good lim obs -> sets_known obs arr ->
  (forall g, Publish g ∈ obs -> f_codec g = reg (f_channel_id g) /\ 1 <= f_channel_id g) ->
  client_ok lim reg obs id s -> send_next cfg arr steady system s = Some (r, s') ->
  r = Ok true /\ client_ok lim reg (obs ++ match sent_frame (se_media s) with Some f => [Send id f] | None => [] end) id s'.
Proof.
  intros Hmtu Hg Hk Hcod Hok. unfold send_next, sent_frame, next_frame. unfold mbind at 1, act_bind at 1, get.
  destruct (m_playing (se_media s)) eqn:Ep.
  2: { intros [= <- <-]. rewrite app_nil_r. done. }
  unfold try_pop. destruct (q_frames (m_queue (se_media s))) as [|f fs] eqn:Eq; cbn [fst]; unfold mbind at 1, act_bind at 1, modify.
  { intros [= <- <-]. rewrite app_nil_r. split; [done|]. by destruct s as [[] ? ? ? ? ? ?]. }
  set (q := with_frames _ fs _ _). unfold mbind at 1, act_bind at 1.
  destruct (m_waiting_for_keyframe (se_media s) && negb (f_key_frame f)) eqn:Ew.
  - unfold send_frame, mbind at 1, act_bind at 1, get. cbn [se_media set_media set_queue m_waiting_for_keyframe].
    rewrite Ew. intros [= <- <-]. rewrite app_nil_r. split; [done|]. apply andb_true_iff in Ew as [Ew _].
    apply (client_skip lim reg obs id q s f); try done; by apply (co_waiting _ _ _ _ _ Hok).
  - destruct (send_frame _ _ _ _ _ _) as [[r1 s1]|] eqn:Es; [|done].
    destruct (client_send lim reg obs id arr (rtp_mtu cfg) steady system f q s s1 r1 Hmtu Hg Hk Hcod Hok Ep) as [-> Hok1]; try done.
    + apply (co_open _ _ _ _ _ Hok).
    + apply andb_false_iff in Ew as [?|?%negb_false_iff]; auto.
    + by intros [= <- <-].
Qed.

Lemma client_ok_same {T} lim reg obs id (s s' : Sess (T := T)) :
  se_media s' = se_media s -> se_conn s' = se_conn s -> se_control s' = se_control s ->
  client_ok lim reg obs id s -> client_ok lim reg obs id s'.
Proof.
  intros E1 E2 E3 []. constructor; rewrite ?E1, ?E3; try done. eapply session_ok_ext; [done|..]; by rewrite ?E1, ?E2, ?E3.
Qed.

(** A new client. *)
Lemma random_u32_range a b : 0 <= random_u32 a b < 4294967296.
Proof.
  unfold random_u32. pose proof (u32_range (Z.shiftl (u32 a) 16)) as H1. pose proof (u32_range b) as H2.
  set (x := u32 _) in *. set (y := u32 b) in *. clearbody x y.
  assert (forall z, 0 <= z < 4294967296 -> Z.log2 z < 32) as Hlog.
  { intros z Hz. destruct (Z.eq_dec z 0) as [->|]; [done|]. apply Z.log2_lt_pow2; lia. }
  assert (0 <= Z.lxor x y) by (apply Z.lxor_nonneg; lia). split; [done|].
  destruct (Z.eq_dec (Z.lxor x y) 0) as [->|Hne]; [lia|]. apply (Z.log2_lt_pow2 _ 32); [lia|].
  eapply Z.le_lt_trans; [apply Z.log2_lxor; lia|]. apply Z.max_lub_lt; auto.
Qed.

Lemma media_new_client {T} lim reg obs id mf mb seq (a b c d : Z) media (t : T) :
  media_new mf mb seq (random_u32 a b) (random_u32 c d) = Ok media -> sent_to id obs = [] ->
  client_ok lim reg obs id (new_session media t).
Proof.
  intros Hm Hs. pose proof Hm as Hm'. unfold media_new, queue_new in Hm'. destruct (_ || _); [done|].
  cbn [mbind result_bind] in Hm'. injection Hm' as Em. 
  assert (session_ok lim (fun ms => m_playing (se_media (new_session media t)) = true ->
    carries reg obs id (m_channel_id (se_media (new_session media t))) (rtp_channel (se_control (new_session media t))) ms)
    (new_session media t)) as Hok by (eapply new_session_ok; [exact Hm|subst media; done]).
  subst media. constructor; cbn; rewrite ?Hs; try done.
  constructor; cbn; try lia; [apply u16_range|apply random_u32_range..].
Qed.

(** ** The whole server *)

Record live_delivers {T} (lim : ParserLimits) (reg : Z -> VideoCodec) (obs : list Obs) (l : Live (T := T)) : Prop := {
  ld_sets : sets_known obs (s_sets (l_server l));
  ld_codec : forall f, Publish f ∈ obs -> f_codec f = reg (f_channel_id f) /\ 1 <= f_channel_id f;
  ld_fresh : forall id, l_threads l !! id = None \/ (exists fd tls, l_threads l !! id = Some (Created fd tls)) -> sent_to id obs = [];
  ld_clients : forall id fd tls sending sess m, l_threads l !! id = Some (Serving fd tls sending sess) ->
    s_media (l_server l) !! id = Some m -> client_ok lim reg obs id (set_media m sess)
}.

(** A step that sends and publishes nothing and leaves the sessions alone. *)
Lemma live_delivers_ext {T} lim reg obs ext (l l' : Live (T := T)) :
  live_delivers lim reg obs l -> (forall id, sent_to id ext = []) -> (forall f, Publish f ∉ ext) ->
  s_sets (l_server l') = s_sets (l_server l) ->
  (forall id, l_threads l' !! id = None \/ (exists fd tls, l_threads l' !! id = Some (Created fd tls)) ->
     l_threads l !! id = None \/ (exists fd tls, l_threads l !! id = Some (Created fd tls))) ->
  (forall id fd tls sending sess m, l_threads l' !! id = Some (Serving fd tls sending sess) ->
     s_media (l_server l') !! id = Some m ->
     l_threads l !! id = Some (Serving fd tls sending sess) /\ s_media (l_server l) !! id = Some m) ->
  live_delivers lim reg (obs ++ ext) l'.
Proof.
  intros [H1 H2 H3 H4] Hs Hp Es Ht Hm. constructor.
  - rewrite Es. by apply sets_known_app.
  - intros f [Hf|Hf]%elem_of_app; [by apply H2|by apply Hp in Hf].
  - intros id Hid. by rewrite sent_to_app, Hs, app_nil_r, H3 by auto.
  - intros id fd tls sending sess m Hid Hmed. destruct (Hm _ _ _ _ _ _ Hid Hmed) as [? ?]. apply client_ok_app; [done| |by eapply H4].
    intros c. apply elem_of_nil_inv. intros f [Hf _]%published_on_Publish. by apply Hp in Hf.
Qed.

(** A session makes a half turn. *)
Lemma session_moved_delivers {T} lim reg obs ext (l : Live (T := T)) id fd tls sending sess m next r s' :
  live_delivers lim reg obs l -> l_threads l !! id = Some (Serving fd tls sending sess) -> s_media (l_server l) !! id = Some m ->
  (forall k, k <> id -> sent_to k ext = []) -> (forall f, Publish f ∉ ext) -> client_ok lim reg (obs ++ ext) id s' ->
  live_delivers lim reg (obs ++ ext) (session_moved id fd tls next r s' l).
Proof.
  intros [H1 H2 H3 H4] Hid Hm Hs Hp Hok. constructor; cbn.
  - by apply sets_known_app.
  - intros f [Hf|Hf]%elem_of_app; [by apply H2|by apply Hp in Hf].
  - intros k. destruct (decide (k = id)) as [->|Hne].
    + rewrite lookup_insert_eq. intros [[=]|(? & ? & E)]. by destruct r as [[]|].
    + rewrite lookup_insert_ne by done. intros Hk. by rewrite sent_to_app, Hs, app_nil_r, H3.
  - intros k fd' tls' sd' sess' m'. destruct (decide (k = id)) as [->|Hne].
    + rewrite !lookup_insert_eq. intros E [= <-]. destruct r as [[]|]; try done. injection E as <- <- <- <-.
      eapply client_ok_same; [..|exact Hok]; done.
    + rewrite !lookup_insert_ne by done. intros Hk Hm'. apply client_ok_app; [by apply Hs| |by eapply H4].
      intros c. apply elem_of_nil_inv. intros f [Hf _]%published_on_Publish. by apply Hp in Hf.
Qed.

Definition channel_codec (cfg : LiveRtspServerConfig) (channel : Z) : VideoCodec :=
  match find_channel (channels cfg) channel with Some ch => lc_codec ch | None => H264 end.

(** A frame the server takes. *)
Lemma accepted_frame_cases config view s :
  server_ok config s ->
  match accepted_frame view s with
  | None => on_frame view s = s
  | Some f =>
    f_codec f = channel_codec (s_config s) (f_channel_id f) /\ 1 <= f_channel_id f /\
    s_sets (on_frame view s) = update_parameter_sets f (s_sets s) /\
    forall k, s_media (on_frame view s) !! k = deliver f <$> s_media s !! k
  end.
Proof.
  intros Hok. unfold accepted_frame, channel_codec. destruct (v_data view) as [data|] eqn:Ed; [|by unfold on_frame; rewrite Ed].
  destruct (registered_channel s (v_channel_id view)) as [ch|] eqn:Ec; [|by unfold on_frame; rewrite Ed, Ec].
  destruct (is_empty data || _) eqn:E; [by unfold on_frame; rewrite Ed, Ec, E|].
  assert (data <> [] /\ lc_codec ch = v_codec view) as [Hne Hcodec].
  { apply orb_false_iff in E as [E1 E2]. bprop. split; [by intros ->|done]. }
  pose proof Ec as Ef. unfold registered_channel in Ef. cbn [own_frame f_codec f_channel_id]. rewrite Ef. split_and!; [done|..].
  - pose proof (proj1 (impl_config_ok _ _) (sv_config _ _ Hok)) as (Hcfg & Hrange & _). rewrite Hcfg in Ef.
    apply find_channel_Some in Ef as [Hin <-]. cbn in Hin. rewrite Forall_forall in Hrange. by apply Hrange in Hin as [? _].
  - unfold on_frame. rewrite Ed, Ec, E. by destruct (fold_left _ _ _).
  - intros k. rewrite (on_frame_media view data ch s k (sv_clients _ _ Hok) (sv_alive _ _ Hok) Ed Hne Ec Hcodec). done.
Qed.

Lemma publish_delivers {T} config lim obs (l : Live (T := T)) view :
  server_ok config (l_server l) -> live_delivers lim (channel_codec (s_config (l_server l))) obs l ->
  live_delivers lim (channel_codec (s_config (l_server l)))
    (obs ++ match accepted_frame view (l_server l) with Some f => [Publish f] | None => [] end)
    (with_server (on_frame view (l_server l)) l).
Proof.
  intros Hs Hl. pose proof (accepted_frame_cases config view (l_server l) Hs) as Hc.
  destruct (accepted_frame _ _) as [f|].
  2: { rewrite Hc. apply (live_delivers_ext _ _ _ _ l); auto. by intros f ?%not_elem_of_nil. }
  destruct Hc as (Hcodec & Hpos & Hsets & Hmedia). destruct Hl as [H1 H2 H3 H4]. constructor; cbn.
  - rewrite Hsets. by apply update_sets_known.
  - intros g [Hg|Hg]%elem_of_app; [by apply H2|]. by apply list_elem_of_singleton in Hg as [= ->].
  - intros id Hid. rewrite sent_to_app, H3 by done. done.
  - intros id fd tls sd sess m Hid. rewrite Hmedia. intros (m0 & Hm0 & ->)%fmap_Some.
    exact (client_publish lim _ obs f id _ (H4 _ _ _ _ _ _ Hid Hm0)).
Qed.

(** Observations of connections alone. *)
Definition no_frames (ext : list Obs) : Prop := Forall (fun o => match o with Acquire _ | Release _ => True | _ => False end) ext.

Lemma no_frames_obs ext : no_frames ext -> (forall id, sent_to id ext = []) /\ forall f, Publish f ∉ ext.
Proof.
  intros Hn. split.
  - intros id. induction Hn as [|[r|r|f|k f] ext Ho _ IH]; try done; exact IH.
  - intros f Hf. unfold no_frames in Hn. rewrite Forall_forall in Hn. by apply Hn in Hf.
Qed.

Lemma release_fd_no_frames fd : no_frames (release_fd fd).
Proof. unfold release_fd. destruct (_ >=? _); repeat constructor. Qed.

Lemma connection_free_no_frames id fd tls : no_frames (connection_free id fd tls).
Proof. apply Forall_app. split; [destruct tls; repeat constructor|apply release_fd_no_frames]. Qed.

Lemma connection_new_no_frames id tls : no_frames (snd (connection_new id tls)).
Proof. destruct tls as [[]|]; repeat constructor. Qed.

(** The session of a thread is over or given up. *)
Lemma thread_left_delivers {T} lim reg obs ext (l l' : Live (T := T)) id t :
  live_delivers lim reg obs l -> no_frames ext -> s_sets (l_server l') = s_sets (l_server l) ->
  l_threads l' = <[id := t]> (l_threads l) ->
  match t with Created _ _ | Serving _ _ _ _ => False | _ => True end ->
  (forall k, k <> id -> s_media (l_server l') !! k = s_media (l_server l) !! k) -> live_delivers lim reg (obs ++ ext) l'.
Proof.
  intros Hl [Hs Hp]%no_frames_obs Hset Ht Hk Hm. apply (live_delivers_ext lim reg obs ext l); try done; rewrite Ht.
  - intros k. destruct (decide (k = id)) as [->|]; [rewrite lookup_insert_eq|by rewrite lookup_insert_ne].
    intros [[=]|(? & ? & [= ->])]. done.
  - intros k fd tls sd sess m. destruct (decide (k = id)) as [->|].
    + rewrite lookup_insert_eq. intros [= ->]. done.
    + rewrite lookup_insert_ne, Hm by done. auto.
Qed.

Lemma session_begin_delivers {T} lim reg obs (l : Live (T := T)) id fd tls ssl rnd (t : T) :
  live_delivers lim reg obs l -> l_threads l !! id = Some (Created fd tls) ->
  let '(ext, l') := session_begin id fd tls ssl rnd t l in live_delivers lim reg (obs ++ ext) l'.
Proof.
  intros Hl Hid. pose proof (ld_fresh _ _ _ _ Hl id (or_intror (ex_intro _ fd (ex_intro _ tls Hid)))) as Hf.
  unfold session_begin. cbv zeta. destruct (media_new _ _ _ _ _) as [media|w] eqn:Em.
  2: { apply (live_delivers_ext _ _ _ _ l); auto. by intros f ?%not_elem_of_nil. }
  pose proof (connection_new_no_frames id (if tls then Some ssl else None)) as Hn.
  destruct (connection_new _ _) as [[u|w] ext]; cbn [snd] in Hn.
  2: { eapply (thread_left_delivers _ _ _ _ l _ id Over); try done. apply Forall_app. split; [done|apply release_fd_no_frames]. }
  apply no_frames_obs in Hn as [Hs Hp]. destruct Hl as [H1 H2 H3 H4]. constructor; cbn.
  - by apply sets_known_app.
  - intros f [?|Hx]%elem_of_app; [by apply H2|by apply Hp in Hx].
  - intros k. rewrite sent_to_app, Hs, app_nil_r. destruct (decide (k = id)) as [->|]; [done|]. rewrite lookup_insert_ne by done. apply H3.
  - intros k fd' tls' sd sess m. destruct (decide (k = id)) as [->|Hne].
    + rewrite !lookup_insert_eq. intros [= <- <- <- <-] [= <-]. change (set_media media (new_session media t)) with (new_session media t).
      eapply media_new_client; [exact Em|]. by rewrite sent_to_app, Hs, Hf.
    + rewrite !lookup_insert_ne by done. intros Hk Hm. apply client_ok_app; [done| |by eapply H4].
      intros c. apply elem_of_nil_inv. intros f [Hx _]%published_on_Publish. by apply Hp in Hx.
Qed.

Section Delivery.
Context {T : Type} `{!Transport T} `{!Reliable T}.
Context (config : LiveRtspServerConfig) (lim : ParserLimits).
Hypothesis limits : peer_limits config lim.
Hypothesis mtu_fits : 15 < rtp_mtu config <= 65535.
Implicit Type l : Live (T := T).

Lemma server_limits s : server_ok config s -> peer_limits (s_config s) lim /\ 15 < rtp_mtu (s_config s) <= 65535.
Proof. intros [Hc _ _ _ _ _]. apply impl_config_ok in Hc as [-> _]. done. Qed.

Lemma live_step_delivers held obs l lb ext l' :
  live_ok config held l -> all_good lim obs -> live_delivers lim (channel_codec (s_config (l_server l))) obs l ->
  live_step lb l = Some (ext, l') -> live_delivers lim (channel_codec (s_config (l_server l))) (obs ++ ext) l'.
Proof.
  intros Hok Hg Hl. pose proof (lo_server _ _ _ Hok) as Hs. destruct (server_limits _ Hs) as [Hlim Hmtu].
  assert (sets_fit lim (s_sets (l_server l))) as Hfit by (eapply sets_known_fit; [apply limits|done|apply Hl]).
  assert (no_frames []) as Hnil by constructor.
  assert (forall l1, l_threads l1 = l_threads l -> s_media (l_server l1) = s_media (l_server l) ->
    s_sets (l_server l1) = s_sets (l_server l) -> live_delivers lim (channel_codec (s_config (l_server l))) (obs ++ []) l1) as Hsame.
  { intros l1 E1 E2 E3. apply (live_delivers_ext _ _ _ _ l); rewrite ?E1, ?E2; auto. by intros f ?%not_elem_of_nil. }
  unfold live_step. destruct (l_aborted l); [done|].
  destruct lb as [tls o1 o2| | | |view|i ev id|i|id ssl rnd t|id ev rnd|id steady system|id|id].
  - destruct (l_stopping l); [done|]. intros [= <- <-].
    destruct (start_shape tls o1 o2 (l_server l)) as (st & pl & tl & ctx & n & ths & E). apply Hsame; cbn; by rewrite ?E.
  - intros [= <- <-]. by apply Hsame.
  - destruct (l_stopping l); [done|]. destruct (s_started _); intros [= <- <-]; by apply Hsame.
  - destruct (_ && _ && _); [|done]. intros [= <- <-]. destruct (stop_end_shape (l_server l)) as (ctx & n & E). apply Hsame; cbn; by rewrite ?E.
  - intros [= <- <-]. by apply (publish_delivers config).
  - destruct (l_accepting l !! i) as [[lfd tls]|]; [|done]. destruct (l_threads l !! id) eqn:Hid; [done|].
    destruct (accept_turn _ _ _ _) as [[[fd|] s']|] eqn:Ea; [..|done];
      apply accept_turn_shape in Ea as (_ & _ & [[Hfd ->]|(z & Hfd & _ & ->)]); try done.
    + destruct (bool_decide _); [|done]. intros [= <- <-].
      apply (live_delivers_ext _ _ _ _ l); try done; cbn; [by intros f ?%list_elem_of_singleton|..].
      * intros k. destruct (decide (k = id)) as [->|]; [auto|by rewrite lookup_insert_ne].
      * intros k fd' tls' sd sess m. destruct (decide (k = id)) as [->|]; [by rewrite lookup_insert_eq|by rewrite lookup_insert_ne].
    + intros [= <- <-]. by apply Hsame.
  - destruct (keeps_going l); [done|]. destruct (l_accepting l !! i); [|done]. intros [= <- <-]. by apply Hsame.
  - destruct (l_threads l !! id) as [[fd tls| | | |]|] eqn:Hid; try done. intros [= E].
    pose proof (session_begin_delivers lim _ obs l id fd tls ssl rnd t Hl Hid) as Hb. by rewrite E in Hb.
  - destruct (l_threads l !! id) as [[|fd tls [] sess| | |]|] eqn:Hid; try done.
    destruct (s_media _ !! id) as [m|] eqn:Hm; [|done]. destruct (_ && _); [|done].
    destruct (read_part _ _ _ _ _) as [[r s']|] eqn:Er; intros [= <- <-].
    + eapply session_moved_delivers; [done..|by intros f ?%not_elem_of_nil|]. rewrite app_nil_r.
      eapply client_read; [done|done| |exact Er]. by eapply ld_clients.
    + by eapply (thread_left_delivers _ _ _ _ l _ id (Hanging fd tls)).
  - destruct (l_threads l !! id) as [[|fd tls [] sess| | |]|] eqn:Hid; try done.
    destruct (s_media _ !! id) as [m|] eqn:Hm; [|done].
    destruct (send_next _ _ _ _ _) as [[r s']|] eqn:Er; intros [= <- <-].
    pose proof (ld_clients _ _ _ _ Hl _ _ _ _ _ _ Hid Hm) as Hc.
    destruct (client_next _ _ _ _ _ _ _ _ _ _ _ Hmtu Hg (ld_sets _ _ _ _ Hl) (ld_codec _ _ _ _ Hl) Hc Er) as [_ Hc'].
    eapply session_moved_delivers; [done..| | |exact Hc']; cbn [se_media set_media].
    + intros k Hk. destruct (sent_frame m); [|done]. unfold sent_to. cbn. by rewrite bool_decide_eq_false_2.
    + intros f. destruct (sent_frame m); set_solver.
  - destruct (l_threads l !! id) as [[|fd tls [] sess| | |]|] eqn:Hid; try done. destruct (_ && _); [done|].
    intros [= <- <-]. by eapply (thread_left_delivers _ _ _ _ l _ id (Leaving fd tls)).
  - destruct (l_threads l !! id) as [[| | |fd tls|]|] eqn:Hid; try done. intros [= <- <-].
    eapply (thread_left_delivers _ _ _ _ l _ id Over); try done; [apply connection_free_no_frames|].
    intros k Hk. cbn. by rewrite lookup_delete_ne.
Qed.

Lemma live_run_delivers labels held obs0 l obs l' :
  live_ok config held l -> all_good lim (obs0 ++ obs) -> live_delivers lim (channel_codec (s_config (l_server l))) obs0 l ->
  live_run labels l = Some (obs, l') -> live_delivers lim (channel_codec (s_config (l_server l'))) (obs0 ++ obs) l'.
Proof.
  revert held obs0 l obs. induction labels as [|lb labels IH]; intros held obs0 l obs Hok Hg Hl; cbn [live_run].
  { intros [= <- <-]. by rewrite app_nil_r. }
  destruct (live_step lb l) as [[obs1 l1]|] eqn:E1; cbn [mbind option_bind]; [|done].
  destruct (live_run labels l1) as [[obs2 l2]|] eqn:E2; cbn [mbind option_bind]; [|done]. intros [= <- <-].
  destruct (live_step_ok config held l lb obs1 l1 Hok E1) as (h1 & _ & Hok1).
  assert (s_config (l_server l1) = s_config (l_server l)) as Ec.
  { pose proof (sv_config _ _ (lo_server _ _ _ Hok)). pose proof (sv_config _ _ (lo_server _ _ _ Hok1)). congruence. }
  rewrite app_assoc in *. apply (IH h1 (obs0 ++ obs1) l1 obs2 Hok1 Hg); [|done]. rewrite Ec.
  apply (live_step_delivers held obs0 l lb); try done. intros f Hf. apply Hg. set_solver.
Qed.

Lemma live_run_new_delivers s running labels obs l :
  server_new config = Ok s -> live_run labels (live_new s running) = Some (obs, l) -> all_good lim obs ->
  live_delivers lim (channel_codec (s_config (l_server l))) obs l.
Proof.
  intros Hn Hr Hg. apply (live_run_delivers labels ∅ [] (live_new s running) obs l); try done; [by apply live_new_ok|].
  unfold server_new in Hn. bind_inv Hn. injection Hn as <-. constructor; cbn.
  - intros i ps codec nal Hps Hnal Hne. change (replicate 5 no_sets !! i = Some ps) in Hps.
    apply lookup_replicate in Hps as [-> _].
    by destruct codec; cbn in Hnal; repeat (apply elem_of_cons in Hnal as [?|Hnal]; [done|]); apply not_elem_of_nil in Hnal.
  - by intros f ?%not_elem_of_nil.
  - done.
  - done.
Qed.
End Delivery.

(** ** The theorem *)

(** C3: What a playing client gets, whatever the interleaving of the server's threads.  On
    transports that take every byte, with frames that RTP can carry: the client, however
    its reads are cut, receives whole messages; the RTP payloads on its channel make up the
    NAL units of exactly the frames its session has taken from the queue, in their order
    and complete, after parameter sets that were published on the same channel; the first
    of these frames is a key frame; the frames sent and those still queued are frames
    published on the client's channel, in their order, none twice; and as long as the
    queue has counted no drop there is no gap: they are the latest frames of the channel
    up to now. *)
Theorem frames_delivered {T} `{!Transport T} `{!Reliable T} config s running (labels : list (Label (T := T))) obs l lim
    id fd tls sending sess m :
  server_new config = Ok s -> live_run labels (live_new s running) = Some (obs, l) ->
  peer_limits config lim -> 15 < rtp_mtu config <= 65535 -> (forall f, Publish f ∈ obs -> good_frame lim f) ->
  l_threads l !! id = Some (Serving fd tls sending sess) -> s_media (l_server l) !! id = Some m -> m_playing m = true ->
  let codec := channel_codec (s_config (l_server l)) (m_channel_id m) in
  let frames := sent_to id obs ++ q_frames (m_queue m) in
  exists ms sets,
    (forall chunks, concat chunks = c_sent (se_conn sess) -> receive_all [] chunks lim = Some (ms, [])) /\
    depayload codec [] (rtp_payloads (rtp_channel (se_control sess)) ms) = sets ++ concat (frame_units <$> sent_to id obs) /\
    Forall (known_unit obs (m_channel_id m) codec) sets /\
    (forall f, head (sent_to id obs) = Some f -> f_key_frame f = true) /\
    frames `sublist_of` published_on (m_channel_id m) obs /\
    (zlen (published_on (m_channel_id m) obs) < 18446744073709551616 -> queue_drops (m_queue m) = 0 ->
     frames `suffix_of` published_on (m_channel_id m) obs).
Proof.
  intros Hn Hr Hlim Hmtu Hg Hid Hm Hp codec frames.
  pose proof (live_run_new_delivers config lim Hlim Hmtu s running labels obs l Hn Hr Hg) as Hl.
  destruct (ld_clients _ _ _ _ Hl _ _ _ _ _ _ Hid Hm) as [_ _ _ [(ms & Hms & Hall & Hcar & _) _ _ _] _ _ Hkey Hframes].
  destruct (Hcar Hp) as (sets & Ha & Hk & _). destruct (Hframes Hp) as (k & Hd & H0 & Hlen & Hsub & Hsuf). cbn in *.
  exists ms, sets. split_and!; try done.
  - intros chunks Hc. apply receive_all_messages; [|by left|by rewrite Hc]. eapply Forall_impl; [exact Hall|].
    intros msg [?|(? & _)]; [by left|by right].
  - by apply assembles_depayload.
  - intros Hz Hq. apply Hsuf. unfold queue_drops in Hq. rewrite Hd in Hq. fold frames in Hlen. pose proof (zlen_nonneg frames).
    unfold u64 in Hq. rewrite Z.mod_small in Hq by lia. done.
Qed.

Lemma demo_frame_good key pts : good_frame demo_limits (demo_frame key pts).
Proof.
  assert (frame_units (demo_frame key pts) = [[if key then 101 else 65; 136]]) as E by by destruct key.
  unfold good_frame. rewrite E. apply Forall_singleton. destruct key.
  all: split; [split; [repeat (constructor; [unfold byte_ok; lia|]); constructor|discriminate]|discriminate].
Qed.

(** The demonstration run of Threads: its observations, its state, its one client. *)
Definition demo_end : list Obs * Live (T := TwoBytes) :=
  default ([], live_new demo_server true) (run_demo (demo_opening ++ demo_frames)).
Definition demo_sess : Sess (T := TwoBytes) :=
  match l_threads demo_end.2 !! 1%nat with Some (Serving _ _ _ sess) => sess | _ => new_session demo_media two_bytes end.
Definition demo_client : ClientMediaState := default demo_media (s_media (l_server demo_end.2) !! 1%nat).

Lemma frames_delivered_witness :
  exists ms sets, receive_all [] [c_sent (se_conn demo_sess)] demo_limits = Some (ms, []) /\
    depayload H264 [] (rtp_payloads 2 ms) = sets ++ [[101; 136]] /\
    published_on 1 demo_end.1 = [demo_frame false 0; demo_frame true 40000000; demo_frame false 80000000].
Proof.
  destruct (frames_delivered demo_config demo_server true (demo_opening ++ demo_frames) demo_end.1 demo_end.2 demo_limits
              1 7 false false demo_sess demo_client) as (ms & sets & H1 & H2 & _).
  - reflexivity.
  - vm_compute. reflexivity.
  - vm_compute. split_and!; congruence.
  - cbn. lia.
  - assert (demo_end.1 = [Acquire (Fd 7); Publish (demo_frame false 0); Publish (demo_frame true 40000000);
      Publish (demo_frame false 80000000); Send 1 (demo_frame true 40000000)]) as ->
      by (vm_compute; reflexivity).
    intros f Hf. repeat (apply elem_of_cons in Hf as [Hf|Hf]; [try discriminate Hf; injection Hf as ->; apply demo_frame_good|]).
    by apply not_elem_of_nil in Hf.
  - vm_compute. reflexivity.
  - vm_compute. reflexivity.
  - vm_compute. reflexivity.
  - exists ms, sets. split; [apply H1; apply app_nil_r|]. split; [|vm_compute; reflexivity].
    replace (concat (frame_units <$> sent_to 1 demo_end.1)) with [[101; 136]] in H2 by (vm_compute; reflexivity).
    exact H2.
Defined.
