(* ===== verification/ChannelManager.v ===== *)
(** * Channel mappings and the channel manager (src/media/channel_manager.cpp, with the
    configuration of src/media/channel_ingest.cpp)

    [parse_channel_map], [channel_output_dir], the constructors of [ChannelIngest]
    and [ChannelManager], and the manager's life cycle: the start of the workers with the
    delays between them, the end of a worker's thread, the joins and the statistics.
    What a worker does while it runs is in Ingest; here its run has an outcome. *)

From S2P Require Import Prelude CStr Rtp LiveServer.

(** ** Mappings *)

Record ChannelMapping := { camera_channel : Z; vms_channel : Z }.

Definition parse_mapping_number (field value : bytes) (min_value max_value : Z) : result Z :=
  rethrow_as ($"invalid " ++ field ++ $" in --channel-map: " ++ value)
    ('(parsed, consumed) ← stoi value;
     _ ← throw_if (negb (consumed =? length value)%nat || (parsed <? min_value) || (parsed >? max_value)) $"range";
     Ok parsed).

(** One entry [CAMERA:VMS]. *)
Definition parse_mapping (item : bytes) : result ChannelMapping :=
  match find0 $":" item with
  | None => Throw $"--channel-map entries must use CAMERA:VMS"
  | Some separator =>
    _ ← throw_if (bool_decide (is_Some (str_find item $":" (separator + 1))))
          $"--channel-map entries must use CAMERA:VMS";
    camera ← parse_mapping_number $"camera channel" (substr item 0 separator) 0 3;
    vms ← parse_mapping_number $"VMS channel" (substr_from item (separator + 1)) 1 4;
    Ok {| camera_channel := camera; vms_channel := vms |}
  end.

(** The flags [camera_seen] and [channel_seen]. *)
Definition seen (flags : list bool) (i : Z) : bool := default false (flags !! Z.to_nat i).

(** The loop from position [begin] on; [rest] is the text from there. *)
Fixpoint channel_map_loop (fuel : nat) (rest : bytes) (camera_seen channel_seen : list bool)
    (mappings : list ChannelMapping) : result (list ChannelMapping) :=
  match fuel with
  | O => Ok mappings
  | S f =>
    if is_empty rest then Ok mappings
    else
      let comma := find0 $"," rest in
      let item := match comma with None => rest | Some c => take c rest end in
      m ← parse_mapping item;
      _ ← throw_if (seen camera_seen (camera_channel m)) $"--channel-map contains a duplicate camera channel";
      _ ← throw_if (seen channel_seen (vms_channel m)) $"--channel-map contains a duplicate VMS channel";
      let camera_seen := <[Z.to_nat (camera_channel m) := true]> camera_seen in
      let channel_seen := <[Z.to_nat (vms_channel m) := true]> channel_seen in
      let mappings := mappings ++ [m] in
      match comma with
      | None => Ok mappings
      | Some c =>
        _ ← throw_if (c + 1 =? length rest)%nat $"--channel-map must not end with a comma";
        channel_map_loop f (drop (c + 1) rest) camera_seen channel_seen mappings
      end
  end.

Definition parse_channel_map (value : bytes) : result (list ChannelMapping) :=
  if is_empty value then Throw $"--channel-map must not be empty"
  else channel_map_loop (length value) value (replicate 4 false) (replicate 5 false) [].

Definition channel_output_dir (storage_root : bytes) (channel_id : Z) : result bytes :=
  if (channel_id <? 1) || (channel_id >? 4) then Throw $"channel_id out of range (1-4)"
  else Ok (path_append (path_append storage_root $"recordings") ($"ch" ++ to_string channel_id)).

(** ** Ingest configuration *)

Record ChannelIngestConfig := {
  rtsp_location : bytes;
  camera_user : bytes;
  camera_password : bytes;
  output_dir : bytes;
  ic_camera_channel : Z;
  ic_channel_id : Z;
  ic_codec : VideoCodec;
  latency_ms : Z;
  segment_seconds : Z;
  reconnect_delay_ms : Z;
  startup_timeout_ms : Z;
  live_queue_max_buffers : Z
}.

(** The checks of the constructor of [ChannelIngest]. *)
Definition ingest_new (c : ChannelIngestConfig) : result ChannelIngestConfig :=
  _ ← throw_if ((ic_camera_channel c <? 0) || (ic_camera_channel c >? 3)) $"camera_channel out of range (0-3)";
  _ ← throw_if ((ic_channel_id c <? 1) || (ic_channel_id c >? 4)) $"channel_id out of range (1-4)";
  _ ← throw_if (live_queue_max_buffers c =? 0) $"live_queue_max_buffers must be at least 1";
  _ ← throw_if (startup_timeout_ms c <=? 0) $"startup_timeout_ms must be positive";
  Ok c.

Record ChannelIngestStats := {
  st_connection_attempts : Z; st_reconnects : Z; st_first_buffers : Z; st_pipeline_errors : Z;
  st_eos_events : Z; st_live_frames : Z; st_live_drops : Z
}.

(** ** Waiting *)

(** [running_] is read before each slice and once more at the end; the sleep is counted. *)
Fixpoint wait_loop (fuel : nat) (running : nat -> bool) (i : nat) (remaining_ms slept : Z) : option (bool * Z) :=
  match fuel with
  | O => None
  | S f =>
    if running i && (remaining_ms >? 0) then
      let wait_ms := Z.min remaining_ms 100 in
      wait_loop f running (S i) (remaining_ms - wait_ms) (slept + wait_ms)
    else Some (running (S i), slept)
  end.

(** ** The manager *)

(** [std::thread]: none, its function running, or its function over; the last two are
    joinable. *)
Inductive ThreadState := NoThread | Running | Ended.

#[export] Instance ThreadState_eq_dec : EqDecision ThreadState.
Proof. solve_decision. Defined.

Definition joinable (t : ThreadState) : bool := match t with NoThread => false | _ => true end.

Record ChannelWorker := {
  w_mapping : ChannelMapping;
  w_config : ChannelIngestConfig;
  w_thread : ThreadState;
  w_failed : bool;
  w_error : bytes
}.

Record ChannelManager := { m_workers : list ChannelWorker; m_start_delay_ms : Z; m_started : bool }.

(** The constructor of [ChannelWorker]. *)
Definition worker_new (c : ChannelIngestConfig) : result ChannelWorker :=
  ingest ← ingest_new c;
  Ok {| w_mapping := {| camera_channel := ic_camera_channel c; vms_channel := ic_channel_id c |};
        w_config := ingest; w_thread := NoThread; w_failed := false; w_error := [] |}.

Fixpoint make_workers (configs : list ChannelIngestConfig) (camera_seen channel_seen : list bool)
    (workers : list ChannelWorker) : result (list ChannelWorker) :=
  match configs with
  | [] => Ok workers
  | c :: rest =>
    _ ← throw_if ((ic_camera_channel c <? 0) || (ic_camera_channel c >? 3) || (ic_channel_id c <? 1) ||
                  (ic_channel_id c >? 4)) $"ChannelManager mapping out of range";
    _ ← throw_if (seen camera_seen (ic_camera_channel c) || seen channel_seen (ic_channel_id c))
          $"ChannelManager channel mappings must be unique";
    worker ← worker_new c;
    make_workers rest (<[Z.to_nat (ic_camera_channel c) := true]> camera_seen)
      (<[Z.to_nat (ic_channel_id c) := true]> channel_seen) (workers ++ [worker])
  end.

Definition manager_new (configs : list ChannelIngestConfig) (channel_start_delay_ms : Z) : result ChannelManager :=
  _ ← throw_if (is_empty configs || (zlen configs >? 4)) $"ChannelManager requires 1 to 4 channels";
  _ ← throw_if (channel_start_delay_ms <? 0) $"channel_start_delay_ms must not be negative";
  workers ← make_workers configs (replicate 4 false) (replicate 5 false) [];
  Ok {| m_workers := workers; m_start_delay_ms := channel_start_delay_ms; m_started := false |}.

Definition with_thread (t : ThreadState) (w : ChannelWorker) : ChannelWorker :=
  {| w_mapping := w_mapping w; w_config := w_config w; w_thread := t; w_failed := w_failed w; w_error := w_error w |}.

(** The loop of [start()].  [running i n] is the [n]-th load of [running_] between the
    starts of worker [i] and of the next one.  The result also says how long the loop
    slept after each start.  The fuel of the wait is enough ([start_workers_spec]). *)
Fixpoint start_workers (workers : list ChannelWorker) (delay_ms : Z) (running : nat -> nat -> bool) (i : nat)
    : list ChannelWorker * list Z :=
  match workers with
  | [] => ([], [])
  | w :: rest =>
    let current := with_thread Running w in
    let '(go, slept) := if negb (is_empty rest) && (delay_ms >? 0)
                        then default (false, 0) (wait_loop (S (Z.to_nat delay_ms)) (running i) 0 delay_ms 0)
                        else (true, 0) in
    if go : bool then
      let '(ws, sleeps) := start_workers rest delay_ms running (S i) in
      (current :: ws, slept :: sleeps)
    else (current :: rest, [slept])
  end.

Definition manager_start (running : nat -> nat -> bool) (m : ChannelManager) : ChannelManager * list Z :=
  if m_started m then (m, [])
  else
    let '(ws, sleeps) := start_workers (m_workers m) (m_start_delay_ms m) running 0 in
    ({| m_workers := ws; m_start_delay_ms := m_start_delay_ms m; m_started := true |}, sleeps).

(** How [ingest.run()] ends: it returns, or throws a [std::exception] or something else. *)
Inductive RunOutcome := Returned | Threw (what : bytes) | ThrewOther.

(** The end of a worker's thread. *)
Definition thread_end (outcome : RunOutcome) (w : ChannelWorker) : ChannelWorker :=
  match outcome with
  | Returned => with_thread Ended w
  | Threw what => {| w_mapping := w_mapping w; w_config := w_config w; w_thread := Ended; w_failed := true; w_error := what |}
  | ThrewOther =>
    {| w_mapping := w_mapping w; w_config := w_config w; w_thread := Ended; w_failed := true; w_error := $"unknown" |}
  end.

Definition is_running (w : ChannelWorker) : bool := bool_decide (w_thread w = Running).

Definition worker_done (i : nat) (outcome : RunOutcome) (m : ChannelManager) : ChannelManager :=
  {| m_workers := alter (fun w => if is_running w then thread_end outcome w else w) i (m_workers m);
     m_start_delay_ms := m_start_delay_ms m; m_started := m_started m |}.

(** [if (worker->thread.joinable()) worker->thread.join();]: a thread that still runs ends
    with the given outcome. *)
Definition join_worker (outcome : RunOutcome) (w : ChannelWorker) : ChannelWorker :=
  if joinable (w_thread w) then with_thread NoThread (if is_running w then thread_end outcome w else w) else w.

(** [stop()], also the destructor: the manager and the new value of [running_]. *)
Definition manager_stop (outcome : nat -> RunOutcome) (m : ChannelManager) (running : bool) : ChannelManager * bool :=
  if negb (m_started m) then (m, running)
  else ({| m_workers := imap (fun i => join_worker (outcome i)) (m_workers m); m_start_delay_ms := m_start_delay_ms m;
           m_started := false |}, false).

Record ManagedChannelStats := {
  mc_mapping : ChannelMapping;
  mc_ingest : ChannelIngestStats;
  mc_worker_failed : bool;
  mc_error : bytes
}.

(** [stats()]; [ingest i] is what [ingest.stats()] of worker [i] gives. *)
Definition manager_stats (ingest : nat -> ChannelIngestStats) (m : ChannelManager) : list ManagedChannelStats :=
  imap (fun i w => {| mc_mapping := w_mapping w; mc_ingest := ingest i; mc_worker_failed := w_failed w;
                      mc_error := w_error w |}) (m_workers m).

(** ** Facts: mappings *)

Definition mapping_ok (m : ChannelMapping) : Prop := 0 <= camera_channel m <= 3 /\ 1 <= vms_channel m <= 4.

(** What a channel map promises to everything that is configured from it. *)
Definition valid_map (ms : list ChannelMapping) : Prop :=
  Forall mapping_ok ms /\ NoDup (camera_channel <$> ms) /\ NoDup (vms_channel <$> ms).

(** The flags stand for the numbers that occurred. *)
Definition flags_for (n : nat) (flags : list bool) (xs : list Z) : Prop :=
  length flags = n /\ forall x, 0 <= x < Z.of_nat n -> (seen flags x = true <-> x ∈ xs).

Lemma flags_none n : flags_for n (replicate n false) [].
Proof.
  split; [apply length_replicate|]. intros x Hx. unfold seen. rewrite lookup_replicate_2 by lia.
  split; [done|]. by intros ?%not_elem_of_nil.
Qed.

Lemma flags_set n flags xs x :
  flags_for n flags xs -> 0 <= x < Z.of_nat n -> flags_for n (<[Z.to_nat x := true]> flags) (xs ++ [x]).
Proof.
  intros [Hl Hf] Hx. split; [by rewrite length_insert|]. intros y Hy. unfold seen in *.
  rewrite elem_of_app, list_elem_of_singleton. destruct (decide (y = x)) as [->|Hne].
  - rewrite list_lookup_insert_eq by lia. split; [by right|done].
  - rewrite list_lookup_insert_ne by lia. rewrite Hf by done. split; [by left|]. by intros [?|?].
Qed.

Lemma parse_mapping_number_range field value lo hi v :
  parse_mapping_number field value lo hi = Ok v -> lo <= v <= hi.
Proof.
  unfold parse_mapping_number, rethrow_as. destruct (stoi value) as [[p n]|]; [|done]. cbn.
  destruct (_ || _ || _) eqn:E; cbn; [done|]. intros [= <-]. bprop. lia.
Qed.

Lemma parse_mapping_ok item m : parse_mapping item = Ok m -> mapping_ok m.
Proof.
  unfold parse_mapping. destruct (find0 _ item); [|done]. intros H. bind_inv H. injection H as <-.
  split; by eapply parse_mapping_number_range.
Qed.

Lemma valid_map_snoc ms m :
  valid_map ms -> mapping_ok m -> camera_channel m ∉ camera_channel <$> ms -> vms_channel m ∉ vms_channel <$> ms ->
  valid_map (ms ++ [m]).
Proof.
  intros (H1 & H2 & H3) Hm Hc Hv. unfold valid_map. rewrite Forall_app, !fmap_app, Forall_singleton.
  split_and!; [done|done|..]; apply NoDup_app; split_and!; try done; try apply NoDup_singleton;
    intros x Hx ?%list_elem_of_singleton; by subst.
Qed.

Lemma not_seen n flags xs x : flags_for n flags xs -> 0 <= x < Z.of_nat n -> seen flags x = false -> x ∉ xs.
Proof. intros [_ Hf] Hx Hs Hin. apply Hf in Hin; [congruence|done]. Qed.

Lemma channel_map_loop_valid fuel rest cs hs acc ms :
  channel_map_loop fuel rest cs hs acc = Ok ms ->
  flags_for 4 cs (camera_channel <$> acc) -> flags_for 5 hs (vms_channel <$> acc) -> valid_map acc ->
  valid_map ms /\ acc `prefix_of` ms /\ (fuel <> O -> rest <> [] -> ms <> []).
Proof.
  revert rest cs hs acc. induction fuel as [|fuel IH]; intros rest cs hs acc; cbn [channel_map_loop].
  { by intros [= <-]. }
  destruct rest as [|b rest]; cbn [is_empty]; [by intros [= <-]|]. intros H Hc Hh Hv. bind_inv H.
  apply parse_mapping_ok in Hv0 as Hm. destruct Hm as [Hm1 Hm2].
  apply throw_if_Ok in Hv1, Hv2.
  pose proof (not_seen 4 cs _ (camera_channel v) Hc ltac:(lia) Hv1) as Hn1. pose proof (not_seen 5 hs _ (vms_channel v) Hh ltac:(lia) Hv2) as Hn2.
  pose proof (valid_map_snoc acc v Hv (conj Hm1 Hm2) Hn1 Hn2) as Hv'.
  assert (acc ++ [v] <> []) as Hne by by intros [_ [=]]%app_nil.
  destruct (find0 _ _) as [c|].
  - bind_inv H. apply IH in H as (H1 & H2 & _); [| | |done].
    + split_and!; [done|etrans; [by apply prefix_app_r|done]|]. intros _ _ ->. by apply prefix_nil_inv in H2.
    + rewrite fmap_app. apply flags_set; [done|lia].
    + rewrite fmap_app. apply flags_set; [done|lia].
  - injection H as <-. split_and!; [done|by apply prefix_app_r|done].
Qed.

Lemma parse_channel_map_valid value ms : parse_channel_map value = Ok ms -> valid_map ms /\ ms <> [].
Proof.
  unfold parse_channel_map. destruct value as [|b value]; cbn [is_empty]; [done|]. intros H.
  apply channel_map_loop_valid in H as (H1 & _ & H2); [|apply flags_none|apply flags_none|].
  - split; [done|]. apply H2; done.
  - split_and!; [done|apply NoDup_nil_2|apply NoDup_nil_2].
Qed.

(** ** Printing a map *)

Definition print_mapping (m : ChannelMapping) : bytes :=
  to_string (camera_channel m) ++ $":" ++ to_string (vms_channel m).

Fixpoint print_map (ms : list ChannelMapping) : bytes :=
  match ms with
  | [] => []
  | [m] => print_mapping m
  | m :: rest => print_mapping m ++ $"," ++ print_map rest
  end.

Lemma parse_mapping_number_print field v lo hi :
  0 <= v <= int_max -> lo <= v <= hi -> parse_mapping_number field (to_string v) lo hi = Ok v.
Proof.
  intros Hv Hr. unfold parse_mapping_number. rewrite stoi_to_string by done.
  cbn [mbind result_bind]. rewrite Nat.eqb_refl.
  replace (v <? lo) with false by lia. replace (v >? hi) with false by lia. done.
Qed.

Lemma parse_print_mapping m : mapping_ok m -> parse_mapping (print_mapping m) = Ok m.
Proof.
  intros [Hc Hv]. unfold parse_mapping, print_mapping. change $":" with [58].
  change ([58] ++ to_string (vms_channel m)) with (58 :: to_string (vms_channel m)).
  rewrite (find0_char 58) by (apply to_string_no; [lia|done]).
  assert (drop (length (to_string (camera_channel m)) + 1)
            (to_string (camera_channel m) ++ 58 :: to_string (vms_channel m)) = to_string (vms_channel m)) as Hd.
  { change (58 :: to_string (vms_channel m)) with ([58] ++ to_string (vms_channel m)). rewrite app_assoc. apply drop_app_length'. by rewrite length_app. }
  unfold str_find, substr_from, substr. rewrite Hd, drop_0, take_app_length.
  rewrite (find0_char_none 58) by (apply to_string_no; [lia|done]).
  rewrite bool_decide_eq_false_2 by (destruct (_ <? _)%nat; by intros []).
  cbn [throw_if mbind result_bind].
  rewrite !parse_mapping_number_print by (unfold int_max; lia). by destruct m.
Qed.

Lemma print_mapping_no_comma m : mapping_ok m -> Forall (fun x => x <> 44) (print_mapping m).
Proof.
  intros [Hc Hv]. unfold print_mapping. repeat (apply Forall_app; split); [apply to_string_no; [lia|done]| |apply to_string_no; [lia|done]].
  by repeat constructor.
Qed.

Lemma print_mapping_nonempty m : print_mapping m <> [].
Proof. unfold print_mapping. intros [_ [=]]%app_nil. Qed.

Lemma print_map_nonempty ms : ms <> [] -> print_map ms <> [].
Proof.
  destruct ms as [|m [|m2 ms]]; cbn [print_map]; [done|intros _; apply print_mapping_nonempty|].
  intros _ [H _]%app_nil. by apply print_mapping_nonempty in H.
Qed.

Lemma flags_unseen n flags xs x : flags_for n flags xs -> 0 <= x < Z.of_nat n -> x ∉ xs -> seen flags x = false.
Proof. intros [_ Hf] Hx Hin. destruct (seen flags x) eqn:E; [|done]. by apply Hf in E. Qed.

Lemma channel_map_loop_print fuel ms cs hs acc :
  (length (print_map ms) <= fuel)%nat -> ms <> [] -> valid_map (acc ++ ms) ->
  flags_for 4 cs (camera_channel <$> acc) -> flags_for 5 hs (vms_channel <$> acc) ->
  channel_map_loop fuel (print_map ms) cs hs acc = Ok (acc ++ ms).
Proof.
  revert ms cs hs acc. induction fuel as [|fuel IH]; intros ms cs hs acc Hf Hne Hv Hc Hh.
  { apply print_map_nonempty in Hne. destruct (print_map ms); [done|cbn in Hf; lia]. }
  destruct ms as [|m ms]; [done|]. cbn [channel_map_loop].
  pose proof (print_map_nonempty (m :: ms) Hne) as Hpn.
  destruct Hv as (Hok & Hnc & Hnv). rewrite !fmap_app, !fmap_cons in Hnc, Hnv.
  pose proof Hok as [_ [Hm Hms]%Forall_cons]%Forall_app. pose proof Hm as [Hm1 Hm2].
  apply NoDup_app in Hnc as Hnc'. destruct Hnc' as (_ & Hdc & _). apply NoDup_app in Hnv as Hnv'. destruct Hnv' as (_ & Hdv & _).
  assert (seen cs (camera_channel m) = false) as Es1.
  { eapply flags_unseen; [exact Hc|lia|]. intros Hin. apply (Hdc _ Hin). set_solver. }
  assert (seen hs (vms_channel m) = false) as Es2.
  { eapply flags_unseen; [exact Hh|lia|]. intros Hin. apply (Hdv _ Hin). set_solver. }
  replace (is_empty (print_map (m :: ms))) with false by (by destruct (print_map (m :: ms))).
  change $"," with [44]. destruct ms as [|m2 ms].
  - cbn [print_map]. rewrite (find0_char_none 44) by by apply print_mapping_no_comma.
    rewrite parse_print_mapping by done. cbn [mbind result_bind]. by rewrite Es1, Es2.
  - change (print_map (m :: m2 :: ms)) with (print_mapping m ++ 44 :: print_map (m2 :: ms)) in *.
    set (rest := print_map (m2 :: ms)) in *.
    rewrite (find0_char 44) by by apply print_mapping_no_comma. rewrite take_app_length, parse_print_mapping by done.
    cbn [mbind result_bind]. rewrite Es1, Es2. cbn [throw_if mbind result_bind].
    assert (rest <> []) as Hrn by by apply print_map_nonempty.
    replace (_ =? _)%nat with false.
    2: { symmetry. apply Nat.eqb_neq. rewrite length_app. cbn [length]. destruct rest; [done|]. cbn [length]. lia. }
    cbn [throw_if mbind result_bind].
    replace (drop (length (print_mapping m) + 1) (print_mapping m ++ 44 :: rest)) with rest.
    2: { symmetry. change (44 :: rest) with ([44] ++ rest). rewrite app_assoc. apply drop_app_length'. by rewrite length_app. }
    unfold rest. rewrite IH.
    + by rewrite <- app_assoc.
    + fold rest. rewrite length_app in Hf. cbn [length] in Hf. lia.
    + done.
    + split_and!; rewrite <- app_assoc; rewrite ?fmap_app, ?fmap_cons; done.
    + rewrite fmap_app. apply flags_set; [done|lia].
    + rewrite fmap_app. apply flags_set; [done|lia].
Qed.

Lemma valid_map_length ms : valid_map ms -> zlen ms <= 4.
Proof.
  intros (Hok & Hnc & _).
  assert (length (camera_channel <$> ms) <= length (seqZ 0 4))%nat as Hl.
  { apply submseteq_length, NoDup_submseteq; [done|]. intros x (m & -> & Hm)%list_elem_of_fmap.
    rewrite Forall_forall in Hok. destruct (Hok m Hm). apply elem_of_seqZ. lia. }
  rewrite length_fmap, length_seqZ in Hl. unfold zlen. lia.
Qed.

Lemma channel_map_sound value ms : parse_channel_map value = Ok ms -> valid_map ms /\ 1 <= zlen ms <= 4.
Proof.
  intros H. apply parse_channel_map_valid in H as [Hv Hne]. split; [done|]. pose proof (valid_map_length ms Hv).
  destruct ms; [done|]. unfold zlen in *. cbn [length] in *. lia.
Qed.

(** Every valid map can be written on the command line: parsing what is printed
    gives the map back. *)
Lemma channel_map_round_trip ms : valid_map ms -> ms <> [] -> parse_channel_map (print_map ms) = Ok ms.
Proof.
  intros Hv Hne. unfold parse_channel_map. pose proof (print_map_nonempty ms Hne) as Hp.
  replace (is_empty (print_map ms)) with false by (by destruct (print_map ms)).
  apply (channel_map_loop_print _ ms _ _ []); [lia|done|done|apply flags_none|apply flags_none].
Qed.

Definition sample_map : list ChannelMapping :=
  [{| camera_channel := 0; vms_channel := 1 |}; {| camera_channel := 3; vms_channel := 2 |}].

Lemma sample_map_valid : valid_map sample_map.
Proof. split_and!; [|apply (bool_decide_unpack _); vm_compute; exact I..]. repeat (constructor; [split; cbn; lia|]). constructor. Qed.

Lemma channel_map_round_trip_witness : parse_channel_map $"0:1,3:2" = Ok sample_map.
Proof. apply (channel_map_round_trip sample_map); [apply sample_map_valid|discriminate]. Defined.

(** ** Facts: configuring from a map *)

Definition config_mapping (c : ChannelIngestConfig) : ChannelMapping :=
  {| camera_channel := ic_camera_channel c; vms_channel := ic_channel_id c |}.

Definition config_usable (c : ChannelIngestConfig) : Prop := live_queue_max_buffers c <> 0 /\ 0 < startup_timeout_ms c.

Lemma ingest_new_ok c : mapping_ok (config_mapping c) -> config_usable c -> ingest_new c = Ok c.
Proof.
  intros [H1 H2] [H3 H4]. cbn in H1, H2. unfold ingest_new.
  replace ((ic_camera_channel c <? 0) || (ic_camera_channel c >? 3)) with false by lia.
  replace ((ic_channel_id c <? 1) || (ic_channel_id c >? 4)) with false by lia.
  replace (live_queue_max_buffers c =? 0) with false by lia. replace (startup_timeout_ms c <=? 0) with false by lia.
  done.
Qed.

Definition idle_worker (c : ChannelIngestConfig) : ChannelWorker :=
  {| w_mapping := config_mapping c; w_config := c; w_thread := NoThread; w_failed := false; w_error := [] |}.

Lemma make_workers_ok configs prev cs hs workers :
  valid_map (prev ++ (config_mapping <$> configs)) -> Forall config_usable configs ->
  flags_for 4 cs (camera_channel <$> prev) -> flags_for 5 hs (vms_channel <$> prev) ->
  make_workers configs cs hs workers =
  Ok (workers ++ (idle_worker <$> configs)).
Proof.
  revert prev cs hs workers. induction configs as [|c configs IH]; intros dn cs hs workers Hv Hu Hc Hh; cbn [make_workers].
  { by rewrite app_nil_r. }
  rewrite fmap_cons in Hv. apply Forall_cons in Hu as [Hu Hus].
  pose proof Hv as (Hok & Hnc & Hnv). apply Forall_app in Hok as [_ [Hm _]%Forall_cons]. pose proof Hm as [Hm1 Hm2]. cbn in Hm1, Hm2.
  rewrite fmap_app, fmap_cons in Hnc, Hnv. apply NoDup_app in Hnc as (_ & Hdc & _). apply NoDup_app in Hnv as (_ & Hdv & _).
  rewrite (flags_unseen 4 cs _ (ic_camera_channel c) Hc ltac:(lia)) by (intros Hin; apply (Hdc _ Hin); by left).
  rewrite (flags_unseen 5 hs _ (ic_channel_id c) Hh ltac:(lia)) by (intros Hin; apply (Hdv _ Hin); by left).
  replace (_ || _ || _ || _) with false by lia. cbn [throw_if orb mbind result_bind].
  unfold worker_new. rewrite ingest_new_ok by done. cbn [mbind result_bind].
  rewrite (IH (dn ++ [config_mapping c])).
  - by rewrite fmap_cons, <- app_assoc.
  - by rewrite <- app_assoc.
  - done.
  - rewrite fmap_app. apply (flags_set 4); [done|cbn; lia].
  - rewrite fmap_app. apply (flags_set 5); [done|cbn; lia].
Qed.

Lemma manager_new_ok configs delay :
  configs <> [] -> valid_map (config_mapping <$> configs) -> Forall config_usable configs -> 0 <= delay ->
  manager_new configs delay =
  Ok {| m_workers := idle_worker <$> configs;
        m_start_delay_ms := delay; m_started := false |}.
Proof.
  intros Hne Hv Hu Hd. pose proof (valid_map_length _ Hv) as Hlen. unfold zlen in Hlen. rewrite length_fmap in Hlen.
  unfold manager_new. replace (is_empty configs || (zlen configs >? 4)) with false.
  2: { unfold zlen. destruct configs; [done|]. cbn [is_empty orb]. lia. }
  replace (delay <? 0) with false by lia. cbn [throw_if mbind result_bind].
  by rewrite (make_workers_ok configs []); [|done|done|apply flags_none|apply flags_none].
Qed.

(** ** Facts: the life of the manager *)

Lemma wait_loop_spec f running i remaining slept :
  (Z.to_nat remaining < f)%nat ->
  exists b total_ms, wait_loop f running i remaining slept = Some (b, total_ms) /\
    slept <= total_ms <= slept + Z.max 0 remaining /\
    ((forall j, running j = true) -> b = true /\ total_ms = slept + Z.max 0 remaining) /\
    (forall k, (i <= k)%nat -> running k = false -> total_ms <= slept + 100 * (Z.of_nat k - Z.of_nat i)).
Proof.
  revert i remaining slept; induction f as [|f IH]; intros i remaining slept Hf; [lia|]. cbn [wait_loop].
  destruct (running i) eqn:Ei; cbn [andb].
  - rewrite Z.gtb_ltb. destruct (Z.ltb_spec 0 remaining) as [Hp|Hp].
    + destruct (IH (S i) (remaining - Z.min remaining 100) (slept + Z.min remaining 100)) as (b & t & -> & H1 & H2 & H3);
        [lia|].
      exists b, t. split; [done|]. split; [lia|]. split.
      * intros Hall. destruct (H2 Hall) as [-> ->]. split; [done|lia].
      * intros k Hk Hr. destruct (decide (k = i)) as [->|]; [congruence|]. specialize (H3 k ltac:(lia) Hr). lia.
    + exists (running (S i)), slept. split; [done|]. split; [lia|]. split; [intros Hall; split; [done|lia]|intros; lia].
  - exists (running (S i)), slept. split; [done|]. split; [lia|]. split; [|intros; lia].
    intros Hall. by rewrite Hall in Ei.
Qed.

(** A wait is cut short only after the flag was read as false. *)
Lemma wait_loop_cut f running i remaining slept go t :
  wait_loop f running i remaining slept = Some (go, t) ->
  go = true /\ t = slept + Z.max 0 remaining \/ exists n, running n = false.
Proof.
  revert i remaining slept. induction f as [|f IH]; intros i remaining slept; cbn [wait_loop]; [done|].
  destruct (running i) eqn:Ei; [|eauto]. cbn [andb]. rewrite Z.gtb_ltb. destruct (Z.ltb_spec 0 remaining).
  - intros [[-> ->]|?]%IH; [left; split; [done|lia]|eauto].
  - intros [= <- <-]. destruct (running (S i)) eqn:Es; [left; split; [done|lia]|eauto].
Qed.

(** The workers that [start] leaves with a thread are a prefix. *)
Definition started_prefix (k : nat) (ws : list ChannelWorker) : list ChannelWorker :=
  (with_thread Running <$> take k ws) ++ drop k ws.

(** How long [start] sleeps when nothing stops it: the delay after each worker but the last. *)
Definition full_sleeps (n : nat) (delay : Z) : list Z := replicate (n - 1) delay ++ [0].

Lemma start_workers_spec ws delay running i :
  0 <= delay -> ws <> [] ->
  exists k sleeps, start_workers ws delay running i = (started_prefix k ws, sleeps) /\
    (1 <= k <= length ws)%nat /\ length sleeps = k /\ Forall (fun t => 0 <= t <= delay) sleeps /\
    (k = length ws /\ sleeps = full_sleeps k delay \/ exists j n, running j n = false).
Proof.
  intros Hd. revert i. induction ws as [|w ws IH]; intros i Hne; [done|]. cbn [start_workers].
  destruct ws as [|w2 ws].
  { cbn. exists 1%nat, [0]. split_and!; try done; [constructor; [lia|done]|by left]. }
  cbn [is_empty negb andb]. destruct (IH (S i) ltac:(done)) as (k & sleeps & Es & Hk & Hl & Hf & Hall). rewrite Es.
  assert (full_sleeps (S (length (w2 :: ws))) delay = delay :: full_sleeps (length (w2 :: ws)) delay) as Hfull.
  { unfold full_sleeps. cbn [length]. replace (S (S (length ws)) - 1)%nat with (S (S (length ws) - 1)) by lia. done. }
  rewrite Z.gtb_ltb. destruct (Z.ltb_spec 0 delay) as [Hp|Hp].
  - destruct (wait_loop_spec (S (Z.to_nat delay)) (running i) 0 delay 0 ltac:(lia)) as (go & t & Ew & Ht & _).
    pose proof (wait_loop_cut _ _ _ _ _ _ _ Ew) as Hcut. rewrite Ew. unfold default, from_option, id. destruct go.
    + exists (S k), (t :: sleeps). split; [done|]. cbn [length] in *. split_and!; [lia|lia|lia|constructor; [lia|done]|].
      destruct Hcut as [[_ ->]|[n Hn]]; [|eauto]. destruct Hall as [[-> ->]|?]; [|auto]. left. split; [done|].
      rewrite Hfull. f_equal. lia.
    + exists 1%nat, [t]. cbn [length]. split_and!; [done|lia|lia|done|constructor; [lia|constructor]|].
      destruct Hcut as [[[=] _]|[n Hn]]. eauto.
  - exists (S k), (0 :: sleeps). split; [done|]. cbn [length] in *.
    split_and!; [lia|lia|lia|constructor; [lia|done]|].
    destruct Hall as [[-> ->]|?]; [|auto]. left. split; [done|]. rewrite Hfull. f_equal. lia.
Qed.

(** What can happen to a manager, in any order. *)
Inductive manager_step (m : ChannelManager) : ChannelManager -> Prop :=
| ms_start running : manager_step m (manager_start running m).1
| ms_done i outcome : manager_step m (worker_done i outcome m)
| ms_stop outcome running : manager_step m (manager_stop outcome m running).1.

Definition manager_reachable (configs : list ChannelIngestConfig) (delay : Z) (m : ChannelManager) : Prop :=
  exists m0, manager_new configs delay = Ok m0 /\ rtc manager_step m0 m.

(** No thread would be lost by an assignment or a destructor. *)
Definition threads_joined (m : ChannelManager) : Prop := Forall (fun w => joinable (w_thread w) = false) (m_workers m).

Record manager_ok (configs : list ChannelIngestConfig) (delay : Z) (m : ChannelManager) : Prop := {
  mk_configs : w_config <$> m_workers m = configs;
  mk_mappings : w_mapping <$> m_workers m = (config_mapping <$> configs);
  mk_delay : m_start_delay_ms m = delay;
  mk_idle : m_started m = false -> threads_joined m;
  mk_errors : Forall (fun w => w_failed w = false -> w_error w = []) (m_workers m)
}.

Lemma make_workers_inv configs cs hs workers ws :
  make_workers configs cs hs workers = Ok ws -> ws = workers ++ (idle_worker <$> configs).
Proof.
  revert cs hs workers. induction configs as [|c configs IH]; intros cs hs workers; cbn [make_workers].
  { intros [= <-]. by rewrite app_nil_r. }
  intros H. bind_inv H. unfold worker_new in Hv1. bind_inv Hv1. injection Hv1 as <-.
  apply IH in H. rewrite H, <- app_assoc. unfold ingest_new in Hv2. bind_inv Hv2. by injection Hv2 as <-.
Qed.

Lemma manager_new_inv configs delay m :
  manager_new configs delay = Ok m ->
  m = {| m_workers := idle_worker <$> configs; m_start_delay_ms := delay; m_started := false |} /\ configs <> [] /\
  zlen configs <= 4 /\ 0 <= delay.
Proof.
  unfold manager_new. intros H. bind_inv H. injection H as <-. apply throw_if_Ok in Hv, Hv0. apply make_workers_inv in Hv1 as ->.
  apply orb_false_iff in Hv as [H1 H2]. split_and!; [done|by intros ->|lia|lia].
Qed.

(** What a change of one worker's thread keeps. *)
Definition same_worker (w w' : ChannelWorker) : Prop :=
  w_config w' = w_config w /\ w_mapping w' = w_mapping w /\
  ((w_failed w = false -> w_error w = []) -> w_failed w' = false -> w_error w' = []).

Lemma thread_end_same outcome w : same_worker w (if is_running w then thread_end outcome w else w).
Proof. unfold same_worker. by destruct (is_running w), outcome. Qed.

Lemma join_worker_same outcome w : same_worker w (join_worker outcome w).
Proof. unfold join_worker. destruct (joinable _); [|done]. by destruct (thread_end_same outcome w) as (? & ? & ?). Qed.

Lemma join_worker_joined outcome w : joinable (w_thread (join_worker outcome w)) = false.
Proof. unfold join_worker. destruct (joinable (w_thread w)) eqn:E; [|done]. done. Qed.

Lemma manager_ok_same configs delay m ws started :
  manager_ok configs delay m -> Forall2 same_worker (m_workers m) ws ->
  (started = false -> Forall (fun w => joinable (w_thread w) = false) ws) ->
  manager_ok configs delay {| m_workers := ws; m_start_delay_ms := m_start_delay_ms m; m_started := started |}.
Proof.
  intros [H1 H2 H3 _ H5] Hs Hj. constructor; cbn; [| |done|done|].
  - rewrite <- H1. clear H1 H2 H5 Hj. induction Hs as [|w w' ws ws' (E & _) _ IH]; [done|]. cbn. by rewrite E, IH.
  - rewrite <- H2. clear H1 H2 H5 Hj. induction Hs as [|w w' ws ws' (_ & E & _) _ IH]; [done|]. cbn. by rewrite E, IH.
  - clear H1 H2 Hj. induction Hs as [|w w' ws ws' (_ & _ & E) _ IH]; [done|]. apply Forall_cons in H5 as [Hw Hws].
    constructor; auto.
Qed.

Lemma started_prefix_same k ws : Forall2 same_worker ws (started_prefix k ws).
Proof.
  unfold started_prefix. rewrite <- (take_drop k ws) at 1. apply Forall2_app.
  - induction (take k ws); constructor; done.
  - induction (drop k ws); constructor; done.
Qed.

Lemma manager_step_ok configs delay m m' :
  configs <> [] -> 0 <= delay -> manager_ok configs delay m -> manager_step m m' -> manager_ok configs delay m'.
Proof.
  intros Hne Hd Hok Hs. destruct Hs as [running|i outcome|outcome running].
  - unfold manager_start. destruct (m_started m); [done|].
    assert (m_workers m <> []) as Hw by (intros E; pose proof (mk_configs _ _ _ Hok) as Hc; rewrite E in Hc; by subst configs).
    destruct (start_workers_spec (m_workers m) (m_start_delay_ms m) running 0) as (k & ts & -> & _); [|done|].
    { by rewrite (mk_delay _ _ _ Hok). }
    apply manager_ok_same; [done|apply started_prefix_same|done].
  - apply manager_ok_same; [done| |].
    + clear. generalize (m_workers m) as ws. intros ws. revert i.
      induction ws as [|w ws IH]; intros [|i]; cbn; constructor; try done; try apply IH.
      * apply thread_end_same.
      * clear. induction ws; constructor; done.
    + intros Hst. pose proof (mk_idle _ _ _ Hok Hst) as Hj. unfold threads_joined in Hj. apply Forall_alter; [done|].
      intros w _ Hw. unfold is_running. rewrite bool_decide_eq_false_2; [done|]. intros E. by rewrite E in Hw.
  - unfold manager_stop. destruct (m_started m); [|done]. cbn. apply manager_ok_same; [done| |].
    + apply Forall2_lookup. intros i. rewrite list_lookup_imap. destruct (m_workers m !! i); cbn; constructor.
      apply join_worker_same.
    + intros _. apply Forall_lookup. intros i w. rewrite list_lookup_imap, fmap_Some. intros (w0 & _ & ->).
      apply join_worker_joined.
Qed.

Lemma manager_reachable_ok configs delay m : manager_reachable configs delay m -> manager_ok configs delay m /\ configs <> [] /\ 0 <= delay.
Proof.
  intros (m0 & Hn & Hr). apply manager_new_inv in Hn as (E & Hne & _ & Hd). split; [|done].
  assert (manager_ok configs delay m0) as H0.
  { rewrite E. constructor; cbn; [| |done|intros _|].
    - rewrite <- list_fmap_compose. rewrite <- (list_fmap_id configs) at 2. by apply list_fmap_ext.
    - rewrite <- list_fmap_compose. by apply list_fmap_ext.
    - apply Forall_fmap, Forall_forall. done.
    - apply Forall_fmap, Forall_forall. done. }
  clear E. induction Hr as [m|m m1 m2 Hs _ IH]; [done|]. apply IH. by eapply manager_step_ok.
Qed.

(** C21: The manager, whatever calls of [start] and [stop] and ends of workers it sees: its
    workers keep their configurations; while it is not started no thread is joinable, so
    [start] never assigns over a thread; [start] then returns, gives a thread to the first
    workers in order, to all of them with the configured delay in between unless
    [running_] was read as false, and sleeps no longer than the delay after each; [stop]
    joins every thread, clears [running_] and leaves a manager that can be started again. *)
Theorem manager_lifecycle configs delay m :
  manager_reachable configs delay m ->
  w_config <$> m_workers m = configs /\
  (m_started m = false ->
   threads_joined m /\
   forall running, let '(m', sleeps) := manager_start running m in
     exists k, m_started m' = true /\ m_workers m' = started_prefix k (m_workers m) /\ (1 <= k)%nat /\
       Forall (fun t => 0 <= t <= delay) sleeps /\
       (k = length configs /\ sleeps = full_sleeps k delay \/ exists i n, running i n = false)) /\
  (m_started m = true -> forall outcome running,
     let '(m', running') := manager_stop outcome m running in
     threads_joined m' /\ m_started m' = false /\ running' = false).
Proof.
  intros (Hok & Hne & Hd)%manager_reachable_ok. pose proof (mk_configs _ _ _ Hok) as Hc.
  assert (m_workers m <> []) as Hw by (intros E; rewrite E in Hc; by subst configs).
  split; [done|]. split.
  - intros Hst. split; [by apply (mk_idle _ _ _ Hok)|]. intros running.
    destruct (start_workers_spec (m_workers m) (m_start_delay_ms m) running 0) as (k & ts & E & Hk & Hl & Hf & Hall);
      [by rewrite (mk_delay _ _ _ Hok)|done|].
    rewrite (mk_delay _ _ _ Hok) in *. unfold manager_start. rewrite Hst, (mk_delay _ _ _ Hok), E.
    exists k. split_and!; try done; [lia|].
    rewrite <- Hc, length_fmap. done.
  - intros Hst outcome running. unfold manager_stop. rewrite Hst. cbn. split; [|done].
    unfold threads_joined. cbn. apply Forall_lookup. intros i w. rewrite list_lookup_imap, fmap_Some.
    intros (w0 & _ & ->). apply join_worker_joined.
Qed.

Definition live_channels (codec : VideoCodec) (ms : list ChannelMapping) : list LiveChannel :=
  (fun m => {| lc_channel_id := vms_channel m; lc_codec := codec |}) <$> ms.

(** An accepted channel map has one to four entries with distinct camera channels from
    0 to 3 and distinct VMS channels from 1 to 4, and what is configured from it is
    accepted: the channel manager and the live server take the channels of the map,
    one worker and one published channel per entry, in order. *)
Lemma channel_map_configures value ms configs delay live codec :
  parse_channel_map value = Ok ms -> config_mapping <$> configs = ms -> Forall config_usable configs -> 0 <= delay ->
  channels live = live_channels codec ms -> 0 < rtsp_port live -> rtsps_port live <= 0 ->
  valid_map ms /\ 1 <= zlen ms <= 4 /\
  (exists m, manager_new configs delay = Ok m /\ w_mapping <$> m_workers m = ms) /\
  (exists s, server_new live = Ok s /\ channels (s_config s) = live_channels codec ms).
Proof.
  intros Hp Hc Hu Hd Hl Hp1 Hp2. apply channel_map_sound in Hp as Hs. destruct Hs as [_ Hlen1].
  apply parse_channel_map_valid in Hp as [Hv Hne].
  split; [done|]. split; [done|]. split.
  - rewrite manager_new_ok; [|by intros ->; subst|by rewrite Hc|done|done].
    eexists. split; [reflexivity|]. cbn. by rewrite <- list_fmap_compose.
  - destruct Hv as (Hok & _ & Hnv). assert (published live = live_channels codec ms) as Epub.
    { unfold published. rewrite Hl. by destruct ms. }
    unfold server_new. rewrite (proj2 (impl_config_ok live (with_channels live (published live)))).
    { eexists. split; [reflexivity|]. by rewrite <- Epub. }
    rewrite Epub. split_and!; [done| | |by left|lia].
    + apply Forall_fmap. eapply Forall_impl; [exact Hok|]. by intros m [_ ?].
    + unfold live_channels. by rewrite <- list_fmap_compose.
Qed.

Definition sample_ingest (m : ChannelMapping) : ChannelIngestConfig :=
  {| rtsp_location := $"rtsp://10.0.0.9:554/0/profile2/media.smp"; camera_user := $"admin"; camera_password := $"x";
     output_dir := $"/mnt/vms-storage/recordings/ch1"; ic_camera_channel := camera_channel m;
     ic_channel_id := vms_channel m; ic_codec := H264; latency_ms := 200; segment_seconds := 60;
     reconnect_delay_ms := 2000; startup_timeout_ms := 5000; live_queue_max_buffers := 1 |}.

(** Two workers, three seconds apart. *)
Lemma manager_lifecycle_witness :
  exists m, manager_reachable (sample_ingest <$> sample_map) 3000 m /\
    w_thread <$> m_workers (manager_start (fun _ _ => true) m).1 = [Running; Running] /\
    (manager_start (fun _ _ => true) m).2 = [3000; 0].
Proof.
  assert (exists m, manager_new (sample_ingest <$> sample_map) 3000 = Ok m /\ m_started m = false) as (m & Hm & Hst).
  { eexists. split; reflexivity. }
  assert (manager_reachable (sample_ingest <$> sample_map) 3000 m) as Hr by (exists m; split; [exact Hm|apply rtc_refl]).
  exists m. split; [exact Hr|].
  destruct (proj1 (proj2 (manager_lifecycle (sample_ingest <$> sample_map) 3000 m Hr)) Hst) as [_ Hstart].
  specialize (Hstart (fun _ _ => true)). destruct (manager_start _ m) as [m' sleeps]. cbn [fst snd].
  destruct Hstart as (k & _ & H3 & _ & _ & [[-> H5]|(i & n & [=])]).
  rewrite H3, H5. injection Hm as <-. split; reflexivity.
Defined.

Lemma channel_map_configures_witness :
  exists m, manager_new (sample_ingest <$> sample_map) 0 = Ok m /\ w_mapping <$> m_workers m = sample_map.
Proof.
  apply (channel_map_configures $"0:1,3:2" sample_map (sample_ingest <$> sample_map) 0
           (with_channels (sample_config 0) (live_channels H264 sample_map)) H264).
  - vm_compute. reflexivity.
  - reflexivity.
  - repeat (apply Forall_cons; split); [split; cbn; lia..|apply Forall_nil; exact I].
  - lia.
  - reflexivity.
  - cbn. lia.
  - cbn. lia.
Defined.
