(* ===== verification/Index.v ===== *)
(** * The recording index (src/db/recording_index.cpp)

    The tables the program writes and its SQL statements on them.  [vms_channels] is
    a map from its primary key; [recording_segments] is the list of rows in order of
    insertion.  Each operation runs under the index's mutex.  [io] is the outcome of
    the SQLite calls for reasons outside the statement (a busy database, a full
    disk); a statement that fails leaves the tables as they were. *)

From stdpp Require Import gmap.
From S2P Require Import Prelude CStr Rtp LiveServer ChannelManager.

Record ChannelRow := { row_camera : Z; row_updated : bytes }.

Record SegmentRow := {
  sg_id : Z;
  sg_channel : Z;
  sg_path : bytes;
  sg_container : bytes;
  sg_codec : bytes;
  sg_start : bytes;
  sg_end : option bytes;
  sg_size : option Z;
  sg_complete : bool
}.

Record Database := {
  db_channels : gmap Z ChannelRow;
  db_segments : list SegmentRow;
  db_next_id : Z
}.

Definition empty_db : Database := {| db_channels := ∅; db_segments := []; db_next_id := 1 |}.

(** ** Opening the database

    The object holds a database handle once [open] has got one.  The outcomes of the
    SQLite calls of [open] are given in order. *)

Record RecordingIndex := { ri_busy_timeout_ms : Z; ri_open : bool }.

Definition index_new (busy_timeout_ms : Z) : result RecordingIndex :=
  _ ← throw_if (busy_timeout_ms <? 0) $"SQLite busy timeout must not be negative";
  Ok {| ri_busy_timeout_ms := busy_timeout_ms; ri_open := false |}.

Definition exec (r : result unit) : result unit :=
  match r with Ok _ => Ok tt | Throw message => Throw ($"sqlite exec failed: " ++ message) end.

Record OpenIo := {
  io_open : result unit;
  io_busy_timeout : result unit;
  io_foreign_keys : result unit;
  io_journal_mode : result unit;
  io_synchronous : result unit
}.

Definition index_open (io : OpenIo) (x : RecordingIndex) : result unit * RecordingIndex :=
  if ri_open x then (Ok tt, x)
  else match io_open io with
       | Throw error => (Throw ($"sqlite open failed: " ++ error), x)
       | Ok _ =>
         (_ ← match io_busy_timeout io with
              | Ok _ => Ok tt
              | Throw message => Throw ($"configure busy timeout: " ++ message)
              end;
          _ ← exec (io_foreign_keys io);
          _ ← exec (io_journal_mode io);
          exec (io_synchronous io),
          {| ri_busy_timeout_ms := ri_busy_timeout_ms x; ri_open := true |})
       end.

(** The destructor closes the handle. *)
Definition index_close (x : RecordingIndex) : RecordingIndex :=
  if ri_open x then {| ri_busy_timeout_ms := ri_busy_timeout_ms x; ri_open := false |} else x.

(** CREATE TABLE IF NOT EXISTS: [stored] is what the file holds already. *)
Definition initialize_schema (io : result unit) (stored : option Database) : result Database :=
  _ ← exec io;
  Ok (default empty_db stored).

(** [check_sqlite]: an error of the statement becomes an exception. *)
Definition check_sqlite {A} (r : result A) (action : bytes) : result A :=
  match r with Ok a => Ok a | Throw message => Throw (action ++ $": " ++ message) end.

(** Another row of [vms_channels] already holds the camera (its UNIQUE constraint). *)
Definition camera_taken (channel_id camera : Z) (t : gmap Z ChannelRow) : bool :=
  bool_decide (map_Exists (fun c row => c <> channel_id /\ row_camera row = camera) t).

(** INSERT ... ON CONFLICT(channel_id) DO UPDATE *)
Definition upsert_statement (channel_id camera : Z) (now : bytes) (t : gmap Z ChannelRow) : result (gmap Z ChannelRow) :=
  if camera_taken channel_id camera t then Throw $"UNIQUE constraint failed: vms_channels.camera_channel"
  else Ok (<[channel_id := {| row_camera := camera; row_updated := now |}]> t).

Definition upsert_channel_mapping (channel_id camera : Z) (now : bytes) (io : result unit) (db : Database) : result Database :=
  _ ← throw_if ((channel_id <? 1) || (channel_id >? 4) || (camera <? 0) || (camera >? 3)) $"channel mapping out of range";
  _ ← check_sqlite io $"prepare channel mapping";
  t ← check_sqlite (upsert_statement channel_id camera now (db_channels db)) $"upsert channel mapping";
  Ok {| db_channels := t; db_segments := db_segments db; db_next_id := db_next_id db |}.

(** INSERT INTO recording_segments; [file_path] is UNIQUE, [id] counts up *)
Definition mark_segment_opened (channel_id : Z) (location container codec now : bytes) (io : result unit) (db : Database)
    : result Database :=
  _ ← check_sqlite io $"prepare segment opened";
  _ ← check_sqlite (throw_if (bool_decide (location ∈ sg_path <$> db_segments db))
                      $"UNIQUE constraint failed: recording_segments.file_path") $"insert segment opened";
  Ok {| db_channels := db_channels db;
        db_segments := db_segments db ++
          [{| sg_id := db_next_id db; sg_channel := channel_id; sg_path := location; sg_container := container;
              sg_codec := codec; sg_start := now; sg_end := None; sg_size := None; sg_complete := false |}];
        db_next_id := db_next_id db + 1 |}.

(** [file_size_or_zero]: [size] is what [file_size] reports, if it can. *)
Definition file_size_or_zero (size : option Z) : Z := default 0 size.

Definition complete_row (location now : bytes) (size : Z) (r : SegmentRow) : SegmentRow :=
  if str_eqb (sg_path r) location
  then {| sg_id := sg_id r; sg_channel := sg_channel r; sg_path := sg_path r; sg_container := sg_container r;
          sg_codec := sg_codec r; sg_start := sg_start r; sg_end := Some now; sg_size := Some size; sg_complete := true |}
  else r.

(** UPDATE recording_segments SET ... WHERE file_path = ? *)
Definition mark_segment_closed (location now : bytes) (size : option Z) (io : result unit) (db : Database) : result Database :=
  _ ← check_sqlite io $"prepare segment closed";
  Ok {| db_channels := db_channels db;
        db_segments := complete_row location now (file_size_or_zero size) <$> db_segments db;
        db_next_id := db_next_id db |}.

(** The loop of [main] that records the channel map. *)
Fixpoint record_map (ms : list ChannelMapping) (now : bytes) (db : Database) : result Database :=
  match ms with
  | [] => Ok db
  | m :: rest => db ← upsert_channel_mapping (vms_channel m) (camera_channel m) now (Ok tt) db; record_map rest now db
  end.

(** ** What the index promises *)

Record db_ok (db : Database) : Prop := {
  dk_rows : map_Forall (fun c row => 1 <= c <= 4 /\ 0 <= row_camera row <= 3) (db_channels db);
  dk_cameras : forall c1 c2 r1 r2, db_channels db !! c1 = Some r1 -> db_channels db !! c2 = Some r2 ->
    row_camera r1 = row_camera r2 -> c1 = c2;
  dk_paths : NoDup (sg_path <$> db_segments db);
  dk_ids : sg_id <$> db_segments db = seqZ 1 (zlen (db_segments db));
  dk_next : db_next_id db = 1 + zlen (db_segments db);
  dk_complete : Forall (fun r => sg_complete r = true <-> is_Some (sg_end r) /\ is_Some (sg_size r)) (db_segments db)
}.

Inductive db_step (db : Database) : Database -> Prop :=
| ds_upsert c cam now io db' : upsert_channel_mapping c cam now io db = Ok db' -> db_step db db'
| ds_opened c path container codec now io db' : mark_segment_opened c path container codec now io db = Ok db' -> db_step db db'
| ds_closed path now size io db' : mark_segment_closed path now size io db = Ok db' -> db_step db db'.

Lemma complete_row_path path now size r : sg_path (complete_row path now size r) = sg_path r.
Proof. unfold complete_row. by destruct (str_eqb _ _). Qed.

Lemma complete_row_id path now size r : sg_id (complete_row path now size r) = sg_id r.
Proof. unfold complete_row. by destruct (str_eqb _ _). Qed.

(** A new path is inserted with the next id. *)
Lemma opened_new ch path container codec now db :
  path ∉ (sg_path <$> db_segments db) ->
  mark_segment_opened ch path container codec now (Ok tt) db =
  Ok {| db_channels := db_channels db;
        db_segments := db_segments db ++
          [{| sg_id := db_next_id db; sg_channel := ch; sg_path := path; sg_container := container;
              sg_codec := codec; sg_start := now; sg_end := None; sg_size := None; sg_complete := false |}];
        db_next_id := db_next_id db + 1 |}.
Proof. intros H. unfold mark_segment_opened. by rewrite bool_decide_eq_false_2. Qed.

(** Completing a path leaves the rows of other paths alone. *)
Lemma complete_others path now size (rows : list SegmentRow) :
  path ∉ (sg_path <$> rows) -> complete_row path now size <$> rows = rows.
Proof.
  induction rows as [|r rows IH]; [done|]. rewrite fmap_cons, not_elem_of_cons. intros [Hne Hin].
  rewrite fmap_cons, IH by done. f_equal. unfold complete_row.
  destruct (str_eqb (sg_path r) path) eqn:E; [|done]. by apply str_eqb_eq in E.
Qed.

Lemma upsert_Ok c cam now io db db' :
  upsert_channel_mapping c cam now io db = Ok db' ->
  1 <= c <= 4 /\ 0 <= cam <= 3 /\ camera_taken c cam (db_channels db) = false /\
  db' = {| db_channels := <[c := {| row_camera := cam; row_updated := now |}]> (db_channels db);
           db_segments := db_segments db; db_next_id := db_next_id db |}.
Proof.
  unfold upsert_channel_mapping, upsert_statement. intros H. bind_inv H. apply throw_if_Ok in Hv. bprop.
  destruct (camera_taken c cam (db_channels db)); [done|]. cbn in Hv1. injection Hv1 as <-. injection H as <-.
  split_and!; try done; lia.
Qed.

Lemma camera_free c cam t c2 r2 : camera_taken c cam t = false -> t !! c2 = Some r2 -> row_camera r2 = cam -> c2 = c.
Proof.
  unfold camera_taken. rewrite bool_decide_eq_false. intros H Hl Hr. destruct (decide (c2 = c)) as [->|]; [done|].
  exfalso. apply H. by exists c2, r2.
Qed.

Lemma db_step_ok db db' : db_ok db -> db_step db db' -> db_ok db'.
Proof.
  intros [H1 H2 H3 H4 H5 H6] Hs. destruct Hs as [c cam now io db' H|c path cont codec now io db' H|path now size io db' H].
  - apply upsert_Ok in H as (Hc & Hcam & Hf & ->). constructor; cbn; try done.
    + by apply map_Forall_insert_2.
    + intros c1 c2 r1 r2. rewrite !lookup_insert_Some.
      intros [[<- <-]|[Hn1 Hl1]] [[<- <-]|[Hn2 Hl2]] E; cbn in E; [done|..].
      * symmetry in E |- *. symmetry. by rewrite (camera_free c cam (db_channels db) c2 r2 Hf Hl2 E).
      * by rewrite (camera_free c cam (db_channels db) c1 r1 Hf Hl1 E).
      * by eapply H2.
  - unfold mark_segment_opened in H. bind_inv H. injection H as <-.
    destruct (bool_decide (path ∈ sg_path <$> db_segments db)) eqn:E in Hv0; [done|]. apply bool_decide_eq_false in E.
    constructor; cbn; try done.
    + rewrite fmap_app. apply NoDup_app. split_and!; [done| |apply NoDup_singleton].
      intros x Hx ?%list_elem_of_singleton. by subst.
    + rewrite fmap_app, H4, zlen_app, seqZ_app by (pose proof (zlen_nonneg (db_segments db)); unfold zlen; cbn; lia).
      f_equal. cbn. by rewrite H5.
    + rewrite zlen_app, H5. change (zlen [_]) with 1. lia.
    + apply Forall_app. split; [done|]. apply Forall_singleton. cbn. split; [done|]. by intros [[? [=]] _].
  - unfold mark_segment_closed in H. bind_inv H. injection H as <-.
    assert (zlen (complete_row path now (file_size_or_zero size) <$> db_segments db) = zlen (db_segments db)) as El
      by (unfold zlen; by rewrite length_fmap).
    constructor; cbn; rewrite ?El; try done.
    + rewrite <- list_fmap_compose. erewrite list_fmap_ext; [exact H3|]. intros i r _. apply complete_row_path.
    + rewrite <- H4, <- list_fmap_compose. apply list_fmap_ext. intros i r _. apply complete_row_id.
    + apply Forall_fmap. eapply Forall_impl; [exact H6|]. intros r Hr. cbn. unfold complete_row.
      destruct (str_eqb _ _); [cbn; split; [intros _; split; by eexists|done]|done].
Qed.

Lemma empty_db_ok : db_ok empty_db.
Proof.
  constructor; cbn; try done. apply NoDup_nil_2.
Qed.

Lemma db_reachable_ok db : rtc db_step empty_db db -> db_ok db.
Proof.
  assert (forall db0 db, rtc db_step db0 db -> db_ok db0 -> db_ok db) as H; [|intros Hr; by eapply H, empty_db_ok].
  intros db0 db1 Hr. induction Hr as [|x y z Hs _ IH]; [done|]. intros Hx. apply IH. by eapply db_step_ok.
Qed.

(** C28: Whatever the program writes, no two VMS channels share a camera, rows stay in
    range, a file is indexed once, ids count the segments in order of opening, and a
    segment is complete exactly when it has an end time and a size. *)
Theorem index_invariant db : rtc db_step empty_db db -> db_ok db.
Proof. apply db_reachable_ok. Qed.

Lemma index_invariant_witness :
  exists db, mark_segment_opened 1 $"/a.mp4" $"mp4" $"h264" $"t0" (Ok tt) empty_db = Ok db /\ db_ok db.
Proof.
  eexists. split; [reflexivity|]. apply index_invariant. eapply rtc_once.
  eapply (ds_opened _ 1 $"/a.mp4" $"mp4" $"h264" $"t0" (Ok tt)). reflexivity.
Defined.

(** ** Recording the channel map *)

(** The rows of a map, with the time of the last write. *)
Definition holds_map (ms : list ChannelMapping) (t : gmap Z ChannelRow) : Prop :=
  forall c row, t !! c = Some row -> exists m, m ∈ ms /\ vms_channel m = c /\ camera_channel m = row_camera row.

Lemma nodup_fmap_inj {A B} (f : A -> B) l x y : NoDup (f <$> l) -> x ∈ l -> y ∈ l -> f x = f y -> x = y.
Proof.
  intros Hn (i & Hi)%list_elem_of_lookup (j & Hj)%list_elem_of_lookup E.
  assert (i = j) as ->; [|congruence].
  eapply NoDup_lookup; [exact Hn| |].
  - rewrite list_lookup_fmap, Hi. reflexivity.
  - rewrite list_lookup_fmap, Hj. cbn. by rewrite E.
Qed.

(** A row of the same map never blocks an entry. *)
Lemma map_not_taken ms t m :
  valid_map ms -> holds_map ms t -> m ∈ ms -> camera_taken (vms_channel m) (camera_channel m) t = false.
Proof.
  intros (_ & Hnc & _) Ht Hm. apply bool_decide_eq_false. intros (c & row & Hl & Hne & Hr).
  destruct (Ht c row Hl) as (m' & Hm' & Hv' & Hc'). apply Hne.
  rewrite (nodup_fmap_inj camera_channel ms m' m) in Hv'; [done|done|done|done|congruence].
Qed.

Lemma record_map_ok all ms now db :
  valid_map all -> ms ⊆ all -> holds_map all (db_channels db) ->
  exists db', record_map ms now db = Ok db' /\ holds_map all (db_channels db') /\
    (forall c row, db_channels db !! c = Some row -> exists row', db_channels db' !! c = Some row' /\ row_camera row' = row_camera row) /\
    (forall m, m ∈ ms -> exists row, db_channels db' !! vms_channel m = Some row /\ row_camera row = camera_channel m).
Proof.
  intros Hv. revert db. induction ms as [|m ms IH]; intros db Hsub Hh; cbn [record_map].
  { exists db. split_and!; [done|done|by eauto|by intros m ?%not_elem_of_nil]. }
  assert (m ∈ all) as Hm by (apply Hsub; by left).
  pose proof Hv as (Hok & _ & Hnv). rewrite Forall_forall in Hok. destruct (Hok m Hm) as [Hr1 Hr2].
  unfold upsert_channel_mapping, upsert_statement. rewrite (map_not_taken all) by done.
  replace (_ || _ || _ || _) with false by lia. cbn [throw_if check_sqlite mbind result_bind].
  set (row := {| row_camera := camera_channel m; row_updated := now |}).
  destruct (IH {| db_channels := <[vms_channel m := row]> (db_channels db); db_segments := db_segments db;
                  db_next_id := db_next_id db |}) as (db' & E & Hh' & Hkeep & Hall).
  { intros x Hx. apply Hsub. by right. }
  { intros c r. cbn. rewrite lookup_insert_Some. intros [[<- <-]|[_ Hl]]; [by exists m|by apply Hh]. }
  exists db'. rewrite E. split_and!; [done|done| |].
  - intros c r Hl. destruct (decide (c = vms_channel m)) as [->|Hne].
    + destruct (Hh _ _ Hl) as (m' & Hm' & Hv' & Hc').
      assert (m' = m) as -> by by eapply (nodup_fmap_inj vms_channel all).
      destruct (Hkeep (vms_channel m) row) as (row' & ? & Hr'); [cbn; by rewrite lookup_insert_eq|].
      exists row'. split; [done|]. rewrite Hr'. done.
    + apply Hkeep. cbn. by rewrite lookup_insert_ne.
  - intros x [->|Hx]%elem_of_cons; [|by apply Hall].
    destruct (Hkeep (vms_channel m) row) as (row' & ? & Hr'); [cbn; by rewrite lookup_insert_eq|]. by exists row'.
Qed.

(** Recording a valid channel map succeeds on a new database and on one that holds
    the same map, so a restart with the same map works; afterwards every entry is there. *)
Lemma channel_map_recorded ms now db :
  valid_map ms -> holds_map ms (db_channels db) ->
  exists db', record_map ms now db = Ok db' /\ holds_map ms (db_channels db') /\
    forall m, m ∈ ms -> exists row, db_channels db' !! vms_channel m = Some row /\ row_camera row = camera_channel m.
Proof.
  intros Hv Hh. destruct (record_map_ok ms ms now db Hv ltac:(done) Hh) as (db' & E & H1 & _ & H2). by exists db'.
Qed.

Lemma channel_map_recorded_witness :
  exists db, record_map sample_map $"t1" empty_db = Ok db /\ holds_map sample_map (db_channels db).
Proof.
  destruct (channel_map_recorded sample_map $"t1" empty_db) as (db & H1 & H2 & _).
  - apply sample_map_valid.
  - intros c row Hc. cbn in Hc. rewrite lookup_empty in Hc. discriminate.
  - exists db. split; [exact H1|exact H2].
Defined.

(** C39: Exchanging the cameras of two channels is a valid change of the map, but a
    restart with it fails: the first entry clashes with the row the other channel still
    holds, and the program exits. *)
Theorem channel_swap_rejected c1 c2 a b now later :
  1 <= c1 <= 4 -> 1 <= c2 <= 4 -> 0 <= a <= 3 -> 0 <= b <= 3 -> c1 <> c2 -> a <> b ->
  let before := [{| camera_channel := a; vms_channel := c1 |}; {| camera_channel := b; vms_channel := c2 |}] in
  let after := [{| camera_channel := b; vms_channel := c1 |}; {| camera_channel := a; vms_channel := c2 |}] in
  valid_map before /\ valid_map after /\
  exists db what, record_map before now empty_db = Ok db /\ record_map after later db = Throw what.
Proof.
  intros Hc1 Hc2 Ha Hb Hc Hab before after.
  assert (forall x y, x <> y -> 0 <= x <= 3 -> 0 <= y <= 3 ->
    valid_map [{| camera_channel := x; vms_channel := c1 |}; {| camera_channel := y; vms_channel := c2 |}]) as Hv.
  { intros x y Hxy Hx Hy. split_and!; [repeat (constructor; [split; cbn; lia|]); constructor|..]; cbn;
      (apply NoDup_cons; split; [by intros ?%list_elem_of_singleton|apply NoDup_singleton]). }
  assert (valid_map before) as Hvb by by apply Hv. split_and!; [done|by apply Hv|].
  destruct (record_map_ok before before now empty_db Hvb ltac:(done)) as (db & E & _ & _ & Hall).
  { intros c row Hl. cbn in Hl. by rewrite lookup_empty in Hl. }
  destruct (Hall {| camera_channel := b; vms_channel := c2 |}) as (row & Hrow & Hcam); [right; by left|]. cbn in Hrow, Hcam.
  exists db. eexists. split; [exact E|].
  unfold after. cbn [record_map vms_channel camera_channel]. unfold upsert_channel_mapping, upsert_statement.
  replace ((c1 <? 1) || (c1 >? 4) || (b <? 0) || (b >? 3)) with false by lia.
  replace (camera_taken c1 b (db_channels db)) with true; [reflexivity|].
  symmetry. apply bool_decide_eq_true. exists c2, row. by split_and!.
Qed.

Lemma channel_swap_rejected_witness :
  exists db what, record_map [{| camera_channel := 0; vms_channel := 1 |}; {| camera_channel := 1; vms_channel := 2 |}]
                    $"t0" empty_db = Ok db /\
    record_map [{| camera_channel := 1; vms_channel := 1 |}; {| camera_channel := 0; vms_channel := 2 |}] $"t1" db = Throw what.
Proof. apply (channel_swap_rejected 1 2 0 1 $"t0" $"t1"); lia. Defined.
