(* ===== verification/Config.v ===== *)
(** * Command lines, names and log output

    src/config/app_config.cpp (the configuration of the proxy and the log levels),
    src/logging/logger.cpp, the codec names of src/media/channel_ingest.cpp, and the
    command line of src/main.cpp ([VmsConfig], [parse_vms_args]), with both usage texts.  A command line is the
    list [argv[1], argv[2], ...]; the loop over it is [args_loop], and one round is
    [app_option] or [vms_option], with the argument after the current one at hand for
    [need_value]. *)

From S2P Require Import Prelude CStr Parser Rtp.
From coqutil Require Import Datatypes.RecordSetters.
Import DoubleBraceUpdate.

(** ** Log levels and codecs *)

Inductive LogLevel := LogError | LogWarn | LogInfo | LogDebug | LogTrace.

#[export] Instance LogLevel_eq_dec : EqDecision LogLevel.
Proof. solve_decision. Defined.

(** [static_cast<int>(level)] *)
Definition level_int (level : LogLevel) : Z :=
  match level with LogError => 0 | LogWarn => 1 | LogInfo => 2 | LogDebug => 3 | LogTrace => 4 end.

Definition parse_log_level (value : bytes) : result LogLevel :=
  if str_eqb value $"error" then Ok LogError
  else if str_eqb value $"warn" || str_eqb value $"warning" then Ok LogWarn
  else if str_eqb value $"info" then Ok LogInfo
  else if str_eqb value $"debug" then Ok LogDebug
  else if str_eqb value $"trace" then Ok LogTrace
  else Throw ($"unknown log level: " ++ value).

Definition log_level_name (level : LogLevel) : bytes :=
  match level with
  | LogError => $"error" | LogWarn => $"warn" | LogInfo => $"info"
  | LogDebug => $"debug" | LogTrace => $"trace"
  end.

Definition parse_video_codec (value : bytes) : result VideoCodec :=
  if str_eqb value $"h264" || str_eqb value $"H264" then Ok H264
  else if str_eqb value $"h265" || str_eqb value $"hevc" || str_eqb value $"H265" || str_eqb value $"HEVC"
  then Ok H265
  else Throw ($"unsupported codec: " ++ value).

Definition to_gst_encoding_name (codec : VideoCodec) : bytes :=
  match codec with H265 => $"H265" | H264 => $"H264" end.

Definition to_codec_name (codec : VideoCodec) : bytes :=
  match codec with H265 => $"h265" | H264 => $"h264" end.

(** ** The logger

    [level_] is its only state of its own; what it writes goes to [std::cerr]. *)

Definition log_enabled (level_ level : LogLevel) : bool := level_int level <=? level_int level_.

Definition log_line (level : LogLevel) (message : bytes) : bytes :=
  $"[" ++ log_level_name level ++ $"] " ++ message ++ [10].

Definition log (level_ level : LogLevel) (message cerr : bytes) : bytes :=
  if negb (log_enabled level_ level) then cerr else cerr ++ log_line level message.

(** ** Numbers on the command line *)

Definition parse_int_option (name value : bytes) (min_value max_value : Z) : result Z :=
  parsed ← rethrow_as (name ++ $" requires a valid number, got '" ++ value ++ $"'")
    ('(parsed, consumed) ← stoi value;
     _ ← throw_if (negb (Nat.eqb consumed (length value))) $"trailing characters";
     Ok parsed);
  _ ← throw_if ((parsed <? min_value) || (parsed >? max_value))
        (name ++ $" out of range (" ++ to_string min_value ++ $"-" ++ to_string max_value ++ $"): " ++
         to_string parsed);
  Ok parsed.

Definition parse_size_option (name value : bytes) (min_value max_value : Z) : result Z :=
  parsed ← rethrow_as (name ++ $" requires a valid number, got '" ++ value ++ $"'")
    ('(parsed, consumed) ← stoull value;
     _ ← throw_if (negb (Nat.eqb consumed (length value))) $"trailing characters";
     Ok parsed);
  _ ← throw_if ((parsed <? min_value) || (parsed >? max_value)) (name ++ $" out of range");
  Ok parsed.

Definition parse_int (name value : bytes) (min_value max_value : Z) : result Z :=
  parsed ← rethrow_as (name ++ $" requires a valid number")
    ('(parsed, consumed) ← stoi value;
     _ ← throw_if (negb (Nat.eqb consumed (length value))) $"trailing characters";
     Ok parsed);
  _ ← throw_if ((parsed <? min_value) || (parsed >? max_value)) (name ++ $" out of range");
  Ok parsed.

Definition parse_size (name value : bytes) : result Z :=
  rethrow_as (name ++ $" requires a valid number")
    ('(parsed, consumed) ← stoull value;
     _ ← throw_if (negb (Nat.eqb consumed (length value))) $"trailing characters";
     Ok parsed).

(** ** The loop over the arguments *)

(** What one round does: [Flag] leaves [i], [Took] has advanced it past the value of the
    option, [Exit] is [std::exit(0)] after the usage text. *)
Inductive flow (C : Type) := Flag (c : C) | Took (c : C) | Exit.
Arguments Flag {C} c.
Arguments Took {C} c.
Arguments Exit {C}.

(** What a parser gives back to [main]: a configuration, unless it ended the program. *)
Inductive parsed (C : Type) := Parsed (c : C) | Exited.
Arguments Parsed {C} c.
Arguments Exited {C}.

Definition need_value (next : option bytes) (name : bytes) : result bytes :=
  match next with
  | None => Throw ($"missing value for " ++ name)
  | Some value => Ok value
  end.

Fixpoint args_loop {C} (step : bytes -> option bytes -> C -> result (flow C))
    (args : list bytes) (c : C) : result (parsed C) :=
  match args with
  | [] => Ok (Parsed c)
  | arg :: rest =>
    match step arg (head rest) c with
    | Throw w => Throw w
    | Ok Exit => Ok Exited
    | Ok (Flag c') => args_loop step rest c'
    | Ok (Took c') => match rest with
                      | [] => Ok (Parsed c')
                      | _ :: rest' => args_loop step rest' c'
                      end
    end
  end.

(** ** The configuration of the proxy *)

Record AppConfig := {
  app_listen_host : bytes; app_listen_port : Z; app_listen_backlog : Z;
  app_cert_file : bytes; app_key_file : bytes;
  app_camera_host : bytes; app_camera_port : Z; app_camera_user : bytes; app_camera_password : bytes;
  app_camera_path_template : bytes; app_channels : Z;
  app_io_buffer_bytes : Z; app_max_rtsp_header_bytes : Z; app_max_rtsp_body_bytes : Z;
  app_select_timeout_ms : Z; app_log_level : LogLevel
}.

Definition app_defaults : AppConfig := {|
  app_listen_host := $"0.0.0.0"; app_listen_port := 8554; app_listen_backlog := 64;
  app_cert_file := $"certs/server.crt"; app_key_file := $"certs/server.key";
  app_camera_host := []; app_camera_port := 554; app_camera_user := $"admin"; app_camera_password := [];
  app_camera_path_template := $"/{channel}/profile2/media.smp"; app_channels := 4;
  app_io_buffer_bytes := 8192; app_max_rtsp_header_bytes := 16 * 1024;
  app_max_rtsp_body_bytes := 1024 * 1024; app_select_timeout_ms := 1000; app_log_level := LogInfo
|}.

Definition app_option (arg : bytes) (next : option bytes) (cfg : AppConfig) : result (flow AppConfig) :=
  let int_option (min_value max_value : Z) :=
    v ← need_value next arg; parse_int_option arg v min_value max_value in
  let size_option (min_value max_value : Z) :=
    v ← need_value next arg; parse_size_option arg v min_value max_value in
  if str_eqb arg $"--listen-host" then
    v ← need_value next arg; Ok (Took (cfg {{ app_listen_host := v }}))
  else if str_eqb arg $"--listen-port" then
    n ← int_option 1 65535; Ok (Took (cfg {{ app_listen_port := n }}))
  else if str_eqb arg $"--listen-backlog" then
    n ← int_option 1 4096; Ok (Took (cfg {{ app_listen_backlog := n }}))
  else if str_eqb arg $"--cert" then
    v ← need_value next arg; Ok (Took (cfg {{ app_cert_file := v }}))
  else if str_eqb arg $"--key" then
    v ← need_value next arg; Ok (Took (cfg {{ app_key_file := v }}))
  else if str_eqb arg $"--camera-host" then
    v ← need_value next arg; Ok (Took (cfg {{ app_camera_host := v }}))
  else if str_eqb arg $"--camera-port" then
    n ← int_option 1 65535; Ok (Took (cfg {{ app_camera_port := n }}))
  else if str_eqb arg $"--camera-user" then
    v ← need_value next arg; Ok (Took (cfg {{ app_camera_user := v }}))
  else if str_eqb arg $"--camera-password" then
    v ← need_value next arg; Ok (Took (cfg {{ app_camera_password := v }}))
  else if str_eqb arg $"--camera-path-template" then
    v ← need_value next arg; Ok (Took (cfg {{ app_camera_path_template := v }}))
  else if str_eqb arg $"--channels" then
    n ← int_option 1 64; Ok (Took (cfg {{ app_channels := n }}))
  else if str_eqb arg $"--io-buffer-bytes" then
    n ← size_option 1024 (1024 * 1024); Ok (Took (cfg {{ app_io_buffer_bytes := n }}))
  else if str_eqb arg $"--max-rtsp-header-bytes" then
    n ← size_option 1024 (1024 * 1024); Ok (Took (cfg {{ app_max_rtsp_header_bytes := n }}))
  else if str_eqb arg $"--max-rtsp-body-bytes" then
    n ← size_option 0 (64 * 1024 * 1024); Ok (Took (cfg {{ app_max_rtsp_body_bytes := n }}))
  else if str_eqb arg $"--select-timeout-ms" then
    n ← int_option 100 60000; Ok (Took (cfg {{ app_select_timeout_ms := n }}))
  else if str_eqb arg $"--log-level" then
    v ← need_value next arg; l ← parse_log_level v; Ok (Took (cfg {{ app_log_level := l }}))
  else if str_eqb arg $"--help" then Ok Exit
  else Throw ($"unknown option: " ++ arg).

(** The checks after the loop. *)
Definition app_check (cfg : AppConfig) : result AppConfig :=
  _ ← throw_if (is_empty (app_camera_host cfg)) $"--camera-host is required";
  _ ← throw_if (is_empty (app_camera_user cfg)) $"--camera-user is required";
  _ ← throw_if (is_empty (app_camera_password cfg)) $"--camera-password is required";
  Ok cfg.

Definition parse_args (args : list bytes) : result (parsed AppConfig) :=
  r ← args_loop app_option args app_defaults;
  match r with
  | Exited => Ok Exited
  | Parsed cfg => cfg ← app_check cfg; Ok (Parsed cfg)
  end.

(** ** The configuration of the server *)

Record VmsConfig := {
  vms_camera_host : bytes; vms_camera_port : Z; vms_camera_user : bytes; vms_camera_password : bytes;
  vms_camera_password_stdin : bool; vms_camera_path_template : bytes;
  vms_camera_channel : Z; vms_legacy_mapping_set : bool; vms_channel_map : bytes;
  vms_storage_root : bytes; vms_media_db : bytes; vms_channel_id : Z; vms_db_busy_timeout_ms : Z;
  vms_codec : VideoCodec; vms_latency_ms : Z; vms_segment_seconds : Z; vms_reconnect_delay_ms : Z;
  vms_ingest_startup_timeout_ms : Z; vms_channel_start_delay_ms : Z;
  vms_live_listen_host : bytes; vms_rtsp_port : Z; vms_rtsps_port : Z;
  vms_tls_cert_file : bytes; vms_tls_key_file : bytes;
  vms_live_client_queue_frames : Z; vms_live_client_queue_bytes : Z; vms_rtp_mtu : Z;
  vms_min_free_bytes : Z; vms_require_storage_mount : bool; vms_log_level : LogLevel
}.

Definition vms_defaults : VmsConfig := {|
  vms_camera_host := []; vms_camera_port := 554; vms_camera_user := $"admin"; vms_camera_password := [];
  vms_camera_password_stdin := false; vms_camera_path_template := $"/{camera_channel}/profile2/media.smp";
  vms_camera_channel := 0; vms_legacy_mapping_set := false; vms_channel_map := [];
  vms_storage_root := $"/mnt/vms-storage"; vms_media_db := []; vms_channel_id := 1;
  vms_db_busy_timeout_ms := 5000;
  vms_codec := H264; vms_latency_ms := 200; vms_segment_seconds := 60; vms_reconnect_delay_ms := 2000;
  vms_ingest_startup_timeout_ms := 5000; vms_channel_start_delay_ms := 0;
  vms_live_listen_host := $"0.0.0.0"; vms_rtsp_port := 0; vms_rtsps_port := 8554;
  vms_tls_cert_file := $"certs/server.crt"; vms_tls_key_file := $"certs/server.key";
  vms_live_client_queue_frames := 30; vms_live_client_queue_bytes := 8 * 1024 * 1024; vms_rtp_mtu := 1200;
  vms_min_free_bytes := 1024 * 1024 * 1024; vms_require_storage_mount := false; vms_log_level := LogInfo
|}.

Definition vms_option (arg : bytes) (next : option bytes) (config : VmsConfig) : result (flow VmsConfig) :=
  let int_value (min_value max_value : Z) :=
    v ← need_value next arg; parse_int arg v min_value max_value in
  let size_value := v ← need_value next arg; parse_size arg v in
  if str_eqb arg $"--camera-host" then
    v ← need_value next arg; Ok (Took (config {{ vms_camera_host := v }}))
  else if str_eqb arg $"--camera-port" then
    n ← int_value 1 65535; Ok (Took (config {{ vms_camera_port := n }}))
  else if str_eqb arg $"--camera-user" then
    v ← need_value next arg; Ok (Took (config {{ vms_camera_user := v }}))
  else if str_eqb arg $"--camera-password" then
    v ← need_value next arg; Ok (Took (config {{ vms_camera_password := v }}))
  else if str_eqb arg $"--camera-password-stdin" then
    Ok (Flag (config {{ vms_camera_password_stdin := true }}))
  else if str_eqb arg $"--camera-path-template" then
    v ← need_value next arg; Ok (Took (config {{ vms_camera_path_template := v }}))
  else if str_eqb arg $"--camera-channel" then
    n ← int_value 0 3; Ok (Took (config {{ vms_camera_channel := n; vms_legacy_mapping_set := true }}))
  else if str_eqb arg $"--channel-map" then
    v ← need_value next arg; Ok (Took (config {{ vms_channel_map := v }}))
  else if str_eqb arg $"--rtsp-url" then
    Throw $"--rtsp-url is not used; pass camera fields instead"
  else if str_eqb arg $"--storage-root" then
    v ← need_value next arg; Ok (Took (config {{ vms_storage_root := v }}))
  else if str_eqb arg $"--media-db" then
    v ← need_value next arg; Ok (Took (config {{ vms_media_db := v }}))
  else if str_eqb arg $"--channel-id" then
    n ← int_value 1 4; Ok (Took (config {{ vms_channel_id := n; vms_legacy_mapping_set := true }}))
  else if str_eqb arg $"--db-busy-timeout-ms" then
    n ← int_value 0 60000; Ok (Took (config {{ vms_db_busy_timeout_ms := n }}))
  else if str_eqb arg $"--codec" then
    v ← need_value next arg; codec ← parse_video_codec v; Ok (Took (config {{ vms_codec := codec }}))
  else if str_eqb arg $"--latency-ms" then
    n ← int_value 0 10000; Ok (Took (config {{ vms_latency_ms := n }}))
  else if str_eqb arg $"--segment-seconds" then
    n ← int_value 1 3600; Ok (Took (config {{ vms_segment_seconds := n }}))
  else if str_eqb arg $"--reconnect-delay-ms" then
    n ← int_value 0 60000; Ok (Took (config {{ vms_reconnect_delay_ms := n }}))
  else if str_eqb arg $"--ingest-startup-timeout-ms" then
    n ← int_value 1000 300000; Ok (Took (config {{ vms_ingest_startup_timeout_ms := n }}))
  else if str_eqb arg $"--channel-start-delay-ms" then
    n ← int_value 0 60000; Ok (Took (config {{ vms_channel_start_delay_ms := n }}))
  else if str_eqb arg $"--live-listen-host" then
    v ← need_value next arg; Ok (Took (config {{ vms_live_listen_host := v }}))
  else if str_eqb arg $"--rtsp-port" then
    n ← int_value 0 65535; Ok (Took (config {{ vms_rtsp_port := n }}))
  else if str_eqb arg $"--rtsps-port" then
    n ← int_value 0 65535; Ok (Took (config {{ vms_rtsps_port := n }}))
  else if str_eqb arg $"--tls-cert" then
    v ← need_value next arg; Ok (Took (config {{ vms_tls_cert_file := v }}))
  else if str_eqb arg $"--tls-key" then
    v ← need_value next arg; Ok (Took (config {{ vms_tls_key_file := v }}))
  else if str_eqb arg $"--live-client-queue-frames" then
    n ← size_value; Ok (Took (config {{ vms_live_client_queue_frames := n }}))
  else if str_eqb arg $"--live-client-queue-bytes" then
    n ← size_value; Ok (Took (config {{ vms_live_client_queue_bytes := n }}))
  else if str_eqb arg $"--rtp-mtu" then
    n ← size_value; Ok (Took (config {{ vms_rtp_mtu := n }}))
  else if str_eqb arg $"--min-free-bytes" then
    n ← size_value; Ok (Took (config {{ vms_min_free_bytes := n }}))
  else if str_eqb arg $"--require-storage-mount" then
    Ok (Flag (config {{ vms_require_storage_mount := true }}))
  else if str_eqb arg $"--log-level" then
    v ← need_value next arg; l ← parse_log_level v; Ok (Took (config {{ vms_log_level := l }}))
  else if str_eqb arg $"--help" then Ok Exit
  else Throw ($"unknown option: " ++ arg).

(** [std::getline(std::cin, line)]: nothing is read at the end of the input. *)
Definition getline (cin : bytes) : option bytes :=
  if is_empty cin then None else Some (fst (span (fun c => negb (c =? 10)) cin)).

(** The password line without a carriage return at its end. *)
Definition strip_cr (line : bytes) : bytes :=
  match last line with
  | Some 13 => take (length line - 1) line
  | _ => line
  end.

Definition read_password (cin : bytes) (config : VmsConfig) : result VmsConfig :=
  if vms_camera_password_stdin config then
    match getline cin with
    | None => Throw $"failed to read camera password from stdin"
    | Some line => Ok (config {{ vms_camera_password := strip_cr line }})
    end
  else Ok config.

Definition choose_channel_map (config : VmsConfig) : VmsConfig :=
  if is_empty (vms_channel_map config) then
    config {{ vms_channel_map :=
      if vms_legacy_mapping_set config
      then to_string (vms_camera_channel config) ++ $":" ++ to_string (vms_channel_id config)
      else $"0:1,1:2,2:3,3:4" }}
  else config.

Definition choose_media_db (config : VmsConfig) : VmsConfig :=
  if is_empty (vms_media_db config) then
    config {{ vms_media_db := path_append (path_append (vms_storage_root config) $"index") $"media.db" }}
  else config.

(** The checks after the loop, with the password read from [cin]. *)
Definition vms_check (cin : bytes) (config : VmsConfig) : result VmsConfig :=
  _ ← throw_if (is_empty (vms_camera_host config)) $"--camera-host is required";
  _ ← throw_if (bool_decide (is_Some (find_first_of (vms_camera_host config) [47; 64; 32; 9; 13; 10] 0)) ||
                bool_decide (is_Some (str_find (vms_camera_host config) $"://" 0)))
        $"--camera-host must be a host without scheme, path, or userinfo";
  _ ← throw_if (is_empty (vms_camera_user config)) $"--camera-user is required";
  _ ← throw_if (vms_camera_password_stdin config && negb (is_empty (vms_camera_password config)))
        $"--camera-password and --camera-password-stdin are mutually exclusive";
  config ← read_password cin config;
  _ ← throw_if (is_empty (vms_camera_password config))
        $"--camera-password or --camera-password-stdin is required";
  _ ← throw_if (vms_legacy_mapping_set config && negb (is_empty (vms_channel_map config)))
        $"--channel-map cannot be combined with --camera-channel or --channel-id";
  let config := choose_channel_map config in
  _ ← throw_if ((vms_rtsp_port config =? 0) && (vms_rtsps_port config =? 0))
        $"at least one of --rtsp-port or --rtsps-port must be enabled";
  _ ← throw_if ((vms_rtsps_port config >? 0) &&
                (is_empty (vms_tls_cert_file config) || is_empty (vms_tls_key_file config)))
        $"--rtsps-port requires --tls-cert and --tls-key";
  _ ← throw_if ((vms_live_client_queue_frames config =? 0) || (vms_live_client_queue_frames config >? 10000))
        $"--live-client-queue-frames out of range";
  _ ← throw_if ((vms_live_client_queue_bytes config =? 0) || (vms_rtp_mtu config <? 256) ||
                (vms_rtp_mtu config >? 65535))
        $"live queue byte limit or RTP MTU out of range";
  Ok (choose_media_db config).

Definition parse_vms_args (cin : bytes) (args : list bytes) : result (parsed VmsConfig) :=
  r ← args_loop vms_option args vms_defaults;
  match r with
  | Exited => Ok Exited
  | Parsed config => config ← vms_check cin config; Ok (Parsed config)
  end.

(** ** The location of a camera stream *)

(** The loop of the [replace_all] of main.cpp, which searches the changed string again
    from the end of the replacement. *)
Fixpoint vms_replace_loop (fuel : nat) (value from to : bytes) (pos : nat) : bytes :=
  match fuel with
  | O => value
  | S f => match str_find value from pos with
           | None => value
           | Some pos => vms_replace_loop f (str_replace value pos (length from) to) from to (pos + length to)
           end
  end.

Definition vms_replace_all (value from to : bytes) : bytes :=
  vms_replace_loop (S (length value)) value from to 0.

Definition build_camera_rtsp_location (config : VmsConfig) (camera_channel_id : Z) : bytes :=
  let camera_channel := to_string camera_channel_id in
  let path := vms_replace_all (vms_camera_path_template config) $"{camera_channel}" camera_channel in
  let path := vms_replace_all path $"{channel}" camera_channel in
  let path := if is_empty path || negb (bool_decide (head path = Some 47)) then $"/" ++ path else path in
  $"rtsp://" ++ vms_camera_host config ++ $":" ++ to_string (vms_camera_port config) ++ path.

(** ** The usage texts *)

(** The lines that describe options, without the indentation. *)
Definition app_usage_lines : list bytes := [
  $"--listen-host 0.0.0.0";
  $"--listen-port 8554";
  $"--listen-backlog 64";
  $"--cert certs/server.crt";
  $"--key certs/server.key";
  $"--camera-host CAMERA_IP";
  $"--camera-port 554";
  $"--camera-user admin";
  $"--camera-password 'password'";
  $"--camera-path-template '/{channel}/profile2/media.smp'";
  $"--channels 4";
  $"--io-buffer-bytes 8192";
  $"--max-rtsp-header-bytes 16384";
  $"--max-rtsp-body-bytes 1048576";
  $"--select-timeout-ms 1000";
  $"--log-level error|warn|info|debug|trace"
].

Definition vms_usage_lines : list bytes := [
  $"--camera-host CAMERA_IP";
  $"--camera-port 554";
  $"--camera-user admin";
  $"--camera-password PASSWORD (legacy; visible in process arguments)";
  $"--camera-password-stdin";
  $"--camera-path-template '/{camera_channel}/profile2/media.smp'";
  $"--channel-map '0:1,1:2,2:3,3:4'";
  $"--camera-channel 0 (legacy single-channel mapping)";
  $"--storage-root /mnt/vms-storage";
  $"--media-db /mnt/vms-storage/index/media.db";
  $"--channel-id 1 (legacy single-channel mapping)";
  $"--db-busy-timeout-ms 5000";
  $"--codec h264|h265";
  $"--latency-ms 200";
  $"--segment-seconds 60";
  $"--reconnect-delay-ms 2000";
  $"--ingest-startup-timeout-ms 5000";
  $"--channel-start-delay-ms 0";
  $"--live-listen-host 0.0.0.0";
  $"--rtsp-port 0 (plain RTSP disabled by default)";
  $"--rtsps-port 8554 (0 disables RTSPS)";
  $"--tls-cert certs/server.crt";
  $"--tls-key certs/server.key";
  $"--live-client-queue-frames 30";
  $"--live-client-queue-bytes 8388608";
  $"--rtp-mtu 1200";
  $"--min-free-bytes 1073741824";
  $"--require-storage-mount";
  $"--log-level error|warn|info|debug|trace"
].

Definition usage_text (first : bytes) (lines : list bytes) : bytes :=
  first ++ [10] ++ concat ((fun line => $"  " ++ line ++ [10]) <$> lines).

Definition app_print_usage (program_name : bytes) : bytes :=
  usage_text ($"Usage: " ++ program_name ++ $" [options]") app_usage_lines.

Definition vms_print_usage (program : bytes) : bytes :=
  usage_text ($"Usage: " ++ program ++ $" --camera-host HOST --camera-password-stdin [options]") vms_usage_lines.

(** ** Facts: numbers *)

Lemma rethrow_as_Ok {A} w (r : result A) a : rethrow_as w r = Ok a <-> r = Ok a.
Proof. by destruct r. Qed.

Lemma stoull_range s v n : stoull s = Ok (v, n) -> 0 <= v < 18446744073709551616.
Proof.
  unfold stoull. destruct (scan_integer s) as [[neg ds] rest] eqn:E.
  destruct (is_empty ds); [done|]. destruct (Z.ltb_spec (dec_value ds) 18446744073709551616); [|done].
  intros [= <- _]. destruct neg; [unfold u64; lia|]. split; [|done].
  unfold scan_integer in E. destruct (span is_space s) as [? s1], (take_sign s1) as [? s2].
  destruct (span is_digit s2) as [ds' ?] eqn:Es. injection E as -> -> ->.
  apply span_spec in Es as (_ & Hd & _). clear -Hd.
  induction ds as [|d ds IH] using rev_ind; [done|].
  apply Forall_app in Hd as [Hd [Hd1 _]%Forall_cons]. rewrite dec_value_snoc.
  unfold is_digit in Hd1. specialize (IH Hd). lia.
Qed.

Lemma stoull_to_string n :
  0 <= n < 18446744073709551616 -> stoull (to_string n) = Ok (n, length (to_string n)).
Proof.
  intros Hn. unfold stoull.
  rewrite <- (app_nil_r (to_string n)) at 1. rewrite scan_to_string by (done || lia).
  destruct (dec_unsigned n) eqn:E; [by apply dec_unsigned_nonempty in E|].
  cbn [is_empty]. rewrite <- E, dec_value_unsigned by lia.
  replace (n <? _) with true by lia. by rewrite length_nil, Nat.sub_0_r.
Qed.

Lemma parse_int_range name v lo hi n : parse_int name v lo hi = Ok n -> lo <= n <= hi.
Proof.
  unfold parse_int. intros H. bind_inv H. injection H as <-.
  apply throw_if_Ok in Hv0. bprop. lia.
Qed.

Lemma parse_int_to_string name lo hi n :
  0 <= lo <= n -> n <= hi <= int_max -> parse_int name (to_string n) lo hi = Ok n.
Proof.
  intros Hl Hh. unfold parse_int. rewrite stoi_to_string by lia. cbn.
  rewrite Nat.eqb_refl. cbn. by replace ((n <? lo) || (n >? hi)) with false by lia.
Qed.

Lemma parse_int_option_range name v lo hi n : parse_int_option name v lo hi = Ok n -> lo <= n <= hi.
Proof.
  unfold parse_int_option. intros H. bind_inv H. injection H as <-.
  apply throw_if_Ok in Hv0. bprop. lia.
Qed.

Lemma parse_size_option_range name v lo hi n : parse_size_option name v lo hi = Ok n -> lo <= n <= hi.
Proof.
  unfold parse_size_option. intros H. bind_inv H. injection H as <-.
  apply throw_if_Ok in Hv0. bprop. lia.
Qed.

Lemma parse_size_range name v n : parse_size name v = Ok n -> 0 <= n < 18446744073709551616.
Proof.
  unfold parse_size. intros H%rethrow_as_Ok. apply result_bind_Ok in H as ([p k] & Hp & H).
  bind_inv H. injection H as <-. by eapply stoull_range.
Qed.

Lemma parse_size_to_string name n :
  0 <= n < 18446744073709551616 -> parse_size name (to_string n) = Ok n.
Proof. intros Hn. unfold parse_size. rewrite stoull_to_string by done. cbn. by rewrite Nat.eqb_refl. Qed.

Lemma parse_log_level_name l : parse_log_level (log_level_name l) = Ok l.
Proof. by destruct l. Qed.

Lemma parse_codec_name c : parse_video_codec (to_codec_name c) = Ok c.
Proof. by destruct c. Qed.

(** ** Facts: the loop over the arguments *)

(** What one round keeps holds of the configuration the loop ends with. *)
Lemma args_loop_inv {C} step (P : C -> Prop) args c r :
  (forall arg next c f, P c -> step arg next c = Ok f ->
     match f with Flag c' | Took c' => P c' | Exit => True end) ->
  P c -> args_loop step args c = Ok (Parsed r) -> P r.
Proof.
  intros Hstep. revert c. induction args as [args IH] using (induction_ltof1 _ (@length _)); intros c HP.
  destruct args as [|arg rest]; cbn [args_loop]; [by intros [= <-]|].
  pose proof (Hstep arg (head rest) c) as Hs. destruct (step arg (head rest) c) as [[c'|c'|]|w]; try done.
  - apply IH; [unfold ltof; cbn; lia|]. exact (Hs _ HP eq_refl).
  - specialize (Hs _ HP eq_refl). destruct rest as [|v rest]; [by intros [= <-]|].
    apply IH; [unfold ltof; cbn; lia|done].
Qed.

Lemma args_loop_value {C} (step : bytes -> option bytes -> C -> result (flow C)) arg v rest c (u : C -> C) :
  (forall c, step arg (Some v) c = Ok (Took (u c))) ->
  args_loop step (arg :: v :: rest) c = args_loop step rest (u c).
Proof. cbn [args_loop head]. by intros ->. Qed.

Lemma args_loop_flag {C} (step : bytes -> option bytes -> C -> result (flow C)) arg rest c c' :
  step arg (head rest) c = Ok (Flag c') -> args_loop step (arg :: rest) c = args_loop step rest c'.
Proof. cbn [args_loop]. by intros ->. Qed.

(** ** What an accepted command line configures *)

Definition u64_range (n : Z) : Prop := 0 <= n < 18446744073709551616.

(** What the options alone guarantee, before the checks at the end. *)
Record vms_ranges (c : VmsConfig) : Prop := {
  vr_camera_port : 1 <= vms_camera_port c <= 65535;
  vr_camera_channel : 0 <= vms_camera_channel c <= 3;
  vr_channel_id : 1 <= vms_channel_id c <= 4;
  vr_busy : 0 <= vms_db_busy_timeout_ms c <= 60000;
  vr_latency : 0 <= vms_latency_ms c <= 10000;
  vr_segment : 1 <= vms_segment_seconds c <= 3600;
  vr_reconnect : 0 <= vms_reconnect_delay_ms c <= 60000;
  vr_startup : 1000 <= vms_ingest_startup_timeout_ms c <= 300000;
  vr_start_delay : 0 <= vms_channel_start_delay_ms c <= 60000;
  vr_rtsp_port : 0 <= vms_rtsp_port c <= 65535;
  vr_rtsps_port : 0 <= vms_rtsps_port c <= 65535;
  vr_frames : u64_range (vms_live_client_queue_frames c);
  vr_bytes : u64_range (vms_live_client_queue_bytes c);
  vr_mtu : u64_range (vms_rtp_mtu c);
  vr_min_free : u64_range (vms_min_free_bytes c)
}.

(** The characters a camera host may not contain. *)
Definition host_stop : bytes := [47; 64; 32; 9; 13; 10].
Definition host_ok (host : bytes) : Prop := host <> [] /\ Forall (fun c => mem c host_stop = false) host.

Record vms_ok (c : VmsConfig) : Prop := {
  vo_ranges : vms_ranges c;
  vo_host : host_ok (vms_camera_host c);
  vo_user : vms_camera_user c <> [];
  vo_password : vms_camera_password c <> [];
  vo_map : if vms_legacy_mapping_set c
           then vms_channel_map c = to_string (vms_camera_channel c) ++ $":" ++ to_string (vms_channel_id c)
           else vms_channel_map c <> [];
  vo_ports : 0 < vms_rtsp_port c \/ 0 < vms_rtsps_port c;
  vo_tls : 0 < vms_rtsps_port c -> vms_tls_cert_file c <> [] /\ vms_tls_key_file c <> [];
  vo_frames : 1 <= vms_live_client_queue_frames c <= 10000;
  vo_bytes : 1 <= vms_live_client_queue_bytes c;
  vo_mtu : 256 <= vms_rtp_mtu c <= 65535;
  vo_db : vms_media_db c <> []
}.

Lemma int_value_range next arg lo hi n :
  (v ← need_value next arg; parse_int arg v lo hi) = Ok n -> lo <= n <= hi.
Proof. intros (v & _ & H)%result_bind_Ok. by eapply parse_int_range. Qed.

Lemma size_value_range next arg n : (v ← need_value next arg; parse_size arg v) = Ok n -> u64_range n.
Proof. intros (v & _ & H)%result_bind_Ok. by eapply parse_size_range. Qed.

#[export] Hint Resolve int_value_range size_value_range : rtsps.

(** Each option sets fields to values in their ranges. *)
Lemma vms_option_ranges arg next c f :
  vms_ranges c -> vms_option arg next c = Ok f ->
  match f with Flag c' | Took c' => vms_ranges c' | Exit => True end.
Proof.
  intros [] H. unfold vms_option in H. cbv zeta in H.
  repeat (destruct (str_eqb arg _);
    [first [injection H as <-; by constructor
           |done
           |bind_inv H; injection H as <-; constructor; cbn; unfold constant; eauto with rtsps; done]|]).
  done.
Qed.

Lemma vms_defaults_ranges : vms_ranges vms_defaults.
Proof. constructor; cbn; unfold u64_range; lia. Qed.

Lemma find_first_of_None s set : find_first_of s set 0 = None <-> Forall (fun c => mem c set = false) s.
Proof.
  unfold find_first_of. rewrite drop_0, fmap_None. apply find_if_None.
Qed.

Lemma is_empty_false {A} (s : list A) : is_empty s = false <-> s <> [].
Proof. by destruct s. Qed.

Lemma path_append_nonempty p q : q <> [] -> path_append p q <> [].
Proof.
  intros Hq. unfold path_append. destruct (is_prefix _ q); [done|].
  destruct (last p) as [c|]; [|done]. destruct (c =? 47); intros [_ ?]%app_nil; done.
Qed.

(** The two choices change one field each. *)
Lemma choose_channel_map_spec c :
  (vms_legacy_mapping_set c && negb (is_empty (vms_channel_map c))) = false ->
  exists m, choose_channel_map c = c {{ vms_channel_map := m }} /\
    (if vms_legacy_mapping_set c
     then m = to_string (vms_camera_channel c) ++ $":" ++ to_string (vms_channel_id c)
     else m <> []).
Proof.
  intros H. unfold choose_channel_map. destruct (is_empty (vms_channel_map c)) eqn:E.
  - eexists. split; [done|]. by destruct (vms_legacy_mapping_set c).
  - exists (vms_channel_map c). split; [by destruct c|].
    destruct (vms_legacy_mapping_set c); [done|]. by apply is_empty_false.
Qed.

Lemma choose_media_db_spec c :
  exists d, choose_media_db c = c {{ vms_media_db := d }} /\ d <> [].
Proof.
  unfold choose_media_db. destruct (is_empty (vms_media_db c)) eqn:E.
  - eexists. split; [done|]. by apply path_append_nonempty.
  - exists (vms_media_db c). split; [by destruct c|]. by apply is_empty_false.
Qed.

(** The checks at the end make a configuration whose fields are in range usable. *)
Lemma vms_check_ok cin c c' : vms_ranges c -> vms_check cin c = Ok c' -> vms_ok c'.
Proof.
  intros Hr H. unfold vms_check in H. cbv zeta in H.
  apply result_bind_Ok in H as (? & Hhost%throw_if_Ok & H).
  apply result_bind_Ok in H as (? & Hstop%throw_if_Ok & H).
  apply result_bind_Ok in H as (? & Huser%throw_if_Ok & H).
  apply result_bind_Ok in H as (? & _ & H).
  apply result_bind_Ok in H as (c1 & Hp & H).
  assert (vms_ranges c1 /\ vms_camera_host c1 = vms_camera_host c /\ vms_camera_user c1 = vms_camera_user c)
    as (Hr1 & Eh & Eu).
  { unfold read_password in Hp. destruct (vms_camera_password_stdin c); [|by injection Hp as <-].
    destruct (getline cin); [|done]. injection Hp as <-. split; [by destruct Hr|done]. }
  rewrite <- Eh in Hhost, Hstop. rewrite <- Eu in Huser. clear c Hr Hp Eh Eu.
  apply result_bind_Ok in H as (? & Hpw%throw_if_Ok & H).
  apply result_bind_Ok in H as (? & Hleg%throw_if_Ok & H).
  apply result_bind_Ok in H as (? & Hports%throw_if_Ok & H).
  apply result_bind_Ok in H as (? & Htls%throw_if_Ok & H).
  apply result_bind_Ok in H as (? & Hfr%throw_if_Ok & H).
  apply result_bind_Ok in H as (? & Hmtu%throw_if_Ok & H). injection H as <-.
  destruct (choose_channel_map_spec c1 Hleg) as (m & Em & Hm). rewrite Em in *.
  destruct (choose_media_db_spec (c1 {{ vms_channel_map := m }})) as (d & -> & Hd).
  apply orb_false_iff in Hstop as [Hstop _]. apply bool_decide_eq_false in Hstop.
  rewrite is_Some_alt in Hstop.
  destruct (find_first_of (vms_camera_host c1) host_stop 0) eqn:Ef;
    [by destruct Hstop; unfold host_stop in Ef; rewrite Ef|].
  apply find_first_of_None in Ef. cbn in Hports, Htls, Hfr, Hmtu.
  apply is_empty_false in Hhost, Huser, Hpw.
  destruct c1, Hr1; cbn in *. unfold constant in *.
  constructor; cbn; unfold constant; try done; bprop; unfold u64_range in *; try lia.
  - intros Hp. rewrite andb_false_iff in Htls. destruct Htls as [Htls|Htls]; bprop; [lia|].
    split; by apply is_empty_false.
Qed.

(** Every accepted command line passed the options' ranges and the checks. *)
Lemma parse_vms_ok cin args c : parse_vms_args cin args = Ok (Parsed c) -> vms_ok c.
Proof.
  unfold parse_vms_args. intros (r & Hr & H)%result_bind_Ok.
  destruct r as [c0|]; [|done]. apply result_bind_Ok in H as (c1 & Hc & H). injection H as ->.
  apply (vms_check_ok cin c0); [|done].
  eapply args_loop_inv; [apply vms_option_ranges|apply vms_defaults_ranges|done].
Qed.

(** C25: A command line that is accepted gives a usable configuration: every number is in
    the range its consumers need, a host without scheme, path or user part, a user and a
    password, a channel map, at least one listener with its TLS files, queue limits, an
    MTU and a database path.  Whatever the options and their order, and whatever is on
    standard input. *)
Theorem vms_args_accepted cin args c : parse_vms_args cin args = Ok (Parsed c) -> vms_ok c.
Proof. apply parse_vms_ok. Qed.

Definition sample_args : list bytes :=
  [$"--camera-host"; $"10.0.0.5"; $"--camera-password"; $"secret"; $"--rtsp-port"; $"8555";
   $"--codec"; $"hevc"; $"--require-storage-mount"].

Definition sample_vms : VmsConfig :=
  vms_defaults {{ vms_camera_host := $"10.0.0.5"; vms_camera_password := $"secret"; vms_rtsp_port := 8555;
                  vms_codec := H265; vms_require_storage_mount := true;
                  vms_channel_map := $"0:1,1:2,2:3,3:4";
                  vms_media_db := $"/mnt/vms-storage/index/media.db" }}.

Lemma vms_args_accepted_witness : vms_ok sample_vms.
Proof. apply (vms_args_accepted [] sample_args sample_vms). reflexivity. Defined.

(** The command line that spells a configuration out: the password unless it is to come
    from standard input, and the single-channel options or a channel map. *)
Definition vms_argv (c : VmsConfig) : list bytes :=
  [$"--camera-host"; vms_camera_host c; $"--camera-port"; to_string (vms_camera_port c);
   $"--camera-user"; vms_camera_user c;
   $"--camera-path-template"; vms_camera_path_template c;
   $"--storage-root"; vms_storage_root c; $"--media-db"; vms_media_db c;
   $"--db-busy-timeout-ms"; to_string (vms_db_busy_timeout_ms c);
   $"--codec"; to_codec_name (vms_codec c); $"--latency-ms"; to_string (vms_latency_ms c);
   $"--segment-seconds"; to_string (vms_segment_seconds c);
   $"--reconnect-delay-ms"; to_string (vms_reconnect_delay_ms c);
   $"--ingest-startup-timeout-ms"; to_string (vms_ingest_startup_timeout_ms c);
   $"--channel-start-delay-ms"; to_string (vms_channel_start_delay_ms c);
   $"--live-listen-host"; vms_live_listen_host c; $"--rtsp-port"; to_string (vms_rtsp_port c);
   $"--rtsps-port"; to_string (vms_rtsps_port c); $"--tls-cert"; vms_tls_cert_file c;
   $"--tls-key"; vms_tls_key_file c;
   $"--live-client-queue-frames"; to_string (vms_live_client_queue_frames c);
   $"--live-client-queue-bytes"; to_string (vms_live_client_queue_bytes c);
   $"--rtp-mtu"; to_string (vms_rtp_mtu c); $"--min-free-bytes"; to_string (vms_min_free_bytes c);
   $"--log-level"; log_level_name (vms_log_level c)] ++
  (if vms_camera_password_stdin c then [$"--camera-password-stdin"]
   else [$"--camera-password"; vms_camera_password c]) ++
  (if vms_legacy_mapping_set c
   then [$"--camera-channel"; to_string (vms_camera_channel c); $"--channel-id"; to_string (vms_channel_id c)]
   else [$"--channel-map"; vms_channel_map c]) ++
  (if vms_require_storage_mount c then [$"--require-storage-mount"] else []).

(** What standard input then holds: the password on a line of its own. *)
Definition vms_cin (c : VmsConfig) : bytes :=
  if vms_camera_password_stdin c then vms_camera_password c ++ CRLF else [].

(** A password read from standard input is one line, and the fields of the single-channel
    options keep their defaults without them. *)
Definition vms_given (c : VmsConfig) : Prop :=
  (vms_camera_password_stdin c = true -> Forall (fun x => x <> 10) (vms_camera_password c)) /\
  (vms_legacy_mapping_set c = false -> vms_camera_channel c = 0 /\ vms_channel_id c = 1).

(** The configuration before the checks, which fill in the password and the map. *)
Definition as_given (c : VmsConfig) : VmsConfig :=
  c {{ vms_camera_password := if vms_camera_password_stdin c then [] else vms_camera_password c;
       vms_channel_map := if vms_legacy_mapping_set c then [] else vms_channel_map c }}.

(** Decides which option an argument is. *)
Ltac pick_option :=
  lazy beta iota zeta delta
    [vms_option str_eqb lit fmap list_fmap String.list_ascii_of_string Ascii.N_of_ascii Ascii.N_of_digits
     Z.of_N Z.eqb Pos.eqb andb N.add N.mul Pos.add Pos.mul Pos.succ need_value mbind result_bind].

(** Reads one option with its value off the command line. *)
Ltac take_option :=
  erewrite args_loop_value;
  [|intro; pick_option;
    rewrite ?parse_int_to_string, ?parse_size_to_string, ?parse_codec_name, ?parse_log_level_name
      by (unfold int_max; lia); reflexivity].

Ltac take_flag := erewrite args_loop_flag by (pick_option; reflexivity).

Lemma vms_argv_loop c :
  vms_ranges c -> vms_given c -> args_loop vms_option (vms_argv c) vms_defaults = Ok (Parsed (as_given c)).
Proof.
  intros [] [_ Hl]. unfold u64_range in *. unfold vms_argv, as_given. cbn [app].
  do 23 take_option.
  destruct c; cbn in *. unfold constant. destruct vms_legacy_mapping_set0; [|destruct (Hl eq_refl) as [-> ->]];
    destruct vms_camera_password_stdin0; cbn [app]; [take_flag|take_option|take_flag|take_option];
    [do 2 take_option|do 2 take_option|take_option|take_option]; destruct vms_require_storage_mount0;
    try take_flag; done.
Qed.

Lemma read_password_given c :
  vms_given c ->
  read_password (vms_cin c) (as_given c) = Ok (c {{ vms_channel_map := if vms_legacy_mapping_set c then [] else vms_channel_map c }}).
Proof.
  intros [Hp _]. unfold read_password, vms_cin, as_given. destruct c; cbn in *. unfold constant in *.
  destruct vms_camera_password_stdin0; [|done]. unfold getline.
  destruct (is_empty _) eqn:E; [by destruct vms_camera_password0|].
  change CRLF with ([13] ++ [10]). rewrite app_assoc, span_app; cbn [fst].
  - unfold strip_cr. rewrite last_snoc, length_app, take_app_length'; [done|cbn; lia].
  - rewrite Forall_app. split; [|by repeat constructor]. eapply Forall_impl; [by apply Hp|]. intros x Hx. by apply negb_true_iff, Z.eqb_neq.
  - by intros x l [= <- <-].
Qed.

Lemma choose_channel_map_given c :
  vms_ok c -> choose_channel_map (c {{ vms_channel_map := if vms_legacy_mapping_set c then [] else vms_channel_map c }}) = c.
Proof.
  intros Hok. pose proof (vo_map _ Hok) as Hm. unfold choose_channel_map. destruct c; cbn in *. unfold constant in *.
  destruct vms_legacy_mapping_set0; cbn; [by subst|]. apply is_empty_false in Hm. rewrite Hm. done.
Qed.

Lemma vms_check_given c : vms_ok c -> vms_given c -> vms_check (vms_cin c) (as_given c) = Ok c.
Proof.
  intros Hok Hg. pose proof Hok as [[] [Hh Hs] Hu Hpw _ Hp Ht Hf Hb Hmtu Hd].
  apply find_first_of_None in Hs as Hs'.
  assert (str_find (vms_camera_host c) $"://" 0 = None) as Hscheme.
  { rewrite str_find_0. destruct (find0 _ _) as [i|] eqn:E; [|done].
    apply find0_split in E as [E _]. rewrite E in Hs.
    apply Forall_app in Hs as [_ [Hs _]%Forall_app].
    apply Forall_cons in Hs as [_ [Hs _]%Forall_cons]. done. }
  unfold vms_check. rewrite read_password_given by done.
  set (c1 := c {{ vms_channel_map := _ }}). cbn [mbind result_bind]. cbv zeta.
  change (vms_camera_host (as_given c)) with (vms_camera_host c). change (vms_camera_user (as_given c)) with (vms_camera_user c).
  change (vms_camera_password c1) with (vms_camera_password c). change (vms_legacy_mapping_set c1) with (vms_legacy_mapping_set c).
  change (vms_channel_map c1) with (if vms_legacy_mapping_set c then [] else vms_channel_map c).
  replace (vms_camera_password_stdin (as_given c) && _) with false
    by (unfold as_given; destruct c; cbn; unfold constant; by destruct vms_camera_password_stdin0).
  replace (vms_legacy_mapping_set c && _) with false by (by destruct (vms_legacy_mapping_set c)).
  rewrite (proj2 (is_empty_false _) Hh), (proj2 (is_empty_false _) Hu), (proj2 (is_empty_false _) Hpw).
  unfold host_stop in Hs'. rewrite Hs', Hscheme. unfold c1. rewrite choose_channel_map_given by done.
  unfold choose_media_db. rewrite (proj2 (is_empty_false _) Hd).
  replace ((vms_rtsp_port c =? 0) && (vms_rtsps_port c =? 0)) with false by lia.
  replace ((vms_rtsps_port c >? 0) && _) with false.
  2: { symmetry. destruct (Z.gtb_spec (vms_rtsps_port c) 0); [|done].
       destruct (Ht ltac:(lia)) as [->%is_empty_false ->%is_empty_false]. done. }
  replace ((vms_live_client_queue_frames c =? 0) || _) with false by lia.
  by replace (_ || (vms_rtp_mtu c >? 65535)) with false by lia.
Qed.

(** The fields of the single-channel options. *)
Definition single_ok (c : VmsConfig) : Prop :=
  vms_legacy_mapping_set c = false -> vms_camera_channel c = 0 /\ vms_channel_id c = 1.

Lemma vms_option_single arg next c f :
  single_ok c -> vms_option arg next c = Ok f ->
  match f with Flag c' | Took c' => single_ok c' | Exit => True end.
Proof.
  intros Hc H. unfold vms_option in H. cbv zeta in H.
  repeat (destruct (str_eqb arg _);
    [first [injection H as <-; first [exact Hc|exact I]|done|bind_inv H; injection H as <-; first [exact Hc|by intros ?]]|]).
  done.
Qed.

Lemma strip_cr_Forall (P : Z -> Prop) line : Forall P line -> Forall P (strip_cr line).
Proof. intros H. unfold strip_cr. repeat case_match; auto. by apply Forall_take. Qed.

Lemma vms_check_keeps cin c c' : single_ok c -> vms_check cin c = Ok c' -> vms_given c'.
Proof.
  intros Hs H. unfold vms_check in H. cbv zeta in H.
  do 4 apply result_bind_Ok in H as (? & _ & H). apply result_bind_Ok in H as (c1 & Hp & H).
  do 2 apply result_bind_Ok in H as (? & _ & H).
  assert (vms_given c1) as Hg.
  { unfold read_password in Hp. destruct (vms_camera_password_stdin c) eqn:E.
    - destruct (getline cin) as [line|] eqn:El; [|done]. injection Hp as <-. split; [|exact Hs]. intros _.
      unfold getline in El. destruct (is_empty cin); [done|]. injection El as <-. cbn. unfold constant. apply strip_cr_Forall.
      destruct (span _ cin) as [l r] eqn:Esp. apply span_spec in Esp as (_ & Hl & _). cbn.
      eapply Forall_impl; [exact Hl|]. by intros z Hz%negb_true_iff%Z.eqb_neq.
    - injection Hp as <-. split; [by rewrite E|exact Hs]. }
  do 4 apply result_bind_Ok in H as (? & _ & H). injection H as <-.
  unfold choose_media_db, choose_channel_map. repeat case_match; exact Hg.
Qed.

Lemma parse_vms_given cin args c : parse_vms_args cin args = Ok (Parsed c) -> vms_given c.
Proof.
  unfold parse_vms_args. intros (r & Hr & H)%result_bind_Ok.
  destruct r as [c0|]; [|done]. apply result_bind_Ok in H as (c1 & Hc & H). injection H as ->.
  eapply vms_check_keeps; [|exact Hc]. eapply args_loop_inv; [apply vms_option_single| |exact Hr]; intros _; by split.
Qed.

(** C26: Every configuration that a command line gives can be written out and read back: its
    options, spelled out in one fixed order, with the password on standard input if it
    came from there and with the single-channel options if they were used, are parsed to
    exactly the same configuration. *)
Theorem vms_args_round_trip cin args c :
  parse_vms_args cin args = Ok (Parsed c) -> parse_vms_args (vms_cin c) (vms_argv c) = Ok (Parsed c).
Proof.
  intros H. pose proof (parse_vms_ok _ _ _ H) as Hok. apply parse_vms_given in H as Hg. unfold parse_vms_args.
  rewrite vms_argv_loop by (done || apply Hok). cbn [mbind result_bind]. by rewrite vms_check_given.
Qed.

Lemma sample_vms_ok : vms_ok sample_vms.
Proof.
  constructor; [constructor; unfold u64_range; by split; vm_compute| | | | | | | | | |];
    try (by vm_compute); try (by split; vm_compute).
  - split; [done|]. by repeat constructor.
  - left. by vm_compute.
Qed.

(** One camera channel, with the password from standard input. *)
Definition single_args : list bytes :=
  [$"--camera-host"; $"10.0.0.5"; $"--camera-password-stdin"; $"--camera-channel"; $"2"; $"--channel-id"; $"3"].

Lemma vms_args_round_trip_witness :
  exists c, parse_vms_args $"secret" single_args = Ok (Parsed c) /\ parse_vms_args (vms_cin c) (vms_argv c) = Ok (Parsed c).
Proof.
  destruct (parse_vms_args $"secret" single_args) as [[c|]|w] eqn:E; [|vm_compute in E; discriminate..].
  exists c. split; [reflexivity|]. apply (vms_args_round_trip $"secret" single_args c). exact E.
Defined.

(** ** Replacing text *)

Lemma vms_replace_loop_replaced f value from to : vms_replace_loop f value from to 0 = replaced f value from to.
Proof. exact (replace_loop_replaced f value from to). Qed.

Lemma vms_replace_all_replaced value from to :
  vms_replace_all value from to = replaced (S (length value)) value from to.
Proof. apply vms_replace_loop_replaced. Qed.

(** C33: Both [replace_all] of the program, which search the string they are changing, end
    for every pattern that is not empty, even if the replacement contains it, and replace
    exactly the occurrences found from the left in the original text: the text is the
    pieces each followed by the pattern, the result is the same pieces each followed by
    the replacement, and the first place of the pattern is at the end of each piece. *)
Theorem replace_all_correct fuel value from to :
  from <> [] -> (length value < fuel)%nat ->
  exists pieces rest,
    value = concat ((fun p => p ++ from) <$> pieces) ++ rest /\
    Forall (fun p => find0 from (p ++ from) = Some (length p)) pieces /\ find0 from rest = None /\
    let result := concat ((fun p => p ++ to) <$> pieces) ++ rest in
    replace_loop fuel value from to 0 = result /\ vms_replace_loop fuel value from to 0 = result /\
    replace_all value from to = result /\ vms_replace_all value from to = result.
Proof.
  intros Hne Hf. destruct (replaced_cut fuel value from to Hne Hf) as (pieces & rest & (Hv & Hp & Hr) & H).
  exists pieces, rest. split; [done|]. split; [done|]. split; [done|]. cbv zeta. rewrite <- H.
  rewrite vms_replace_all_replaced, vms_replace_loop_replaced, replace_loop_replaced.
  unfold replace_all. rewrite replace_loop_replaced. destruct from; [done|]. cbn [is_empty].
  split_and!; try done; apply replaced_fuel; (done || lia).
Qed.

Lemma replace_all_correct_witness :
  replace_all $"/aaaa/ab/aa" $"aa" $"aaa" = $"/aaaaaa/ab/aaa" /\
  exists pieces rest,
    $"/aaaa/ab/aa" = concat ((fun p => p ++ $"aa") <$> pieces) ++ rest /\
    Forall (fun p => find0 $"aa" (p ++ $"aa") = Some (length p)) pieces /\ find0 $"aa" rest = None /\
    let result := concat ((fun p => p ++ $"aaa") <$> pieces) ++ rest in
    replace_loop 20 $"/aaaa/ab/aa" $"aa" $"aaa" 0 = result /\ vms_replace_loop 20 $"/aaaa/ab/aa" $"aa" $"aaa" 0 = result /\
    replace_all $"/aaaa/ab/aa" $"aa" $"aaa" = result /\ vms_replace_all $"/aaaa/ab/aa" $"aa" $"aaa" = result.
Proof. split; [by vm_compute|]. apply replace_all_correct; [done|cbn; lia]. Defined.

(** Text without the first character of the pattern is left alone. *)
Lemma find0_no_first p s c : head p = Some c -> Forall (fun x => x <> c) s -> find0 p s = None.
Proof.
  destruct p as [|c' p]; [done|]. intros [= ->] Hs. induction Hs as [|x s Hx _ IH]; [done|].
  cbn [find0 is_prefix]. replace (c =? x) with false by lia. cbn [andb]. by rewrite IH.
Qed.

Lemma find0_after p s t c : head p = Some c -> Forall (fun x => x <> c) s -> find0 p (s ++ p ++ t) = Some (length s).
Proof.
  destruct p as [|c' p]; [done|]. intros [= ->] Hs. induction Hs as [|x s Hx _ IH].
  - change ([] ++ (c :: p) ++ t) with ((c :: p) ++ t).
    apply (find0_intro _ _ 0); [rewrite drop_0; apply is_prefix_app|lia|intros; lia].
  - cbn [app find0 is_prefix length]. replace (c =? x) with false by lia. cbn [andb].
    cbn [app] in IH. by rewrite IH.
Qed.

Lemma replace_once a p b to c :
  head p = Some c -> Forall (fun x => x <> c) a -> Forall (fun x => x <> c) b ->
  vms_replace_all (a ++ p ++ b) p to = a ++ to ++ b.
Proof.
  intros Hc Ha Hb. rewrite vms_replace_all_replaced. cbn [replaced].
  rewrite (find0_after p a b c) by done. rewrite take_app_length, drop_app_add, drop_app_length.
  destruct (length (a ++ p ++ b)); cbn [replaced]; [done|]. by rewrite (find0_no_first p b c).
Qed.

Lemma replace_none s p to c :
  head p = Some c -> Forall (fun x => x <> c) s -> vms_replace_all s p to = s.
Proof. intros Hc Hs. rewrite vms_replace_all_replaced. cbn [replaced]. by rewrite (find0_no_first p s c). Qed.

(** The part of a URL between the scheme and the path. *)
Definition url_authority (url : bytes) : bytes :=
  fst (span (fun c => negb (c =? 47)) (drop (length $"rtsp://") url)).

Lemma host_no_slash host : host_ok host -> Forall (fun c => negb (c =? 47) = true) host.
Proof.
  intros [_ H]. eapply Forall_impl; [exact H|]. intros x Hx. cbn in Hx. by destruct (Z.eqb_spec x 47); [subst|].
Qed.

Lemma port_no_slash n : 0 <= n -> Forall (fun c => negb (c =? 47) = true) (to_string n).
Proof.
  intros Hn. eapply Forall_impl; [by apply (to_string_no 47)|]. cbn. intros c Hc. by destruct (Z.eqb_spec c 47).
Qed.

(** The location the server connects to names exactly the configured camera: its
    authority is the host and port of the command line, without a user part, whatever the
    path template is; and a template with one placeholder gives the path with the
    channel number in its place. *)
Lemma camera_location_authority c ch :
  vms_ok c -> 0 <= ch ->
  let location := build_camera_rtsp_location c ch in
  url_authority location = vms_camera_host c ++ $":" ++ to_string (vms_camera_port c) /\
  Forall (fun x => x <> 64) (url_authority location) /\
  forall pre post,
    vms_camera_path_template c = $"/" ++ pre ++ $"{camera_channel}" ++ post ->
    Forall (fun x => x <> 123) (pre ++ post) ->
    location = $"rtsp://" ++ url_authority location ++ $"/" ++ pre ++ to_string ch ++ post.
Proof.
  intros Hok Hch location. destruct Hok as [[] Hhost _ _ _ _ _ _ _ _ _].
  assert (url_authority location = vms_camera_host c ++ $":" ++ to_string (vms_camera_port c)) as Hauth.
  { unfold url_authority, location, build_camera_rtsp_location. cbv zeta.
    set (path := vms_replace_all (vms_replace_all _ _ _) _ _).
    rewrite drop_app_length.
    assert (exists p, (if is_empty path || negb (bool_decide (head path = Some 47)) then $"/" ++ path else path)
      = 47 :: p) as [p ->].
    { destruct path as [|x p]; [by exists []|]. cbn [is_empty orb head].
      case_bool_decide as E; [injection E as ->; by exists p|by exists (x :: p)]. }
    rewrite !app_assoc, span_app; [by rewrite <- app_assoc| |by intros ? ? [= <- _]].
    rewrite !Forall_app. split_and!; [by apply host_no_slash|by repeat constructor|by apply port_no_slash; lia]. }
  split; [done|]. split.
  - rewrite Hauth, !Forall_app. destruct Hhost as [_ Hh]. split_and!.
    + eapply Forall_impl; [exact Hh|]. cbn. by intros x Hx ->.
    + by repeat constructor.
    + apply to_string_no; [lia|done].
  - intros pre post Ht [Hpre Hpost]%Forall_app. rewrite Hauth.
    unfold location, build_camera_rtsp_location. rewrite Ht. cbv zeta.
    rewrite (app_assoc $"/" pre), (replace_once _ _ _ _ 123) by (done || by rewrite Forall_app; split; [repeat constructor|]).
    rewrite (replace_none _ _ _ 123); [by rewrite <- !app_assoc|done|].
    rewrite !Forall_app. split_and!; try done; [by repeat constructor|]. by apply to_string_no.
Qed.

Lemma camera_location_authority_witness :
  build_camera_rtsp_location sample_vms 2 = $"rtsp://10.0.0.5:554/2/profile2/media.smp".
Proof.
  destruct (camera_location_authority sample_vms 2 sample_vms_ok ltac:(lia)) as (Ha & _ & H).
  rewrite (H [] $"/profile2/media.smp"); [by rewrite Ha|done|by repeat constructor].
Defined.

(** ** Sizes with a minus sign *)

(** A size may be written with a minus sign: [-n] is taken as [2^64 - n], so a
    negative queue limit or free-space limit is accepted as an enormous one. *)
Lemma parse_size_negative name n :
  0 < n < 18446744073709551616 -> parse_size name ($"-" ++ to_string n) = Ok (18446744073709551616 - n).
Proof.
  intros Hn. unfold parse_size, stoull.
  assert (scan_integer ($"-" ++ to_string n) = (true, dec_unsigned n, [])) as ->.
  { unfold scan_integer. cbn [app]. unfold to_string. replace (n <? 0) with false by lia.
    change ($"-" ++ dec_unsigned n) with (45 :: dec_unsigned n). cbn [span take_sign].
    change (is_space 45) with false. cbv iota. cbn [take_sign]. change (45 =? 45) with true. cbv iota.
    by rewrite span_all by apply dec_unsigned_digits. }
  destruct (dec_unsigned n) eqn:E; [by apply dec_unsigned_nonempty in E|]. cbn [is_empty].
  rewrite <- E, dec_value_unsigned by lia. replace (n <? _) with true by lia.
  cbn [mbind result_bind]. rewrite length_nil, Nat.sub_0_r, Nat.eqb_refl. cbn.
  unfold u64. f_equal. lia.
Qed.

Lemma parse_size_negative_witness :
  parse_size $"--live-client-queue-bytes" $"-1" = Ok 18446744073709551615 /\
  parse_vms_args [] (sample_args ++ [$"--live-client-queue-bytes"; $"-1"]) =
  Ok (Parsed (sample_vms {{ vms_live_client_queue_bytes := 18446744073709551615 }})).
Proof.
  split; [|vm_compute; reflexivity].
  exact (parse_size_negative $"--live-client-queue-bytes" 1 ltac:(lia)).
Defined.

(** ** The proxy's configuration *)

Record app_ok (c : AppConfig) : Prop := {
  ao_listen_port : 1 <= app_listen_port c <= 65535;
  ao_backlog : 1 <= app_listen_backlog c <= 4096;
  ao_camera_port : 1 <= app_camera_port c <= 65535;
  ao_channels : 1 <= app_channels c <= 64;
  ao_io : 1024 <= app_io_buffer_bytes c <= 1048576;
  ao_header : 1024 <= app_max_rtsp_header_bytes c <= 1048576;
  ao_body : 0 <= app_max_rtsp_body_bytes c <= 67108864;
  ao_select : 100 <= app_select_timeout_ms c <= 60000
}.

Lemma app_int_range next arg lo hi n :
  (v ← need_value next arg; parse_int_option arg v lo hi) = Ok n -> lo <= n <= hi.
Proof. intros (v & _ & H)%result_bind_Ok. by eapply parse_int_option_range. Qed.

Lemma app_size_range next arg lo hi n :
  (v ← need_value next arg; parse_size_option arg v lo hi) = Ok n -> lo <= n <= hi.
Proof. intros (v & _ & H)%result_bind_Ok. by eapply parse_size_option_range. Qed.

#[export] Hint Resolve app_int_range app_size_range : rtsps.

Lemma app_option_ok arg next c f :
  app_ok c -> app_option arg next c = Ok f ->
  match f with Flag c' | Took c' => app_ok c' | Exit => True end.
Proof.
  intros [] H. unfold app_option in H. cbv zeta in H.
  repeat (destruct (str_eqb arg _);
    [first [injection H as <-; by constructor
           |bind_inv H; injection H as <-; constructor; cbn; unfold constant; eauto with rtsps; done]|]).
  done.
Qed.

(** A command line the proxy accepts keeps every number in its range and names a
    camera with a user and a password. *)
Lemma app_args_accepted args c :
  parse_args args = Ok (Parsed c) ->
  app_ok c /\ app_camera_host c <> [] /\ app_camera_user c <> [] /\ app_camera_password c <> [].
Proof.
  unfold parse_args. intros (r & Hr & H)%result_bind_Ok.
  destruct r as [c0|]; [|done]. apply result_bind_Ok in H as (c1 & Hc & H). injection H as ->.
  unfold app_check in Hc. apply result_bind_Ok in Hc as (? & H1%throw_if_Ok & Hc).
  apply result_bind_Ok in Hc as (? & H2%throw_if_Ok & Hc).
  apply result_bind_Ok in Hc as (? & H3%throw_if_Ok & Hc). injection Hc as ->.
  apply is_empty_false in H1, H2, H3. split_and!; try done.
  eapply args_loop_inv; [apply app_option_ok| |done]. by constructor.
Qed.

Lemma app_args_accepted_witness :
  parse_args [$"--camera-host"; $"cam"; $"--camera-password"; $"pw"; $"--channels"; $"8"] =
    Ok (Parsed (app_defaults {{ app_camera_host := $"cam"; app_camera_password := $"pw"; app_channels := 8 }})) /\
  app_ok (app_defaults {{ app_camera_host := $"cam"; app_camera_password := $"pw"; app_channels := 8 }}).
Proof.
  split; [reflexivity|].
  apply (app_args_accepted [$"--camera-host"; $"cam"; $"--camera-password"; $"pw"; $"--channels"; $"8"]).
  reflexivity.
Defined.

(** ** Log output *)

(** A logger writes the lines of the enabled messages, in the order they were logged. *)
Lemma log_lines level_ msgs cerr :
  fold_left (fun out '(level, message) => log level_ level message out) msgs cerr =
  cerr ++ concat ((fun '(level, message) => log_line level message) <$>
                  filter (fun m => log_enabled level_ m.1 = true) msgs).
Proof.
  revert cerr; induction msgs as [|[l m] msgs IH]; intros cerr; cbn [fold_left]; [by rewrite app_nil_r|].
  rewrite IH, filter_cons. unfold log. cbn [fst].
  destruct (log_enabled level_ l); cbn; [by rewrite <- app_assoc|done].
Qed.

(** What a level shows, every more verbose level shows. *)
Lemma enabled_mono a b level : level_int a <= level_int b -> log_enabled a level = true -> log_enabled b level = true.
Proof. unfold log_enabled. lia. Qed.

(** ** Facts: the usage texts *)

(** The options a usage text describes. *)
Definition described (lines : list bytes) : list bytes := (fun line => (read_word (Some line) []).1) <$> lines.

(** Values that every option has one of. *)
Definition some_values : list bytes := [$"1"; $"1024"; $"1000"; $"h264"; $"info"].

Definition accepts {C} (step : bytes -> option bytes -> C -> result (flow C)) (c : C) (arg : bytes) : bool :=
  existsb (fun value => match step arg (Some value) c with Ok _ => true | Throw _ => false end) some_values.

Lemma described_accepted {C} (step : bytes -> option bytes -> C -> result (flow C)) c lines arg :
  forallb (accepts step c) (described lines) = true -> arg ∈ described lines -> exists next out, step arg next c = Ok out.
Proof.
  intros H Hin. rewrite forallb_forall in H. apply list_elem_of_In, H, existsb_exists in Hin as (value & _ & Hv).
  exists (Some value). destruct (step arg (Some value) c) as [out|]; [by exists out|done].
Qed.

Ltac usage_complete step defaults lines arg :=
  split;
  [ intros Hin; split; [intros ->; revert Hin; apply (bool_decide_unpack (_ ∉ _)); vm_compute; exact I|];
    destruct (described_accepted step defaults lines arg ltac:(vm_compute; reflexivity) Hin) as (next & out & H); by eexists _, _, _
  | intros (Hne & next & config & out & H); revert H; unfold step; cbv zeta;
    repeat (match goal with |- context [str_eqb arg ?s] => let E := fresh in destruct (str_eqb arg s) eqn:E; [apply str_eqb_eq in E as ->|clear E] end;
      [intros H; first [discriminate H|congruence|apply (bool_decide_unpack _); vm_compute; exact I]|]);
    done ].

(** A usage text describes every option its parser takes but [--help], and only those. *)
Lemma vms_usage_complete arg :
  arg ∈ described vms_usage_lines <-> arg <> $"--help" /\ exists next config out, vms_option arg next config = Ok out.
Proof. usage_complete vms_option vms_defaults vms_usage_lines arg. Qed.

Lemma app_usage_complete arg :
  arg ∈ described app_usage_lines <-> arg <> $"--help" /\ exists next config out, app_option arg next config = Ok out.
Proof. usage_complete app_option app_defaults app_usage_lines arg. Qed.
