(* ===== verification/Calendar.v ===== *)
(** * UTC time stamps

    What the program uses of the calendar: [gmtime_r] on a [std::time_t], the fields of
    [std::tm] and the [std::put_time] formats of src/media/channel_ingest.cpp and
    src/db/recording_index.cpp.  [gmtime_spec] states that the date of a time exists in the
    Gregorian calendar and lies as many days after 1970-01-01 as the time says; two
    times have the same fields only if they are the same second. *)

From S2P Require Import Prelude CStr.

(** ** The Gregorian calendar *)

Definition is_leap (y : Z) : bool := (y mod 4 =? 0) && (negb (y mod 100 =? 0) || (y mod 400 =? 0)).

Definition month_days (y m : Z) : Z :=
  if m =? 2 then (if is_leap y then 29 else 28)
  else if (m =? 4) || (m =? 6) || (m =? 9) || (m =? 11) then 30 else 31.

(** Days from 1970-01-01 to the start of the year [y]. *)
Definition days_before_year (y : Z) : Z :=
  365 * (y - 1970) + ((y - 1) / 4 - (y - 1) / 100 + (y - 1) / 400) - 477.

(** The year of a day: a year has 146097 / 400 days on average, which is off by one at most. *)
Definition year_of (days : Z) : Z :=
  let y := 1970 + days * 400 / 146097 in
  if days <? days_before_year y then y - 1
  else if days_before_year (y + 1) <=? days then y + 1
  else y.

(** The month and day, given the days since the start of month [m]. *)
Fixpoint month_of (n : nat) (y m d : Z) : Z * Z :=
  match n with
  | O => (m, d + 1)
  | S n' => if d <? month_days y m then (m, d + 1) else month_of n' y (m + 1) (d - month_days y m)
  end.

(** ** Broken-down time *)

(** The fields of [std::tm] as they are printed: [tm_year + 1900], [tm_mon + 1] and so on. *)
Record tm := { tm_year : Z; tm_mon : Z; tm_mday : Z; tm_hour : Z; tm_min : Z; tm_sec : Z }.

(** [gmtime_r(&t, &utc)] *)
Definition gmtime (t : Z) : tm :=
  let days := t / 86400 in
  let s := t mod 86400 in
  let y := year_of days in
  let '(m, d) := month_of 11 y 1 (days - days_before_year y) in
  {| tm_year := y; tm_mon := m; tm_mday := d; tm_hour := s / 3600; tm_min := s mod 3600 / 60; tm_sec := s mod 60 |}.

(** A conversion of [std::put_time] that prints two digits. *)
Definition two_digits (n : Z) : bytes := pad_left 2 48 (to_string n).

(** [std::put_time(&utc, "%Y%m%dT%H%M%S")] *)
Definition put_time_compact (u : tm) : bytes :=
  to_string (tm_year u) ++ two_digits (tm_mon u) ++ two_digits (tm_mday u) ++ $"T" ++
  two_digits (tm_hour u) ++ two_digits (tm_min u) ++ two_digits (tm_sec u).

(** [now_utc()] at the time [t]: [std::put_time(&tm, "%Y-%m-%dT%H:%M:%SZ")] *)
Definition now_utc (t : Z) : bytes :=
  let u := gmtime t in
  to_string (tm_year u) ++ $"-" ++ two_digits (tm_mon u) ++ $"-" ++ two_digits (tm_mday u) ++ $"T" ++
  two_digits (tm_hour u) ++ $":" ++ two_digits (tm_min u) ++ $":" ++ two_digits (tm_sec u) ++ $"Z".

(** ** Facts: the calendar *)

(** A period begins with every multiple of its length. *)
Lemma div_pred y n : 0 < n -> (y + 1 - 1) / n = (y - 1) / n + (if y mod n =? 0 then 1 else 0).
Proof.
  intros Hn. replace (y + 1 - 1) with y by lia. pose proof (Z.div_mod y n ltac:(lia)) as Hy.
  pose proof (Z.mod_pos_bound y n Hn) as Hr. destruct (Z.eqb_spec (y mod n) 0) as [E|E].
  - rewrite <- (Z.div_unique (y - 1) n (y / n - 1) (n - 1)); [lia|left; lia|lia].
  - rewrite <- (Z.div_unique (y - 1) n (y / n) (y mod n - 1)); [lia|left; lia|lia].
Qed.

(** The next year starts after the days of this one. *)
Lemma days_before_year_succ y :
  days_before_year (y + 1) = days_before_year y + (if is_leap y then 366 else 365).
Proof.
  unfold days_before_year. rewrite !div_pred by done. unfold is_leap.
  assert (y mod 400 = 0 -> y mod 100 = 0) by lia. assert (y mod 100 = 0 -> y mod 4 = 0) by lia.
  set (a := y mod 4) in *. set (b := y mod 100) in *. set (c := y mod 400) in *.
  set (q1 := (y - 1) / 4). set (q2 := (y - 1) / 100). set (q3 := (y - 1) / 400).
  clearbody a b c q1 q2 q3.
  destruct (Z.eqb_spec a 0), (Z.eqb_spec b 0), (Z.eqb_spec c 0); cbn [andb orb negb]; lia.
Qed.

Lemma year_of_spec days : days_before_year (year_of days) <= days < days_before_year (year_of days + 1).
Proof.
  unfold year_of. set (y := 1970 + days * 400 / 146097).
  assert (days_before_year (y - 1) <= days < days_before_year (y + 2)) as [H1 H2].
  { unfold days_before_year. subst y. lia. }
  destruct (Z.ltb_spec days (days_before_year y)); [replace (y - 1 + 1) with y by lia; lia|].
  destruct (Z.leb_spec (days_before_year (y + 1)) days); [replace (y + 1 + 1) with (y + 2) by lia; lia|lia].
Qed.

(** Days from the start of the year [y] to the start of its month [m]. *)
Definition days_before_month (y m : Z) : Z := foldr Z.add 0 (month_days y <$> seqZ 1 (m - 1)).

Definition days_of (y m d : Z) : Z := days_before_year y + days_before_month y m + (d - 1).

Definition date_ok (y m d : Z) : Prop := 1 <= m <= 12 /\ 1 <= d <= month_days y m.

Lemma foldr_add a l : foldr Z.add a l = foldr Z.add 0 l + a.
Proof. induction l as [|x l IH]; cbn [foldr]; lia. Qed.

Lemma days_before_month_succ y m :
  1 <= m -> days_before_month y (m + 1) = days_before_month y m + month_days y m.
Proof.
  intros Hm. unfold days_before_month. replace (m + 1 - 1) with ((m - 1) + 1) by lia.
  rewrite seqZ_app, fmap_app, foldr_app by lia. replace (1 + (m - 1)) with m by lia.
  change (seqZ m 1) with [0 + m]. rewrite Z.add_0_l. cbn [fmap list_fmap foldr].
  rewrite foldr_add. lia.
Qed.

Lemma year_length y : days_before_month y 13 = if is_leap y then 366 else 365.
Proof. unfold days_before_month, month_days. destruct (is_leap y); reflexivity. Qed.

Lemma month_of_spec n y m d :
  1 <= m -> m + Z.of_nat n = 12 -> 0 <= d < days_before_month y 13 - days_before_month y m ->
  let '(m', d') := month_of n y m d in
  date_ok y m' d' /\ days_before_month y m' + (d' - 1) = days_before_month y m + d.
Proof.
  revert m d; induction n as [|n IH]; intros m d Hm Hn Hd; cbn [month_of].
  - assert (m = 12) as -> by lia. pose proof (days_before_month_succ y 12 ltac:(lia)) as H. change (12 + 1) with 13 in H.
    unfold date_ok. split; [|lia]. lia.
  - pose proof (days_before_month_succ y m Hm) as H.
    destruct (Z.ltb_spec d (month_days y m)); [split; [split; lia|lia]|].
    specialize (IH (m + 1) (d - month_days y m) ltac:(lia) ltac:(lia) ltac:(lia)).
    destruct (month_of _ _ _ _) as [m' d']. destruct IH as [IH1 IH2]. split; [done|]. lia.
Qed.

(** The fields of a time are in range, and give the time back. *)
Lemma gmtime_spec t :
  let u := gmtime t in
  date_ok (tm_year u) (tm_mon u) (tm_mday u) /\ 0 <= tm_hour u < 24 /\ 0 <= tm_min u < 60 /\ 0 <= tm_sec u < 60 /\
  days_of (tm_year u) (tm_mon u) (tm_mday u) * 86400 + tm_hour u * 3600 + tm_min u * 60 + tm_sec u = t.
Proof.
  cbv zeta. unfold gmtime. set (days := t / 86400). pose proof (year_of_spec days) as Hy.
  rewrite days_before_year_succ, <- year_length in Hy.
  pose proof (month_of_spec 11 (year_of days) 1 (days - days_before_year (year_of days))
                ltac:(lia) ltac:(lia)) as Hm.
  change (days_before_month (year_of days) 1) with 0 in Hm. specialize (Hm ltac:(lia)).
  destruct (month_of _ _ _ _) as [m d]. destruct Hm as [Hd Hm]. cbn [tm_year tm_mon tm_mday tm_hour tm_min tm_sec].
  split; [done|]. unfold days_of. replace (days_before_year _ + _ + (d - 1)) with days by lia.
  subst days. clear. lia.
Qed.

Lemma gmtime_inj s t : gmtime s = gmtime t -> s = t.
Proof.
  intros E. destruct (gmtime_spec s) as (_ & _ & _ & _ & <-), (gmtime_spec t) as (_ & _ & _ & _ & <-).
  by rewrite E.
Qed.
