(* ===== verification/Segment.v ===== *)
(** * Segment names and the other text of the ingest worker

    The text functions of src/media/channel_ingest.cpp: quoting and redaction, the pipeline
    description, the name pattern of an attempt, the path of a recording segment, and the
    choice of a path that is not taken yet ([on_format_segment_location]). *)

From S2P Require Import Prelude CStr Parser Rtp LiveServer ChannelManager Config Calendar.

(** ** Quoting and redaction *)

Fixpoint quote_loop (value : bytes) : bytes :=
  match value with
  | [] => []
  | ch :: rest => (if (ch =? 34) || (ch =? 92) then [92] else []) ++ [ch] ++ quote_loop rest
  end.

Definition quote_for_gst_parse (value : bytes) : bytes := [34] ++ quote_loop value ++ [34].

(** The characters that end the authority of a URL in a log text. *)
Definition authority_stop : bytes := [47; 32; 9; 13; 10; 34].

Definition redacted : bytes := $"<redacted>".

(** The loop for one scheme, which searches the text it is changing. *)
Fixpoint redact_loop (fuel : nat) (scheme text : bytes) (search_from : nat) : bytes :=
  match fuel with
  | O => text
  | S f =>
    match str_find text scheme search_from with
    | None => text
    | Some scheme_pos =>
      let userinfo_start := (scheme_pos + length scheme)%nat in
      let authority_end := find_first_of text authority_stop userinfo_start in
      match str_find text [64] userinfo_start with
      | None => redact_loop f scheme text userinfo_start
      | Some separator =>
        if match authority_end with None => true | Some e => (separator <? e)%nat end then
          redact_loop f scheme (str_replace text userinfo_start (separator - userinfo_start) redacted)
            (userinfo_start + length redacted + 1)
        else redact_loop f scheme text userinfo_start
      end
    end
  end.

Definition redact_rtsp_userinfo (text : bytes) : bytes :=
  let text := redact_loop (S (length text)) $"rtsp://" text 0 in
  redact_loop (S (length text)) $"rtsps://" text 0.

(** ** The pipeline *)

Definition build_channel_ingest_pipeline_description (config : ChannelIngestConfig) (location_pattern : bytes) : bytes :=
  let encoding := to_gst_encoding_name (ic_codec config) in
  let depay := match ic_codec config with H264 => $"rtph264depay" | H265 => $"rtph265depay" end in
  let parse := match ic_codec config with
               | H264 => $"h264parse config-interval=-1" | H265 => $"h265parse config-interval=-1" end in
  let alignment_caps := match ic_codec config with
                        | H264 => $"video/x-h264,alignment=au" | H265 => $"video/x-h265,alignment=au" end in
  let segment_ns := segment_seconds config * 1000000000 in
  $"rtspsrc name=camera_source protocols=tcp latency=" ++ to_string (latency_ms config) ++
  $" teardown-timeout=2000000000 " ++
  $"camera_source. ! application/x-rtp,media=video,encoding-name=" ++ encoding ++ $" ! " ++ depay ++ $" ! " ++
  parse ++ $" ! " ++ alignment_caps ++ $" ! tee name=ingest_tee " ++
  $"ingest_tee. ! queue name=recording_queue leaky=no ! " ++
  $"splitmuxsink name=recording_sink async-finalize=true muxer-factory=mp4mux max-size-time=" ++ to_string segment_ns ++
  $" location=" ++ quote_for_gst_parse location_pattern ++ $" " ++
  $"ingest_tee. ! queue name=live_queue leaky=downstream max-size-buffers=" ++
  to_string (live_queue_max_buffers config) ++ $" max-size-bytes=0 max-size-time=0 ! " ++
  $"fakesink name=live_test_sink signal-handoffs=true sync=false async=false".

(** [std::setfill('0') << std::setw(3) << n] *)
Definition three_digits (n : Z) : bytes := pad_left 3 48 (to_string n).

(** [make_location_pattern(attempt)] at the time [time], once the directory exists *)
Definition location_pattern (config : ChannelIngestConfig) (time attempt : Z) : bytes :=
  let filename :=
    $"ch" ++ to_string (ic_channel_id config) ++ $"_" ++ put_time_compact (gmtime time) ++ $"Z" ++
    (if attempt >? 1 then $"_r" ++ three_digits (attempt - 1) else []) ++ $"_%05d.mp4" in
  path_append (output_dir config) filename.

(** ** Recording segments *)

Definition segment_name (channel_id segment_start_utc_ms collision_index : Z) : bytes :=
  let segment_start_utc := Z.quot segment_start_utc_ms 1000 in
  let milliseconds := Z.rem segment_start_utc_ms 1000 in
  let utc := gmtime segment_start_utc in
  $"ch" ++ to_string channel_id ++ $"_" ++ put_time_compact utc ++ $"." ++ three_digits milliseconds ++ $"Z" ++
  (if collision_index >? 0 then $"_" ++ three_digits collision_index else []) ++ $".mp4".

Definition build_segment_path (config : ChannelIngestConfig) (segment_start_utc_ms collision_index : Z) : bytes :=
  path_append (output_dir config) (segment_name (ic_channel_id config) segment_start_utc_ms collision_index).

(** The loop of [on_format_segment_location]: [exists_ location] is what
    [std::filesystem::exists] reports or throws; [None] is a loop still running. *)
Fixpoint collision_loop (fuel : nat) (exists_ : bytes -> result bool) (config : ChannelIngestConfig)
    (utc_ms collision_index : Z) : option (result bytes) :=
  match fuel with
  | O => None
  | S f =>
    let location := build_segment_path config utc_ms collision_index in
    match exists_ location with
    | Throw what => Some (Throw what)
    | Ok false => Some (Ok location)
    | Ok true => collision_loop f exists_ config utc_ms (u32 (collision_index + 1))
    end
  end.

(** ** Facts: numbers in names *)

Lemma pad_left_digits w n : 0 <= n -> Forall (fun c => is_digit c = true) (pad_left w 48 (to_string n)).
Proof.
  intros Hn. unfold pad_left. apply Forall_app. split; [|by apply to_string_digits].
  apply Forall_replicate. done.
Qed.

Lemma dec_value_zeros k ds : dec_value (replicate k 48 ++ ds) = dec_value ds.
Proof.
  unfold dec_value. rewrite fold_left_app. f_equal.
  induction k as [|k IH]; [done|]. cbn [replicate fold_left]. exact IH.
Qed.

Lemma to_string_unsigned n : 0 <= n -> to_string n = dec_unsigned n.
Proof. intros Hn. unfold to_string. by replace (n <? 0) with false by lia. Qed.

Lemma dec_value_pad w n : 0 <= n -> dec_value (pad_left w 48 (to_string n)) = n.
Proof. intros Hn. unfold pad_left. rewrite dec_value_zeros, to_string_unsigned by done. by apply dec_value_unsigned. Qed.

Lemma pad_left_inj w n m :
  0 <= n -> 0 <= m -> pad_left w 48 (to_string n) = pad_left w 48 (to_string m) -> n = m.
Proof. intros Hn Hm E. by rewrite <- (dec_value_pad w n), E, dec_value_pad. Qed.

(** Two digit strings that are followed by the same character are the same. *)
Lemma digits_split c a b x y :
  is_digit c = false -> Forall (fun d => is_digit d = true) a -> Forall (fun d => is_digit d = true) b ->
  a ++ c :: x = b ++ c :: y -> a = b /\ x = y.
Proof.
  intros Hc Ha Hb E.
  assert (span is_digit (a ++ c :: x) = (a, c :: x)) as H1 by (apply span_app; [done|by intros ? ? [= <- _]]).
  assert (span is_digit (b ++ c :: y) = (b, c :: y)) as H2 by (apply span_app; [done|by intros ? ? [= <- _]]).
  rewrite E, H2 in H1. by injection H1.
Qed.

Lemma to_string_inj n m : 0 <= n -> 0 <= m -> to_string n = to_string m -> n = m.
Proof. intros Hn Hm. rewrite !to_string_unsigned by done. by apply dec_unsigned_inj. Qed.

Lemma length_digits_le k n : 0 <= n < 10 ^ Z.of_nat k -> (0 < k)%nat -> (length (to_string n) <= k)%nat.
Proof.
  intros Hn Hk. rewrite to_string_unsigned by lia. unfold dec_unsigned.
  generalize (S (Z.to_nat (Z.log2 n))). intros f. revert n f Hn; induction k as [|k IH]; intros n f Hn; [lia|].
  destruct f as [|f]; [cbn; lia|]. cbn [digits_loop]. destruct (Z.ltb_spec n 10); [cbn; lia|].
  rewrite digits_loop_acc, length_app. cbn [length].
  rewrite Nat2Z.inj_succ, Z.pow_succ_r in Hn by lia. destruct k as [|k]; [cbn in Hn; lia|].
  specialize (IH ltac:(lia) (n / 10) f ltac:(lia)). lia.
Qed.

Lemma length_two_digits n : 0 <= n < 100 -> length (two_digits n) = 2%nat.
Proof.
  intros Hn. unfold two_digits, pad_left. rewrite length_app, length_replicate.
  pose proof (length_digits_le 2 n ltac:(lia) ltac:(lia)). lia.
Qed.

Lemma length_three_digits n : 0 <= n < 1000 -> length (three_digits n) = 3%nat.
Proof.
  intros Hn. unfold three_digits, pad_left. rewrite length_app, length_replicate.
  pose proof (length_digits_le 3 n ltac:(lia) ltac:(lia)). lia.
Qed.

(** Equal texts with parts of equal length. *)
Lemma two_digits_app n m x y :
  0 <= n < 100 -> 0 <= m < 100 -> two_digits n ++ x = two_digits m ++ y -> n = m /\ x = y.
Proof.
  intros Hn Hm E. apply app_inj_1 in E as [E ->]; [|by rewrite !length_two_digits].
  split; [|done]. apply pad_left_inj in E; lia.
Qed.

Lemma days_before_year_mono a b : a <= b -> days_before_year a <= days_before_year b.
Proof.
  intros H. pose proof (Z.div_le_mono (a - 1) (b - 1) 4 ltac:(lia) ltac:(lia)).
  unfold days_before_year. lia.
Qed.

Lemma year_of_nonneg t : 0 <= t -> 1970 <= tm_year (gmtime t).
Proof.
  intros Ht. unfold gmtime. destruct (month_of _ _ _ _) as [m d]. cbn [tm_year].
  destruct (year_of_spec (t / 86400)) as [_ H].
  destruct (Z.le_gt_cases 1970 (year_of (t / 86400))) as [|Hlt]; [done|].
  pose proof (days_before_year_mono (year_of (t / 86400) + 1) 1970 ltac:(lia)) as Hm.
  change (days_before_year 1970) with 0 in Hm. lia.
Qed.

Lemma month_days_range y m : 28 <= month_days y m <= 31.
Proof. unfold month_days. destruct (m =? 2), (is_leap y), (m =? 4), (m =? 6), (m =? 9), (m =? 11); cbn; lia. Qed.

(** Two different seconds are printed differently. *)
Lemma put_time_compact_inj s t x y :
  0 <= s -> 0 <= t -> put_time_compact (gmtime s) ++ x = put_time_compact (gmtime t) ++ y -> s = t /\ x = y.
Proof.
  intros Hs Ht E. pose proof (year_of_nonneg s Hs) as Ys. pose proof (year_of_nonneg t Ht) as Yt.
  destruct (gmtime_spec s) as ([Ms Ds] & Hhs & Hms & Hss & Es), (gmtime_spec t) as ([Mt Dt] & Hht & Hmt & Hst & Et).
  unfold put_time_compact in E. rewrite <- !app_assoc in E.
  rewrite (app_assoc (to_string _)), (app_assoc (_ ++ _)) in E.
  rewrite (app_assoc (to_string (tm_year (gmtime t)))), (app_assoc (to_string _ ++ two_digits (tm_mon (gmtime t)))) in E.
  pose proof (month_days_range (tm_year (gmtime s)) (tm_mon (gmtime s))).
  pose proof (month_days_range (tm_year (gmtime t)) (tm_mon (gmtime t))).
  apply (digits_split 84) in E as [Ed E]; [|done|..].
  2,3: rewrite !Forall_app; split_and!; [apply to_string_digits|apply (pad_left_digits 2)..]; lia.
  apply two_digits_app in E as [E1 E]; [|lia..]. apply two_digits_app in E as [E2 E]; [|lia..].
  apply two_digits_app in E as [E3 ->]; [|lia..]. split; [|done].
  apply app_inj_2 in Ed as [Ed E4]; [|rewrite !length_two_digits; lia].
  apply app_inj_2 in Ed as [E6 E5]; [|rewrite !length_two_digits; lia].
  apply to_string_inj in E6; [|lia..]. apply pad_left_inj in E4, E5; [|lia..].
  rewrite <- Es, <- Et. congruence.
Qed.

(** ** Segment paths are unique *)

Definition is_slash (c : Z) : bool := c =? 47.
Definition no_slash (s : bytes) : Prop := Forall (fun c => negb (is_slash c) = true) s.

(** The last component of a path. *)
Definition file_name (p : bytes) : bytes := reverse (fst (span (fun c => negb (is_slash c)) (reverse p))).

Lemma file_name_append dir name : no_slash name -> name <> [] -> file_name (path_append dir name) = name.
Proof.
  intros Hn Hne.
  assert (forall p, (p = [] \/ exists q, p = q ++ [47]) -> file_name (p ++ name) = name) as H.
  { intros p Hp. unfold file_name. rewrite reverse_app, span_app.
    - cbn. apply reverse_involutive.
    - by apply Forall_reverse.
    - intros c b Hc. destruct Hp as [->|[q ->]]; [done|]. rewrite reverse_snoc in Hc. by injection Hc as <- _. }
  unfold path_append. destruct name as [|c0 name]; [done|].
  apply Forall_cons in Hn as Hn'. destruct Hn' as [Hc0 _].
  replace (is_prefix _ (c0 :: name)) with false.
  2: { symmetry. change $"/" with [47]. cbn [is_prefix]. unfold is_slash in Hc0.
       replace (47 =? c0) with false by (symmetry; apply negb_true_iff in Hc0; lia). done. }
  destruct (last dir) as [c|] eqn:El.
  - apply last_Some in El as [d ->]. destruct (Z.eqb_spec c 47) as [->|].
    + apply H. right. by exists d.
    + rewrite app_assoc. apply H. right. by exists (d ++ [c]).
  - apply (H []). by left.
Qed.

Lemma digits_no_slash ds : Forall (fun c => is_digit c = true) ds -> no_slash ds.
Proof.
  intros H. eapply Forall_impl; [exact H|]. intros c Hc. unfold is_slash, is_digit in *. cbn in Hc. lia.
Qed.

Lemma compact_no_slash t : 0 <= t -> no_slash (put_time_compact (gmtime t)).
Proof.
  intros Ht. pose proof (year_of_nonneg t Ht). destruct (gmtime_spec t) as ([? ?] & ? & ? & ? & _).
  unfold put_time_compact, no_slash. rewrite !Forall_app. unfold two_digits.
  split_and!; try (by repeat constructor);
    apply digits_no_slash; (apply to_string_digits || apply pad_left_digits); lia.
Qed.

Lemma segment_name_no_slash ch ms i : 0 <= ch -> 0 <= ms -> 0 <= i -> no_slash (segment_name ch ms i).
Proof.
  intros Hc Hm Hi. unfold segment_name, no_slash, three_digits. rewrite !Forall_app.
  split_and!; try (by repeat constructor).
  - by apply digits_no_slash, to_string_digits.
  - apply compact_no_slash. by apply Z.quot_pos.
  - apply digits_no_slash, pad_left_digits. by apply Z.rem_nonneg.
  - destruct (i >? 0); [|done]. apply Forall_app. split; [by repeat constructor|].
    by apply digits_no_slash, pad_left_digits.
Qed.

Lemma collision_suffix_inj i j :
  0 <= i -> 0 <= j ->
  (if i >? 0 then $"_" ++ three_digits i else []) ++ $".mp4" =
  (if j >? 0 then $"_" ++ three_digits j else []) ++ $".mp4" -> i = j.
Proof.
  intros Hi Hj. rewrite !Z.gtb_ltb. destruct (Z.ltb_spec 0 i), (Z.ltb_spec 0 j); try done; [|lia].
  rewrite <- !app_assoc. intros E%app_inv_head.
  apply (digits_split 46) in E as [E _]; [|done|by apply pad_left_digits..]. by apply (pad_left_inj 3).
Qed.

Lemma segment_name_inj ch ch' ms ms' i i' :
  0 <= ch -> 0 <= ch' -> 0 <= ms -> 0 <= ms' -> 0 <= i -> 0 <= i' ->
  segment_name ch ms i = segment_name ch' ms' i' -> ch = ch' /\ ms = ms' /\ i = i'.
Proof.
  intros Hc Hc' Hm Hm' Hi Hi' E. unfold segment_name in E.
  assert (forall m, 0 <= m -> 0 <= Z.quot m 1000 /\ 0 <= Z.rem m 1000 /\ m = 1000 * Z.quot m 1000 + Z.rem m 1000) as Hq.
  { intros m H. split; [by apply Z.quot_pos|]. split; [by apply Z.rem_nonneg|]. by apply Z.quot_rem'. }
  destruct (Hq ms Hm) as (Q1 & R1 & E1), (Hq ms' Hm') as (Q2 & R2 & E2).
  apply app_inv_head in E. apply (digits_split 95) in E as [Ech E]; [|done|by apply to_string_digits..].
  apply to_string_inj in Ech; [|done..]. apply put_time_compact_inj in E as [Et E]; [|done..].
  apply app_inv_head in E. apply (digits_split 90) in E as [Er E]; [|done|by apply pad_left_digits..].
  apply pad_left_inj in Er; [|done..]. apply collision_suffix_inj in E; [|done..].
  split_and!; [done|congruence|done].
Qed.

Lemma segment_path_name c ms i :
  0 <= ic_channel_id c -> 0 <= ms -> 0 <= i ->
  file_name (build_segment_path c ms i) = segment_name (ic_channel_id c) ms i.
Proof. intros. apply file_name_append; [by apply segment_name_no_slash|done]. Qed.

(** C22: No two segments share a file: two paths are equal only for the same channel, the
    same millisecond and the same collision index, whatever the directories. *)
Theorem segment_paths_unique c c' ms ms' i i' :
  0 <= ic_channel_id c -> 0 <= ic_channel_id c' -> 0 <= ms -> 0 <= ms' -> 0 <= i -> 0 <= i' ->
  build_segment_path c ms i = build_segment_path c' ms' i' ->
  ic_channel_id c = ic_channel_id c' /\ ms = ms' /\ i = i'.
Proof.
  intros Hc Hc' Hm Hm' Hi Hi' E. apply (f_equal file_name) in E.
  rewrite !segment_path_name in E by done. by apply segment_name_inj in E.
Qed.

Definition worker_config : ChannelIngestConfig :=
  {| rtsp_location := $"rtsp://10.0.0.5:554/0/profile2/media.smp"; camera_user := $"admin";
     camera_password := $"secret"; output_dir := $"/rec/ch1"; ic_camera_channel := 0; ic_channel_id := 1;
     ic_codec := H264; latency_ms := 200; segment_seconds := 60; reconnect_delay_ms := 250;
     startup_timeout_ms := 5000; live_queue_max_buffers := 1 |}.

(** 2026-01-02 03:04:05.678 UTC *)
Definition sample_ms : Z := 1767323045678.

Example sample_segment :
  build_segment_path worker_config sample_ms 2 = $"/rec/ch1/ch1_20260102T030405.678Z_002.mp4".
Proof. reflexivity. Qed.

Lemma segment_paths_unique_witness :
  build_segment_path worker_config sample_ms 0 <> build_segment_path worker_config sample_ms 1.
Proof.
  intros E. destruct (segment_paths_unique worker_config worker_config sample_ms sample_ms 0 1) as (_ & _ & H);
    [by vm_compute..|exact E|discriminate H].
Defined.

(** ** The path of a new segment is free *)

Section Collision.
Context (files : list bytes) (c : ChannelIngestConfig) (ms : Z).
Context (Hc : 0 <= ic_channel_id c) (Hm : 0 <= ms).

(** The files that exist while the location is chosen. *)
Definition in_files (location : bytes) : result bool := Ok (bool_decide (location ∈ files)).

Lemma paths_taken n :
  0 <= n -> (forall j, 0 <= j < n -> build_segment_path c ms j ∈ files) -> n <= zlen files.
Proof.
  intros Hn H.
  assert (NoDup (build_segment_path c ms <$> seqZ 0 n)) as Hnd.
  { apply NoDup_fmap_2_strong; [|apply NoDup_seqZ]. intros i j Hi%elem_of_seqZ Hj%elem_of_seqZ E.
    apply (f_equal file_name) in E. rewrite !segment_path_name in E by (done || lia).
    apply segment_name_inj in E as (_ & _ & ->); [done|done|done|done|done|lia|lia]. }
  assert (build_segment_path c ms <$> seqZ 0 n ⊆+ files) as Hs.
  { apply NoDup_submseteq; [done|]. intros x (j & -> & Hj%elem_of_seqZ)%list_elem_of_fmap. apply H. lia. }
  apply submseteq_length in Hs. rewrite length_fmap, length_seqZ in Hs. unfold zlen. lia.
Qed.

Lemma collision_loop_free f i :
  zlen files < 4294967295 -> 0 <= i -> Z.of_nat f + i = zlen files + 1 ->
  (forall j, 0 <= j < i -> build_segment_path c ms j ∈ files) ->
  exists k, i <= k <= zlen files /\ collision_loop f in_files c ms i = Some (Ok (build_segment_path c ms k)) /\
    (build_segment_path c ms k ∉ files) /\ forall j, 0 <= j < k -> build_segment_path c ms j ∈ files.
Proof.
  intros Hl. revert i; induction f as [|f IH]; intros i Hi Hf Ht.
  - pose proof (paths_taken i Hi Ht). lia.
  - cbn [collision_loop]. unfold in_files at 1. case_bool_decide as E.
    + destruct (IH (i + 1)) as (k & Hk & Hloop & Hk2); [lia..| |].
      { intros j Hj. destruct (decide (j = i)) as [->|]; [done|]. apply Ht. lia. }
      exists k. unfold u32. rewrite Z.mod_small by lia. by split; [lia|].
    + exists i. split; [lia|done].
Qed.

End Collision.

(** The choice of a segment's path ends, and gives a path no existing file has: with
    [n] files there are at most [n + 1] rounds, and the collision index is the smallest
    free one. *)
Lemma segment_location_free files c ms :
  0 <= ic_channel_id c -> 0 <= ms -> zlen files < 4294967295 ->
  exists k, 0 <= k <= zlen files /\
    collision_loop (S (length files)) (in_files files) c ms 0 = Some (Ok (build_segment_path c ms k)) /\
    (build_segment_path c ms k ∉ files) /\ forall j, 0 <= j < k -> build_segment_path c ms j ∈ files.
Proof.
  intros Hc Hm Hl. apply collision_loop_free; [done..|lia|unfold zlen; lia|lia].
Qed.

Lemma segment_location_free_witness :
  exists k, collision_loop 3 (in_files [build_segment_path worker_config sample_ms 0; $"/rec/other"])
              worker_config sample_ms 0 = Some (Ok (build_segment_path worker_config sample_ms k)) /\ 1 <= k.
Proof.
  destruct (segment_location_free [build_segment_path worker_config sample_ms 0; $"/rec/other"] worker_config sample_ms)
    as (k & Hk & Hloop & Hfree & _); [by vm_compute..|].
  exists k. split; [exact Hloop|]. destruct (Z.le_gt_cases 1 k) as [H|H]; [exact H|].
  destruct Hfree. assert (k = 0) as -> by lia. apply list_elem_of_here.
Defined.

(** ** Quoting *)

(** How a quoted value is read: up to the next quote that no backslash precedes. *)
Fixpoint gst_unquote (s : bytes) : option (bytes * bytes) :=
  match s with
  | [] => None
  | c :: s1 =>
    if c =? 34 then Some ([], s1)
    else if c =? 92 then match s1 with
                         | [] => None
                         | d :: s2 => '(v, rest) ← gst_unquote s2; Some (d :: v, rest)
                         end
    else '(v, rest) ← gst_unquote s1; Some (c :: v, rest)
  end.

Lemma quote_round_trip value rest : gst_unquote (quote_loop value ++ 34 :: rest) = Some (value, rest).
Proof.
  induction value as [|c v IH]; [done|]. cbn [quote_loop].
  destruct (Z.eqb_spec c 34) as [->|]; [cbn; by rewrite IH|].
  destruct (Z.eqb_spec c 92) as [->|]; [cbn; by rewrite IH|].
  cbn [orb app gst_unquote]. replace (c =? 34) with false by lia. replace (c =? 92) with false by lia.
  by rewrite IH.
Qed.

(** The description does not depend on the location and the credentials of the camera. *)
Lemma description_no_credentials c c' pattern :
  ic_codec c = ic_codec c' -> latency_ms c = latency_ms c' -> segment_seconds c = segment_seconds c' ->
  live_queue_max_buffers c = live_queue_max_buffers c' ->
  build_channel_ingest_pipeline_description c pattern = build_channel_ingest_pipeline_description c' pattern.
Proof. intros H1 H2 H3 H4. unfold build_channel_ingest_pipeline_description. by rewrite H1, H2, H3, H4. Qed.
