(* ===== verification/Redaction.v ===== *)
(** * Credentials in log texts

    Two functions take the user names and passwords of URLs out of texts that are logged:
    [redact_uri_userinfo] of src/rtsp/rtsp_message_parser.cpp (through
    [sanitized_rtsp_for_log], for requests and responses) and [redact_rtsp_userinfo] of
    src/media/channel_ingest.cpp (for errors of the pipeline).  Both search the text they
    are changing; here both are shown to be two passes of one function [hide] by recursion
    on the text, and texts that differ in credentials only ([alike]) to give the same log
    text. *)

From S2P Require Import Prelude CStr Parser Control Segment.

(** ** One pass *)

Section Hide.
Context (g : Z -> Z) (stop scheme : bytes).

(** The loop of both functions: [g] is the case conversion before the search, [stop] ends
    an authority. *)
Fixpoint search_loop (fuel : nat) (text : bytes) (from : nat) : bytes :=
  match fuel with
  | O => text
  | S f =>
    match str_find (g <$> text) scheme from with
    | None => text
    | Some p =>
      let start := (p + length scheme)%nat in
      match str_find text [64] start with
      | None => search_loop f text start
      | Some at_ =>
        if match find_first_of text stop start with None => true | Some e => (at_ <? e)%nat end
        then search_loop f (str_replace text start (at_ - start) redacted) (start + length redacted + 1)
        else search_loop f text start
      end
    end
  end.

(** The authority a text begins with, and the place of its at-sign. *)
Definition authority (rest : bytes) : bytes := (span (fun c => negb (mem c stop)) rest).1.
Definition userinfo_end (rest : bytes) : option nat := find0 [64] (authority rest).

Fixpoint hide_fuel (fuel : nat) (text : bytes) : bytes :=
  match fuel with
  | O => text
  | S f =>
    match find0 scheme (g <$> text) with
    | None => text
    | Some p =>
      let start := (p + length scheme)%nat in
      match userinfo_end (drop start text) with
      | Some i => take start text ++ redacted ++ [64] ++ hide_fuel f (drop (start + i + 1) text)
      | None => take start text ++ hide_fuel f (drop start text)
      end
    end
  end.

Definition hide (text : bytes) : bytes := hide_fuel (S (length text)) text.

Hypothesis stop_at : mem 64 stop = false.

Lemma userinfo_end_code rest :
  userinfo_end rest =
  match find0 [64] rest with
  | Some i => if match find_if (fun c => mem c stop) rest with None => true | Some e => (i <? e)%nat end then Some i else None
  | None => None
  end.
Proof.
  unfold userinfo_end, authority. destruct (span _ rest) as [a b] eqn:E. cbn [fst].
  apply span_spec in E as (-> & Ha & Hb).
  assert (Forall (fun c => mem c stop = false) a) as Ha' by (eapply Forall_impl; [exact Ha|]; intros c; apply negb_true_iff).
  destruct (find0 [64] a) as [i|] eqn:Ei.
  - rewrite (find0_app _ _ b _ Ei). pose proof (find0_bound _ _ _ Ei) as Hl. cbn in Hl.
    destruct b as [|c b]; [by rewrite app_nil_r, (proj2 (find_if_None _ _))|].
    rewrite find_if_app; [|done|by apply negb_false_iff, (Hb c b)]. by rewrite (proj2 (Nat.ltb_lt _ _)) by lia.
  - destruct (find0 [64] (a ++ b)) as [i|] eqn:Ei'; [|done]. destruct b as [|c b]; [by rewrite app_nil_r, Ei in Ei'|].
    rewrite find_if_app; [|done|by apply negb_false_iff, (Hb c b)].
    destruct (Nat.ltb_spec i (length a)); [|done]. by rewrite (find0_app_inv [64] a (c :: b) i) in Ei by (cbn; done || lia).
Qed.

Lemma str_find_at a t p k : (k <= length t)%nat -> str_find (a ++ t) p (length a + k) = (fun i => (length a + k + i)%nat) <$> find0 p (drop k t).
Proof.
  intros Hk. unfold str_find. rewrite length_app. rewrite (proj2 (Nat.ltb_ge _ _)) by lia.
  by rewrite drop_app_ge, Nat.add_sub_swap, Nat.sub_diag by lia.
Qed.

Hypothesis scheme_nonempty : (0 < length scheme)%nat.

Lemma search_loop_hide f a t : search_loop f (a ++ t) (length a) = a ++ hide_fuel f t.
Proof.
  revert a t. induction f as [|f IH]; intros a t; [done|]. cbn [search_loop hide_fuel].
  assert (str_find (g <$> a ++ t) scheme (length a) = (fun i => (length a + i)%nat) <$> find0 scheme (g <$> t)) as ->.
  { rewrite fmap_app. pose proof (str_find_at (g <$> a) (g <$> t) scheme 0 ltac:(lia)) as E.
    by rewrite drop_0, Nat.add_0_r, !length_fmap in E. }
  destruct (find0 scheme (g <$> t)) as [p|] eqn:Ep; [|done]. cbn [fmap option_fmap option_map].
  apply find0_bound in Ep. rewrite length_fmap in Ep. set (s := (p + length scheme)%nat).
  replace (length a + p + length scheme)%nat with (length a + s)%nat by (unfold s; lia).
  assert (search_loop f (a ++ t) (length a + s) = a ++ take s t ++ hide_fuel f (drop s t)) as Hplain.
  { rewrite <- (take_drop s t) at 1. rewrite app_assoc.
    replace (length a + s)%nat with (length (a ++ take s t)) by (rewrite length_app, length_take; lia).
    by rewrite IH, <- app_assoc. }
  rewrite userinfo_end_code, str_find_at by lia. destruct (find0 [64] (drop s t)) as [i|] eqn:Ei; [|done]. cbn [fmap option_fmap option_map].
  assert (find_first_of (a ++ t) stop (length a + s) = (fun j => (length a + s + j)%nat) <$> find_if (fun c => mem c stop) (drop s t)) as ->.
  { unfold find_first_of. by rewrite drop_app_ge, Nat.add_sub_swap, Nat.sub_diag by lia. }
  replace (match _ <$> find_if _ _ with Some e => _ | None => true end)
    with (match find_if (fun c => mem c stop) (drop s t) with None => true | Some e => (i <? e)%nat end).
  2: { destruct (find_if _ _) as [e|]; [|done]. cbn [fmap option_fmap option_map]. destruct (Nat.ltb_spec i e), (Nat.ltb_spec (length a + s + i) (length a + s + e)); try done; lia. }
  destruct (match find_if _ _ with Some e => _ | None => true end); [|done].
  apply find0_split in Ei as [Ei Hi]. rewrite drop_drop in Ei. cbn [length] in Ei.
  trans ((a ++ take s t ++ redacted ++ [64]) ++ hide_fuel f (drop (s + i + 1) t)); [|by rewrite <- !app_assoc]. rewrite <- IH.
  rewrite length_take, length_drop in Hi. unfold str_replace. f_equal.
  - rewrite take_app_ge by lia. rewrite drop_app_ge by lia.
    replace (length a + s - length a)%nat with s by lia. replace (length a + s + (length a + s + i - (length a + s)) - length a)%nat with (s + i)%nat by lia.
    rewrite <- !app_assoc. do 3 f_equal. rewrite <- drop_drop, Ei, drop_app_length' by (rewrite length_take, length_drop; lia).
    f_equal. f_equal. lia.
  - rewrite !length_app, length_take. cbn [length]. lia.
Qed.

Lemma hide_fuel_enough f f' t : (length t < f)%nat -> (length t < f')%nat -> hide_fuel f t = hide_fuel f' t.
Proof.
  revert f' t. induction f as [|f IH]; intros [|f'] t Hf Hf'; try lia. cbn [hide_fuel].
  destruct (find0 scheme (g <$> t)) as [p|] eqn:Ep; [|done]. apply find0_bound in Ep. rewrite length_fmap in Ep.
  destruct (userinfo_end _) as [i|]; rewrite (IH f'); try done; rewrite length_drop; lia.
Qed.

Lemma hide_eq t :
  hide t =
  match find0 scheme (g <$> t) with
  | None => t
  | Some p =>
    let start := (p + length scheme)%nat in
    match userinfo_end (drop start t) with
    | Some i => take start t ++ redacted ++ [64] ++ hide (drop (start + i + 1) t)
    | None => take start t ++ hide (drop start t)
    end
  end.
Proof.
  unfold hide at 1. cbn [hide_fuel]. destruct (find0 scheme (g <$> t)) as [p|] eqn:Ep; [|done].
  apply find0_bound in Ep. rewrite length_fmap in Ep. cbv zeta.
  destruct (userinfo_end _) as [i|]; unfold hide; [do 3 f_equal|f_equal]; apply hide_fuel_enough; rewrite length_drop; lia.
Qed.

(** ** What is hidden depends on nothing before it *)

Lemma hide_skip a b :
  (forall i, (i < length a)%nat -> is_prefix scheme (drop i (g <$> a) ++ (g <$> b)) = false) -> hide (a ++ b) = a ++ hide b.
Proof.
  intros Hno. rewrite hide_eq, (hide_eq b), fmap_app.
  assert (find0 scheme ((g <$> a) ++ (g <$> b)) = (fun i => (length a + i)%nat) <$> find0 scheme (g <$> b)) as ->.
  { clear -Hno. induction a as [|c a IH]; cbn [fmap list_fmap app find0]; [by destruct (find0 scheme _)|].
    pose proof (Hno 0%nat ltac:(cbn; lia)) as H0. cbn [drop fmap list_fmap app] in H0. rewrite H0, IH; [by rewrite <- option_fmap_compose|].
    intros i Hi. apply (Hno (S i)). cbn. lia. }
  destruct (find0 scheme (g <$> b)) as [p|] eqn:Ep; [|done]. cbn [fmap option_fmap option_map]. cbv zeta.
  set (s := (p + length scheme)%nat). replace (length a + p + length scheme)%nat with (length a + s)%nat by (unfold s; lia).
  rewrite take_app_ge, drop_app_ge by lia. replace (length a + s - length a)%nat with s by lia.
  destruct (userinfo_end _) as [i|]; [|by rewrite <- app_assoc].
  rewrite drop_app_ge by lia. replace (length a + s + i + 1 - length a)%nat with (s + i + 1)%nat by lia. by rewrite <- app_assoc.
Qed.

(** A text no authority goes into, and no scheme but at its start. *)
Definition barrier (x : bytes) : Prop :=
  (exists a c b, x = a ++ c :: b /\ mem c stop = true /\ Forall (fun d => d <> 64) a) /\ g <$> head x = Some 114.

Lemma userinfo_end_barrier r x : barrier x -> userinfo_end (r ++ x) = userinfo_end r.
Proof.
  intros [(a & c & b & -> & Hc & Ha) _]. unfold userinfo_end, authority.
  destruct (span _ r) as [r1 r2] eqn:E. apply span_spec in E as (-> & H1 & H2). cbn [fst]. destruct r2 as [|d r2].
  - rewrite app_nil_r. destruct (span (fun c => negb (mem c stop)) (a ++ c :: b)) as [a1 a2] eqn:E. apply span_spec in E as (E & Ha1 & Ha2).
    assert (span (fun c => negb (mem c stop)) (r1 ++ a ++ c :: b) = (r1 ++ a1, a2)) as ->.
    { rewrite E, app_assoc. apply span_app; [by apply Forall_app|done]. }
    cbn [fst]. assert (Forall (fun d => d <> 64) a1) as Hno.
    { destruct (decide (length a1 <= length a)%nat) as [Hl|Hl].
      - apply (f_equal (take (length a1))) in E. rewrite take_app_le, take_app_length in E by done. rewrite <- E. by apply Forall_take.
      - exfalso. assert (a1 !! length a = Some c) as Hlk.
        { rewrite <- (lookup_app_l a1 a2), <- E, list_lookup_middle by lia. done. }
        rewrite Forall_lookup in Ha1. apply Ha1 in Hlk. by rewrite Hc in Hlk. }
    destruct (find0 [64] r1) as [i|] eqn:Ei; [by apply find0_app|].
    apply find0_char_none. apply Forall_app. split; [|done]. apply Forall_lookup. intros j d Hd ->.
    apply (find0_None _ _ j) in Ei. rewrite (drop_S _ _ _ Hd) in Ei. done.
  - rewrite <- app_assoc, (span_app _ r1); [done|done|]. intros e r' [= <- _]. by apply (H2 d r2).
Qed.

Hypothesis scheme_first : forall j, (0 < j)%nat -> scheme !! j <> Some 114.

Lemma hide_after pre x : find0 scheme (g <$> pre) = None -> barrier x -> hide (pre ++ x) = pre ++ hide x.
Proof.
  intros Hno [_ Hh]. apply hide_skip. intros i Hi. destruct (is_prefix _ _) eqn:E; [exfalso|done].
  destruct (decide (length scheme <= length (drop i (g <$> pre)))%nat) as [Hl|Hl].
  - rewrite is_prefix_app_long in E by done. by rewrite (find0_None _ _ i Hno) in E.
  - rewrite length_drop, length_fmap in Hl. apply is_prefix_true in E as [t E]. apply (f_equal (lookup (length pre - i)%nat)) in E.
    rewrite lookup_app_r in E by (rewrite length_drop, length_fmap; lia). rewrite length_drop, length_fmap, Nat.sub_diag in E.
    rewrite lookup_app_l in E by lia. destruct x as [|d x]; [done|]. cbn in E, Hh. rewrite Hh in E.
    symmetry in E. by apply scheme_first in E; [|lia].
Qed.

Lemma hide_barrier pre : exists q, forall x, barrier x -> hide (pre ++ x) = q ++ hide x.
Proof.
  remember (length pre) as n eqn:Hn. revert pre Hn. induction (lt_wf n) as [n _ IH]; intros pre ->.
  destruct (find0 scheme (g <$> pre)) as [p|] eqn:Ep; [|exists pre; intros x Hx; by apply hide_after].
  pose proof (find0_bound _ _ _ Ep) as Hb. rewrite length_fmap in Hb. set (s := (p + length scheme)%nat).
  assert (forall x, barrier x -> hide (pre ++ x) = match userinfo_end (drop s pre) with
    | Some i => take s pre ++ redacted ++ [64] ++ hide (drop (s + i + 1) pre ++ x)
    | None => take s pre ++ hide (drop s pre ++ x) end) as Hx.
  { intros x Hx. rewrite hide_eq, fmap_app, (find0_app _ _ _ _ Ep). cbv zeta. fold s.
    rewrite drop_app_le, userinfo_end_barrier, take_app_le by done || lia. destruct (userinfo_end (drop s pre)) as [i|] eqn:Ei; [|done].
    rewrite (drop_app_le pre); [done|]. unfold userinfo_end, authority in Ei. apply find0_bound in Ei. cbn in Ei.
    destruct (span _ (drop s pre)) as [a b] eqn:E. apply span_spec in E as [E _]. apply (f_equal length) in E.
    rewrite length_app, length_drop in E. cbn in Ei. lia. }
  destruct (userinfo_end (drop s pre)) as [i|].
  - destruct (IH (length (drop (s + i + 1) pre)) ltac:(rewrite length_drop; lia) _ eq_refl) as [q Hq].
    exists (take s pre ++ redacted ++ [64] ++ q). intros x Hb'. by rewrite Hx, Hq, <- !app_assoc.
  - destruct (IH (length (drop s pre)) ltac:(rewrite length_drop; lia) _ eq_refl) as [q Hq].
    exists (take s pre ++ q). intros x Hb'. by rewrite Hx, Hq, <- app_assoc.
Qed.

(** *** A URL with credentials *)

Definition userinfo_ok (u : bytes) : Prop := Forall (fun c => c <> 64 /\ mem c stop = false) u.

Lemma hide_userinfo scheme0 u post :
  g <$> scheme0 = scheme -> userinfo_ok u -> hide (scheme0 ++ u ++ [64] ++ post) = scheme0 ++ redacted ++ [64] ++ hide post.
Proof.
  intros Es Hu. rewrite hide_eq. assert (length scheme0 = length scheme) as Hl by (by rewrite <- Es, length_fmap).
  assert (find0 scheme (g <$> scheme0 ++ u ++ [64] ++ post) = Some 0%nat) as ->.
  { apply find0_intro; [|lia|lia]. rewrite drop_0, fmap_app, Es. apply is_prefix_app. }
  cbv zeta. rewrite Nat.add_0_l, <- Hl, drop_app_length, take_app_length.
  assert (userinfo_end (u ++ [64] ++ post) = Some (length u)) as ->.
  { unfold userinfo_end, authority. destruct (span (fun c => negb (mem c stop)) post) as [a b] eqn:E. apply span_spec in E as (-> & Ha & Hb).
    replace (u ++ [64] ++ a ++ b) with ((u ++ [64] ++ a) ++ b) by by rewrite <- !app_assoc. rewrite span_app; [|..|done].
    - cbn [fst]. apply find0_char. eapply Forall_impl; [exact Hu|]. by intros c [? _].
    - rewrite !Forall_app. split_and!; [|repeat constructor; by rewrite stop_at|done]. eapply Forall_impl; [exact Hu|]. by intros c [_ ->]. }
  do 3 f_equal. rewrite drop_app_ge by lia. replace (length scheme0 + length u + 1 - length scheme0)%nat with (length (u ++ [64])) by (rewrite length_app; cbn; lia).
  replace (u ++ [64] ++ post) with ((u ++ [64]) ++ post) by by rewrite <- app_assoc. by rewrite drop_app_length.
Qed.

Hypothesis g_slash : forall c, g c = 47 -> c = 47.
Hypothesis g_at : g 64 = 64.
Hypothesis scheme_chars : 47 ∈ scheme /\ Forall (fun c => c <> 64) scheme.
Hypothesis stop_slash : mem 47 stop = true.

(** No scheme begins in a user info. *)
Lemma no_scheme_in_userinfo u y : Forall (fun c => c <> 47) u -> is_prefix scheme ((g <$> u ++ [64]) ++ y) = false.
Proof.
  intros Hu. destruct (is_prefix _ _) eqn:E; [exfalso|done]. apply is_prefix_true in E as [t E].
  destruct scheme_chars as [[k Hk]%list_elem_of_lookup Hat]. pose proof (lookup_lt_Some _ _ _ Hk) as Hlt.
  destruct (decide (k < length u)%nat) as [Hl|Hl].
  - apply (f_equal (lookup k)) in E. rewrite fmap_app, <- app_assoc, lookup_app_l, list_lookup_fmap in E by (rewrite length_fmap; lia).
    rewrite lookup_app_l, Hk in E by lia. destruct (u !! k) as [c|] eqn:Ec; [|done]. injection E as E%g_slash.
    rewrite Forall_lookup in Hu. by apply (Hu k c).
  - apply (f_equal (lookup (length u))) in E. rewrite fmap_app, <- app_assoc, lookup_app_r, length_fmap, Nat.sub_diag in E by (rewrite length_fmap; lia).
    rewrite (lookup_app_l scheme) in E by lia. cbn in E. rewrite g_at in E. symmetry in E. rewrite Forall_lookup in Hat. by apply Hat in E.
Qed.

(** A URL of another scheme is left as it is. *)
Lemma hide_other scheme0 u post :
  (forall i y, (i < length scheme0)%nat -> is_prefix scheme (drop i (g <$> scheme0) ++ y) = false) -> Forall (fun c => c <> 47) u ->
  hide (scheme0 ++ u ++ [64] ++ post) = scheme0 ++ u ++ [64] ++ hide post.
Proof.
  intros Hno Hu. replace (scheme0 ++ u ++ [64] ++ post) with ((scheme0 ++ u ++ [64]) ++ post) by by rewrite <- !app_assoc.
  rewrite hide_skip; [by rewrite <- !app_assoc|]. intros i Hi. rewrite fmap_app.
  destruct (decide (i < length scheme0)%nat) as [Hl|Hl].
  - rewrite drop_app_le by (rewrite length_fmap; lia). rewrite <- app_assoc. by apply Hno.
  - rewrite drop_app_ge by (rewrite length_fmap; lia). rewrite length_fmap. rewrite !length_app in Hi. cbn in Hi.
    set (j := (i - length scheme0)%nat). rewrite fmap_app, drop_app_le by (rewrite length_fmap; lia). rewrite <- fmap_drop, <- fmap_app.
    apply no_scheme_in_userinfo. by apply Forall_drop.
Qed.
End Hide.

(** ** Both passes *)

Definition rtsp_scheme : bytes := $"rtsp://".
Definition rtsps_scheme : bytes := $"rtsps://".

(** The characters an authority ends at in a message. *)
Definition line_stop : bytes := [47; 32; 9; 13; 10].

(** What both functions have in common. *)
Class Redactor (g : Z -> Z) (stop : bytes) := {
  rd_stop_at : mem 64 stop = false;
  rd_stop_slash : mem 47 stop = true;
  rd_slash : forall c, g c = 47 -> c = 47;
  rd_at : g 64 = 64
}.

#[export] Instance pipeline_redactor : Redactor id authority_stop.
Proof. by constructor. Qed.

#[export] Instance message_redactor : Redactor to_lower line_stop.
Proof. constructor; try done. intros c. unfold to_lower. destruct (_ && _) eqn:E; [bprop; lia|done]. Qed.

Section Passes.
Context {g : Z -> Z} {stop : bytes} `{!Redactor g stop}.

Definition hide_both (text : bytes) : bytes := hide g stop rtsps_scheme (hide g stop rtsp_scheme text).

Lemma scheme_facts scheme :
  scheme ∈ [rtsp_scheme; rtsps_scheme] ->
  (0 < length scheme)%nat /\ (forall j, (0 < j)%nat -> scheme !! j <> Some 114) /\ 47 ∈ scheme /\ Forall (fun c => c <> 64) scheme.
Proof.
  intros Hin. assert (forall j, (0 < j)%nat -> scheme !! j <> Some 114) as Hj.
  { rewrite !elem_of_cons, elem_of_nil in Hin. intros [|j] Hj; [lia|]. destruct Hin as [->|[->|[]]]; cbn; (do 8 (destruct j; [done|])); by destruct j. }
  rewrite !elem_of_cons, elem_of_nil in Hin. destruct Hin as [->|[->|[]]]; (split_and!; [cbn; lia|done|..]; apply (bool_decide_unpack _); vm_compute; exact I).
Qed.

Lemma scheme_barrier scheme scheme0 y : scheme ∈ [rtsp_scheme; rtsps_scheme] -> g <$> scheme0 = scheme -> barrier g stop (scheme0 ++ y).
Proof.
  intros Hin E. assert (exists a b, scheme = (114 :: a) ++ 47 :: b /\ Forall (fun c => c <> 64) (114 :: a)) as (a & b & -> & Ha).
  { rewrite !elem_of_cons, elem_of_nil in Hin. destruct Hin as [->|[->|[]]]; [exists $"tsp:", [47]|exists $"tsps:", [47]];
      (split; [reflexivity|apply (bool_decide_unpack _); vm_compute; exact I]). }
  apply fmap_app_inv in E as (a0 & b0 & Ea & Eb & ->). symmetry in Ea, Eb. apply fmap_cons_inv in Eb as (c & b1 & Ec & _ & ->).
  symmetry in Ec. apply (rd_slash (g := g) (stop := stop)) in Ec as ->. split.
  - exists a0, 47, (b1 ++ y). split_and!; [by rewrite <- app_assoc|apply rd_stop_slash|]. apply Forall_lookup. intros i d Hd ->.
    apply (f_equal (lookup i)) in Ea. rewrite list_lookup_fmap, Hd in Ea. cbn [fmap option_fmap option_map] in Ea. rewrite (rd_at (g := g) (stop := stop)) in Ea.
    symmetry in Ea. rewrite Forall_lookup in Ha. by apply Ha in Ea.
  - destruct a0 as [|d a0]; [done|]. injection Ea as Ed _. cbn. by rewrite Ed.
Qed.

Lemma userinfo_no_slash u : userinfo_ok stop u -> Forall (fun c => c <> 47) u.
Proof. intros Hu. eapply Forall_impl; [exact Hu|]. intros c [_ Hc] ->. by rewrite rd_stop_slash in Hc. Qed.

Lemma redacted_ok : Forall (fun c => c <> 47) redacted.
Proof. apply (bool_decide_unpack _). vm_compute. exact I. Qed.

(** Neither scheme occurs in the other. *)
Lemma other_scheme scheme scheme' scheme0 :
  scheme ∈ [rtsp_scheme; rtsps_scheme] -> scheme' ∈ [rtsp_scheme; rtsps_scheme] -> scheme <> scheme' -> g <$> scheme0 = scheme ->
  forall i y, (i < length scheme0)%nat -> is_prefix scheme' (drop i (g <$> scheme0) ++ y) = false.
Proof.
  intros H1 H2 Hne E i y Hi. rewrite <- (length_fmap g), E in Hi. rewrite E. clear E.
  rewrite !elem_of_cons, elem_of_nil in H1, H2.
  destruct H1 as [->|[->|[]]], H2 as [->|[->|[]]]; try done; cbn in Hi; (do 8 (destruct i as [|i]; [reflexivity || lia|])); lia.
Qed.

(** The credentials of a URL do not matter. *)
Lemma hide_both_userinfo pre scheme0 u1 u2 post :
  g <$> scheme0 ∈ [rtsp_scheme; rtsps_scheme] -> userinfo_ok stop u1 -> userinfo_ok stop u2 ->
  hide_both (pre ++ scheme0 ++ u1 ++ [64] ++ post) = hide_both (pre ++ scheme0 ++ u2 ++ [64] ++ post).
Proof.
  intros Hin H1 H2. unfold hide_both.
  destruct (scheme_facts rtsp_scheme ltac:(set_solver)) as (A1 & A2 & A3). destruct (scheme_facts rtsps_scheme ltac:(set_solver)) as (B1 & B2 & B3).
  destruct (hide_barrier g stop rtsp_scheme A1 A2 pre) as [q Hq].
  pose proof (fun y => scheme_barrier _ scheme0 y Hin eq_refl) as Hb. rewrite !Hq by done.
  rewrite !elem_of_cons, elem_of_nil in Hin. destruct Hin as [E|[E|[]]].
  - by rewrite !(hide_userinfo g stop rtsp_scheme rd_stop_at) by done.
  - rewrite !(hide_other g stop rtsp_scheme) by
      (done || apply rd_slash || apply rd_at || (apply (other_scheme rtsps_scheme); set_solver) || by apply userinfo_no_slash).
    destruct (hide_barrier g stop rtsps_scheme B1 B2 q) as [q' Hq']. rewrite !Hq' by done.
    by rewrite !(hide_userinfo g stop rtsps_scheme rd_stop_at) by done.
Qed.

(** And nothing else is changed. *)
Lemma hide_both_exact pre scheme0 u post :
  g <$> scheme0 ∈ [rtsp_scheme; rtsps_scheme] -> userinfo_ok stop u ->
  (forall scheme, scheme ∈ [rtsp_scheme; rtsps_scheme] -> find0 scheme (g <$> pre) = None /\ find0 scheme (g <$> post) = None) ->
  hide_both (pre ++ scheme0 ++ u ++ [64] ++ post) = pre ++ scheme0 ++ redacted ++ [64] ++ post.
Proof.
  intros Hin Hu Hno. unfold hide_both. assert (rtsp_scheme ∈ [rtsp_scheme; rtsps_scheme]) as I1 by set_solver.
  assert (rtsps_scheme ∈ [rtsp_scheme; rtsps_scheme]) as I2 by set_solver.
  destruct (Hno _ I1) as [P1 Q1]. destruct (Hno _ I2) as [P2 Q2].
  destruct (scheme_facts _ I1) as (A1 & A2 & A3). destruct (scheme_facts _ I2) as (B1 & B2 & B3).
  pose proof (fun y => scheme_barrier _ scheme0 y Hin eq_refl) as Hb. rewrite hide_after by done.
  assert (hide g stop rtsp_scheme post = post) as Ep1 by (by rewrite hide_eq, Q1).
  assert (hide g stop rtsps_scheme post = post) as Ep2 by (by rewrite hide_eq, Q2).
  rewrite !elem_of_cons, elem_of_nil in Hin. destruct Hin as [E|[E|[]]].
  - rewrite (hide_userinfo g stop rtsp_scheme rd_stop_at) by done. rewrite hide_after by done. rewrite Ep1.
    rewrite (hide_other g stop rtsps_scheme) by
      (done || apply rd_slash || apply rd_at || (apply (other_scheme rtsp_scheme); done || set_solver) || apply redacted_ok). by rewrite Ep2.
  - rewrite (hide_other g stop rtsp_scheme) by
      (done || apply rd_slash || apply rd_at || (apply (other_scheme rtsps_scheme); done || set_solver) || by apply userinfo_no_slash).
    rewrite hide_after by done. rewrite Ep1, (hide_userinfo g stop rtsps_scheme rd_stop_at) by done. by rewrite Ep2.
Qed.
End Passes.

(** ** Texts that differ in credentials only *)

Inductive swaps (g : Z -> Z) (stop : bytes) : relation bytes :=
| swap pre scheme0 u1 u2 post :
  g <$> scheme0 ∈ [rtsp_scheme; rtsps_scheme] -> userinfo_ok stop u1 -> userinfo_ok stop u2 ->
  swaps g stop (pre ++ scheme0 ++ u1 ++ [64] ++ post) (pre ++ scheme0 ++ u2 ++ [64] ++ post).

Definition alike (g : Z -> Z) (stop : bytes) : relation bytes := rtc (swaps g stop).

#[export] Instance alike_equivalence g stop : Equivalence (alike g stop).
Proof.
  split; [intros t; apply rtc_refl|..|intros ???; apply transitivity].
  intros s t H. induction H as [|s t r Hs _ IH]; [apply rtc_refl|]. eapply rtc_r; [exact IH|]. destruct Hs. by constructor.
Qed.

#[export] Instance hide_both_proper g stop `{!Redactor g stop} : Proper (alike g stop ==> eq) (hide_both (g := g) (stop := stop)).
Proof. intros s t H. induction H as [|s t r Hs _ IH]; [done|]. rewrite <- IH. destruct Hs. by apply hide_both_userinfo. Qed.

Lemma redact_loop_search f scheme t from : redact_loop f scheme t from = search_loop id authority_stop scheme f t from.
Proof.
  revert t from. induction f as [|f IH]; intros t from; [done|]. cbn [redact_loop search_loop]. rewrite list_fmap_id.
  destruct (str_find t scheme from); [|done]. cbv zeta. destruct (str_find t [64] _); [|apply IH].
  destruct (match find_first_of _ _ _ with Some e => _ | None => true end); apply IH.
Qed.

Lemma redact_uri_loop_search f scheme t from : redact_uri_loop f scheme t from = search_loop to_lower line_stop scheme f t from.
Proof.
  revert t from. induction f as [|f IH]; intros t from; [done|]. cbn [redact_uri_loop search_loop]. unfold lower_copy.
  destruct (str_find (to_lower <$> t) scheme from); [|done]. cbv zeta. change $"@" with [64]. destruct (str_find t [64] _); [|apply IH].
  destruct (match find_first_of _ _ _ with Some e => _ | None => true end); rewrite IH; [|done].
  change (length $"<redacted>@") with 11%nat. change (length redacted) with 10%nat. f_equal. lia.
Qed.

Lemma redact_rtsp_userinfo_hides t : redact_rtsp_userinfo t = hide_both (g := id) (stop := authority_stop) t.
Proof.
  unfold redact_rtsp_userinfo, hide_both. rewrite !redact_loop_search.
  rewrite (search_loop_hide id authority_stop rtsp_scheme ltac:(first [done|cbn; lia]) _ [] t). cbn [app]. fold (hide id authority_stop rtsp_scheme t).
  exact (search_loop_hide id authority_stop rtsps_scheme ltac:(first [done|cbn; lia]) _ [] (hide id authority_stop rtsp_scheme t)).
Qed.

Lemma redact_uri_userinfo_hides t : redact_uri_userinfo t = hide_both (g := to_lower) (stop := line_stop) t.
Proof.
  unfold redact_uri_userinfo, hide_both. cbn [fold_left]. rewrite !redact_uri_loop_search.
  rewrite (search_loop_hide to_lower line_stop rtsp_scheme ltac:(first [done|cbn; lia]) _ [] t). cbn [app]. fold (hide to_lower line_stop rtsp_scheme t).
  exact (search_loop_hide to_lower line_stop rtsps_scheme ltac:(first [done|cbn; lia]) _ [] (hide to_lower line_stop rtsp_scheme t)).
Qed.

(** ** Header lines *)

(** Lines with the same text but for credentials. *)
Inductive line_alike : relation bytes :=
| alike_url l1 l2 : alike to_lower line_stop l1 l2 -> line_alike l1 l2
| alike_header name l1 l2 :
  name ∈ [$"Authorization:"; $"Proxy-Authorization:"] -> starts_with_ci l1 name = true -> starts_with_ci l2 name = true ->
  line_alike l1 l2.

(** Credentials come after a slash, and the name of a header has none. *)
Lemma alike_starts l1 l2 name :
  Forall (fun c => to_lower c <> 47) name -> alike to_lower line_stop l1 l2 -> starts_with_ci l1 name = starts_with_ci l2 name.
Proof.
  intros Hn H. induction H as [|l1 l2 l3 Hs _ IH]; [done|]. rewrite <- IH. clear IH. rewrite !starts_with_ci_prefix. unfold lower_copy.
  destruct Hs as [pre scheme0 u1 u2 post Hin _ _]. set (name' := to_lower <$> name).
  destruct (scheme_facts _ Hin) as (_ & _ & [k Hk]%list_elem_of_lookup & _). pose proof (lookup_lt_Some _ _ _ Hk) as Hlt. rewrite length_fmap in Hlt.
  destruct (decide (length name' <= length (pre ++ scheme0))%nat) as [Hl|Hl].
  - rewrite !(app_assoc pre scheme0), !(fmap_app _ (pre ++ scheme0)), !is_prefix_app_long by (by rewrite length_fmap). done.
  - assert (forall y, is_prefix name' (to_lower <$> (pre ++ scheme0 ++ y)) = false) as Hf; [|by rewrite !Hf].
    intros y. destruct (is_prefix _ _) eqn:E; [exfalso|done]. apply is_prefix_true in E as [t E]. apply (f_equal (lookup (length pre + k)%nat)) in E.
    rewrite length_app in Hl. rewrite !fmap_app, lookup_app_r, length_fmap, Nat.add_comm, Nat.add_sub in E by (rewrite length_fmap; lia).
    rewrite lookup_app_l, Hk, lookup_app_l in E by (rewrite ?length_fmap; lia). unfold name' in E. rewrite list_lookup_fmap in E.
    symmetry in E. apply fmap_Some in E as (c & Hc & E). rewrite Forall_lookup in Hn. by apply (Hn _ _ Hc).
Qed.

Lemma sanitize_line_alike l1 l2 : line_alike l1 l2 -> sanitize_line l1 = sanitize_line l2.
Proof.
  assert (forall l, starts_with_ci l $"Authorization:" = true -> starts_with_ci l $"Proxy-Authorization:" = true -> False) as Hno.
  { intros l. rewrite !starts_with_ci_prefix. intros [t1 E1]%is_prefix_true [t2 E2]%is_prefix_true. rewrite E1 in E2. discriminate E2. }
  intros [m1 m2 H|name m1 m2 Hin H1 H2]; unfold sanitize_line.
  - rewrite !(alike_starts m1 m2) by (done || (apply (bool_decide_unpack _); vm_compute; exact I)).
    rewrite !redact_uri_userinfo_hides. by rewrite (hide_both_proper to_lower line_stop m1 m2 H).
  - rewrite !elem_of_cons, elem_of_nil in Hin. destruct Hin as [->|[->|[]]]; [by rewrite H1, H2|].
    destruct (starts_with_ci m1 $"Authorization:") eqn:E1; [by destruct (Hno m1)|].
    destruct (starts_with_ci m2 $"Authorization:") eqn:E2; [by destruct (Hno m2)|]. by rewrite H1, H2.
Qed.

Lemma sanitized_lines lines body :
  lines <> [] -> Forall line_ok lines ->
  sanitized_rtsp_for_log (with_crlf lines ++ CRLF ++ body) = concat (sanitize_line <$> lines ++ terminated_lines CRLF).
Proof. intros Hne Hok. unfold sanitized_rtsp_for_log. by rewrite lines_header_part, terminated_lines_with_crlf. Qed.

(** C12: Credentials do not get into the log.  Two requests or responses whose header lines
    differ only in the user infos of URLs (of either scheme, in any case, anywhere in a
    line) and in the values of Authorization and Proxy-Authorization, and whose bodies may
    differ in any way, give the same log text; two error texts of a pipeline that differ
    only in the user infos of URLs do too.  And no more is taken out: around a single URL
    everything but its user info is logged as it is.  A user info holds no at-sign and no
    character that ends an authority, as the syntax of URLs demands. *)
Theorem credentials_not_logged lines1 lines2 body1 body2 text1 text2 pre scheme u post :
  lines1 <> [] -> Forall line_ok lines1 -> Forall line_ok lines2 -> Forall2 line_alike lines1 lines2 ->
  alike id authority_stop text1 text2 ->
  scheme ∈ [rtsp_scheme; rtsps_scheme] -> userinfo_ok authority_stop u ->
  (forall s, s ∈ [rtsp_scheme; rtsps_scheme] -> find0 s pre = None /\ find0 s post = None) ->
  sanitized_rtsp_for_log (with_crlf lines1 ++ CRLF ++ body1) = sanitized_rtsp_for_log (with_crlf lines2 ++ CRLF ++ body2) /\
  redact_rtsp_userinfo text1 = redact_rtsp_userinfo text2 /\
  redact_rtsp_userinfo (pre ++ scheme ++ u ++ $"@" ++ post) = pre ++ scheme ++ $"<redacted>@" ++ post.
Proof.
  intros Hne H1 H2 Hl Ht Hs Hu Hno. split_and!.
  - assert (lines2 <> []) as Hne2 by (by intros ->; inversion Hl; subst). rewrite !sanitized_lines by done. f_equal. rewrite !fmap_app. f_equal.
    clear -Hl. induction Hl as [|l1 l2 ls1 ls2 H _ IH]; [done|]. cbn. f_equal; [by apply sanitize_line_alike|exact IH].
  - rewrite !redact_rtsp_userinfo_hides. by rewrite (hide_both_proper id authority_stop text1 text2 Ht).
  - rewrite redact_rtsp_userinfo_hides. change $"@" with [64]. change $"<redacted>@" with (redacted ++ [64]). rewrite <- app_assoc.
    apply hide_both_exact; rewrite ?list_fmap_id; try done.
Qed.

Definition log_lines_of (user value : bytes) : list bytes :=
  [$"DESCRIBE RTSP://" ++ user ++ $"@10.0.0.9/0/profile2 RTSP/1.0"; $"CSeq: 2"; $"authorization: " ++ value].

Lemma credentials_not_logged_witness :
  sanitized_rtsp_for_log (with_crlf (log_lines_of $"admin:secret" $"Digest abc") ++ CRLF ++ []) =
    sanitized_rtsp_for_log (with_crlf (log_lines_of $"x" $"Basic eHl6") ++ CRLF ++ $"body") /\
  redact_rtsp_userinfo $"cannot open rtsps://a:b@cam/0" = redact_rtsp_userinfo $"cannot open rtsps://c@cam/0" /\
  redact_rtsp_userinfo ($"cannot open " ++ rtsp_scheme ++ $"admin:secret" ++ $"@" ++ $"cam/0") =
    $"cannot open " ++ rtsp_scheme ++ $"<redacted>@" ++ $"cam/0".
Proof.
  assert (forall b, bool_decide (Forall (fun c => c <> 64 /\ mem c line_stop = false) b) = true -> userinfo_ok line_stop b) as Hu1
    by (intros b Hb; by apply bool_decide_eq_true in Hb).
  assert (forall b, bool_decide (Forall (fun c => c <> 64 /\ mem c authority_stop = false) b) = true -> userinfo_ok authority_stop b) as Hu2
    by (intros b Hb; by apply bool_decide_eq_true in Hb).
  apply (credentials_not_logged (log_lines_of $"admin:secret" $"Digest abc") (log_lines_of $"x" $"Basic eHl6") [] $"body"
    $"cannot open rtsps://a:b@cam/0" $"cannot open rtsps://c@cam/0" $"cannot open " rtsp_scheme $"admin:secret" $"cam/0").
  - done.
  - repeat constructor; done.
  - repeat constructor; done.
  - constructor; [|constructor; [|constructor; [|constructor]]].
    + apply alike_url, rtc_once. apply (swap to_lower line_stop $"DESCRIBE " $"RTSP://" $"admin:secret" $"x" $"10.0.0.9/0/profile2 RTSP/1.0");
        [left|apply Hu1; vm_compute; reflexivity..].
    + apply alike_url. reflexivity.
    + apply (alike_header $"Authorization:"); [left|vm_compute; reflexivity..].
  - apply rtc_once. apply (swap id authority_stop $"cannot open " $"rtsps://" $"a:b" $"c" $"cam/0"); [right; left|apply Hu2; vm_compute; reflexivity..].
  - left.
  - apply Hu2. vm_compute. reflexivity.
  - intros s Hs. rewrite !elem_of_cons, elem_of_nil in Hs. destruct Hs as [->|[->|[]]]; split; reflexivity.
Defined.
