(* ===== verification/Ingest.v ===== *)
(** * The ingest worker of a channel (src/media/channel_ingest.cpp)

    The callbacks GStreamer calls from its threads, one attempt to record a camera
    ([run_attempt]) and the loop of attempts ([run]).  What GStreamer, the clocks and
    the other threads do is the environment of an attempt, [AttemptEnv]: the outcomes
    of the calls and, for each turn of the bus loop, the callbacks that ran before it,
    what [running_] and the clock said, and the message popped.  References to GStreamer
    objects are counted in [i_refs].  The clock is in nanoseconds. *)

From S2P Require Import Prelude CStr Parser Rtp FrameQueue LiveServer ChannelManager Index Config Calendar Segment.
From coqutil Require Import Datatypes.RecordSetters.
Import DoubleBraceUpdate.

(** ** State *)

(** The atomics of [ChannelIngest], the two flags of the attempt, and what the worker
    shares: the index, the live server, the log.  [i_source] is what was set on the
    camera source last. *)
Record IngestState := {
  i_first_buffer_seen : bool;
  i_connection_attempts : Z;
  i_reconnects : Z;
  i_first_buffers : Z;
  i_pipeline_errors : Z;
  i_eos_events : Z;
  i_live_frames : Z;
  i_live_drops : Z;
  i_first_rtp_buffer_seen : bool;
  i_attempt_first_buffer_seen : bool;
  i_index : Database;
  i_sink : option Server;
  i_source : option (bytes * bytes * bytes);
  i_log : list (LogLevel * bytes);
  i_refs : Z
}.

Definition ingest_state (db : Database) (sink : option Server) : IngestState := {|
  i_first_buffer_seen := false; i_connection_attempts := 0; i_reconnects := 0; i_first_buffers := 0;
  i_pipeline_errors := 0; i_eos_events := 0; i_live_frames := 0; i_live_drops := 0;
  i_first_rtp_buffer_seen := false; i_attempt_first_buffer_seen := false;
  i_index := db; i_sink := sink; i_source := None; i_log := []; i_refs := 0
|}.

(** [counter.fetch_add(1)] on a [std::atomic<std::uint64_t>] *)
Definition fetch_add1 (n : Z) : Z := u64 (n + 1).

Definition say (level : LogLevel) (text : bytes) (s : IngestState) : IngestState :=
  s {{ i_log ::= fun l => l ++ [(level, text)] }}.

Definition add_refs (n : Z) (s : IngestState) : IngestState := s {{ i_refs ::= fun r => r + n }}.

(** ** Callbacks *)

(** [GstClockTime] is unsigned; all bits set is "no time". *)
Definition buffer_clock_time (value : Z) : Z :=
  if value =? 18446744073709551615 then -1
  else if value <=? i64_max then value else value - 18446744073709551616.

(** A buffer: what mapping it gives, its times and whether it is a delta unit. *)
Record GstBuffer := {
  gb_map : option bytes;
  gb_pts : Z;
  gb_dts : Z;
  gb_duration : Z;
  gb_delta_unit : bool
}.

(** The parts of [CallbackContext] that are fixed during an attempt. *)
Record CallbackContext := {
  cx_config : ChannelIngestConfig;
  cx_attempt : Z;
  cx_started_at : Z
}.

Definition attempt_elapsed_ms (context : CallbackContext) (now : Z) : Z := Z.quot (now - cx_started_at context) 1000000.

(** The fields every progress line ends with. *)
Definition progress (context : CallbackContext) (now : Z) : bytes :=
  $"channel_id=" ++ to_string (ic_channel_id (cx_config context)) ++
  $" camera_channel=" ++ to_string (ic_camera_channel (cx_config context)) ++
  $" attempt=" ++ to_string (cx_attempt context) ++ $" elapsed_ms=" ++ to_string (attempt_elapsed_ms context now).

Definition buffer_pts (buffer : option GstBuffer) : Z :=
  match buffer with Some b => buffer_clock_time (gb_pts b) | None => -1 end.

Definition on_ingest_buffer (context : CallbackContext) (now : Z) (is_buffer : bool) (buffer : option GstBuffer)
    (s : IngestState) : IngestState :=
  if negb is_buffer then s
  else if i_attempt_first_buffer_seen s then s
  else
    let s := s {{ i_attempt_first_buffer_seen := true }} in
    let s := if i_first_buffer_seen s then s
             else s {{ i_first_buffer_seen := true; i_first_buffers ::= fetch_add1 }} in
    say LogInfo ($"[ingest] state=streaming first_buffer=yes " ++ progress context now ++
                 $" pts_ns=" ++ to_string (buffer_pts buffer)) s.

Definition on_rtp_buffer (context : CallbackContext) (now : Z) (is_buffer : bool) (buffer : option GstBuffer)
    (s : IngestState) : IngestState :=
  if negb is_buffer then s
  else if i_first_rtp_buffer_seen s then s
  else
    say LogInfo ($"[ingest] state=rtp_received first_buffer=yes " ++ progress context now ++
                 $" pts_ns=" ++ to_string (buffer_pts buffer))
      (s {{ i_first_rtp_buffer_seen := true }}).

Definition on_source_sdp (context : CallbackContext) (now : Z) (s : IngestState) : IngestState :=
  say LogInfo ($"[ingest] state=sdp_received " ++ progress context now) s.

(** The first structure of the pad's caps: its name and its "media" field.  [None] is a
    pad without caps or with empty ones. *)
Definition on_source_pad_added (context : CallbackContext) (now : Z) (caps : option (bytes * option bytes))
    (s : IngestState) : IngestState :=
  match caps with
  | None => s
  | Some (name, media) =>
    let is_video_rtp := str_eqb name $"application/x-rtp" &&
                        match media with Some m => str_eqb m $"video" | None => false end in
    if negb is_video_rtp then s
    else say LogInfo ($"[ingest] state=rtp_pad_ready " ++ progress context now) s
  end.

Definition live_frame (config : ChannelIngestConfig) (b : GstBuffer) (data : bytes) : LiveEncodedFrameView := {|
  v_data := Some data;
  v_pts_ns := buffer_clock_time (gb_pts b);
  v_dts_ns := buffer_clock_time (gb_dts b);
  v_duration_ns := buffer_clock_time (gb_duration b);
  v_key_frame := negb (gb_delta_unit b);
  v_channel_id := ic_channel_id config;
  v_codec := ic_codec config
|}.

Definition on_live_handoff (context : CallbackContext) (buffer : option GstBuffer) (s : IngestState) : IngestState :=
  let s := s {{ i_live_frames ::= fetch_add1 }} in
  match i_sink s, buffer with
  | Some sink, Some b =>
    match gb_map b with
    | None => say LogWarn ($"[live] state=map_error channel_id=" ++ to_string (ic_channel_id (cx_config context))) s
    | Some data => s {{ i_sink := Some (on_frame (live_frame (cx_config context) b data) sink) }}
    end
  | _, _ => s
  end.

Definition on_live_queue_overrun (context : CallbackContext) (s : IngestState) : IngestState :=
  let drops := u64 (i_live_drops s + 1) in
  let s := s {{ i_live_drops ::= fetch_add1 }} in
  if (drops =? 1) || (drops mod 100 =? 0) then
    say LogWarn ($"[live] state=dropping policy=latest channel_id=" ++ to_string (ic_channel_id (cx_config context)) ++
                 $" drop_events=" ++ to_string drops) s
  else s.

(** The location of the next segment; an error is logged and gives no location. *)
Definition on_format_segment_location (context : CallbackContext) (fuel : nat) (exists_ : bytes -> result bool)
    (utc_ms : Z) (s : IngestState) : option (option bytes * IngestState) :=
  match collision_loop fuel exists_ (cx_config context) utc_ms 0 with
  | None => None
  | Some (Ok location) => Some (Some location, s)
  | Some (Throw what) => Some (None, say LogError ($"[record] state=location_error message=" ++ what) s)
  end.

(** A callback as GStreamer makes it. *)
Inductive Callback :=
| CbIngestBuffer (now : Z) (is_buffer : bool) (buffer : option GstBuffer)
| CbRtpBuffer (now : Z) (is_buffer : bool) (buffer : option GstBuffer)
| CbSdp (now : Z)
| CbPadAdded (now : Z) (caps : option (bytes * option bytes))
| CbHandoff (buffer : option GstBuffer)
| CbOverrun.

Definition run_callback (context : CallbackContext) (s : IngestState) (cb : Callback) : IngestState :=
  match cb with
  | CbIngestBuffer now is_buffer buffer => on_ingest_buffer context now is_buffer buffer s
  | CbRtpBuffer now is_buffer buffer => on_rtp_buffer context now is_buffer buffer s
  | CbSdp now => on_source_sdp context now s
  | CbPadAdded now caps => on_source_pad_added context now caps s
  | CbHandoff buffer => on_live_handoff context buffer s
  | CbOverrun => on_live_queue_overrun context s
  end.

Definition run_callbacks (context : CallbackContext) (cbs : list Callback) : act IngestState unit :=
  modify (fun s => fold_left (run_callback context) cbs s).

(** ** The bus *)

(** An element message: the name and the "location" of its structure, if it has them, with
    the time, the outcome of the index's SQLite calls and the size of the file. *)
Record ElementMessage := {
  em_structure : option (option bytes * option bytes);
  em_now : Z;
  em_io : result unit;
  em_size : option Z
}.

Inductive BusMessage :=
| MsgError (message debug : option bytes)
| MsgEos
| MsgElement (e : ElementMessage).

Definition handle_element_message (config : ChannelIngestConfig) (m : ElementMessage) : act IngestState unit :=
  match em_structure m with
  | Some (Some message_name, Some path) =>
    if str_eqb message_name $"splitmuxsink-fragment-opened" then
      s ← get;
      db ← lift (mark_segment_opened (ic_channel_id config) path $"mp4" (to_codec_name (ic_codec config))
                   (now_utc (em_now m)) (em_io m) (i_index s));
      modify (fun s => s {{ i_index := db }})
    else if str_eqb message_name $"splitmuxsink-fragment-closed" then
      s ← get;
      db ← lift (mark_segment_closed path (now_utc (em_now m)) (em_size m) (em_io m) (i_index s));
      modify (fun s => s {{ i_index := db }})
    else modify (say LogTrace ($"[gst] element message: " ++ message_name))
  | _ => mret tt
  end.

Inductive AttemptResult := Stopped | PipelineError | EndOfStream.

#[export] Instance AttemptResult_eq_dec : EqDecision AttemptResult.
Proof. solve_decision. Defined.

(** One turn of the bus loop: the callbacks before it, [running_], the clock, the callbacks
    while it waits and the message popped, if any. *)
Record Turn := {
  tn_callbacks : list Callback;
  tn_running : bool;
  tn_now : Z;
  tn_waiting : list Callback;
  tn_message : option BusMessage
}.

Definition channel_text (config : ChannelIngestConfig) : bytes := to_string (ic_channel_id config).

Definition pipeline_error (level_text : bytes) : act IngestState unit :=
  _ ← modify (fun s => s {{ i_pipeline_errors ::= fetch_add1 }});
  modify (say LogError level_text).

(** A popped message is owned until it is released. *)
Definition handle_bus_error (config : ChannelIngestConfig) (message debug : option bytes) : act IngestState unit :=
  _ ← modify (add_refs 1);
  _ ← pipeline_error (redact_rtsp_userinfo
        ($"[ingest] state=pipeline_error channel_id=" ++ channel_text config ++
         $" message=" ++ default $"unknown" message));
  _ ← match debug with
      | Some text => modify (say LogDebug (redact_rtsp_userinfo ($"[gst] debug: " ++ text)))
      | None => mret tt
      end;
  modify (add_refs (-1)).

Definition handle_bus_eos (config : ChannelIngestConfig) : act IngestState unit :=
  _ ← modify (add_refs 1);
  _ ← modify (fun s => s {{ i_eos_events ::= fetch_add1 }});
  _ ← modify (say LogWarn ($"[ingest] state=eos channel_id=" ++ channel_text config));
  modify (add_refs (-1)).

Definition handle_bus_element (config : ChannelIngestConfig) (m : ElementMessage) : act IngestState unit :=
  _ ← modify (add_refs 1);
  _ ← handle_element_message config m;
  modify (add_refs (-1)).

(** The loop of [run_attempt]; it has no outcome while turns are missing. *)
Fixpoint bus_loop (context : CallbackContext) (startup_deadline : Z) (turns : list Turn)
    : act IngestState AttemptResult :=
  match turns with
  | [] => fun _ => None
  | t :: rest =>
    let config := cx_config context in
    _ ← run_callbacks context (tn_callbacks t);
    if negb (tn_running t) then mret Stopped
    else
      s ← get;
      if negb (i_attempt_first_buffer_seen s) && (tn_now t >=? startup_deadline) then
        _ ← pipeline_error ($"[ingest] state=pipeline_error channel_id=" ++ channel_text config ++
              $" message=first_buffer_timeout timeout_ms=" ++ to_string (startup_timeout_ms config));
        mret PipelineError
      else
        _ ← run_callbacks context (tn_waiting t);
        match tn_message t with
        | None => bus_loop context startup_deadline rest
        | Some (MsgError message debug) => _ ← handle_bus_error config message debug; mret PipelineError
        | Some MsgEos => _ ← handle_bus_eos config; mret EndOfStream
        | Some (MsgElement e) => _ ← handle_bus_element config e; bus_loop context startup_deadline rest
        end
  end.

(** The loop that waits for the end of stream after a stop, until [deadline].  [tn_running]
    is not read. *)
Fixpoint drain_loop (context : CallbackContext) (deadline : Z) (turns : list Turn) : act IngestState unit :=
  match turns with
  | [] => fun _ => None
  | t :: rest =>
    _ ← run_callbacks context (tn_callbacks t);
    if negb (tn_now t <? deadline) then mret tt
    else
      _ ← run_callbacks context (tn_waiting t);
      match tn_message t with
      | None => drain_loop context deadline rest
      | Some (MsgElement e) => _ ← handle_bus_element (cx_config context) e; drain_loop context deadline rest
      | Some _ => _ ← modify (add_refs 1); modify (add_refs (-1))
      end
  end.

(** ** Setting the pipeline up *)

(** The elements found by name, and the sink pad of the tee. *)
Record Elements := {
  el_source : bool;
  el_tee : bool;
  el_recording_sink : bool;
  el_live_queue : bool;
  el_live_sink : bool;
  el_tee_sink : bool
}.

(** A lookup that found something holds a reference; [gst_object_unref] gives it back. *)
Definition held (found : bool) : Z := if found then 1 else 0.
Definition lookup_element (found : bool) : act IngestState unit := modify (add_refs (held found)).
Definition unref (found : bool) : act IngestState unit := modify (add_refs (- held found)).

Definition configure_source (config : ChannelIngestConfig) (found : bool) : act IngestState unit :=
  _ ← lookup_element found;
  if negb found then throw $"pipeline is missing camera_source"
  else
    _ ← modify (fun s => s {{ i_source := Some (rtsp_location config, camera_user config, camera_password config) }});
    unref found.

Definition connect_callbacks (el : Elements) : act IngestState unit :=
  _ ← lookup_element (el_source el);
  _ ← lookup_element (el_tee el);
  _ ← lookup_element (el_recording_sink el);
  _ ← lookup_element (el_live_queue el);
  _ ← lookup_element (el_live_sink el);
  if negb (el_source el) || negb (el_tee el) || negb (el_recording_sink el) || negb (el_live_queue el) ||
     negb (el_live_sink el) then
    _ ← unref (el_source el);
    _ ← unref (el_tee el);
    _ ← unref (el_recording_sink el);
    _ ← unref (el_live_queue el);
    _ ← unref (el_live_sink el);
    throw $"pipeline is missing a ChannelIngest branch element"
  else
    _ ← lookup_element (el_tee_sink el);
    if negb (el_tee_sink el) then
      _ ← unref (el_tee el);
      _ ← unref (el_recording_sink el);
      _ ← unref (el_live_queue el);
      _ ← unref (el_live_sink el);
      throw $"ingest_tee is missing its sink pad"
    else
      _ ← unref (el_tee_sink el);
      _ ← unref (el_source el);
      _ ← unref (el_tee el);
      _ ← unref (el_recording_sink el);
      _ ← unref (el_live_queue el);
      unref (el_live_sink el).

(** ** One attempt *)

(** What [gst_parse_launch] gives: no pipeline with an error text, a pipeline with an error,
    or a pipeline. *)
Inductive Launch :=
| LaunchFailed (message : option bytes)
| LaunchIncomplete (message : bytes)
| Launched.

Record AttemptEnv := {
  ae_create_directories : result unit;
  ae_utc : Z;
  ae_launch : Launch;
  ae_started_at : Z;
  ae_source : bool;
  ae_elements : Elements;
  ae_begin : Z;
  ae_playing : bool;
  ae_turns : list Turn;
  ae_eos_sent : bool;
  ae_drain_begin : Z;
  ae_drain : list Turn;
  ae_running : bool
}.

(** The pipeline runs until [bus_loop] ends; after a stop it is drained for ten seconds at most. *)
Definition stream (context : CallbackContext) (env : AttemptEnv) : act IngestState AttemptResult :=
  let config := cx_config context in
  let startup_deadline := ae_begin env + startup_timeout_ms config * 1000000 in
  result ← (if ae_playing env then bus_loop context startup_deadline (ae_turns env)
            else
              _ ← pipeline_error ($"[ingest] state=pipeline_error channel_id=" ++ channel_text config ++
                                  $" message=failed_to_enter_playing");
              mret PipelineError);
  _ ← (if bool_decide (result = Stopped) && ae_eos_sent env
       then drain_loop context (ae_drain_begin env + 10 * 1000000000) (ae_drain env)
       else mret tt);
  mret result.

Definition run_attempt (config : ChannelIngestConfig) (attempt : Z) (env : AttemptEnv)
    : act IngestState AttemptResult :=
  _ ← lift (ae_create_directories env);
  let description :=
    build_channel_ingest_pipeline_description config (location_pattern config (ae_utc env) attempt) in
  _ ← modify (say LogDebug ($"[gst] pipeline: " ++ description));
  match ae_launch env with
  | LaunchFailed message =>
    throw (redact_rtsp_userinfo
             ($"failed to create pipeline: " ++ default $"unknown gst_parse_launch error" message))
  | LaunchIncomplete message =>
    _ ← modify (add_refs 1);
    _ ← modify (add_refs (-1));
    throw (redact_rtsp_userinfo ($"failed to fully create pipeline: " ++ message))
  | Launched =>
    _ ← modify (add_refs 1);
    _ ← modify (fun s => s {{ i_first_rtp_buffer_seen := false; i_attempt_first_buffer_seen := false }});
    let context := {| cx_config := config; cx_attempt := attempt; cx_started_at := ae_started_at env |} in
    _ ← on_throw (_ ← configure_source config (ae_source env);
                  _ ← connect_callbacks (ae_elements env);
                  modify (add_refs 1))
          (add_refs (-1));
    result ← on_throw (stream context env) (add_refs (-2));
    _ ← modify (add_refs (-2));
    mret (if ae_running env then result else Stopped)
  end.

(** ** The loop of attempts *)

Definition wait_before_reconnect (config : ChannelIngestConfig) (running : nat -> bool) : option (bool * Z) :=
  wait_loop (S (Z.to_nat (reconnect_delay_ms config))) running 0 (reconnect_delay_ms config) 0.

(** One round of the loop: [running_] before it, the attempt, [running_] after it and
    during the wait. *)
Record Round := {
  ro_running : bool;
  ro_env : AttemptEnv;
  ro_running_after : bool;
  ro_wait : nat -> bool
}.

Definition begin_attempt (config : ChannelIngestConfig) (attempt : Z) : act IngestState unit :=
  _ ← modify (fun s => s {{ i_connection_attempts := attempt; i_first_buffer_seen := false }});
  modify (say LogInfo ($"[ingest] state=connecting channel_id=" ++ channel_text config ++ $" camera_channel=" ++
                       to_string (ic_camera_channel config) ++ $" attempt=" ++ to_string attempt)).

Definition note_reconnect (config : ChannelIngestConfig) (result : AttemptResult) : act IngestState unit :=
  s ← get;
  let reconnect := fetch_add1 (i_reconnects s) in
  let reason := match result with PipelineError => $"pipeline_error" | _ => $"eos" end in
  _ ← modify (fun s => s {{ i_reconnects := reconnect }});
  modify (say LogWarn ($"[ingest] state=reconnecting channel_id=" ++ channel_text config ++ $" reason=" ++ reason ++
                       $" reconnect=" ++ to_string reconnect ++ $" delay_ms=" ++
                       to_string (reconnect_delay_ms config))).

Fixpoint run_loop (config : ChannelIngestConfig) (rounds : list Round) : act IngestState unit :=
  match rounds with
  | [] => fun _ => None
  | r :: rest =>
    if negb (ro_running r) then mret tt
    else
      s ← get;
      let attempt := fetch_add1 (i_connection_attempts s) in
      _ ← begin_attempt config attempt;
      result ← run_attempt config attempt (ro_env r);
      if negb (ro_running_after r) || bool_decide (result = Stopped) then mret tt
      else
        _ ← note_reconnect config result;
        w ← defined (wait_before_reconnect config (ro_wait r));
        if negb (fst w) then mret tt else run_loop config rest
  end.

Definition run (config : ChannelIngestConfig) (rounds : list Round) : act IngestState Z :=
  _ ← run_loop config rounds;
  s ← get;
  _ ← modify (say LogInfo ($"[ingest] state=stopped channel_id=" ++ channel_text config ++
        $" attempts=" ++ to_string (i_connection_attempts s) ++ $" reconnects=" ++ to_string (i_reconnects s) ++
        $" first_buffers=" ++ to_string (i_first_buffers s) ++ $" live_frames=" ++ to_string (i_live_frames s) ++
        $" live_drop_events=" ++ to_string (i_live_drops s)));
  mret 0.

Definition stats (s : IngestState) : ChannelIngestStats := {|
  st_connection_attempts := i_connection_attempts s; st_reconnects := i_reconnects s;
  st_first_buffers := i_first_buffers s; st_pipeline_errors := i_pipeline_errors s;
  st_eos_events := i_eos_events s; st_live_frames := i_live_frames s; st_live_drops := i_live_drops s
|}.

(** ** The counters *)

(** What the counters say, whatever the log, the index and the live server hold.  The
    channel's first buffer of an attempt is counted once it was seen. *)
Record Counts := { k_attempts : Z; k_reconnects : Z; k_errors : Z; k_eos : Z; k_first : Z; k_refs : Z }.

Definition counts (s : IngestState) : Counts := {|
  k_attempts := i_connection_attempts s; k_reconnects := i_reconnects s; k_errors := i_pipeline_errors s;
  k_eos := i_eos_events s; k_first := u64 (i_first_buffers s + (if i_first_buffer_seen s then 0 else 1));
  k_refs := i_refs s
|}.

Lemma counts_say level text s : counts (say level text s) = counts s.
Proof. done. Qed.

Lemma counts_callback context s cb : counts (run_callback context s cb) = counts s.
Proof.
  destruct cb as [now [] b|now [] b|now|now [[n m]|]|b|]; cbn [run_callback]; try done.
  - unfold on_ingest_buffer. cbn [negb]. destruct (i_attempt_first_buffer_seen s); [done|]. cbv zeta.
    rewrite counts_say. destruct s as [[] ? ? fb ? ? ? ? ? ? ? ? ? ? ?]; [done|].
    unfold counts. cbn. unfold constant, fetch_add1. by rewrite u64_idem_l, Z.add_0_r.
  - unfold on_rtp_buffer. cbn [negb]. by destruct (i_first_rtp_buffer_seen s).
  - unfold on_source_pad_added. by destruct (negb _).
  - unfold on_live_handoff. cbv zeta. destruct (i_sink _), b as [b|]; try done. by destruct (gb_map b).
  - unfold on_live_queue_overrun. cbv zeta. by destruct (_ || _).
Qed.

Lemma counts_callbacks context cbs s : counts (fold_left (run_callback context) cbs s) = counts s.
Proof. revert s; induction cbs as [|cb cbs IH]; intros s; cbn; [done|]. by rewrite IH, counts_callback. Qed.

Lemma counts_refs n s : counts (add_refs n s) = (counts s) {{ k_refs ::= fun r => r + n }}.
Proof. done. Qed.

Lemma counts_index db s : counts (s {{ i_index := db }}) = counts s.
Proof. done. Qed.

Create Rewrite HintDb counts.
#[export] Hint Rewrite counts_say counts_callbacks counts_index counts_refs : counts.

(** What an attempt that ends with [r] adds to the counts. *)
Definition ended (r : AttemptResult) (k : Counts) : Counts :=
  match r with
  | Stopped => k
  | PipelineError => k {{ k_errors ::= fetch_add1 }}
  | EndOfStream => k {{ k_eos ::= fetch_add1 }}
  end.

Definition plus_refs (n : Z) (k : Counts) : Counts := k {{ k_refs ::= fun r => r + n }}.

Lemma plus_refs_plus a b k : plus_refs a (plus_refs b k) = plus_refs (b + a) k.
Proof. destruct k. unfold plus_refs. cbn. f_equal. lia. Qed.

Lemma plus_refs_0 k : plus_refs 0 k = k.
Proof. destruct k. unfold plus_refs. cbn. f_equal. lia. Qed.

Lemma counts_add_refs n s : counts (add_refs n s) = plus_refs n (counts s).
Proof. done. Qed.

Lemma ended_plus r n k : ended r (plus_refs n k) = plus_refs n (ended r k).
Proof. by destruct r, k. Qed.

Lemma handle_element_counts config m s :
  wlp (handle_element_message config m) (fun _ s' => counts s' = counts s) (fun s' => counts s' = counts s) s.
Proof.
  unfold handle_element_message. destruct (em_structure m) as [[[name|] [path|]]|]; try done.
  destruct (str_eqb name _); [|destruct (str_eqb name _); [|done]].
  - do 2 wstep. wstep. apply wlp_lift; [|done]. intros db _. by wstep.
  - do 2 wstep. wstep. apply wlp_lift; [|done]. intros db _. by wstep.
Qed.

Lemma handle_bus_element_counts config m s :
  wlp (handle_bus_element config m) (fun _ s' => counts s' = counts s)
    (fun s' => counts s' = plus_refs 1 (counts s)) s.
Proof.
  unfold handle_bus_element. do 2 wstep. wstep. eapply wlp_weaken; [apply handle_element_counts| |].
  - intros [] s' E. wstep. rewrite counts_add_refs, E, counts_add_refs, plus_refs_plus. apply plus_refs_0.
  - intros s' E. by rewrite E, counts_add_refs.
Qed.

Lemma pipeline_error_counts text s :
  wlp (pipeline_error text) (fun _ s' => counts s' = ended PipelineError (counts s)) (fun _ => False) s.
Proof. done. Qed.

Lemma handle_bus_error_counts config message debug s :
  wlp (handle_bus_error config message debug) (fun _ s' => counts s' = ended PipelineError (counts s))
    (fun _ => False) s.
Proof.
  unfold handle_bus_error. do 2 wstep. wstep. eapply wlp_mono; [apply pipeline_error_counts|].
  intros u s' E. wstep. destruct debug; repeat wstep; rewrite !counts_add_refs, ?counts_say, E;
    by rewrite counts_add_refs, ended_plus, plus_refs_plus, plus_refs_0.
Qed.

Lemma handle_bus_eos_counts config s :
  wlp (handle_bus_eos config) (fun _ s' => counts s' = ended EndOfStream (counts s)) (fun _ => False) s.
Proof.
  unfold handle_bus_eos. repeat wstep. rewrite counts_add_refs, counts_say.
  change (plus_refs (-1) (ended EndOfStream (plus_refs 1 (counts s))) = ended EndOfStream (counts s)).
  by rewrite ended_plus, plus_refs_plus, plus_refs_0.
Qed.

Lemma run_callbacks_counts context cbs s :
  wlp (run_callbacks context cbs) (fun _ s' => counts s' = counts s) (fun _ => False) s.
Proof. unfold run_callbacks. wstep. apply counts_callbacks. Qed.

Lemma bus_loop_counts context deadline turns s :
  wlp (bus_loop context deadline turns) (fun r s' => counts s' = ended r (counts s))
    (fun s' => counts s' = plus_refs 1 (counts s)) s.
Proof.
  revert s; induction turns as [|t turns IH]; intros s; [done|]. cbn [bus_loop].
  wstep. unfold run_callbacks. wstep. set (s1 := fold_left _ _ s).
  assert (counts s1 = counts s) as E1 by apply counts_callbacks.
  destruct (tn_running t); cbn [negb]; [|by wstep].
  do 2 wstep. destruct (_ && _).
  { wstep. eapply wlp_weaken; [apply pipeline_error_counts| |done]. intros u s' E. wstep. by rewrite E, E1. }
  wstep. wstep. set (s2 := fold_left _ _ s1).
  assert (counts s2 = counts s) as E2 by (unfold s2; by rewrite counts_callbacks).
  rewrite <- E2. destruct (tn_message t) as [[message debug| |e]|].
  - wstep. eapply wlp_weaken; [apply handle_bus_error_counts| |done]. intros u s' E. by wstep.
  - wstep. eapply wlp_weaken; [apply handle_bus_eos_counts| |done]. intros u s' E. by wstep.
  - wstep. eapply wlp_weaken; [apply handle_bus_element_counts| |done]. intros u s' E. rewrite <- E. apply IH.
  - apply IH.
Qed.

Lemma drain_loop_counts context deadline turns s :
  wlp (drain_loop context deadline turns) (fun _ s' => counts s' = counts s)
    (fun s' => counts s' = plus_refs 1 (counts s)) s.
Proof.
  revert s; induction turns as [|t turns IH]; intros s; [done|]. cbn [drain_loop].
  wstep. unfold run_callbacks. wstep. set (s1 := fold_left _ _ s).
  assert (counts s1 = counts s) as E1 by apply counts_callbacks.
  destruct (tn_now t <? deadline); cbn [negb]; [|by wstep].
  wstep. wstep. set (s2 := fold_left _ _ s1).
  assert (counts s2 = counts s) as E2 by (unfold s2; by rewrite counts_callbacks).
  rewrite <- E2. destruct (tn_message t) as [[message debug| |e]|]; [| | |apply IH].
  1,2: repeat wstep; by rewrite !counts_add_refs, plus_refs_plus, plus_refs_0.
  wstep. eapply wlp_weaken; [apply handle_bus_element_counts| |done]. intros u s' E. rewrite <- E. apply IH.
Qed.

Lemma stream_counts context env s :
  wlp (stream context env) (fun r s' => counts s' = ended r (counts s))
    (fun s' => counts s' = plus_refs 1 (counts s)) s.
Proof.
  unfold stream. cbv zeta. wstep.
  assert (wlp (if ae_playing env then bus_loop context (ae_begin env + startup_timeout_ms (cx_config context) * 1000000) (ae_turns env)
     else _ ← pipeline_error ($"[ingest] state=pipeline_error channel_id=" ++ channel_text (cx_config context) ++
                             $" message=failed_to_enter_playing"); mret PipelineError)
    (fun r s' => counts s' = ended r (counts s)) (fun s' => counts s' = plus_refs 1 (counts s)) s) as H.
  { destruct (ae_playing env); [apply bus_loop_counts|done]. }
  eapply wlp_mono; [exact H|]. intros r s1 E1. wstep.
  case_bool_decide as Er; cbn [andb]; [|by wstep; wstep]. destruct (ae_eos_sent env); [|by wstep; wstep].
  subst r. cbn [ended] in E1. eapply wlp_weaken; [apply drain_loop_counts| |].
  - intros u s2 E2. wstep. by rewrite E2.
  - intros s2 E2. by rewrite E2, E1.
Qed.

(** The elements [connect_callbacks] needs. *)
Definition complete (el : Elements) : bool :=
  el_source el && el_tee el && el_recording_sink el && el_live_queue el && el_live_sink el.

Lemma connect_callbacks_counts el s :
  wlp (connect_callbacks el)
    (fun _ s' => complete el = true /\ el_tee_sink el = true /\ counts s' = counts s)
    (fun s' => counts s' = plus_refs (if complete el then 1 else 0) (counts s)) s.
Proof.
  unfold connect_callbacks, lookup_element, unref, complete.
  destruct el as [[] [] [] [] [] []]; cbn [el_source el_tee el_recording_sink el_live_queue el_live_sink el_tee_sink held negb orb andb];
    repeat wstep; rewrite !counts_add_refs, !plus_refs_plus; by rewrite ?plus_refs_0.
Qed.

Lemma configure_source_counts config found s :
  wlp (configure_source config found) (fun _ s' => found = true /\ counts s' = counts s)
    (fun s' => found = false /\ counts s' = counts s) s.
Proof.
  unfold configure_source, lookup_element, unref. wstep. wstep. destruct found; cbn [negb held].
  - repeat wstep. split; [done|]. rewrite counts_add_refs.
    change (plus_refs (-1) (plus_refs 1 (counts s)) = counts s). by rewrite plus_refs_plus, plus_refs_0.
  - wstep. split; [done|]. by rewrite counts_add_refs, plus_refs_0.
Qed.

(** The attempt got as far as finding all its elements. *)
Definition elements_found (env : AttemptEnv) : bool :=
  match ae_create_directories env, ae_launch env with
  | Ok _, Launched => ae_source env && complete (ae_elements env)
  | _, _ => false
  end.

(** What an attempt leaves: it gives back every reference it took when it returns; an
    exception after the elements were found loses one. *)
Lemma run_attempt_counts config attempt env s :
  wlp (run_attempt config attempt env)
    (fun r s' => exists r0, counts s' = ended r0 (counts s) /\ r = if ae_running env then r0 else Stopped)
    (fun s' => counts s' = plus_refs (if elements_found env then 1 else 0) (counts s)) s.
Proof.
  unfold run_attempt, elements_found. wstep. unfold wlp at 1, lift at 1.
  destruct (ae_create_directories env) as [u|w]; [|by rewrite plus_refs_0].
  wstep. wstep. destruct (ae_launch env) as [message|message|].
  - wstep. by rewrite plus_refs_0.
  - repeat wstep. by rewrite !counts_add_refs, counts_say, plus_refs_plus.
  - wstep. wstep. wstep. wstep. cbv zeta. set (s1 := _ {{ i_first_rtp_buffer_seen := false }}{{_ := _}}).
    assert (counts s1 = plus_refs 1 (counts s)) as E1 by done. clearbody s1.
    do 3 wstep. eapply wlp_weaken; [apply configure_source_counts| |].
    2: { intros s2 [-> E2]. rewrite counts_add_refs, E2, E1, plus_refs_plus. done. }
    intros u1 s2 [-> E2]. cbn [andb]. wstep. eapply wlp_weaken; [apply connect_callbacks_counts| |].
    2: { intros s3 E3. rewrite counts_add_refs, E3, E2, E1, !plus_refs_plus.
         destruct (complete _); by rewrite ?plus_refs_0. }
    intros u2 s3 (-> & _ & E3). wstep. do 2 wstep.
    eapply wlp_weaken; [apply stream_counts| |].
    + intros r s4 E4. wstep. wstep. wstep. exists r. split; [|done].
      rewrite counts_add_refs, E4, counts_add_refs, E3, E2, E1, ended_plus, ended_plus, !plus_refs_plus.
      by rewrite plus_refs_0.
    + intros s4 E4. rewrite counts_add_refs, E4, counts_add_refs, E3, E2, E1, !plus_refs_plus. done.
Qed.

(** ** First buffers *)

(** The channel's counter of first buffers moves at most once while an attempt lasts. *)
Definition first_rel (s s' : IngestState) : Prop :=
  (i_first_buffers s' = i_first_buffers s /\ i_first_buffer_seen s' = i_first_buffer_seen s) \/
  (i_first_buffer_seen s = false /\ i_first_buffer_seen s' = true /\
   i_first_buffers s' = fetch_add1 (i_first_buffers s)).

#[export] Instance first_rel_preorder : PreOrder first_rel.
Proof.
  split.
  - intros s. by left.
  - intros s1 s2 s3 [[E1 E2]|(E1 & E2 & E3)] [[F1 F2]|(F1 & F2 & F3)]; unfold first_rel; rewrite ?F1, ?F2, ?F3;
      try (left; split; congruence); try (right; split_and!; congruence).
Qed.

Lemma first_rel_same s s' :
  i_first_buffers s' = i_first_buffers s -> i_first_buffer_seen s' = i_first_buffer_seen s -> first_rel s s'.
Proof. intros. by left. Qed.

Lemma first_rel_callbacks context cbs s : first_rel s (fold_left (run_callback context) cbs s).
Proof.
  revert s; induction cbs as [|cb cbs IH]; intros s; cbn [fold_left]; [by left|].
  etrans; [|apply IH].
  destruct cb as [now [] b|now [] b|now|now [[n m]|]|b|]; cbn [run_callback]; try by left.
  - unfold on_ingest_buffer. cbn [negb]. destruct (i_attempt_first_buffer_seen s); [by left|].
    destruct s as [[] ? ? fb ? ? ? ? ? ? ? ? ? ? ?]; [by left|by right].
  - unfold on_rtp_buffer. cbn [negb]. destruct (i_first_rtp_buffer_seen s); by left.
  - unfold on_source_pad_added. destruct (negb _); by left.
  - unfold on_live_handoff. cbv zeta. destruct (i_sink _), b as [b|]; try by left. destruct (gb_map b); by left.
  - unfold on_live_queue_overrun. cbv zeta. destruct (_ || _); by left.
Qed.

Ltac first_kept := repeat keeps_step; try (by left); try apply first_rel_callbacks.

Lemma handle_bus_element_first config e : keeps first_rel (handle_bus_element config e).
Proof.
  unfold handle_bus_element, handle_element_message.
  first_kept.
Qed.

Lemma bus_loop_first context deadline turns : keeps first_rel (bus_loop context deadline turns).
Proof.
  induction turns as [|t turns IH]; cbn [bus_loop]; [by keeps_step|].
  unfold run_callbacks, handle_bus_error, handle_bus_eos, pipeline_error.
  first_kept; auto using handle_bus_element_first.
Qed.

Lemma drain_loop_first context deadline turns : keeps first_rel (drain_loop context deadline turns).
Proof.
  induction turns as [|t turns IH]; cbn [drain_loop]; [by keeps_step|].
  unfold run_callbacks. first_kept; auto using handle_bus_element_first.
Qed.

Lemma run_attempt_first config attempt env : keeps first_rel (run_attempt config attempt env).
Proof.
  unfold run_attempt, configure_source, connect_callbacks, stream, lookup_element, unref, pipeline_error.
  first_kept; auto using bus_loop_first, drain_loop_first.
Qed.

(** ** The loop of attempts *)

(** Between two attempts: every attempt so far was followed by a reconnect, and ended with
    a pipeline error or an end of stream. *)
Record between (s : IngestState) : Prop := {
  bt_reconnects : i_reconnects s = i_connection_attempts s;
  bt_ends : i_pipeline_errors s + i_eos_events s = i_connection_attempts s;
  bt_errors : 0 <= i_pipeline_errors s;
  bt_eos : 0 <= i_eos_events s;
  bt_first : 0 <= i_first_buffers s <= i_connection_attempts s;
  bt_refs : i_refs s = 0
}.

(** What holds of the counters when the worker ends. *)
Record accounted (s : IngestState) : Prop := {
  ac_ends : 0 <= i_reconnects s <= i_pipeline_errors s + i_eos_events s;
  ac_attempts : i_pipeline_errors s + i_eos_events s <= i_connection_attempts s;
  ac_reconnects : i_connection_attempts s <= i_reconnects s + 1;
  ac_first : 0 <= i_first_buffers s <= i_connection_attempts s
}.

Lemma first_rel_bound s s' a :
  first_rel s s' -> 0 <= i_first_buffers s -> i_first_buffers s + 1 <= a < 18446744073709551616 ->
  0 <= i_first_buffers s' <= a.
Proof. intros [[-> _]|(_ & _ & ->)] H0 Ha; [lia|]. unfold fetch_add1, u64. rewrite Z.mod_small; lia. Qed.

(** One attempt, started between attempts. *)
Lemma attempt_accounted config attempt env s s1 r s2 :
  between s -> i_connection_attempts s + 1 < 18446744073709551616 ->
  attempt = i_connection_attempts s + 1 ->
  counts s1 = (counts s) {{ k_attempts := attempt; k_first := k_first (counts s1) }} ->
  i_first_buffers s1 = i_first_buffers s ->
  run_attempt config attempt env s1 = Some (r, s2) ->
  accounted s2 /\ i_connection_attempts s2 = attempt /\ i_reconnects s2 = i_reconnects s /\
  match r with
  | Ok res => i_refs s2 = 0 /\ (res <> Stopped -> i_pipeline_errors s2 + i_eos_events s2 = attempt) /\
              0 <= i_pipeline_errors s2 /\ 0 <= i_eos_events s2
  | Throw _ => 0 <= i_refs s2 <= 1
  end.
Proof.
  intros [Hr He Hp Hq Hf Hrefs] Hlt -> E1 Ef Hrun.
  pose proof (run_attempt_counts config (i_connection_attempts s + 1) env s1) as Hc.
  pose proof (run_attempt_first config (i_connection_attempts s + 1) env s1) as Hfirst.
  unfold wlp in Hc, Hfirst. rewrite Hrun in Hc, Hfirst.
  assert (0 <= i_first_buffers s2 <= i_connection_attempts s + 1) as Hfb.
  { eapply first_rel_bound; [destruct r; exact Hfirst|lia|]. rewrite Ef. lia. }
  assert (counts s2 = counts s2) as E2 by done. unfold counts at 2 in E2.
  destruct r as [res|w].
  - destruct Hc as (r0 & Hc & Hres). rewrite Hc, E1 in E2.
    assert (fetch_add1 (i_pipeline_errors s) = i_pipeline_errors s + 1) as Fe by (unfold fetch_add1, u64; apply Z.mod_small; lia).
    assert (fetch_add1 (i_eos_events s) = i_eos_events s + 1) as Fq by (unfold fetch_add1, u64; apply Z.mod_small; lia).
    unfold counts in E2. destruct r0; cbn in E2; unfold constant in E2; injection E2 as E2a E2b E2c E2d _ E2e;
      rewrite ?Fe, ?Fq in *.
    all: split; [constructor; lia|]; split; [lia|]; split; [lia|]; split; [lia|]; split; [|lia].
    + intros Hs. destruct (ae_running env); subst res; done.
    + lia.
    + lia.
  - set (n := if elements_found env then 1 else 0) in Hc. assert (0 <= n <= 1) as Hn by (unfold n; destruct (elements_found env); lia).
    rewrite Hc, E1 in E2. unfold counts in E2. cbn in E2. unfold constant in E2.
    injection E2 as E2a E2b E2c E2d _ E2e. split; [constructor; lia|]. lia.
Qed.

Lemma between_accounted s : between s -> accounted s.
Proof. intros []. constructor; lia. Qed.

Lemma begin_attempt_run config attempt s :
  exists s', begin_attempt config attempt s = Some (Ok tt, s') /\
    counts s' = (counts s) {{ k_attempts := attempt; k_first := k_first (counts s') }} /\
    i_first_buffers s' = i_first_buffers s.
Proof. eexists. split; [unfold begin_attempt, modify, mbind, act_bind; reflexivity|done]. Qed.

Lemma note_reconnect_run config res s :
  exists s', note_reconnect config res s = Some (Ok tt, s') /\
    i_reconnects s' = fetch_add1 (i_reconnects s) /\ i_connection_attempts s' = i_connection_attempts s /\
    i_pipeline_errors s' = i_pipeline_errors s /\ i_eos_events s' = i_eos_events s /\
    i_first_buffers s' = i_first_buffers s /\ i_refs s' = i_refs s.
Proof. eexists. split; [unfold note_reconnect, get, modify, mbind, act_bind; reflexivity|done]. Qed.

Lemma run_loop_accounted config rounds s r s' :
  between s -> i_connection_attempts s + zlen rounds < 18446744073709551616 ->
  run_loop config rounds s = Some (r, s') ->
  accounted s' /\ match r with Ok _ => i_refs s' = 0 | Throw _ => 0 <= i_refs s' <= 1 end.
Proof.
  revert s; induction rounds as [|ro rounds IH]; intros s Hb Hlt Hrun; [done|].
  rewrite zlen_cons in Hlt. pose proof (zlen_nonneg rounds) as Hz. cbn [run_loop] in Hrun.
  destruct (ro_running ro); cbn [negb] in Hrun.
  2: { injection Hrun as <- <-. split; [by apply between_accounted|apply Hb]. }
  unfold mbind at 1, act_bind at 1, get at 1 in Hrun. cbv zeta in Hrun.
  assert (fetch_add1 (i_connection_attempts s) = i_connection_attempts s + 1) as Fa.
  { destruct Hb. unfold fetch_add1, u64. apply Z.mod_small. lia. }
  rewrite Fa in Hrun. set (att := i_connection_attempts s + 1) in *.
  destruct (begin_attempt_run config att s) as (s1 & Hbegin & Ec1 & Ef1).
  unfold mbind at 1, act_bind at 1 in Hrun. rewrite Hbegin in Hrun. unfold mbind at 1, act_bind at 1 in Hrun.
  destruct (run_attempt config att (ro_env ro) s1) as [[res s2]|] eqn:Hatt; [|done].
  destruct (attempt_accounted config att (ro_env ro) s s1 res s2 Hb ltac:(lia) eq_refl Ec1 Ef1 Hatt)
    as (Hacc & Ha & Hr & Hres).
  destruct res as [res|w]; [|by injection Hrun as <- <-]. destruct Hres as (Hrefs & Hend & Hp & Hq).
  destruct (negb (ro_running_after ro) || bool_decide (res = Stopped)) eqn:Estop.
  { injection Hrun as <- <-. done. }
  apply orb_false_iff in Estop as [_ Hne%bool_decide_eq_false].
  destruct (note_reconnect_run config res s2) as (s3 & Hn & N1 & N2 & N3 & N4 & N5 & N6).
  unfold mbind at 1, act_bind at 1 in Hrun. rewrite Hn in Hrun.
  unfold mbind at 1, act_bind at 1, defined at 1 in Hrun.
  assert (between s3) as Hb3.
  { destruct Hacc, Hb. specialize (Hend Hne).
    assert (fetch_add1 (i_reconnects s2) = i_reconnects s2 + 1) as Fr
      by (unfold fetch_add1, u64; apply Z.mod_small; lia).
    rewrite Fr in N1. constructor; lia. }
  destruct (wait_before_reconnect config (ro_wait ro)) as [[w slept]|]; cbn in Hrun; [|done].
  destruct w; cbn in Hrun.
  - apply (IH s3); [done|lia|done].
  - injection Hrun as <- <-. split; [by apply between_accounted|apply Hb3].
Qed.

(** C19: The accounting of a worker is exact.  Over any number of attempts, with any
    callbacks and bus messages, when [run] ends: every reconnect followed an attempt that
    ended with a pipeline error or an end of stream, at most the last attempt was not
    followed by one, no attempt is counted as ended twice or has two first buffers, and
    the worker returns 0 holding no GStreamer reference; when it throws it holds at most
    one. *)
Theorem run_accounted config rounds db sink r s :
  zlen rounds < 18446744073709551616 ->
  run config rounds (ingest_state db sink) = Some (r, s) ->
  0 <= i_reconnects s <= i_pipeline_errors s + i_eos_events s /\
  i_pipeline_errors s + i_eos_events s <= i_connection_attempts s <= i_reconnects s + 1 /\
  0 <= i_first_buffers s <= i_connection_attempts s /\
  match r with Ok code => code = 0 /\ i_refs s = 0 | Throw _ => 0 <= i_refs s <= 1 end.
Proof.
  intros Hlt Hrun. unfold run in Hrun. unfold mbind at 1, act_bind at 1 in Hrun.
  destruct (run_loop config rounds (ingest_state db sink)) as [[r0 s0]|] eqn:E; [|done].
  destruct (run_loop_accounted config rounds (ingest_state db sink) r0 s0) as [[H1 H2 H3 H4] Hrefs]; try done.
  destruct r0 as [[]|w]; injection Hrun as <- <-; cbn; done.
Qed.

(** A worker whose camera ends the stream once and that is stopped during the second
    attempt. *)
Definition all_elements : Elements :=
  {| el_source := true; el_tee := true; el_recording_sink := true; el_live_queue := true; el_live_sink := true;
     el_tee_sink := true |}.

Definition sample_buffer : GstBuffer :=
  {| gb_map := Some [0; 0; 1; 101]; gb_pts := 5; gb_dts := 18446744073709551615; gb_duration := 33; gb_delta_unit := false |}.

Definition quiet_turn (now : Z) (message : option BusMessage) : Turn :=
  {| tn_callbacks := []; tn_running := true; tn_now := now; tn_waiting := []; tn_message := message |}.

Definition stop_turn : Turn :=
  {| tn_callbacks := []; tn_running := false; tn_now := 0; tn_waiting := []; tn_message := None |}.

Definition sample_env (turns drain : list Turn) : AttemptEnv :=
  {| ae_create_directories := Ok tt; ae_utc := 1767323045; ae_launch := Launched; ae_started_at := 0;
     ae_source := true; ae_elements := all_elements; ae_begin := 0; ae_playing := true; ae_turns := turns;
     ae_eos_sent := true; ae_drain_begin := 0; ae_drain := drain; ae_running := true |}.

Definition sample_rounds : list Round :=
  [{| ro_running := true;
      ro_env := sample_env
        [{| tn_callbacks := [CbSdp 1; CbIngestBuffer 2 true (Some sample_buffer); CbHandoff (Some sample_buffer)];
            tn_running := true; tn_now := 3; tn_waiting := []; tn_message := Some MsgEos |}] [];
      ro_running_after := true; ro_wait := fun _ => true |};
   {| ro_running := true; ro_env := sample_env [stop_turn] [quiet_turn 1 (Some MsgEos)];
      ro_running_after := false; ro_wait := fun _ => false |}].

Lemma run_accounted_witness :
  exists s, run worker_config sample_rounds (ingest_state empty_db None) = Some (Ok 0, s) /\
    i_connection_attempts s = 2 /\ i_reconnects s = 1 /\ i_first_buffers s = 1 /\ i_refs s = 0.
Proof.
  assert (exists s, run worker_config sample_rounds (ingest_state empty_db None) = Some (Ok 0, s)) as [s H]
    by (eexists; vm_compute; reflexivity).
  exists s. split; [exact H|].
  destruct (run_accounted worker_config sample_rounds empty_db None (Ok 0) s ltac:(by vm_compute) H)
    as (_ & _ & _ & _ & Hr).
  vm_compute in H. injection H as <-. cbn in *. split_and!; [reflexivity..|exact Hr].
Defined.

(** ** Attempts end *)

(** The callbacks of [cbs] include no buffer of the camera. *)
Definition no_buffer (cb : Callback) : Prop :=
  match cb with CbIngestBuffer _ is_buffer _ => is_buffer = false | _ => True end.

Definition no_buffers (t : Turn) : Prop := Forall no_buffer (tn_callbacks t) /\ Forall no_buffer (tn_waiting t).

Lemma no_buffer_seen context cbs s :
  Forall no_buffer cbs ->
  i_attempt_first_buffer_seen (fold_left (run_callback context) cbs s) = i_attempt_first_buffer_seen s.
Proof.
  intros H. revert s. induction H as [|cb cbs Hcb _ IH]; intros s; cbn [fold_left]; [done|]. rewrite IH.
  destruct cb as [now ib b|now ib b|now|now [[n m]|]|b|]; cbn [run_callback] in *; try done.
  - by rewrite Hcb.
  - unfold on_rtp_buffer. destruct (negb ib); [done|]. by destruct (i_first_rtp_buffer_seen s).
  - unfold on_source_pad_added. by destruct (negb _).
  - unfold on_live_handoff. cbv zeta. destruct (i_sink _), b as [b|]; try done. by destruct (gb_map b).
  - unfold on_live_queue_overrun. cbv zeta. by destruct (_ || _).
Qed.

(** Code that has an outcome whatever the state. *)
Definition total {S A} (m : act S A) : Prop := forall s, is_Some (m s).

Lemma total_bind {S A B} (m : act S A) (f : A -> act S B) : total m -> (forall a, total (f a)) -> total (m ≫= f).
Proof.
  intros Hm Hf s. unfold mbind, act_bind. destruct (Hm s) as [[[a|w] s'] ->]; [apply Hf|by eexists].
Qed.

Lemma total_on_throw {S A} (m : act S A) f : total m -> total (on_throw m f).
Proof. intros Hm s. unfold on_throw. destruct (Hm s) as [[[a|w] s'] ->]; by eexists. Qed.

Ltac total_step :=
  lazymatch goal with
  | |- total (_ ≫= _) => apply total_bind; [|intros ?]
  | |- total (on_throw _ _) => apply total_on_throw
  | |- total (mret _) => intros ?; by eexists
  | |- total get => intros ?; by eexists
  | |- total (modify _) => intros ?; by eexists
  | |- total (throw _) => intros ?; by eexists
  | |- total (lift _) => intros ?; by eexists
  | |- total (match ?x with _ => _ end) => destruct x
  end.

Lemma handle_bus_element_total config e : total (handle_bus_element config e).
Proof. unfold handle_bus_element, handle_element_message. repeat total_step. Qed.

(** The messages that end a loop over the bus. *)
Definition ends_message (m : option BusMessage) : bool :=
  match m with
  | Some (MsgError _ _) | Some MsgEos => true
  | _ => false
  end.

(** A stop ends the bus loop at the turn that sees it, an error and the end of stream at the
    turn that reports them. *)
Lemma bus_loop_ends context deadline turns :
  Exists (fun t => tn_running t = false \/ ends_message (tn_message t) = true) turns ->
  total (bus_loop context deadline turns).
Proof.
  intros H. induction H as [t turns [Ht|Ht]|t turns _ IH]; cbn [bus_loop];
    unfold run_callbacks, handle_bus_error, handle_bus_eos, pipeline_error.
  - rewrite Ht. cbn [negb]. repeat total_step.
  - destruct (tn_message t) as [[message debug| |e]|]; [| |done|done]; repeat total_step.
  - repeat total_step; auto using handle_bus_element_total.
Qed.

Lemma drain_loop_ends context deadline turns :
  Exists (fun t => deadline <= tn_now t \/ ends_message (tn_message t) = true) turns ->
  total (drain_loop context deadline turns).
Proof.
  intros H. induction H as [t turns [Ht|Ht]|t turns _ IH]; cbn [drain_loop]; unfold run_callbacks.
  - replace (tn_now t <? deadline) with false by lia. cbn [negb]. repeat total_step.
  - destruct (tn_message t) as [[message debug| |e]|]; [| |done|done]; repeat total_step.
  - repeat total_step; auto using handle_bus_element_total.
Qed.

(** The flag of the attempt stays as it is. *)
Definition same_flag (a b : IngestState) : Prop := i_attempt_first_buffer_seen b = i_attempt_first_buffer_seen a.

#[export] Instance same_flag_preorder : PreOrder same_flag.
Proof. split; [by intros ?|unfold same_flag; intros a b c Ha Hb; congruence]. Qed.

Lemma handle_bus_element_flag config e : keeps same_flag (handle_bus_element config e).
Proof. unfold handle_bus_element, handle_element_message. repeat keeps_step; done. Qed.

(** A camera that delivers nothing is given up: the loop ends at the first turn past the
    deadline, whatever else it reports. *)
Lemma bus_loop_times_out context deadline turns s :
  i_attempt_first_buffer_seen s = false -> Forall no_buffers turns ->
  Exists (fun t => deadline <= tn_now t) turns -> is_Some (bus_loop context deadline turns s).
Proof.
  intros Hseen Hq H. revert s Hseen Hq. induction turns as [|t turns IH]; intros s Hseen Hq.
  { by apply Exists_nil in H. }
  apply Forall_cons in Hq as [[Hq1 Hq2] Hq]. cbn [bus_loop].
  unfold mbind at 1, act_bind at 1, run_callbacks at 1, modify at 1.
  set (s1 := fold_left _ _ s). assert (i_attempt_first_buffer_seen s1 = false) as H1
    by (unfold s1; by rewrite no_buffer_seen).
  destruct (tn_running t); cbn [negb]; [|by eexists].
  unfold mbind at 1, act_bind at 1, get at 1. rewrite H1. cbn [negb andb]. rewrite Z.geb_leb.
  destruct (Z.leb_spec deadline (tn_now t)) as [Hle|Hgt]; [by eexists|].
  apply Exists_cons in H as [H|H]; [lia|]. specialize (IH H).
  unfold mbind at 1, act_bind at 1, run_callbacks at 1, modify at 1.
  set (s2 := fold_left _ _ s1). assert (i_attempt_first_buffer_seen s2 = false) as H2
    by (unfold s2; by rewrite no_buffer_seen).
  destruct (tn_message t) as [[message debug| |e]|]; [| | |by apply IH].
  - assert (total (_ ← handle_bus_error (cx_config context) message debug; mret PipelineError)) as Ht; [|apply Ht].
    unfold handle_bus_error, pipeline_error. repeat total_step.
  - by eexists.
  - unfold mbind at 1, act_bind at 1.
    destruct (handle_bus_element (cx_config context) e s2) as [[[u|w] s3]|] eqn:Ee;
      [|by eexists|by destruct (handle_bus_element_total (cx_config context) e s2) as [? Hx]; rewrite Hx in Ee].
    apply IH; [|done].
    pose proof (handle_bus_element_flag (cx_config context) e) as Hk.
    specialize (Hk s2). unfold wlp in Hk. rewrite Ee in Hk. by rewrite Hk.
Qed.

(** [m] has an outcome, and if it returns, [Q] holds. *)
Definition ends {S A} (m : act S A) (Q : A -> S -> Prop) (s : S) : Prop :=
  match m s with
  | None => False
  | Some (Ok a, s') => Q a s'
  | Some (Throw _, _) => True
  end.

Lemma ends_bind {S A B} (m : act S A) (f : A -> act S B) Q s :
  ends m (fun a s' => ends (f a) Q s') s -> ends (m ≫= f) Q s.
Proof. unfold ends, mbind, act_bind. by destruct (m s) as [[[a|w] s']|]. Qed.

Lemma ends_on_throw {S A} (m : act S A) f Q s : ends m Q s -> ends (on_throw m f) Q s.
Proof. unfold ends, on_throw. by destruct (m s) as [[[a|w] s']|]. Qed.

Lemma ends_keeps {S A} (R : relation S) (m : act S A) (Q : A -> S -> Prop) s :
  total m -> keeps R m -> (forall a s', R s s' -> Q a s') -> ends m Q s.
Proof.
  intros Ht Hk HQ. specialize (Ht s). specialize (Hk s). unfold ends. unfold wlp in Hk.
  destruct (m s) as [[[a|w] s']|]; [by apply HQ|done|by destruct Ht].
Qed.

Lemma ends_total {S A} (m : act S A) s : total m -> ends m (fun _ _ => True) s.
Proof. intros Ht. specialize (Ht s). unfold ends. destruct (m s) as [[[a|w] s']|]; [done|done|by destruct Ht]. Qed.

Lemma ends_modify {S} (f : S -> S) (Q : unit -> S -> Prop) s : Q tt (f s) -> ends (modify f) Q s.
Proof. done. Qed.

Lemma ends_lift {S A} (r : result A) (Q : A -> S -> Prop) s : (forall a, r = Ok a -> Q a s) -> ends (lift r) Q s.
Proof. unfold ends, lift. destruct r; auto. Qed.

Lemma ends_is_Some {S A} (m : act S A) Q s : ends m Q s -> is_Some (m s).
Proof. unfold ends. by destruct (m s) as [[[a|w] s']|]. Qed.

Definition startup_deadline (config : ChannelIngestConfig) (env : AttemptEnv) : Z :=
  ae_begin env + startup_timeout_ms config * 1000000.

(** The environment ends the bus loop: the program is stopped, the pipeline reports an error
    or its end, or no buffer arrives before the deadline. *)
Definition loop_ends (config : ChannelIngestConfig) (env : AttemptEnv) : Prop :=
  Exists (fun t => tn_running t = false \/ ends_message (tn_message t) = true) (ae_turns env) \/
  (Forall no_buffers (ae_turns env) /\ Exists (fun t => startup_deadline config env <= tn_now t) (ae_turns env)).

(** The drain after a stop ends: ten seconds pass, or the pipeline reports its end or an
    error. *)
Definition drain_ends (env : AttemptEnv) : Prop :=
  Exists (fun t => ae_drain_begin env + 10000000000 <= tn_now t \/ ends_message (tn_message t) = true) (ae_drain env).

Lemma stream_ends context env s :
  loop_ends (cx_config context) env -> drain_ends env ->
  i_attempt_first_buffer_seen s = false -> ends (stream context env) (fun _ _ => True) s.
Proof.
  intros Hl Hd Hs. unfold stream. cbv zeta. apply ends_bind.
  assert (forall r, total (_ ← (if bool_decide (r = Stopped) && ae_eos_sent env
       then drain_loop context (ae_drain_begin env + 10 * 1000000000) (ae_drain env) else mret tt);
     (mret r : act IngestState AttemptResult))) as Hrest.
  { intros r. repeat total_step. by apply drain_loop_ends. }
  destruct (ae_playing env); [|exact (ends_total _ _ (Hrest PipelineError))].
  assert (is_Some (bus_loop context (startup_deadline (cx_config context) env) (ae_turns env) s)) as [[r s'] Hb].
  { destruct Hl as [Hl|[Hq Hl]]; [by apply bus_loop_ends|by apply bus_loop_times_out]. }
  unfold startup_deadline in Hb. unfold ends at 1. rewrite Hb. destruct r; [|done]. by apply ends_total.
Qed.

Lemma run_attempt_ends config attempt env s :
  loop_ends config env -> drain_ends env ->
  is_Some (run_attempt config attempt env s).
Proof.
  intros Hl Hd. apply (ends_is_Some _ (fun _ _ => True)). unfold run_attempt.
  apply ends_bind, ends_lift. intros u0 _. apply ends_bind, ends_modify.
  destruct (ae_launch env); [done|done|].
  do 2 apply ends_bind, ends_modify. cbv zeta. apply ends_bind, ends_on_throw.
  apply (ends_keeps same_flag).
  - unfold configure_source, connect_callbacks, lookup_element, unref. repeat total_step.
  - unfold configure_source, connect_callbacks, lookup_element, unref. repeat keeps_step; done.
  - intros u s' Hs. apply ends_bind, ends_on_throw.
    pose proof (stream_ends {| cx_config := config; cx_attempt := attempt; cx_started_at := ae_started_at env |}
                  env s' Hl Hd) as Hst.
    unfold same_flag in Hs. cbn in Hs. specialize (Hst Hs). revert Hst. unfold ends.
    destruct (stream _ env s') as [[[r|w] s'']|]; done.
Qed.

(** Why an attempt reports [r]. *)
Definition reason (config : ChannelIngestConfig) (env : AttemptEnv) (r : AttemptResult) : Prop :=
  match r with
  | Stopped => ae_running env = false \/ Exists (fun t => tn_running t = false) (ae_turns env)
  | EndOfStream => Exists (fun t => tn_message t = Some MsgEos) (ae_turns env)
  | PipelineError =>
    ae_playing env = false \/
    Exists (fun t => exists message debug, tn_message t = Some (MsgError message debug)) (ae_turns env) \/
    Exists (fun t => startup_deadline config env <= tn_now t) (ae_turns env)
  end.

(** The turn that gave the result, whatever the state. *)
Definition turn_reason (deadline : Z) (turns : list Turn) (r : AttemptResult) : Prop :=
  Exists (fun t => match r with
                   | Stopped => tn_running t = false
                   | EndOfStream => tn_message t = Some MsgEos
                   | PipelineError => deadline <= tn_now t \/ exists message debug, tn_message t = Some (MsgError message debug)
                   end) turns.

Lemma wlp_any {S A} (m : act S A) s : wlp m (fun _ _ => True) (fun _ => True) s.
Proof. unfold wlp. by destruct (m s) as [[[]]|]. Qed.

Lemma bus_loop_reason context deadline turns s :
  wlp (bus_loop context deadline turns) (fun r _ => turn_reason deadline turns r) (fun _ => True) s.
Proof.
  revert s; induction turns as [|t turns IH]; intros s; [done|]. cbn [bus_loop]. unfold turn_reason in *.
  wstep. eapply wlp_mono; [apply wlp_any|]. intros u s1 _.
  destruct (tn_running t) eqn:Er; cbn [negb]; [|wstep; by constructor].
  do 2 wstep. destruct (_ && _) eqn:Ed.
  { wstep. eapply wlp_mono; [apply wlp_any|]. intros v s2 _. wstep. constructor. left.
    apply andb_true_iff in Ed as [_ Ed]. lia. }
  wstep. eapply wlp_mono; [apply wlp_any|]. intros v s2 _.
  assert (forall s3, wlp (bus_loop context deadline turns) (fun r _ => turn_reason deadline (t :: turns) r) (fun _ => True) s3)
    as Hrest by (intros s3; eapply wlp_mono; [apply IH|]; intros r s4 Hr; by apply Exists_cons_tl).
  destruct (tn_message t) as [[message debug| |e]|] eqn:Em; [| | |apply Hrest];
    wstep; (eapply wlp_mono; [apply wlp_any|]); intros w s3 _.
  - wstep. constructor. right. eauto.
  - wstep. by constructor.
  - apply Hrest.
Qed.

Lemma stream_reason context env s :
  wlp (stream context env) (fun r _ => reason (cx_config context) env r) (fun _ => True) s.
Proof.
  unfold stream. cbv zeta. wstep. eapply wlp_mono.
  - instantiate (1 := fun r _ => reason (cx_config context) env r).
    destruct (ae_playing env) eqn:Ep; [|by left].
    eapply wlp_mono; [apply bus_loop_reason|]. intros r s1 Hr. unfold turn_reason in Hr.
    destruct r; cbn; [by right| |done]. right. apply List.Exists_exists in Hr as (t & Hin & [Ht|Ht]);
      [right|left]; apply List.Exists_exists; eauto.
  - intros r s1 Hr. wstep. eapply wlp_mono; [apply wlp_any|]. intros u s2 _. by wstep.
Qed.

Lemma run_attempt_reason config attempt env s :
  wlp (run_attempt config attempt env) (fun r _ => reason config env r) (fun _ => True) s.
Proof.
  unfold run_attempt. wstep. eapply wlp_mono; [apply wlp_any|]. intros u s1 _.
  wstep. eapply wlp_mono; [apply wlp_any|]. intros v s2 _. destruct (ae_launch env); [done|done|].
  do 4 wstep. cbv zeta. wstep. eapply wlp_mono; [apply wlp_any|]. intros w s3 _. wstep.
  unfold on_throw. pose proof (stream_reason {| cx_config := config; cx_attempt := attempt; cx_started_at := ae_started_at env |}
    env s3) as H. unfold wlp in H |- *.
  destruct (stream _ env s3) as [[[r|e] s4]|]; [|done|done]. cbn. destruct (ae_running env) eqn:Er; [done|by left].
Qed.

(** C20: An attempt ends when the program is stopped, when the pipeline reports an error or
    the end of the stream, and when the camera delivers no buffer before the startup
    deadline, whatever GStreamer reports meanwhile; the drain that follows a stop ends
    after ten seconds or with the end of the stream.  The result says why: stopped only
    after a stop, end of stream only if it was reported, a pipeline error only for a
    pipeline that did not play, an error reported or the deadline passed. *)
Theorem attempt_ends config attempt env s :
  loop_ends config env -> drain_ends env ->
  exists r s', run_attempt config attempt env s = Some (r, s') /\
    match r with Ok result => reason config env result | Throw _ => True end.
Proof.
  intros Hl Hd.
  assert (is_Some (run_attempt config attempt env s)) as [[r s'] Hr] by by apply run_attempt_ends.
  exists r, s'. split; [done|]. pose proof (run_attempt_reason config attempt env s) as H.
  unfold wlp in H. rewrite Hr in H. by destruct r.
Qed.

Lemma attempt_ends_witness :
  let env := sample_env [quiet_turn 1 (Some (MsgError None None))] [quiet_turn 20000000000 None] in
  exists r s', run_attempt worker_config 1 env (ingest_state empty_db None) = Some (r, s') /\
    match r with Ok result => reason worker_config env result | Throw _ => True end.
Proof.
  apply attempt_ends.
  - left. constructor. by right.
  - constructor. by left.
Defined.

(** ** The wait between attempts *)

(** The wait before a reconnect ends, never lasts longer than configured, lasts exactly
    as long and reports that the worker goes on while nothing stops it, and a stop is
    noticed within one slice of 100 ms. *)
Lemma wait_bounded config running :
  exists goes_on slept_ms, wait_before_reconnect config running = Some (goes_on, slept_ms) /\
    0 <= slept_ms <= Z.max 0 (reconnect_delay_ms config) /\
    ((forall i, running i = true) -> goes_on = true /\ slept_ms = Z.max 0 (reconnect_delay_ms config)) /\
    (forall i, running i = false -> slept_ms <= 100 * Z.of_nat i).
Proof.
  destruct (wait_loop_spec (S (Z.to_nat (reconnect_delay_ms config))) running 0 (reconnect_delay_ms config) 0)
    as (b & t & H & H1 & H2 & H3); [lia|].
  exists b, t. split; [exact H|]. split; [lia|]. split; [done|].
  intros i Hi. specialize (H3 i ltac:(lia) Hi). lia.
Qed.

(** ** References on the error paths *)

(** C35: The references to GStreamer objects: an attempt that returns gives back every one
    it took; an attempt that throws loses exactly one if it had found all its elements (the
    camera source when the tee has no sink pad, the bus message when the index refuses a
    segment), and none before. *)
Theorem attempt_references config attempt env s r s' :
  run_attempt config attempt env s = Some (r, s') ->
  i_refs s' = i_refs s + match r with
                         | Ok _ => 0
                         | Throw _ => if elements_found env then 1 else 0
                         end.
Proof.
  intros H. pose proof (run_attempt_counts config attempt env s) as Hc. unfold wlp in Hc. rewrite H in Hc.
  destruct r as [res|w].
  - destruct Hc as (r0 & Hc & _). apply (f_equal k_refs) in Hc. rewrite Z.add_0_r. by destruct r0.
  - by apply (f_equal k_refs) in Hc.
Qed.

Definition no_tee_sink : AttemptEnv :=
  {| ae_create_directories := Ok tt; ae_utc := 0; ae_launch := Launched; ae_started_at := 0; ae_source := true;
     ae_elements := {| el_source := true; el_tee := true; el_recording_sink := true; el_live_queue := true;
                       el_live_sink := true; el_tee_sink := false |};
     ae_begin := 0; ae_playing := true; ae_turns := []; ae_eos_sent := true; ae_drain_begin := 0; ae_drain := [];
     ae_running := true |}.

Lemma attempt_references_witness :
  exists s', run_attempt worker_config 1 no_tee_sink (ingest_state empty_db None) =
    Some (Throw $"ingest_tee is missing its sink pad", s') /\ i_refs s' = 1.
Proof.
  assert (exists s', run_attempt worker_config 1 no_tee_sink (ingest_state empty_db None) =
    Some (Throw $"ingest_tee is missing its sink pad", s')) as [s' H] by (eexists; vm_compute; reflexivity).
  exists s'. split; [exact H|]. exact (attempt_references worker_config 1 no_tee_sink (ingest_state empty_db None) _ s' H).
Defined.

(** ** Recorded segments *)

(** The two messages of splitmuxsink about one segment. *)
Definition fragment (name : bytes) (path : bytes) (now : Z) (size : option Z) : ElementMessage :=
  {| em_structure := Some (Some name, Some path); em_now := now; em_io := Ok tt; em_size := size |}.

Definition opened_message (path : bytes) (now : Z) : ElementMessage :=
  fragment $"splitmuxsink-fragment-opened" path now None.
Definition closed_message (path : bytes) (now : Z) (size : option Z) : ElementMessage :=
  fragment $"splitmuxsink-fragment-closed" path now size.

Lemma handle_opened config path now s db :
  mark_segment_opened (ic_channel_id config) path $"mp4" (to_codec_name (ic_codec config)) (now_utc now) (Ok tt)
    (i_index s) = Ok db ->
  exists s', handle_bus_element config (opened_message path now) s = Some (Ok tt, s') /\ i_index s' = db.
Proof.
  intros H. eexists.
  unfold handle_bus_element, handle_element_message, mbind, act_bind, modify, get, lift.
  cbn [em_structure opened_message fragment]. rewrite str_eqb_refl. cbn [em_now em_io opened_message fragment].
  change (i_index (add_refs 1 s)) with (i_index s). rewrite H. by split.
Qed.

Lemma handle_closed config path now size s :
  exists s', handle_bus_element config (closed_message path now size) s = Some (Ok tt, s') /\
    i_index s' = {| db_channels := db_channels (i_index s);
                    db_segments := complete_row path (now_utc now) (file_size_or_zero size) <$> db_segments (i_index s);
                    db_next_id := db_next_id (i_index s) |}.
Proof.
  eexists. unfold handle_bus_element, handle_element_message, mbind, act_bind, modify, get, lift.
  cbn [em_structure closed_message fragment].
  replace (str_eqb _ _) with false by reflexivity. rewrite str_eqb_refl. cbn [em_now em_io em_size closed_message fragment].
  change (i_index (add_refs 1 s)) with (i_index s). by split.
Qed.

(** A segment that is opened under a new path and closed later is one more complete row. *)
Lemma segment_recorded config path t0 t1 size s :
  path ∉ (sg_path <$> db_segments (i_index s)) ->
  exists s1 s2,
    handle_bus_element config (opened_message path t0) s = Some (Ok tt, s1) /\
    handle_bus_element config (closed_message path t1 size) s1 = Some (Ok tt, s2) /\
    db_channels (i_index s2) = db_channels (i_index s) /\
    db_segments (i_index s2) = db_segments (i_index s) ++
      [{| sg_id := db_next_id (i_index s); sg_channel := ic_channel_id config; sg_path := path;
          sg_container := $"mp4"; sg_codec := to_codec_name (ic_codec config); sg_start := now_utc t0;
          sg_end := Some (now_utc t1); sg_size := Some (file_size_or_zero size); sg_complete := true |}].
Proof.
  intros Hnew.
  destruct (handle_opened config path t0 s _ (opened_new _ _ _ _ _ _ Hnew)) as (s1 & H1 & E1).
  destruct (handle_closed config path t1 size s1) as (s2 & H2 & E2).
  exists s1, s2. split_and!; [done|done|by rewrite E2, E1|].
  rewrite E2, E1. cbn [db_segments]. rewrite fmap_app, complete_others by done. f_equal.
  cbn [fmap list_fmap]. unfold complete_row. cbn [sg_path]. by rewrite str_eqb_refl.
Qed.

(** C23: A segment from its name to its row.  As long as every indexed file exists, the
    location chosen for a segment is that of no file and of no row; when splitmuxsink opens
    and later closes it, the index gains exactly one row, complete, with the worker's
    channel and codec, both times and the size, and the other rows stay. *)
Theorem segment_lifecycle context files ms t0 t1 size s :
  0 <= ic_channel_id (cx_config context) -> 0 <= ms -> zlen files < 4294967295 ->
  (forall path, path ∈ (sg_path <$> db_segments (i_index s)) -> path ∈ files) ->
  exists location s1 s2,
    on_format_segment_location context (S (length files)) (in_files files) ms s = Some (Some location, s) /\
    (location ∉ files) /\
    handle_bus_element (cx_config context) (opened_message location t0) s = Some (Ok tt, s1) /\
    handle_bus_element (cx_config context) (closed_message location t1 size) s1 = Some (Ok tt, s2) /\
    db_segments (i_index s2) = db_segments (i_index s) ++
      [{| sg_id := db_next_id (i_index s); sg_channel := ic_channel_id (cx_config context); sg_path := location;
          sg_container := $"mp4"; sg_codec := to_codec_name (ic_codec (cx_config context)); sg_start := now_utc t0;
          sg_end := Some (now_utc t1); sg_size := Some (file_size_or_zero size); sg_complete := true |}].
Proof.
  intros Hc Hm Hl Hin.
  destruct (collision_loop_free files (cx_config context) ms Hc Hm (S (length files)) 0) as (k & Hk & Hloop & Hfree & _);
    [done|lia|unfold zlen; lia|lia|].
  destruct (segment_recorded (cx_config context) (build_segment_path (cx_config context) ms k) t0 t1 size s)
    as (s1 & s2 & H1 & H2 & _ & H3); [by intros H%Hin|].
  exists (build_segment_path (cx_config context) ms k), s1, s2.
  unfold on_format_segment_location. by rewrite Hloop.
Qed.

Definition sample_context : CallbackContext :=
  {| cx_config := worker_config; cx_attempt := 1; cx_started_at := 0 |}.

Lemma segment_lifecycle_witness :
  exists location s2, on_format_segment_location sample_context 2
      (in_files [build_segment_path worker_config sample_ms 0]) sample_ms (ingest_state empty_db None)
    = Some (Some location, ingest_state empty_db None) /\
    sg_path <$> db_segments (i_index s2) = [location] /\ sg_start <$> db_segments (i_index s2) = [$"2026-01-02T03:04:05Z"].
Proof.
  destruct (segment_lifecycle sample_context [build_segment_path worker_config sample_ms 0] sample_ms 1767323045 1767323105
              (Some 4096) (ingest_state empty_db None)) as (location & s1 & s2 & H1 & _ & _ & _ & Hrows);
    [by vm_compute..|by intros path H%elem_of_nil|].
  exists location, s2. split; [exact H1|]. rewrite Hrows. split; reflexivity.
Defined.

(** ** Live frames *)

Definition handoff_frame (config : ChannelIngestConfig) (cb : Callback) : option LiveEncodedFrameView :=
  match cb with
  | CbHandoff (Some b) => live_frame config b <$> gb_map b
  | _ => None
  end.

Definition is_handoff (cb : Callback) : bool := match cb with CbHandoff _ => true | _ => false end.

Lemma callback_live context sink s cb :
  i_sink s = Some sink ->
  i_sink (run_callback context s cb) =
    Some (match handoff_frame (cx_config context) cb with Some f => on_frame f sink | None => sink end) /\
  i_live_frames (run_callback context s cb) =
    (if is_handoff cb then fetch_add1 (i_live_frames s) else i_live_frames s).
Proof.
  intros Hs. destruct cb as [now [] b|now [] b|now|now [[n m]|]|b|]; cbn [run_callback handoff_frame is_handoff]; try done.
  - unfold on_ingest_buffer. cbn [negb]. destruct (i_attempt_first_buffer_seen s); [done|]. cbv zeta.
    by destruct (i_first_buffer_seen _).
  - unfold on_rtp_buffer. cbn [negb]. by destruct (i_first_rtp_buffer_seen s).
  - unfold on_source_pad_added. by destruct (negb _).
  - unfold on_live_handoff. cbv zeta. change (i_sink (s {{ i_live_frames ::= fetch_add1 }})) with (i_sink s).
    rewrite Hs. destruct b as [b|]; [|done]. by destruct (gb_map b).
  - unfold on_live_queue_overrun. cbv zeta. by destruct (_ || _).
Qed.

Lemma callbacks_counted context cbs sink s :
  i_sink s = Some sink ->
  u64 (i_live_frames (fold_left (run_callback context) cbs s)) =
  u64 (i_live_frames s + zlen (filter (fun cb => is_handoff cb = true) cbs)).
Proof.
  revert sink s. induction cbs as [|cb cbs IH]; intros sink s Hs; [by rewrite Z.add_0_r|].
  cbn [fold_left]. destruct (callback_live context sink s cb Hs) as [H1 H2].
  rewrite (IH _ _ H1), H2, filter_cons. destruct (is_handoff cb).
  - rewrite decide_True, zlen_cons by done. unfold fetch_add1. rewrite u64_idem_l. f_equal. lia.
  - by rewrite decide_False.
Qed.

(** The signed reading of 64 bits. *)
Definition signed64 (v : Z) : Z := (v + 9223372036854775808) mod 18446744073709551616 - 9223372036854775808.

Lemma buffer_clock_time_signed v : 0 <= v < 18446744073709551616 -> buffer_clock_time v = signed64 v.
Proof.
  intros Hv. unfold buffer_clock_time, signed64, i64_max.
  destruct (Z.eqb_spec v 18446744073709551615) as [->|_]; [done|]. destruct (Z.leb_spec v 9223372036854775807).
  - rewrite Z.mod_small; lia.
  - replace (v + 9223372036854775808) with (v - 9223372036854775808 + 1 * 18446744073709551616) by lia.
    rewrite Z_mod_plus_full, Z.mod_small; lia.
Qed.

(** The frame the clients are to get for a callback: a handoff of a buffer that can be
    mapped and is not empty, with what the buffer holds. *)
Definition published (config : ChannelIngestConfig) (cb : Callback) : option OwnedLiveFrame :=
  match cb with
  | CbHandoff (Some {| gb_map := Some (b :: data); gb_pts := pts; gb_duration := duration; gb_delta_unit := delta |}) =>
    Some {| f_data := b :: data; f_pts_ns := signed64 pts; f_duration_ns := signed64 duration;
            f_key_frame := negb delta; f_channel_id := ic_channel_id config; f_codec := ic_codec config |}
  | _ => None
  end.

(** The times of a buffer are unsigned 64-bit numbers. *)
Definition times_ok (cb : Callback) : Prop :=
  match cb with
  | CbHandoff (Some b) => 0 <= gb_pts b < 18446744073709551616 /\ 0 <= gb_duration b < 18446744073709551616
  | _ => True
  end.

Definition queue_all (frames : list OwnedLiveFrame) (m : ClientMediaState) : ClientMediaState :=
  set_queue (fold_left (fun q f => snd (push q (Some f))) frames (m_queue m)) m.

Lemma queue_all_nil m : queue_all [] m = m.
Proof. by destruct m. Qed.

Lemma queue_all_cons f frames m : queue_all (f :: frames) m = queue_all frames (receive_frame f m).
Proof. done. Qed.

Lemma published_media config context cb sv sv' k :
  server_reachable config sv -> times_ok cb ->
  (exists channel, registered_channel sv (ic_channel_id (cx_config context)) = Some channel /\
                   lc_codec channel = ic_codec (cx_config context)) ->
  sv' = (match handoff_frame (cx_config context) cb with Some f => on_frame f sv | None => sv end) ->
  server_reachable config sv' /\ s_config sv' = s_config sv /\
  s_media sv' !! k = (fun m => if wants_frame (ic_channel_id (cx_config context)) m
                               then queue_all (from_option (fun f => [f]) [] (published (cx_config context) cb)) m else m) <$> s_media sv !! k.
Proof.
  intros Hr Ht (channel & Hc & Hcodec) ->.
  assert (forall o : option ClientMediaState, o = (fun m => if wants_frame (ic_channel_id (cx_config context)) m then queue_all [] m else m) <$> o)
    as Hsame by (intros [m|]; cbn; [by rewrite queue_all_nil; case_match|done]).
  destruct (handoff_frame (cx_config context) cb) as [f|] eqn:Ef; cycle 1.
  { split; [done|]. split; [done|]. destruct cb as [| | | |[[[[|b data]|] p d du dl]|]|]; try discriminate Ef; apply Hsame. }
  destruct cb as [| | | |[[[data|] p d du dl]|]|]; try discriminate Ef. injection Ef as <-. cbn in Ht. destruct Ht as [Hp Hdu].
  split; [destruct Hr as (s0 & Hn & Hr); exists s0; split; [done|]; eapply rtc_r; [exact Hr|apply ss_frame]|].
  split; [unfold on_frame; repeat case_match; done|].
  destruct data as [|b data].
  { cbn [published from_option]. replace (on_frame _ sv) with sv; [apply Hsame|].
    unfold on_frame. cbn [v_data live_frame]. by destruct (registered_channel sv _). }
  apply server_reachable_ok in Hr.
  rewrite (on_frame_media _ (b :: data) channel sv k (sv_clients _ _ Hr) (sv_alive _ _ Hr)) by done.
  cbn [published from_option v_channel_id live_frame]. destruct (s_media sv !! k) as [m|]; [|done]. cbn [fmap option_fmap option_map].
  destruct (wants_frame _ m); [|done]. rewrite queue_all_cons, queue_all_nil. unfold own_frame.
  cbn [v_pts_ns v_duration_ns v_key_frame v_channel_id v_codec live_frame gb_pts gb_duration gb_delta_unit].
  by rewrite !buffer_clock_time_signed.
Qed.

Lemma published_frames config context cbs sv s :
  server_reachable config sv -> Forall times_ok cbs -> i_sink s = Some sv ->
  (exists channel, registered_channel sv (ic_channel_id (cx_config context)) = Some channel /\
                   lc_codec channel = ic_codec (cx_config context)) ->
  exists sv', i_sink (fold_left (run_callback context) cbs s) = Some sv' /\ server_reachable config sv' /\
    forall k, s_media sv' !! k =
      (fun m => if wants_frame (ic_channel_id (cx_config context)) m
                then queue_all (omap (published (cx_config context)) cbs) m else m) <$> s_media sv !! k.
Proof.
  intros Hr Ht. revert sv s Hr. induction Ht as [|cb cbs Hcb _ IH]; intros sv s Hr Hs Hc.
  { exists sv. split; [done|]. split; [done|]. intros k. destruct (s_media sv !! k) as [m|]; [|done]. cbn.
    rewrite queue_all_nil. by case_match. }
  destruct (callback_live context sv s cb Hs) as [H1 _]. cbn [fold_left].
  remember (match handoff_frame (cx_config context) cb with Some f => on_frame f sv | None => sv end) as sv1 eqn:E1.
  pose proof (fun k => published_media config context cb sv sv1 k Hr Hcb Hc E1) as Hm.
  destruct (IH sv1 (run_callback context s cb)) as (sv' & Hs' & Hr' & Hk); [apply (Hm 0%nat)|done| |].
  { destruct Hc as (channel & Hch & Hcd). exists channel. split; [|done]. unfold registered_channel in *.
    by rewrite (proj1 (proj2 (Hm 0%nat))). }
  exists sv'. split; [done|]. split; [done|]. intros k. rewrite Hk, (proj2 (proj2 (Hm k))).
  destruct (s_media sv !! k) as [m|]; [|done]. cbn [fmap option_fmap option_map].
  destruct (wants_frame _ m) eqn:Ew; [|by rewrite Ew].
  change (wants_frame (ic_channel_id (cx_config context)) (queue_all (from_option (fun f => [f]) [] (published (cx_config context) cb)) m))
    with (wants_frame (ic_channel_id (cx_config context)) m). rewrite Ew.
  cbn [omap list_omap]. destruct (published (cx_config context) cb) as [f|]; cbn [from_option].
  - by rewrite !queue_all_cons, queue_all_nil.
  - by rewrite queue_all_nil.
Qed.

(** C24: The live branch, from GStreamer to the clients: each handoff of a mapped buffer that
    is not empty puts one frame in the queue of every connected client that plays the
    worker's channel, in the order of the handoffs, with the bytes of the buffer, its
    presentation time and duration read as signed numbers, marked as a key frame unless
    the buffer is a delta unit, under the worker's channel and codec; the other callbacks
    give them nothing, all other clients keep their state, and every handoff is counted.
    The channel must be registered with this codec; no client comes, goes or reads
    its queue meanwhile. *)
Theorem handoffs_reach_clients config context cbs sv s :
  server_reachable config sv -> Forall times_ok cbs -> i_sink s = Some sv ->
  (exists channel, registered_channel sv (ic_channel_id (cx_config context)) = Some channel /\
                   lc_codec channel = ic_codec (cx_config context)) ->
  let s' := fold_left (run_callback context) cbs s in
  (exists sv', i_sink s' = Some sv' /\
    (forall k m, s_media sv !! k = Some m ->
       m_connected m = true /\ m_playing m = true /\ m_channel_id m = ic_channel_id (cx_config context) ->
       s_media sv' !! k =
         Some (set_queue (fold_left (fun q f => snd (push q (Some f))) (omap (published (cx_config context)) cbs) (m_queue m)) m)) /\
    (forall k m, s_media sv !! k = Some m ->
       m_connected m = false \/ m_playing m = false \/ m_channel_id m <> ic_channel_id (cx_config context) ->
       s_media sv' !! k = Some m) /\
    (forall k, s_media sv !! k = None -> s_media sv' !! k = None)) /\
  u64 (i_live_frames s') = u64 (i_live_frames s + zlen (filter (fun cb => is_handoff cb = true) cbs)).
Proof.
  intros Hr Ht Hs Hc. cbv zeta. split; [|by eapply callbacks_counted].
  destruct (published_frames config context cbs sv s Hr Ht Hs Hc) as (sv' & Hs' & _ & Hk).
  exists sv'. split; [done|]. split_and!; intros k; rewrite Hk.
  - intros m -> (E1 & E2 & E3). cbn. unfold wants_frame. by rewrite E1, E2, E3, Z.eqb_refl.
  - intros m -> Hno. cbn. unfold wants_frame.
    destruct Hno as [->|[->|E%Z.eqb_neq]]; [done|by rewrite andb_false_r|by rewrite E, andb_false_r].
  - by intros ->.
Qed.

Lemma handoffs_reach_clients_witness :
  exists sv' m, i_sink (fold_left (run_callback sample_context) [CbOverrun; CbHandoff (Some sample_buffer); CbHandoff None]
      (ingest_state empty_db (Some busy_server))) = Some sv' /\ s_media busy_server !! 7%nat = Some m /\
    s_media sv' !! 7%nat =
      Some (set_queue (snd (push (m_queue m)
        (Some {| f_data := [0; 0; 1; 101]; f_pts_ns := 5; f_duration_ns := 33; f_key_frame := true; f_channel_id := 1;
                 f_codec := H264 |}))) m).
Proof.
  destruct (handoffs_reach_clients (sample_config 0) sample_context [CbOverrun; CbHandoff (Some sample_buffer); CbHandoff None]
    busy_server (ingest_state empty_db (Some busy_server))) as [(sv' & Hs & Hk & _) _].
  - exact busy_reachable.
  - repeat constructor; cbn; lia.
  - reflexivity.
  - exists {| lc_channel_id := 1; lc_codec := H264 |}. split; reflexivity.
  - destruct (s_media busy_server !! 7%nat) as [m|] eqn:E; [|vm_compute in E; discriminate].
    exists sv', m. split; [exact Hs|]. split; [reflexivity|]. rewrite (Hk 7%nat m E); [reflexivity|].
    vm_compute in E. injection E as <-. split_and!; reflexivity.
Defined.
