(* ===== verification/Storage.v ===== *)
(** * The storage check (src/storage/storage_manager.cpp)

    [check] runs on the file system below the storage root: a map from paths to nodes,
    which it changes (two directories and a probe file), and what the operating system
    answers to the calls ([StorageOs]).  The second component of its result is the file
    system it leaves, the third what it logs. *)

From stdpp Require Import gmap.
From S2P Require Import Prelude CStr Config.

Inductive StorageState := Unconfigured | Missing | Checking | Ready | ReadOnly | Full | StorageError.

#[export] Instance StorageState_eq_dec : EqDecision StorageState.
Proof. solve_decision. Defined.

Definition storage_state_name (state : StorageState) : bytes :=
  match state with
  | Unconfigured => $"unconfigured"
  | Missing => $"missing"
  | Checking => $"checking"
  | Ready => $"ready"
  | ReadOnly => $"read_only"
  | Full => $"full"
  | StorageError => $"error"
  end.

Record StorageStatus := {
  ss_state : StorageState;
  ss_message : bytes;
  ss_available_bytes : Z;
  ss_is_mount_point : bool
}.

Record StorageManager := {
  sm_storage_root : bytes;
  sm_min_free_bytes : Z;
  sm_require_mount_point : bool
}.

(** ** The file system *)

Inductive Node := Directory | RegularFile.

#[export] Instance Node_eq_dec : EqDecision Node.
Proof. solve_decision. Defined.

Abbreviation Fs := (gmap bytes Node).

(** What the operating system answers: [canonical] and [stat] of a path, the error of
    creating a directory, whether a file can be opened for writing and removed, and the
    free space or an error. *)
Record StorageOs := {
  so_canonical : bytes -> option bytes;
  so_stat : bytes -> option (Z * Z);
  so_mkdir_error : bytes -> option bytes;
  so_open : bytes -> bool;
  so_remove : bytes -> bool;
  so_space : result Z
}.

(** [path.parent_path()] of an absolute path without a slash at its end *)
Definition parent_path (p : bytes) : bytes :=
  match find_last_if (fun c => c =? 47) p with
  | None => []
  | Some i => if Nat.eqb i 0 then $"/" else take i p
  end.

Definition is_mount_point (os : StorageOs) (path : bytes) : bool :=
  match so_canonical os path with
  | None => false
  | Some canonical_path =>
    let parent := parent_path canonical_path in
    if is_empty parent || str_eqb parent canonical_path then true
    else match so_stat os canonical_path with
         | None => false
         | Some (path_dev, path_ino) =>
           match so_stat os parent with
           | None => false
           | Some (parent_dev, parent_ino) => negb (path_dev =? parent_dev) || (path_ino =? parent_ino)
           end
         end
  end.

Definition create_directories (os : StorageOs) (path : bytes) (fs : Fs) : option bytes * Fs :=
  match so_mkdir_error os path with
  | Some message => (Some message, fs)
  | None => (None, <[path := Directory]> fs)
  end.

Definition status (state : StorageState) (message : bytes) (available : Z) (mount : bool) : StorageStatus :=
  {| ss_state := state; ss_message := message; ss_available_bytes := available; ss_is_mount_point := mount |}.

Definition mount_warning : bytes := $"storage root is not a mount point; writes may go to the OS filesystem".

(** The part of [check] that writes. *)
Definition check_writes (os : StorageOs) (m : StorageManager) (mount : bool) (fs : Fs)
    (logged : list (LogLevel * bytes)) : StorageStatus * Fs * list (LogLevel * bytes) :=
  let root := sm_storage_root m in
  let '(ec, fs) := create_directories os (path_append root $"recordings") fs in
  match ec with
  | Some message => (status ReadOnly ($"failed to create recordings directory: " ++ message) 0 mount, fs, logged)
  | None =>
    let '(ec, fs) := create_directories os (path_append root $"index") fs in
    match ec with
    | Some message => (status ReadOnly ($"failed to create index directory: " ++ message) 0 mount, fs, logged)
    | None =>
      let probe_path := path_append root $".rpi-vms-write-test" in
      if negb (so_open os probe_path) then (status ReadOnly $"storage root is not writable" 0 mount, fs, logged)
      else
        let fs := <[probe_path := RegularFile]> fs in
        let fs := if so_remove os probe_path then delete probe_path fs else fs in
        match so_space os with
        | Throw message => (status StorageError ($"failed to query free space: " ++ message) 0 mount, fs, logged)
        | Ok available =>
          if available <? sm_min_free_bytes m
          then (status Full $"storage free space is below threshold" available mount, fs, logged)
          else (status Ready $"storage ready" available mount, fs,
                logged ++ [(LogInfo, $"[storage] ready: " ++ root ++
                                     (if mount then $" mount_point=yes" else $" mount_point=no"))])
        end
    end
  end.

Definition check (os : StorageOs) (m : StorageManager) (fs : Fs) : StorageStatus * Fs * list (LogLevel * bytes) :=
  let root := sm_storage_root m in
  if is_empty root then (status Unconfigured $"storage root is empty" 0 false, fs, [])
  else match fs !! root with
       | None => (status Missing ($"storage root does not exist: " ++ root) 0 false, fs, [])
       | Some RegularFile => (status StorageError ($"storage root is not a directory: " ++ root) 0 false, fs, [])
       | Some Directory =>
         let mount := is_mount_point os root in
         if mount then check_writes os m mount fs []
         else if sm_require_mount_point m then (status StorageError mount_warning 0 mount, fs, [])
         else check_writes os m mount fs [(LogWarn, $"[storage] " ++ mount_warning ++ $": " ++ root)]
       end.

(** ** Facts *)

(** The paths the check touches. *)
Definition recordings_path (m : StorageManager) : bytes := path_append (sm_storage_root m) $"recordings".
Definition index_path (m : StorageManager) : bytes := path_append (sm_storage_root m) $"index".
Definition probe_path (m : StorageManager) : bytes := path_append (sm_storage_root m) $".rpi-vms-write-test".

Definition touched (m : StorageManager) (p : bytes) : Prop :=
  p = recordings_path m \/ p = index_path m \/ p = probe_path m.

(** The storage can be used: what [Ready] stands for. *)
Record usable (os : StorageOs) (m : StorageManager) (fs : Fs) : Prop := {
  us_root : sm_storage_root m <> [];
  us_directory : fs !! sm_storage_root m = Some Directory;
  us_mount : sm_require_mount_point m = true -> is_mount_point os (sm_storage_root m) = true;
  us_recordings : so_mkdir_error os (recordings_path m) = None;
  us_index : so_mkdir_error os (index_path m) = None;
  us_probe : so_open os (probe_path m) = true;
  us_space : exists available, so_space os = Ok available /\ sm_min_free_bytes m <= available
}.

Lemma check_writes_ready os m mount fs logged :
  ss_state (check_writes os m mount fs logged).1.1 = Ready <->
  so_mkdir_error os (recordings_path m) = None /\ so_mkdir_error os (index_path m) = None /\
  so_open os (probe_path m) = true /\ exists available, so_space os = Ok available /\ sm_min_free_bytes m <= available.
Proof.
  unfold check_writes, create_directories, recordings_path, index_path, probe_path. cbv zeta.
  destruct (so_mkdir_error os (path_append _ $"recordings")); [by split; [|intros ([=] & _)]|].
  destruct (so_mkdir_error os (path_append _ $"index")); [by split; [|intros (_ & [=] & _)]|].
  destruct (so_open os _); cbn [negb]; [|by split; [|intros (_ & _ & [=] & _)]].
  destruct (so_space os) as [av|w]; [|split; [done|by intros (_ & _ & _ & av & [=] & _)]].
  destruct (Z.ltb_spec av (sm_min_free_bytes m)); split; try done.
  - intros (_ & _ & _ & av' & [= <-] & Hle). lia.
  - intros _. split_and!; try done. by exists av.
Qed.

(** [Ready] is reported exactly when the storage can be used. *)
Lemma check_ready_iff os m fs : ss_state (check os m fs).1.1 = Ready <-> usable os m fs.
Proof.
  unfold check. cbv zeta. destruct (sm_storage_root m) as [|c root] eqn:Er; cbn [is_empty].
  { split; [done|]. by intros [H _ _ _ _ _ _]. }
  rewrite <- Er. assert (sm_storage_root m <> []) as Hne by by rewrite Er.
  destruct (fs !! sm_storage_root m) as [[]|] eqn:El.
  2,3: split; [done|]; intros [_ H _ _ _ _ _]; congruence.
  destruct (is_mount_point os (sm_storage_root m)) eqn:Em.
  - rewrite check_writes_ready. split; [by intros (? & ? & ? & ?); constructor|by intros []].
  - destruct (sm_require_mount_point m) eqn:Eq.
    + split; [done|]. intros [_ _ H _ _ _ _]. by rewrite H in Em.
    + rewrite check_writes_ready. split; [intros (? & ? & ? & ?); constructor; congruence|by intros []].
Qed.

Lemma path_append_inj p q q' :
  is_prefix $"/" q = false -> is_prefix $"/" q' = false -> path_append p q = path_append p q' -> q = q'.
Proof.
  intros H H'. unfold path_append. rewrite H, H'. destruct (last p) as [c|]; [|done].
  destruct (c =? 47); [apply app_inv_head|]. intros E%app_inv_head. by apply app_inv_head in E.
Qed.

Lemma touched_distinct m : recordings_path m <> probe_path m /\ index_path m <> probe_path m.
Proof. split; intros E; by apply path_append_inj in E. Qed.

(** What the writing part leaves. *)
Lemma check_writes_fs os m mount fs logged :
  let fs' := (check_writes os m mount fs logged).1.2 in
  (forall p, ~ touched m p -> fs' !! p = fs !! p) /\
  (ss_state (check_writes os m mount fs logged).1.1 = Ready ->
     fs' !! recordings_path m = Some Directory /\ fs' !! index_path m = Some Directory /\
     (so_remove os (probe_path m) = true -> fs' !! probe_path m = None)).
Proof.
  cbv zeta. destruct (touched_distinct m) as [Hr Hi]. revert Hr Hi.
  unfold touched, recordings_path, index_path, probe_path.
  set (r := path_append _ $"recordings"). set (i := path_append _ $"index"). set (w := path_append _ $".rpi-vms-write-test").
  unfold check_writes, create_directories. cbv zeta. fold r i w. intros Hr Hi.
  destruct (so_mkdir_error os r); [by cbn|]. destruct (so_mkdir_error os i); cbn [fst snd].
  { split; [|done]. intros p Hp. rewrite lookup_insert_ne; [done|]. intros <-. apply Hp. by left. }
  assert (forall p, ~ (p = r \/ p = i \/ p = w) ->
    forall b : bool, (if b then delete w (<[w:=RegularFile]> (<[i:=Directory]> (<[r:=Directory]> fs)))
              else <[w:=RegularFile]> (<[i:=Directory]> (<[r:=Directory]> fs))) !! p = fs !! p) as Hother.
  { intros p Hp b. assert (p <> r /\ p <> i /\ p <> w) as (? & ? & ?) by naive_solver.
    destruct b; rewrite ?lookup_delete_ne, !lookup_insert_ne by done; done. }
  destruct (so_open os w); cbn [negb].
  2: { split; [|done]. intros p Hp. cbn [fst snd]. rewrite !lookup_insert_ne; [done|naive_solver..]. }
  assert (forall b : bool,
    (if b then delete w (<[w:=RegularFile]> (<[i:=Directory]> (<[r:=Directory]> fs)))
              else <[w:=RegularFile]> (<[i:=Directory]> (<[r:=Directory]> fs))) !! r = Some Directory /\
    (if b then delete w (<[w:=RegularFile]> (<[i:=Directory]> (<[r:=Directory]> fs)))
              else <[w:=RegularFile]> (<[i:=Directory]> (<[r:=Directory]> fs))) !! i = Some Directory) as Hdirs.
  { intros b. destruct b; rewrite ?lookup_delete_ne, !(lookup_insert_ne _ w) by done;
      (split; [|by rewrite lookup_insert_eq]); (destruct (decide (r = i)) as [->|]; [by rewrite lookup_insert_eq|]);
      by rewrite lookup_insert_ne, lookup_insert_eq. }
  destruct (so_space os) as [av|e]; [|by split; [intros; apply Hother|]].
  destruct (av <? sm_min_free_bytes m); cbn [fst snd]; [by split; [intros; apply Hother|]|].
  split; [intros; by apply Hother|]. intros _. destruct (Hdirs (so_remove os w)) as [H1 H2].
  split_and!; [done|done|]. intros ->. by rewrite lookup_delete_eq.
Qed.

(** It has looked at the root before it writes. *)
Lemma check_writes_states os m mount fs logged :
  match ss_state (check_writes os m mount fs logged).1.1 with
  | Unconfigured | Missing | Checking => False
  | _ => True
  end.
Proof.
  unfold check_writes. cbv zeta. destruct (create_directories _ _ _) as [[e|] fs1]; [done|].
  destruct (create_directories _ _ _) as [[e|] fs2]; [done|]. destruct (negb _); [done|].
  destruct (so_space os); [|done]. by destruct (_ <? _).
Qed.

(** C27: The storage check.  It reports [Ready] exactly when the storage can be used: a
    directory, a mount point if one is required, room for the directories and the probe, and
    enough free space.  It leaves everything but its own three paths as it was, and nothing
    is touched when the root is not configured or missing; once it reports [Ready] both
    directories exist and the probe file is gone if it could be removed. *)
Theorem storage_check os m fs :
  let '(st, fs', _) := check os m fs in
  (ss_state st = Ready <-> usable os m fs) /\
  (forall p, ~ touched m p -> fs' !! p = fs !! p) /\
  (ss_state st = Unconfigured \/ ss_state st = Missing -> fs' = fs) /\
  (ss_state st = Ready ->
     fs' !! recordings_path m = Some Directory /\ fs' !! index_path m = Some Directory /\
     (so_remove os (probe_path m) = true -> fs' !! probe_path m = None)).
Proof.
  pose proof (check_ready_iff os m fs) as Hready. revert Hready.
  assert (forall mount logged, let '(st, fs', _) := check_writes os m mount fs logged in
    (forall p, ~ touched m p -> fs' !! p = fs !! p) /\
    (ss_state st = Unconfigured \/ ss_state st = Missing -> fs' = fs) /\
    (ss_state st = Ready ->
       fs' !! recordings_path m = Some Directory /\ fs' !! index_path m = Some Directory /\
       (so_remove os (probe_path m) = true -> fs' !! probe_path m = None))) as Hw.
  { intros mount logged. pose proof (check_writes_fs os m mount fs logged) as [H1 H2].
    pose proof (check_writes_states os m mount fs logged) as Hs.
    destruct (check_writes os m mount fs logged) as [[st fs'] lg]. cbn in *. split_and!; [done| |done].
    intros [E|E]; by rewrite E in Hs. }
  assert (forall mount logged r, r = check_writes os m mount fs logged ->
    (ss_state r.1.1 = Ready <-> usable os m fs) -> let '(st, fs', _) := r in
    (ss_state st = Ready <-> usable os m fs) /\
    (forall p, ~ touched m p -> fs' !! p = fs !! p) /\
    (ss_state st = Unconfigured \/ ss_state st = Missing -> fs' = fs) /\
    (ss_state st = Ready ->
       fs' !! recordings_path m = Some Directory /\ fs' !! index_path m = Some Directory /\
       (so_remove os (probe_path m) = true -> fs' !! probe_path m = None))) as Hall.
  { intros mount logged r -> Hr. specialize (Hw mount logged). by destruct (check_writes os m mount fs logged) as [[]]. }
  unfold check. cbv zeta. destruct (is_empty _); [by intros ?; split_and!|].
  destruct (fs !! sm_storage_root m) as [[]|]; [|by intros ?; split_and!..].
  destruct (is_mount_point os _); [by intros ?; eapply Hall|]. destruct (sm_require_mount_point m); [by intros ?; split_and!|by intros ?; eapply Hall].
Qed.

Definition sample_os (space : Z) : StorageOs :=
  {| so_canonical := fun p => Some p; so_stat := fun p => Some (zlen p, 1); so_mkdir_error := fun _ => None;
     so_open := fun _ => true; so_remove := fun _ => true; so_space := Ok space |}.

Definition sample_storage : StorageManager :=
  {| sm_storage_root := $"/mnt/vms-storage"; sm_min_free_bytes := 1000; sm_require_mount_point := true |}.

Example sample_check_ready :
  ss_state (check (sample_os 5000) sample_storage {[ $"/mnt/vms-storage" := Directory ]}).1.1 = Ready.
Proof. reflexivity. Qed.

Example sample_check_full :
  ss_state (check (sample_os 999) sample_storage {[ $"/mnt/vms-storage" := Directory ]}).1.1 = Full.
Proof. reflexivity. Qed.
