(* ===== verification/Main.v ===== *)
(** * The program (src/main.cpp)

    [main] from the command line to the exit code: the configuration, the storage check,
    the recording index, the channel map, one ingest configuration and one published
    channel per entry, the live server and the channel manager.  [MainEnv] is what the
    outside answers.  [System] is what is running when start-up is over; the program then
    waits for a signal, stops both and returns. *)

From stdpp Require Import gmap.
From S2P Require Import Prelude CStr Rtp LiveServer ChannelManager Index Config Calendar Storage.
From coqutil Require Import Datatypes.RecordSetters.
Import DoubleBraceUpdate.

Record MainEnv := {
  me_cin : bytes;
  me_storage : StorageOs;
  me_fs : Fs;
  me_open : OpenIo;
  me_schema : result unit;
  me_stored : option Database;
  me_now : Z;
  me_upsert : Z -> result unit;
  me_mkdir : bytes -> result unit;
  me_tls : TlsOs;
  me_plain_os : ListenOs;
  me_tls_os : ListenOs;
  me_running : nat -> nat -> bool;
  me_outcome : nat -> RunOutcome;
  me_stats : nat -> ChannelIngestStats
}.

Record System := {
  sy_config : VmsConfig;
  sy_index : Database;
  sy_server : Server;
  sy_manager : ChannelManager
}.

(** The configuration of the worker of one mapping. *)
Definition ingest_config (config : VmsConfig) (mapping : ChannelMapping) (dir : bytes) : ChannelIngestConfig := {|
  rtsp_location := build_camera_rtsp_location config (camera_channel mapping);
  camera_user := vms_camera_user config;
  camera_password := vms_camera_password config;
  output_dir := dir;
  ic_camera_channel := camera_channel mapping;
  ic_channel_id := vms_channel mapping;
  ic_codec := vms_codec config;
  latency_ms := vms_latency_ms config;
  segment_seconds := vms_segment_seconds config;
  reconnect_delay_ms := vms_reconnect_delay_ms config;
  startup_timeout_ms := vms_ingest_startup_timeout_ms config;
  live_queue_max_buffers := 1
|}.

(** The loop over the mappings. *)
Fixpoint configure_channels (env : MainEnv) (config : VmsConfig) (mappings : list ChannelMapping) (db : Database)
    (ingest_configs : list ChannelIngestConfig) (live : list LiveChannel)
    : result (Database * list ChannelIngestConfig * list LiveChannel) :=
  match mappings with
  | [] => Ok (db, ingest_configs, live)
  | mapping :: rest =>
    db ← upsert_channel_mapping (vms_channel mapping) (camera_channel mapping) (now_utc (me_now env))
           (me_upsert env (vms_channel mapping)) db;
    dir ← channel_output_dir (vms_storage_root config) (vms_channel mapping);
    _ ← me_mkdir env dir;
    configure_channels env config rest db (ingest_configs ++ [ingest_config config mapping dir])
      (live ++ [{| lc_channel_id := vms_channel mapping; lc_codec := vms_codec config |}])
  end.

Definition live_config (config : VmsConfig) (live : list LiveChannel) : LiveRtspServerConfig := {|
  listen_host := vms_live_listen_host config;
  rtsp_port := vms_rtsp_port config;
  rtsps_port := vms_rtsps_port config;
  tls_cert_file := vms_tls_cert_file config;
  tls_key_file := vms_tls_key_file config;
  listen_backlog := 32;
  max_header := 16 * 1024;
  max_body := 1024 * 1024;
  client_queue_frames := vms_live_client_queue_frames config;
  client_queue_bytes := vms_live_client_queue_bytes config;
  rtp_mtu := vms_rtp_mtu config;
  io_timeout_ms := 1000;
  channels := live;
  cfg_channel_id := 1;
  cfg_codec := H264
|}.

(** Start-up once the storage is ready. *)
Definition start_up (env : MainEnv) (config : VmsConfig) : result System :=
  index ← index_new (vms_db_busy_timeout_ms config);
  _ ← fst (index_open (me_open env) index);
  db ← initialize_schema (me_schema env) (me_stored env);
  mappings ← parse_channel_map (vms_channel_map config);
  '(db, ingest_configs, live) ← configure_channels env config mappings db [] [];
  server ← server_new (live_config config live);
  let '(started, server) := start (me_tls env) (me_plain_os env) (me_tls_os env) server in
  _ ← started;
  manager ← manager_new ingest_configs (vms_channel_start_delay_ms config);
  Ok {| sy_config := config; sy_index := db; sy_server := server;
        sy_manager := (manager_start (me_running env) manager).1 |}.

Definition storage_manager (config : VmsConfig) : StorageManager :=
  {| sm_storage_root := vms_storage_root config; sm_min_free_bytes := vms_min_free_bytes config;
     sm_require_mount_point := vms_require_storage_mount config |}.

(** The body of the [try] block: the exit code, with the system that was running. *)
Definition main_body (env : MainEnv) (args : list bytes) : result (Z * option System) :=
  r ← parse_vms_args (me_cin env) args;
  match r with
  | Exited => Ok (0, None)
  | Parsed config =>
    let '(status, _, _) := check (me_storage env) (storage_manager config) (me_fs env) in
    if negb (bool_decide (ss_state status = Ready)) then Ok (2, None)
    else
      system ← start_up env config;
      Ok (0, Some system)
  end.

(** [main]: an exception ends the program with code 1. *)
Definition main (env : MainEnv) (args : list bytes) : Z * option System :=
  match main_body env args with
  | Ok r => r
  | Throw _ => (1, None)
  end.

(** SIGINT and SIGTERM: the new value of [g_running]. *)
Definition handle_shutdown_signal (g_running : bool) : bool := false.

(** [channel_manager.stop(); live_server.stop();]; [me_outcome] is how the workers' runs
    end. *)
Definition shut_down (env : MainEnv) (system : System) : System :=
  {| sy_config := sy_config system; sy_index := sy_index system; sy_server := stop (sy_server system);
     sy_manager := (manager_stop (me_outcome env) (sy_manager system) false).1 |}.

(** The two kinds of lines [main] logs before it returns. *)
Definition channel_report (item : ManagedChannelStats) : bytes :=
  $"[channel] state=stopped channel_id=" ++ to_string (vms_channel (mc_mapping item)) ++ $" camera_channel=" ++
  to_string (camera_channel (mc_mapping item)) ++ $" attempts=" ++
  to_string (st_connection_attempts (mc_ingest item)) ++ $" reconnects=" ++ to_string (st_reconnects (mc_ingest item)) ++
  $" worker_failed=" ++ (if mc_worker_failed item then $"yes" else $"no").

Definition server_report (st : LiveRtspServerStats) : bytes :=
  $"[live-server] sessions_created=" ++ to_string (sessions_created st) ++ $" sessions_closed=" ++
  to_string (sessions_closed st) ++ $" first_rtp=" ++ to_string (first_rtp_transmissions st) ++ $" queue_drops=" ++
  to_string (queue_drops_total st).

Definition final_report (env : MainEnv) (system : System) : list bytes :=
  (channel_report <$> manager_stats (me_stats env) (sy_manager system)) ++
  [server_report (server_stats (sy_server system))].

(** ** Facts *)

(** Everything outside the program works; [ms] is the configured channel map. *)
Record env_ok (env : MainEnv) (config : VmsConfig) (ms : list ChannelMapping) : Prop := {
  eo_storage : usable (me_storage env) (storage_manager config) (me_fs env);
  eo_open : me_open env = {| io_open := Ok tt; io_busy_timeout := Ok tt; io_foreign_keys := Ok tt;
                             io_journal_mode := Ok tt; io_synchronous := Ok tt |};
  eo_schema : me_schema env = Ok tt;
  eo_stored : forall db, me_stored env = Some db -> holds_map ms (db_channels db);
  eo_upsert : forall c, me_upsert env c = Ok tt;
  eo_mkdir : forall dir, me_mkdir env dir = Ok tt;
  eo_tls : tls_loads (me_tls env) = true;
  eo_plain : 0 < vms_rtsp_port config ->
    exists fd, 0 <= fd /\ open_listener (live_config config []) (vms_rtsp_port config) (me_plain_os env) = Ok fd;
  eo_listen : 0 < vms_rtsps_port config ->
    exists fd, 0 <= fd /\ open_listener (live_config config []) (vms_rtsps_port config) (me_tls_os env) = Ok fd;
  eo_running : forall i n, me_running env i n = true
}.

Definition worker_config_of (config : VmsConfig) (m : ChannelMapping) : ChannelIngestConfig :=
  ingest_config config m (path_append (path_append (vms_storage_root config) $"recordings") ($"ch" ++ to_string (vms_channel m))).

(** The loop records the map and configures one worker and one channel per entry. *)
Lemma configure_channels_ok env config ms db db' ics live :
  Forall mapping_ok ms -> (forall c, me_upsert env c = Ok tt) -> (forall dir, me_mkdir env dir = Ok tt) ->
  record_map ms (now_utc (me_now env)) db = Ok db' ->
  configure_channels env config ms db ics live =
  Ok (db', ics ++ (worker_config_of config <$> ms), live ++ live_channels (vms_codec config) ms).
Proof.
  intros Hok Hu Hm. revert db ics live. induction Hok as [|m ms [Hm1 Hm2] _ IH]; intros db ics live H.
  { cbn in *. injection H as ->. by rewrite !app_nil_r. }
  cbn [record_map configure_channels] in *. rewrite Hu. apply result_bind_Ok in H as (db1 & -> & H).
  cbn [mbind result_bind]. unfold channel_output_dir.
  replace ((vms_channel m <? 1) || (vms_channel m >? 4)) with false by lia. cbn [mbind result_bind].
  rewrite Hm. cbn [mbind result_bind]. rewrite (IH _ _ _ H). unfold live_channels.
  rewrite !fmap_cons, <- !app_assoc. done.
Qed.

Lemma manager_start_running running m :
  (forall i n, running i n = true) -> m_started m = false -> m_workers m <> [] -> 0 <= m_start_delay_ms m ->
  (manager_start running m).1 =
  {| m_workers := with_thread Running <$> m_workers m; m_start_delay_ms := m_start_delay_ms m; m_started := true |}.
Proof.
  intros Hr Hst Hne Hd. unfold manager_start. rewrite Hst.
  destruct (start_workers_spec (m_workers m) (m_start_delay_ms m) running 0 Hd Hne) as (k & ts & -> & _ & _ & _ & [[-> _]|(j & n & Hj)]).
  - cbn. f_equal. unfold started_prefix. by rewrite firstn_all, drop_all, app_nil_r.
  - by rewrite Hr in Hj.
Qed.

(** A listener's outcome does not depend on the published channels. *)
Lemma open_listener_channels config chs port os :
  open_listener (live_config config chs) port os = open_listener (live_config config []) port os.
Proof. done. Qed.

(** A valid map is published as it is. *)
Lemma server_new_map config ms :
  vms_ok config -> valid_map ms -> ms <> [] ->
  exists s, server_new (live_config config (live_channels (vms_codec config) ms)) = Ok s /\
    s_config s = live_config config (live_channels (vms_codec config) ms) /\
    s_started s = false /\ s_plain_fd s = -1 /\ s_tls_fd s = -1 /\ s_listeners s = [].
Proof.
  intros [Hr _ _ _ _ Hports Htls _ _ _ _] (Hok & _ & Hnv) Hne.
  set (lc := live_config config (live_channels (vms_codec config) ms)).
  assert (published lc = live_channels (vms_codec config) ms) as Epub.
  { unfold published, lc. cbn [channels live_config]. by destruct ms. }
  unfold server_new. rewrite (proj2 (impl_config_ok lc (with_channels lc (published lc)))).
  - eexists. split; [reflexivity|]. cbn [s_config]. rewrite Epub. done.
  - rewrite Epub. split_and!; [done| | |done|done].
    + apply Forall_fmap. eapply Forall_impl; [exact Hok|]. by intros m [_ ?].
    + unfold live_channels. by rewrite <- list_fmap_compose.
Qed.

(** The server starts its enabled listeners. *)
Lemma server_starts env config ms s :
  env_ok env config ms -> s_config s = live_config config (live_channels (vms_codec config) ms) ->
  s_started s = false -> s_plain_fd s = -1 -> s_tls_fd s = -1 -> s_listeners s = [] ->
  exists s', start (me_tls env) (me_plain_os env) (me_tls_os env) s = (Ok tt, s') /\ s_started s' = true /\
    s_config s' = s_config s /\ snd <$> s_listeners s' = enabled (s_config s).
Proof.
  intros He Hc Hst H1 H2 H3. unfold start. rewrite Hst, initialize_tls_spec, (eo_tls _ _ _ He).
  cbn [s_config with_listeners]. rewrite Hc. cbn [rtsp_port rtsps_port live_config].
  rewrite !(open_listener_channels config (live_channels (vms_codec config) ms)). unfold enabled. cbn [rtsp_port rtsps_port live_config].
  rewrite !Z.gtb_ltb.
  destruct (Z.ltb_spec 0 (vms_rtsp_port config)) as [P1|P1];
    [destruct (eo_plain _ _ _ He P1) as (fd1 & Hfd1 & ->)|];
    (destruct (Z.ltb_spec 0 (vms_rtsps_port config)) as [P2|P2];
      [destruct (eo_listen _ _ _ He P2) as (fd2 & Hfd2 & ->)|]);
    cbn [s_plain_fd s_tls_fd s_listeners with_listeners with_tls]; rewrite ?H1, ?H2, ?H3;
    (eexists; split; [reflexivity|]); cbn [s_started s_config s_listeners with_listeners with_tls]; rewrite ?Z.geb_leb;
    rewrite ?(proj2 (Z.leb_le _ _) Hfd1), ?(proj2 (Z.leb_le _ _) Hfd2); done.
Qed.

(** What runs once start-up is over. *)
Definition running_system (config : VmsConfig) (ms : list ChannelMapping) (sys : System) : Prop :=
  (forall m, m ∈ ms -> exists row, db_channels (sy_index sys) !! vms_channel m = Some row /\
                                   row_camera row = camera_channel m) /\
  w_config <$> m_workers (sy_manager sys) = (worker_config_of config <$> ms) /\
  Forall (fun w => w_thread w = Running /\ w_failed w = false) (m_workers (sy_manager sys)) /\
  s_started (sy_server sys) = true /\
  channels (s_config (sy_server sys)) = live_channels (vms_codec config) ms /\
  snd <$> s_listeners (sy_server sys) = enabled (live_config config []).

(** The worker configurations are those of the map. *)
Lemma worker_mappings config (ms : list ChannelMapping) : config_mapping <$> (worker_config_of config <$> ms) = ms.
Proof. rewrite <- list_fmap_compose. rewrite <- (list_fmap_id ms) at 2. apply list_fmap_ext. by intros i [] _. Qed.

Lemma start_up_ok env config ms :
  vms_ok config -> parse_channel_map (vms_channel_map config) = Ok ms -> env_ok env config ms ->
  exists sys, start_up env config = Ok sys /\ running_system config ms sys.
Proof.
  intros Hok Hmap He. destruct (channel_map_sound _ _ Hmap) as [Hv Hlen].
  assert (ms <> []) as Hne by (intros ->; rewrite zlen_nil in Hlen; lia). pose proof Hv as (Hmok & _ & _).
  assert (holds_map ms (db_channels (default empty_db (me_stored env)))) as Hh.
  { destruct (me_stored env) as [db|] eqn:E; [by apply (eo_stored _ _ _ He)|]. intros c row Hl.
    cbn in Hl. by rewrite lookup_empty in Hl. }
  destruct (record_map_ok ms ms (now_utc (me_now env)) _ Hv ltac:(done) Hh) as (db' & Hrec & _ & _ & Hrows).
  destruct (server_new_map config ms Hok Hv Hne) as (s0 & Hnew & Hcfg & S1 & S2 & S3 & S4).
  destruct (server_starts env config ms s0 He Hcfg S1 S2 S3 S4) as (s1 & Hstart & T1 & T2 & T3).
  eexists. split.
  - unfold start_up, index_new. destruct Hok as [[] _ _ _ _ _ _ _ _ _ _].
    replace (vms_db_busy_timeout_ms config <? 0) with false by lia. cbn [throw_if mbind result_bind].
    unfold index_open. rewrite (eo_open _ _ _ He). cbn [ri_open io_open io_busy_timeout io_foreign_keys io_journal_mode
      io_synchronous exec fst mbind result_bind]. unfold initialize_schema. rewrite (eo_schema _ _ _ He).
    cbn [exec mbind result_bind]. rewrite Hmap. cbn [mbind result_bind].
    rewrite (configure_channels_ok env config ms _ db' [] [] Hmok (eo_upsert _ _ _ He) (eo_mkdir _ _ _ He) Hrec).
    cbn [mbind result_bind app]. rewrite Hnew. cbn [mbind result_bind]. rewrite Hstart. cbn [mbind result_bind].
    rewrite manager_new_ok; [reflexivity|by intros ?%fmap_nil_inv|by rewrite worker_mappings| |lia].
    apply Forall_fmap, Forall_forall. intros m _. split; cbn; lia.
  - unfold running_system. cbn [sy_index sy_manager sy_server].
    rewrite manager_start_running; [|apply (eo_running _ _ _ He)|done|cbn; by intros ?%fmap_nil_inv%fmap_nil_inv|].
    2: { cbn. destruct Hok as [[] _ _ _ _ _ _ _ _ _ _]. lia. }
    cbn [m_workers].
    split_and!; [done| | |done|by rewrite T2, Hcfg|by rewrite T3, Hcfg].
    + rewrite <- !list_fmap_compose. by apply list_fmap_ext.
    + apply Forall_fmap, Forall_fmap, Forall_fmap, Forall_forall. done.
Qed.

(** A bad channel map is found when the database is open, and ends the start-up. *)
Lemma start_up_bad_map env config w :
  parse_channel_map (vms_channel_map config) = Throw w -> exists w', start_up env config = Throw w'.
Proof.
  intros Hw. unfold start_up. rewrite Hw.
  repeat match goal with
         | |- exists _, (?r ≫= _) = _ => destruct r; cbn [mbind result_bind]
         | |- exists _, (let '(_, _) := ?p in _) = _ => destruct p
         end; eauto.
Qed.

Lemma main_storage_ready env args config :
  parse_vms_args (me_cin env) args = Ok (Parsed config) -> usable (me_storage env) (storage_manager config) (me_fs env) ->
  main env args = match start_up env config with Ok sys => (0, Some sys) | Throw _ => (1, None) end.
Proof.
  intros Hargs Hs. unfold main, main_body. rewrite Hargs. cbn [mbind result_bind].
  pose proof (proj2 (check_ready_iff _ _ _) Hs) as Hready.
  destruct (check _ _ _) as [[st fs] lg]. cbn [fst] in Hready.
  rewrite bool_decide_eq_true_2 by done. cbn [negb]. by destruct (start_up env config).
Qed.

(** C18: Start-up, for a command line that is accepted and storage that can be used.  If the
    channel map, which the command line only carries as text, parses, a map stored by an
    earlier run agrees with it, and database, directories, TLS files and listeners work,
    the program comes up: every entry of the map is recorded, has a running worker with
    its own configuration and is published by the started server, whose listeners are
    exactly the enabled ones.  If the map does not parse, the program ends with code 1. *)
Theorem program_starts env args config :
  parse_vms_args (me_cin env) args = Ok (Parsed config) -> usable (me_storage env) (storage_manager config) (me_fs env) ->
  match parse_channel_map (vms_channel_map config) with
  | Ok ms => env_ok env config ms -> exists sys, main env args = (0, Some sys) /\ running_system config ms sys
  | Throw _ => main env args = (1, None)
  end.
Proof.
  intros Hargs Hs. rewrite (main_storage_ready env args config Hargs Hs).
  destruct (parse_channel_map (vms_channel_map config)) as [ms|w] eqn:Hmap.
  - intros He. destruct (start_up_ok env config ms (parse_vms_ok _ _ _ Hargs) Hmap He) as (sys & -> & Hrun). by exists sys.
  - by destruct (start_up_bad_map env config w Hmap) as [w' ->].
Qed.

Definition sample_main_env : MainEnv := {|
  me_cin := []; me_storage := sample_os 5000000000; me_fs := {[ $"/mnt/vms-storage" := Directory ]};
  me_open := {| io_open := Ok tt; io_busy_timeout := Ok tt; io_foreign_keys := Ok tt; io_journal_mode := Ok tt;
                io_synchronous := Ok tt |};
  me_schema := Ok tt; me_stored := None; me_now := 1767323045; me_upsert := fun _ => Ok tt; me_mkdir := fun _ => Ok tt;
  me_tls := good_tls; me_plain_os := good_os 3; me_tls_os := good_os 4; me_running := fun _ _ => true;
  me_outcome := fun _ => Returned;
  me_stats := fun _ => {| st_connection_attempts := 1; st_reconnects := 0; st_first_buffers := 1; st_pipeline_errors := 0;
                          st_eos_events := 0; st_live_frames := 0; st_live_drops := 0 |}
|}.

Definition four_channels : list ChannelMapping :=
  (fun c => {| camera_channel := c; vms_channel := c + 1 |}) <$> [0; 1; 2; 3].

(** What the command line with [--channel-map x] gives. *)
Definition bad_map_vms : VmsConfig := sample_vms {{ vms_channel_map := $"x" }}.

Lemma program_starts_witness :
  (exists sys, main sample_main_env sample_args = (0, Some sys) /\ running_system sample_vms four_channels sys) /\
  main sample_main_env (sample_args ++ [$"--channel-map"; $"x"]) = (1, None).
Proof.
  split.
  - assert (parse_channel_map (vms_channel_map sample_vms) = Ok four_channels) as E by (vm_compute; reflexivity).
    pose proof (program_starts sample_main_env sample_args sample_vms ltac:(vm_compute; reflexivity)
      ltac:(apply check_ready_iff; vm_compute; reflexivity)) as H. rewrite E in H. apply H.
    constructor; try reflexivity.
    + apply check_ready_iff. vm_compute. reflexivity.
    + discriminate.
    + intros _. exists 3. split; [lia|reflexivity].
    + intros _. exists 4. split; [lia|reflexivity].
  - exact (program_starts sample_main_env (sample_args ++ [$"--channel-map"; $"x"])
             bad_map_vms ltac:(vm_compute; reflexivity)
             ltac:(apply check_ready_iff; vm_compute; reflexivity)).
Defined.

(** Without [--channel-map] the map is one the program accepts. *)
Lemma implicit_map_parses config :
  vms_ok config ->
  (vms_legacy_mapping_set config = true ->
   parse_channel_map (vms_channel_map config) =
   Ok [{| camera_channel := vms_camera_channel config; vms_channel := vms_channel_id config |}]) /\
  parse_channel_map $"0:1,1:2,2:3,3:4" = Ok four_channels.
Proof.
  intros [[] _ _ _ Hmap _ _ _ _ _ _]. split; [|vm_compute; reflexivity]. intros Hl. rewrite Hl in Hmap. rewrite Hmap.
  set (m := {| camera_channel := vms_camera_channel config; vms_channel := vms_channel_id config |}).
  change (to_string _ ++ $":" ++ to_string _) with (print_map [m]).
  unfold parse_channel_map. pose proof (print_map_nonempty [m] ltac:(done)) as Hp.
  replace (is_empty (print_map [m])) with false by (by destruct (print_map [m])).
  apply (channel_map_loop_print _ [m] _ _ []); [lia|done| |apply flags_none|apply flags_none].
  split_and!; [by apply Forall_singleton|apply NoDup_singleton..].
Qed.

(** The exit code says what happened: 2 exactly when the command line was accepted and
    the storage is not usable, 1 exactly when the command line was refused or start-up
    threw, and 0 otherwise; a system was running exactly when start-up succeeded. *)
Lemma exit_codes env args :
  let '(code, system) := main env args in
  (code = 2 <-> exists config, parse_vms_args (me_cin env) args = Ok (Parsed config) /\
                               ~ usable (me_storage env) (storage_manager config) (me_fs env)) /\
  (code = 1 <-> (exists w, parse_vms_args (me_cin env) args = Throw w) \/
                exists config w, parse_vms_args (me_cin env) args = Ok (Parsed config) /\
                  usable (me_storage env) (storage_manager config) (me_fs env) /\ start_up env config = Throw w) /\
  (forall sys, system = Some sys <->
     exists config, parse_vms_args (me_cin env) args = Ok (Parsed config) /\
       usable (me_storage env) (storage_manager config) (me_fs env) /\ start_up env config = Ok sys) /\
  (code = 0 \/ code = 1 \/ code = 2).
Proof.
  unfold main, main_body. destruct (parse_vms_args (me_cin env) args) as [[config|]|w]; cbn [mbind result_bind].
  - pose proof (check_ready_iff (me_storage env) (storage_manager config) (me_fs env)) as Hc.
    destruct (check _ _ _) as [[st fs] lg]. cbn [fst] in Hc.
    destruct (decide (ss_state st = Ready)) as [E|E].
    + rewrite bool_decide_eq_true_2 by done. cbn [negb]. assert (usable (me_storage env) (storage_manager config) (me_fs env)) by by apply Hc.
      destruct (start_up env config) as [sys|w] eqn:Es; cbn [mbind result_bind];
        cbv iota beta; split_and!; try lia.
      * split; [done|]. by intros (c & [= <-] & Hn).
      * split; [done|]. intros [[w [=]]|(c & w & [= <-] & _ & E')]. congruence.
      * intros sys'. split; [intros [= <-]; eauto|]. intros (c & [= <-] & _ & E'). congruence.
      * split; [done|]. by intros (c & [= <-] & Hn).
      * split; [intros _; right; eauto|done].
      * intros sys'. split; [done|]. intros (c & [= <-] & _ & E'). congruence.
    + rewrite bool_decide_eq_false_2 by done. cbn [negb].
      assert (~ usable (me_storage env) (storage_manager config) (me_fs env)) by (intros H; by apply E, Hc).
      cbv iota beta. split_and!; try lia.
      * split; [eauto|done].
      * split; [done|]. by intros [[w [=]]|(c & w & [= <-] & Hu & _)].
      * intros sys'. split; [done|]. by intros (c & [= <-] & Hu & _).
  - cbv iota beta. split_and!; try lia.
    + split; [done|]. by intros (c & [=] & _).
    + split; [done|]. by intros [[w [=]]|(c & w & [=] & _)].
    + intros sys'. split; [done|]. by intros (c & [=] & _).
  - cbv iota beta. split_and!; try lia.
    + split; [done|]. by intros (c & [=] & _).
    + split; [eauto|done].
    + intros sys'. split; [done|]. by intros (c & [=] & _).
Qed.

(** Shutting down leaves nothing listening and no thread unjoined. *)
Lemma shut_down_stops env system :
  s_started (sy_server system) = true -> m_started (sy_manager system) = true ->
  s_listeners (sy_server (shut_down env system)) = [] /\ s_started (sy_server (shut_down env system)) = false /\
  s_session_threads (sy_server (shut_down env system)) = [] /\ s_tls_context (sy_server (shut_down env system)) = false /\
  threads_joined (sy_manager (shut_down env system)).
Proof.
  intros H1 H2. unfold shut_down, stop, manager_stop. cbn [sy_server sy_manager]. rewrite H1, H2. unfold stop_end. cbn.
  destruct (s_tls_context (sy_server system)) eqn:E; (split_and!; [done|done|done|done|]); unfold threads_joined; cbn;
    apply Forall_lookup; intros i w; rewrite list_lookup_imap, fmap_Some; intros (w0 & _ & ->); apply join_worker_joined.
Qed.
