(* ===== verification/Rewriter.v ===== *)
(** * The proxy's rewriting of URLs (src/rtsp/rtsp_rewriter.cpp)

    A client of the proxy asks for [/chN]; the camera knows its own path.  The rewriter
    turns the target of a request into the camera's URL and the URLs of a response back,
    and keeps the framing of the messages.  [config_] and [channel_] are fixed by the
    constructor; what the methods use of them is [RtspRewriter]. *)

From S2P Require Import Prelude CStr Parser Control Config.

(** ** Channels *)

Definition parse_channel_from_request_target (target : bytes) (max_channels : Z) : Z :=
  let key := $"/ch" in
  match find0 key (lower_copy target) with
  | None => -1
  | Some pos =>
    let digit_pos := (pos + length key)%nat in
    match target !! digit_pos with
    | None => -1
    | Some c =>
      if negb (is_digit c) then -1
      else
        let channel := c - 48 in
        if (channel <? 0) || (channel >=? max_channels) then -1 else channel
    end
  end.

Definition extract_public_base_from_target (target : bytes) (channel : Z) : bytes :=
  let key := $"/ch" ++ to_string channel in
  match find0 (lower_copy key) (lower_copy target) with
  | None => key
  | Some pos => substr target 0 (pos + length key)
  end.

(** ** The rewriter *)

Record RtspRewriter := { rw_upstream_base : bytes; rw_public_base : bytes }.

Definition make_camera_path (config : AppConfig) (channel : Z) : bytes :=
  replace_all (app_camera_path_template config) $"{channel}" (to_string channel).

Definition rewriter_new (config : AppConfig) (channel : Z) (public_base : bytes) : RtspRewriter :=
  {| rw_upstream_base := $"rtsp://" ++ app_camera_host config ++ $":" ++ to_string (app_camera_port config) ++
                         make_camera_path config channel;
     rw_public_base := public_base |}.

Definition interleaved_transport : bytes := $"Transport: RTP/AVP/TCP;unicast;interleaved=0-1".

(** The first line with the camera's URL in place of the target. *)
Definition rewrite_first_line (upstream_base first method target version : bytes) : bytes :=
  if negb (is_empty method) && negb (is_empty target) && negb (is_empty version) then
    let suffix :=
      match find0 $"/ch" (lower_copy target) with
      | None => []
      | Some ch_pos =>
        let after_ch_digit := (ch_pos + 4)%nat in
        if (after_ch_digit <? length target)%nat then substr_from target after_ch_digit else []
      end in
    method ++ $" " ++ upstream_base ++ suffix ++ $" " ++ version
  else first.

(** The loop over the lines after the first: the text added, and whether a Transport line
    was seen. *)
Fixpoint rewrite_lines (public_base upstream_base : bytes) (lines : list bytes) (out : bytes) (had_transport : bool)
    : bytes * bool :=
  match lines with
  | [] => (out, had_transport)
  | line :: rest =>
    if is_empty line then rewrite_lines public_base upstream_base rest (out ++ CRLF) had_transport
    else if starts_with_ci line $"Transport:" then
      rewrite_lines public_base upstream_base rest (out ++ interleaved_transport ++ CRLF) true
    else rewrite_lines public_base upstream_base rest
           (out ++ replace_all line public_base upstream_base ++ CRLF) had_transport
  end.

Definition rewrite_client_request (r : RtspRewriter) (message : bytes) : bytes :=
  match find0 CRLF message with
  | None => message
  | Some first_eol =>
    let first := substr message 0 first_eol in
    let rest := substr_from message (first_eol + 2) in
    let '(method, iss) := read_word (Some first) [] in
    let '(target, iss) := read_word iss [] in
    let '(version, iss) := read_word iss [] in
    let first := rewrite_first_line (rw_upstream_base r) first method target version in
    let '(out, had_transport) :=
      rewrite_lines (rw_public_base r) (rw_upstream_base r) (split_lines_keep_empty rest) (first ++ CRLF) false in
    if negb had_transport && str_eqb (lower_copy method) $"setup" then
      match find0 CRLFCRLF out with
      | None => out
      | Some header_end => take (header_end + 2) out ++ interleaved_transport ++ CRLF ++ drop (header_end + 2) out
      end
    else out
  end.

(** The Content-Length of a header set to the size of the new body. *)
Definition set_content_length (header : bytes) (size : Z) : bytes :=
  match find0 $"content-length:" (lower_copy header) with
  | None => header
  | Some content_length_pos =>
    match str_find header CRLF content_length_pos with
    | None => header
    | Some line_end =>
      str_replace header content_length_pos (line_end - content_length_pos) ($"Content-Length: " ++ to_string size)
    end
  end.

Definition rewrite_camera_response (r : RtspRewriter) (message : bytes) : bytes :=
  if bool_decide (head message = Some 36) then message
  else match find0 CRLFCRLF message with
       | None => replace_all message (rw_upstream_base r) (rw_public_base r)
       | Some header_end =>
         let header := substr message 0 (header_end + 4) in
         let body := substr_from message (header_end + 4) in
         let header := replace_all header (rw_upstream_base r) (rw_public_base r) in
         let body := replace_all body (rw_upstream_base r) (rw_public_base r) in
         set_content_length header (zlen body) ++ body
       end.

(** ** Facts: channels *)

(** A target with its first [/ch] in front of a character. *)
Definition channel_target (pre : bytes) (c : Z) (suffix : bytes) : bytes := pre ++ $"/ch" ++ c :: suffix.

Definition no_channel_key (pre : bytes) : Prop := find0 $"/ch" (lower_copy pre ++ $"/c") = None.

Lemma lower_app a b : lower_copy (a ++ b) = lower_copy a ++ lower_copy b.
Proof. apply fmap_app. Qed.

(** The key is found where it was put. *)
Lemma find_channel_key pre rest :
  no_channel_key pre -> find0 $"/ch" (lower_copy (pre ++ $"/ch" ++ rest)) = Some (length pre).
Proof.
  intros Hn. rewrite !lower_app. change (lower_copy $"/ch") with $"/ch".
  apply find0_intro.
  - rewrite drop_app_length'; [apply is_prefix_app|symmetry; apply length_lower].
  - rewrite length_app, length_lower. lia.
  - intros j Hj. pose proof (find0_None _ _ j Hn) as H.
    rewrite drop_app_le in H by (rewrite length_lower; lia). rewrite drop_app_le by (rewrite length_lower; lia).
    assert (3 <= length (drop j (lower_copy pre) ++ $"/c"))%nat as Hl.
    { rewrite length_app, length_drop, length_lower. cbn. lia. }
    change ($"/ch" ++ lower_copy rest) with ($"/c" ++ ([104] ++ lower_copy rest)).
    rewrite app_assoc, is_prefix_app_long; [done|exact Hl].
Qed.

Lemma channel_target_lookup pre c suffix : channel_target pre c suffix !! (length pre + length $"/ch")%nat = Some c.
Proof.
  unfold channel_target. rewrite lookup_app_r by lia.
  replace (length pre + length $"/ch" - length pre)%nat with 3%nat by (cbn; lia). done.
Qed.

Lemma parse_channel_target pre c suffix max :
  no_channel_key pre -> is_digit c = true ->
  parse_channel_from_request_target (channel_target pre c suffix) max = if c - 48 <? max then c - 48 else -1.
Proof.
  intros Hn Hc. unfold parse_channel_from_request_target. cbv zeta.
  unfold channel_target at 1. rewrite find_channel_key by done. rewrite channel_target_lookup, Hc. cbn [negb].
  assert (0 <= c - 48) by (unfold is_digit in Hc; lia). replace (c - 48 <? 0) with false by lia. cbn [orb].
  rewrite Z.geb_leb. destruct (Z.leb_spec max (c - 48)), (Z.ltb_spec (c - 48) max); lia.
Qed.

Lemma parse_channel_range target max :
  let ch := parse_channel_from_request_target target max in ch = -1 \/ (0 <= ch <= 9 /\ ch < max).
Proof.
  cbv zeta. unfold parse_channel_from_request_target. cbv zeta. destruct (find0 _ _); [|by left].
  destruct (target !! _) as [c|]; [|by left]. destruct (is_digit c) eqn:Ec; cbn [negb]; [|by left].
  destruct (_ || _) eqn:E; [by left|]. right. bprop. unfold is_digit in Ec. lia.
Qed.

(** Only one digit of a channel number is read: channels from 10 on, which the command
    line allows, cannot be reached, and a request for one is taken for the channel of its
    first digit. *)
Lemma two_digit_channel_misread pre d e suffix max :
  no_channel_key pre -> is_digit d = true -> is_digit e = true -> 10 <= max ->
  parse_channel_from_request_target (channel_target pre d (e :: suffix)) max = d - 48 /\
  (forall target, parse_channel_from_request_target target max <= 9).
Proof.
  intros Hn Hd He Hm. split.
  - rewrite parse_channel_target by done. unfold is_digit in Hd. by replace (d - 48 <? max) with true by lia.
  - intros target. pose proof (parse_channel_range target max) as H. cbv zeta in H. lia.
Qed.

Lemma two_digit_channel_misread_witness :
  parse_channel_from_request_target $"rtsps://pi:8554/ch12/track1" 64 = 1.
Proof.
  exact (proj1 (two_digit_channel_misread $"rtsps://pi:8554" 49 50 $"/track1" 64 eq_refl eq_refl eq_refl ltac:(lia))).
Defined.

(** ** Facts: replacing text in a message *)

Lemma replace_all_unfold s from to :
  from <> [] ->
  replace_all s from to = match find0 from s with
                          | None => s
                          | Some i => take i s ++ to ++ replace_all (drop (i + length from) s) from to
                          end.
Proof.
  intros Hne. unfold replace_all at 1. destruct from as [|x from]; [done|]. cbn [is_empty].
  rewrite replace_loop_replaced. cbn [replaced].
  destruct (find0 _ s) as [i|] eqn:E; [|done]. apply find0_bound in E. cbn [length] in E.
  unfold replace_all. cbn [is_empty]. rewrite replace_loop_replaced.
  do 2 f_equal. apply replaced_fuel; [done| |lia]. rewrite length_drop. cbn [length]. lia.
Qed.

Lemma replace_all_nil from to : replace_all [] from to = [].
Proof. destruct from; done. Qed.

Lemma replace_all_no_first s from to c :
  head from = Some c -> Forall (fun x => x <> c) s -> replace_all s from to = s.
Proof. intros Hc Hs. rewrite replace_all_unfold by by destruct from. by rewrite (find0_no_first from s c). Qed.

Lemma replaced_Forall (P : Z -> Prop) f s from to :
  Forall P s -> Forall P to -> Forall P (replaced f s from to).
Proof.
  intros Hs Ht. revert s Hs. induction f as [|f IH]; intros s Hs; cbn [replaced]; [done|].
  destruct (find0 from s); [|done]. rewrite !Forall_app. split_and!; [by apply Forall_take|done|].
  apply IH. by apply Forall_drop.
Qed.

Lemma replace_all_Forall (P : Z -> Prop) s from to : Forall P s -> Forall P to -> Forall P (replace_all s from to).
Proof. intros. unfold replace_all. destruct (is_empty from); [done|].
  rewrite replace_loop_replaced. by apply replaced_Forall. Qed.

Lemma replace_all_nonempty s from to : s <> [] -> to <> [] -> replace_all s from to <> [].
Proof.
  intros Hs Ht. destruct from as [|x from]; [done|]. rewrite replace_all_unfold by done.
  destruct (find0 _ s); [|done]. intros [_ [H _]%app_eq_nil]%app_eq_nil. done.
Qed.

(** A character that is not in the pattern cuts the search in two. *)
Lemma is_prefix_sep p a b c : Forall (fun x => x <> c) p -> is_prefix p (a ++ c :: b) = is_prefix p a.
Proof.
  intros Hp. revert a; induction Hp as [|x p Hx _ IH]; intros [|y a]; cbn; try done.
  - replace (x =? c) with false by lia. done.
  - by rewrite IH.
Qed.

Lemma find0_sep p a b c :
  p <> [] -> Forall (fun x => x <> c) p -> find0 p a = None ->
  find0 p (a ++ c :: b) = (fun i => (length a + S i)%nat) <$> find0 p b.
Proof.
  intros Hne Hp. induction a as [|x a IH]; intros Ha.
  - change ([] ++ c :: b) with (c :: b). cbn [find0].
    replace (is_prefix p (c :: b)) with false by (pose proof (is_prefix_sep p [] b c Hp) as H; cbn [app] in H; rewrite H; by destruct p).
    by destruct (find0 p b).
  - cbn [app find0] in *. change (x :: a ++ c :: b) with ((x :: a) ++ c :: b). rewrite is_prefix_sep by done.
    destruct (is_prefix p (x :: a)); [done|]. destruct (find0 p a); [done|]. rewrite IH by done.
    by destruct (find0 p b).
Qed.

Lemma replace_all_sep a b c from to :
  from <> [] -> Forall (fun x => x <> c) from ->
  replace_all (a ++ c :: b) from to = replace_all a from to ++ c :: replace_all b from to.
Proof.
  intros Hne Hc. remember (length a) as n eqn:Hn. revert a Hn.
  induction (lt_wf n) as [n _ IH]. intros a ->.
  rewrite (replace_all_unfold a) by done. rewrite replace_all_unfold by done.
  destruct (find0 from a) as [i|] eqn:E.
  - rewrite (find0_app _ _ _ _ E). pose proof (find0_bound _ _ _ E) as Hb.
    assert (0 < length from)%nat by (destruct from; [done|cbn; lia]).
    rewrite take_app_le, drop_app_le by lia. rewrite <- !app_assoc. do 2 f_equal.
    eapply IH; [|reflexivity]. rewrite length_drop. lia.
  - rewrite find0_sep by done. rewrite (replace_all_unfold b) by done.
    destruct (find0 from b) as [j|]; cbn [fmap option_fmap option_map]; [|done].
    rewrite take_app_add. cbn [take]. rewrite <- app_assoc. cbn [app]. do 4 f_equal.
    rewrite <- Nat.add_assoc, drop_app_add. done.
Qed.

(** Neither half of a line break. *)
Definition no_eol (s : bytes) : Prop := Forall (fun c => c <> 13) s /\ Forall (fun c => c <> 10) s.

Lemma replace_all_crlf a b from to :
  from <> [] -> no_eol from ->
  replace_all (a ++ CRLF ++ b) from to = replace_all a from to ++ CRLF ++ replace_all b from to.
Proof.
  intros Hne [H13 H10]. change (a ++ CRLF ++ b) with (a ++ 13 :: ([] ++ 10 :: b)).
  rewrite (replace_all_sep a) by done. rewrite (replace_all_sep []) by done. by rewrite replace_all_nil.
Qed.

Lemma replace_all_lines lines rest from to :
  from <> [] -> no_eol from ->
  replace_all (with_crlf lines ++ rest) from to =
  with_crlf ((fun l => replace_all l from to) <$> lines) ++ replace_all rest from to.
Proof.
  intros Hne He. induction lines as [|l lines IH]; [done|]. unfold with_crlf in *. rewrite !fmap_cons. cbn [concat].
  rewrite <- !app_assoc, replace_all_crlf by done. by rewrite IH.
Qed.

(** ** Requests *)

(** A message made of its first line, its header lines and its body. *)
Definition rtsp_message (lines : list bytes) (body : bytes) : bytes := with_crlf lines ++ CRLF ++ body.

Lemma rtsp_message_cons first lines body :
  rtsp_message (first :: lines) body = first ++ CRLF ++ rtsp_message lines body.
Proof. unfold rtsp_message, with_crlf. rewrite fmap_cons. cbn [concat]. by rewrite <- !app_assoc. Qed.

Definition is_transport (line : bytes) : bool := starts_with_ci line $"Transport:".

Definition forward_line (r : RtspRewriter) (line : bytes) : bytes :=
  if is_transport line then interleaved_transport
  else replace_all line (rw_public_base r) (rw_upstream_base r).

(** An empty line of a body stays one. *)
Definition forward_body_line (r : RtspRewriter) (line : bytes) : bytes :=
  if is_empty line then [] else forward_line r line.

Lemma rewrite_lines_out r lines out had :
  rewrite_lines (rw_public_base r) (rw_upstream_base r) lines out had =
  (out ++ with_crlf ((fun l => if is_empty l then [] else forward_line r l) <$> lines),
   had || existsb is_transport lines).
Proof.
  revert out had; induction lines as [|l lines IH]; intros out had; cbn [rewrite_lines existsb].
  - by rewrite app_nil_r, orb_false_r.
  - unfold with_crlf in *. rewrite !fmap_cons. cbn [concat]. destruct l as [|x l]; cbn [is_empty].
    + rewrite IH. cbn [app]. rewrite <- app_assoc. by replace (is_transport []) with false by done.
    + unfold forward_line. fold (is_transport (x :: l)). destruct (is_transport (x :: l)); rewrite IH, <- !app_assoc.
      * by rewrite orb_true_l, orb_true_r.
      * by rewrite orb_false_l.
Qed.

(** A word of the first line. *)
Definition word (w : bytes) : Prop := w <> [] /\ Forall (fun c => negb (is_space c) = true) w.

Lemma word_no_cr w : word w -> no_cr w.
Proof. intros [_ H]. eapply Forall_impl; [exact H|]. intros c Hc ->. done. Qed.

Lemma word_nonempty w : word w -> is_empty w = false.
Proof. intros [H _]. by destruct w. Qed.

Lemma read_three_words a b c :
  word a -> word b -> word c ->
  exists i1 i2, read_word (Some (a ++ $" " ++ b ++ $" " ++ c)) [] = (a, i1) /\ read_word i1 [] = (b, i2) /\
    fst (read_word i2 []) = c.
Proof.
  intros [Ha Ha'] [Hb Hb'] [Hc Hc'].
  exists (Some ($" " ++ b ++ $" " ++ c)), (Some ($" " ++ c)).
  assert (forall s old, read_word (Some ($" " ++ s)) old = read_word (Some s) old) as Hsp.
  { intros s old. unfold read_word. change ($" " ++ s) with (32 :: s). unfold skip_ws. cbn [span].
    replace (is_space 32) with true by done. by destruct (span is_space s). }
  split_and!.
  - apply read_word_app; [done|done|]. intros x y [= <- _]. done.
  - rewrite Hsp. apply read_word_app; [done|done|]. intros x y [= <- _]. done.
  - rewrite Hsp. rewrite <- (app_nil_r c) at 1. by rewrite read_word_app.
Qed.

Lemma rewrite_first_line_target up first method pre c suffix version :
  word method -> word version -> no_channel_key pre ->
  rewrite_first_line up first method (channel_target pre c suffix) version =
  method ++ $" " ++ (up ++ suffix) ++ $" " ++ version.
Proof.
  intros Hm Hv Hn. unfold rewrite_first_line.
  rewrite (word_nonempty method), (word_nonempty version) by done.
  assert (is_empty (channel_target pre c suffix) = false) as -> by by destruct pre.
  cbn [negb andb]. unfold channel_target. rewrite find_channel_key by done.
  assert (length (pre ++ $"/ch" ++ c :: suffix) = (length pre + 4 + length suffix)%nat) as El.
  { rewrite !length_app. cbn. lia. }
  rewrite El. unfold substr_from. rewrite drop_app_add. rewrite <- app_assoc.
  destruct (Nat.ltb_spec (length pre + 4) (length pre + 4 + length suffix)); [done|].
  by destruct suffix; [|cbn in *; lia].
Qed.

Definition header_line (l : bytes) : Prop := no_cr l /\ l <> [].

Lemma header_line_ok l : header_line l -> line_ok l.
Proof. intros [H Hne]. split; [by apply no_cr_no_crlf|done]. Qed.

Lemma header_lines_ok ls : Forall header_line ls -> Forall line_ok ls.
Proof. intros H. eapply Forall_impl; [exact H|apply header_line_ok]. Qed.

Lemma forward_line_ok r l :
  no_cr (rw_upstream_base r) -> rw_upstream_base r <> [] -> header_line l -> header_line (forward_line r l).
Proof.
  intros Hu Hne [Hl Hl']. unfold forward_line. destruct (is_transport l).
  - split; [apply no_cr_lit; reflexivity|done].
  - split; [by apply replace_all_Forall|by apply replace_all_nonempty].
Qed.

(** The lines of a body: those that end in a line break, and the text after the last one. *)
Definition body_lines (lines : list bytes) (tail : bytes) : list bytes := lines ++ (if is_empty tail then [] else [tail]).

Lemma split_lines_body lines tail :
  Forall no_crlf lines -> no_crlf tail -> split_lines_keep_empty (with_crlf lines ++ tail) = body_lines lines tail.
Proof.
  intros Hl Ht. unfold body_lines. induction Hl as [|l lines Hl _ IH].
  - cbn [app with_crlf fmap list_fmap concat]. unfold split_lines_keep_empty. destruct tail as [|x tail]; [done|].
    cbn [lines_loop is_empty]. by rewrite (Ht : find0 CRLF _ = None).
  - unfold with_crlf in *. rewrite fmap_cons. cbn [concat app]. rewrite <- !app_assoc, split_lines_cons by done. by rewrite IH.
Qed.

(** Every text is such a body. *)
Lemma body_lines_exist body : exists lines tail, body = with_crlf lines ++ tail /\ Forall no_crlf lines /\ no_crlf tail.
Proof.
  induction body as [body IH] using (induction_ltof1 _ (@length _)).
  destruct (find0 CRLF body) as [i|] eqn:E; [|by exists [], body].
  pose proof (find0_bound _ _ _ E) as Hb. cbn in Hb. destruct (find0_split _ _ _ E) as [Es _].
  destruct (IH (drop (i + 2) body)) as (lines & tail & Eb & Hl & Ht); [unfold ltof; rewrite length_drop; lia|].
  exists (take i body :: lines), tail. split; [|split; [|done]; constructor; [by apply find0_crlf_line|done]].
  unfold with_crlf in *. rewrite fmap_cons. cbn [concat]. rewrite <- !app_assoc, <- Eb. exact Es.
Qed.

Lemma with_crlf_app a b : with_crlf (a ++ b) = with_crlf a ++ with_crlf b.
Proof. unfold with_crlf. by rewrite fmap_app, concat_app. Qed.

Lemma with_crlf_cons l ls : with_crlf (l :: ls) = l ++ CRLF ++ with_crlf ls.
Proof. unfold with_crlf. rewrite fmap_cons. cbn [concat]. by rewrite <- app_assoc. Qed.

Lemma with_crlf_one l : with_crlf [l] = l ++ CRLF.
Proof. apply app_nil_r. Qed.

(** A line put in before the empty line is the last header line. *)
Lemma insert_last_header lines line body :
  lines <> [] -> Forall line_ok lines ->
  match find0 CRLFCRLF (rtsp_message lines body) with
  | None => rtsp_message lines body
  | Some e => take (e + 2) (rtsp_message lines body) ++ line ++ CRLF ++ drop (e + 2) (rtsp_message lines body)
  end = rtsp_message (lines ++ [line]) body.
Proof.
  intros Hne Hl. unfold rtsp_message. destruct (header_end lines body Hne Hl) as (h & Eh & ->).
  rewrite with_crlf_app, with_crlf_one, Eh.
  assert (length (h ++ CRLF) = (length h + 2)%nat) as <- by (rewrite length_app; done).
  rewrite take_app_length, drop_app_length. by rewrite <- !app_assoc.
Qed.

Lemma no_cr_request_line method url version :
  no_cr method -> no_cr url -> no_cr version -> no_cr (method ++ $" " ++ url ++ $" " ++ version).
Proof. eauto with rtsps. Qed.

Section Requests.
Context (r : RtspRewriter) (method version : bytes).
Hypothesis Hup : no_cr (rw_upstream_base r) /\ rw_upstream_base r <> [].
Hypothesis Hm : word method.
Hypothesis Hv : word version.

(** What the loop over the lines makes of the rest of a request. *)
Lemma forwarded_rest first headers lines tail :
  Forall header_line headers -> Forall no_crlf lines -> no_crlf tail ->
  rewrite_lines (rw_public_base r) (rw_upstream_base r)
    (split_lines_keep_empty (rtsp_message headers (with_crlf lines ++ tail))) (first ++ CRLF) false =
  (rtsp_message (first :: (forward_line r <$> headers)) (with_crlf (forward_body_line r <$> body_lines lines tail)),
   existsb is_transport (headers ++ lines ++ [tail])).
Proof.
  intros Hh Hl Ht. unfold rtsp_message. rewrite split_lines_with_crlf by by apply header_lines_ok.
  change (CRLF ++ ?b) with ([] ++ CRLF ++ b) at 1. rewrite split_lines_cons, split_lines_body by done.
  rewrite rewrite_lines_out. fold (forward_body_line r). f_equal.
  - rewrite fmap_app, with_crlf_app. change (with_crlf (first :: ?l)) with ((first ++ CRLF) ++ with_crlf l).
    rewrite <- (app_assoc (first ++ CRLF)). do 2 f_equal.
    f_equal. apply list_fmap_ext. intros i l Hil. apply (Forall_lookup_1 _ _ _ _ Hh) in Hil as [_ Hil]. by destruct l.
  - unfold body_lines. rewrite orb_false_l. cbn [existsb]. rewrite !existsb_app. f_equal. cbn [existsb]. rewrite existsb_app.
    by destruct tail.
Qed.

Lemma setup_transport first headers (had : bool) body :
  Forall line_ok (first :: headers) ->
  (if negb had && str_eqb (lower_copy method) $"setup" then
     match find0 CRLFCRLF (rtsp_message (first :: headers) body) with
     | None => rtsp_message (first :: headers) body
     | Some e => take (e + 2) (rtsp_message (first :: headers) body) ++ interleaved_transport ++ CRLF ++
                 drop (e + 2) (rtsp_message (first :: headers) body)
     end
   else rtsp_message (first :: headers) body) =
  rtsp_message (first :: headers ++
    (if negb had && str_eqb (lower_copy method) $"setup" then [interleaved_transport] else [])) body.
Proof.
  intros Hl. destruct (negb had && _).
  - pose proof (insert_last_header (first :: headers) interleaved_transport body ltac:(done) Hl) as H.
    exact H.
  - by rewrite app_nil_r.
Qed.
End Requests.

(** C30: What the camera gets for a request: the first line with the camera's URL in place of
    everything up to the channel number, every header line with the public base replaced,
    every Transport line replaced by the proxy's own, which is added as the last header of
    a SETUP that has none.  The body, which can be any text, is taken for more lines: each
    is rewritten like a header line, and if the text after the last line break is not
    empty, a line break that was not there follows it, so that the body no longer has
    the length its Content-Length says. *)
Theorem request_forwarded r method pre c suffix version headers lines tail :
  no_cr (rw_upstream_base r) /\ rw_upstream_base r <> [] ->
  word method -> word version -> word (channel_target pre c suffix) -> no_channel_key pre ->
  Forall header_line headers -> Forall no_crlf lines -> no_crlf tail ->
  rewrite_client_request r
    (rtsp_message ((method ++ $" " ++ channel_target pre c suffix ++ $" " ++ version) :: headers)
                  (with_crlf lines ++ tail)) =
  rtsp_message ((method ++ $" " ++ (rw_upstream_base r ++ suffix) ++ $" " ++ version) ::
                (forward_line r <$> headers) ++
                (if negb (existsb is_transport (headers ++ lines ++ [tail])) && str_eqb (lower_copy method) $"setup"
                 then [interleaved_transport] else []))
               (with_crlf (forward_body_line r <$> lines) ++ (if is_empty tail then [] else forward_line r tail ++ CRLF)).
Proof.
  intros Hup Hm Hv Ht Hn Hh Hb Hb'.
  replace (with_crlf (forward_body_line r <$> lines) ++ _) with (with_crlf (forward_body_line r <$> body_lines lines tail)).
  2: { unfold body_lines. rewrite fmap_app, with_crlf_app. f_equal. destruct tail; [done|]. apply with_crlf_one. }
  rewrite (rtsp_message_cons _ headers). unfold rewrite_client_request.
  set (first := method ++ $" " ++ channel_target pre c suffix ++ $" " ++ version).
  assert (no_cr first) as Hf by (apply no_cr_request_line; by apply word_no_cr).
  rewrite find0_crlf by by apply no_cr_no_crlf.
  unfold substr, substr_from. rewrite drop_0, take_app_length, drop_app_add.
  change (drop 2 (CRLF ++ ?x)) with x.
  destruct (read_three_words method (channel_target pre c suffix) version Hm Ht Hv) as (i1 & i2 & E1 & E2 & E3).
  fold first in E1. rewrite E1, E2. destruct (read_word i2 []) as [v i3]. cbn [fst] in E3. subst v.
  rewrite rewrite_first_line_target by done. rewrite forwarded_rest by done.
  apply setup_transport. constructor.
  - apply header_line_ok. split; [|by destruct method; destruct Hm].
    apply no_cr_request_line; [by apply word_no_cr| |by apply word_no_cr].
    apply no_cr_app; [apply Hup|]. apply word_no_cr in Ht. unfold channel_target in Ht.
    by apply Forall_app in Ht as [_ [_ [_ Ht]%Forall_cons]%Forall_app].
  - apply header_lines_ok, Forall_fmap. eapply Forall_impl; [exact Hh|]. destruct Hup. intros l. by apply forward_line_ok.
Qed.

(** The rewriter of a camera at 10.0.0.7 for a client that asked for [/ch2]. *)
Definition sample_rewriter : RtspRewriter :=
  {| rw_upstream_base := $"rtsp://10.0.0.7:554/2/media.smp"; rw_public_base := $"rtsps://pi:8554/ch2" |}.

Lemma request_forwarded_witness :
  rewrite_client_request sample_rewriter
    ($"SETUP rtsps://pi:8554/ch2/track1 RTSP/1.0" ++ CRLF ++ $"CSeq: 3" ++ CRLF ++ CRLF ++
     $"url: rtsps://pi:8554/ch2" ++ CRLF ++ $"volume: 1") =
  $"SETUP rtsp://10.0.0.7:554/2/media.smp/track1 RTSP/1.0" ++ CRLF ++ $"CSeq: 3" ++ CRLF ++
  $"Transport: RTP/AVP/TCP;unicast;interleaved=0-1" ++ CRLF ++ CRLF ++
  $"url: rtsp://10.0.0.7:554/2/media.smp" ++ CRLF ++ $"volume: 1" ++ CRLF.
Proof.
  apply (request_forwarded sample_rewriter $"SETUP" $"rtsps://pi:8554" 50 $"/track1" $"RTSP/1.0" [$"CSeq: 3"]
           [$"url: rtsps://pi:8554/ch2"] $"volume: 1").
  - split; [apply no_cr_lit; reflexivity|done].
  - split; [done|by repeat constructor].
  - split; [done|by repeat constructor].
  - split; [done|by repeat constructor].
  - reflexivity.
  - constructor; [|done]. split; [apply no_cr_lit; reflexivity|done].
  - by repeat constructor.
  - reflexivity.
Defined.

(** ** Responses *)

Definition content_length_line (size : Z) : bytes := $"Content-Length: " ++ to_string size.

Lemma lower_with_crlf lines : exists s, lines <> [] -> lower_copy (with_crlf lines) = s ++ [10].
Proof.
  destruct (decide (lines = [])) as [->|Hne]; [by exists []|].
  destruct (exists_last Hne) as (ls & l & ->). exists (lower_copy (with_crlf ls ++ l ++ [13])). intros _.
  rewrite with_crlf_app, with_crlf_one, !lower_app, <- !app_assoc. done.
Qed.

(** The first line that mentions a Content-Length gets the new size. *)
Lemma set_content_length_lines lines old rest size :
  lines <> [] -> 0 <= old -> find0 $"content-length:" (lower_copy (with_crlf lines)) = None ->
  set_content_length (with_crlf lines ++ content_length_line old ++ CRLF ++ rest) size =
  with_crlf lines ++ content_length_line size ++ CRLF ++ rest.
Proof.
  intros Hne Ho Hn. unfold set_content_length. rewrite lower_app.
  destruct (lower_with_crlf lines) as [s Hs]. specialize (Hs Hne).
  assert (find0 $"content-length:" s = None) as Hns.
  { destruct (find0 _ s) eqn:E; [|done]. rewrite Hs, (find0_app _ _ _ _ E) in Hn. done. }
  assert (forall x, find0 $"content-length:" (lower_copy (with_crlf lines) ++ lower_copy (content_length_line old ++ x)) =
    Some (length (with_crlf lines))) as ->.
  { intros x. rewrite <- (length_lower (with_crlf lines)), Hs, <- app_assoc. cbn [app]. rewrite find0_sep; [|done| |done].
    - unfold content_length_line. rewrite !lower_app, length_app.
      rewrite (find0_intro _ _ 0); [done| |lia|intros; lia].
      change (lower_copy $"Content-Length: ") with ($"content-length:" ++ [32]). rewrite drop_0, <- !app_assoc.
      apply is_prefix_app.
    - by repeat constructor. }
  rewrite str_find_app, find0_crlf.
  - cbn [fmap option_fmap option_map]. unfold str_replace. rewrite take_app_length.
    replace (length (with_crlf lines) + length (content_length_line old) - length (with_crlf lines))%nat
      with (length (content_length_line old)) by lia.
    by rewrite drop_app_add, drop_app_length.
  - apply no_cr_no_crlf. unfold content_length_line. eauto with rtsps.
Qed.

Lemma content_length_no_r size : 0 <= size -> Forall (fun c => c <> 114) (content_length_line size).
Proof. intros H. apply Forall_app. split; [by repeat constructor|by apply to_string_no]. Qed.

(** C31: What the client gets for a response with a Content-Length: every URL of the camera,
    in the header and in the body (the SDP), is the public one, and the Content-Length is
    the size of the body as it is now. *)
Theorem response_reframed r first pre size post body :
  head (rw_upstream_base r) = Some 114 -> no_eol (rw_upstream_base r) -> 0 <= size ->
  let public s := replace_all s (rw_upstream_base r) (rw_public_base r) in
  Forall header_line (first :: pre ++ content_length_line size :: post) -> head first <> Some 36 ->
  find0 $"content-length:" (lower_copy (with_crlf (public <$> first :: pre))) = None ->
  rewrite_camera_response r (rtsp_message (first :: pre ++ content_length_line size :: post) body) =
  rtsp_message ((public <$> first :: pre) ++ content_length_line (zlen (public body)) :: (public <$> post)) (public body).
Proof.
  intros Hh He Hs public Hl H36 Hn. unfold rewrite_camera_response.
  assert (bool_decide (head (rtsp_message (first :: pre ++ content_length_line size :: post) body) = Some 36) = false) as ->.
  { apply bool_decide_eq_false. rewrite rtsp_message_cons. apply Forall_cons in Hl as [[_ Hf] _]. by destruct first. }
  set (lines := first :: pre ++ content_length_line size :: post) in *.
  destruct (header_end lines body ltac:(done) (header_lines_ok _ Hl)) as (h & Eh & Ef).
  fold (rtsp_message lines body) in Ef. rewrite Ef. unfold substr, substr_from.
  assert ((length h + 4)%nat = length (with_crlf lines ++ CRLF)) as -> by (rewrite Eh, !length_app; cbn; lia).
  assert (rtsp_message lines body = (with_crlf lines ++ CRLF) ++ body) as -> by apply app_assoc.
  rewrite drop_0, take_app_length, drop_app_length. fold (public body).
  assert (rw_upstream_base r <> []) as Hne by by destruct (rw_upstream_base r).
  rewrite replace_all_lines by done. fold public. rewrite (replace_all_no_first CRLF _ _ 114) by (done || by repeat constructor).
  unfold lines. change (first :: pre ++ ?x) with ((first :: pre) ++ x). rewrite fmap_app, with_crlf_app.
  rewrite (fmap_cons public (content_length_line size) post), (with_crlf_cons (public (content_length_line size))).
  assert (public (content_length_line size) = content_length_line size) as ->.
  { by apply (replace_all_no_first _ _ _ 114), content_length_no_r. }
  rewrite <- !app_assoc. rewrite set_content_length_lines by done.
  unfold rtsp_message. rewrite with_crlf_app, (with_crlf_cons (content_length_line (zlen (public body)))).
  by rewrite <- !app_assoc.
Qed.

Lemma response_reframed_witness :
  rewrite_camera_response sample_rewriter
    ($"RTSP/1.0 200 OK" ++ CRLF ++ $"CSeq: 2" ++ CRLF ++ $"Content-Length: 49" ++ CRLF ++ CRLF ++
     $"a=control:rtsp://10.0.0.7:554/2/media.smp/track1" ++ [10]) =
  $"RTSP/1.0 200 OK" ++ CRLF ++ $"CSeq: 2" ++ CRLF ++ $"Content-Length: 37" ++ CRLF ++ CRLF ++
  $"a=control:rtsps://pi:8554/ch2/track1" ++ [10].
Proof.
  refine (response_reframed sample_rewriter $"RTSP/1.0 200 OK" [$"CSeq: 2"] 49 []
    ($"a=control:rtsp://10.0.0.7:554/2/media.smp/track1" ++ [10]) eq_refl _ _ _ _ _).
  - split; by repeat constructor.
  - done.
  - repeat constructor; try done; apply no_cr_lit; reflexivity.
  - done.
  - reflexivity.
Defined.
