(* ===== verification/Digest.v ===== *)
(** * Digest authentication towards the camera (src/rtsp/digest_authenticator.cpp)

    The proxy answers the Digest challenge of a camera in the name of its client.  OpenSSL's
    MD5 is the argument [evp]; everything around it is the code's. *)

From S2P Require Import Prelude CStr Parser Control Config Rewriter.

(** ** MD5 *)

(** What the OpenSSL calls of [md5_hex] give: whether a context could be made, and the
    digest, unless a call failed. *)
Record Evp := { evp_md_ctx_new : bool; evp_md5 : bytes -> option bytes }.

Definition hex_byte (b : Z) : bytes := pad_left 2 48 (hex_unsigned b).

Definition md5_hex (evp : Evp) (input : bytes) : result bytes :=
  if negb (evp_md_ctx_new evp) then Throw $"EVP_MD_CTX_new() failed"
  else match evp_md5 evp input with
       | None => Throw $"MD5 digest failed"
       | Some digest => Ok (concat (hex_byte <$> digest))
       end.

(** ** Challenges *)

Definition digest_param (auth key : bytes) : bytes :=
  let needle := key ++ $"=" in
  match find0 (lower_copy needle) (lower_copy auth) with
  | None => []
  | Some pos =>
    let pos := (pos + length needle)%nat in
    match auth !! pos with
    | None => []
    | Some c =>
      if c =? 34 then
        match str_find auth [34] (pos + 1) with
        | None => []
        | Some e => substr auth (pos + 1) (e - pos - 1)
        end
      else match str_find auth $"," pos with
           | None => trim_copy (substr_from auth pos)
           | Some e => trim_copy (substr auth pos (e - pos))
           end
    end
  end.

Record DigestChallenge := { dc_valid : bool; dc_realm : bytes; dc_nonce : bytes; dc_qop : bytes }.

Definition no_challenge : DigestChallenge := {| dc_valid := false; dc_realm := []; dc_nonce := []; dc_qop := [] |}.

(** The first value of a [qop] list. *)
Definition first_qop (qop : bytes) : bytes :=
  if is_empty qop then qop
  else trim_copy (match find0 $"," qop with None => qop | Some comma => substr qop 0 comma end).

Definition parse_digest_challenge (message : bytes) : DigestChallenge :=
  let auth := header_value message $"WWW-Authenticate" in
  if is_empty auth || bool_decide (find0 $"digest" (lower_copy auth) = None) then no_challenge
  else
    let realm := digest_param auth $"realm" in
    let nonce := digest_param auth $"nonce" in
    let qop := first_qop (digest_param auth $"qop") in
    {| dc_valid := negb (is_empty realm) && negb (is_empty nonce);
       dc_realm := realm; dc_nonce := nonce; dc_qop := qop |}.

Definition make_nc (value : Z) : bytes := pad_left 8 48 (hex_unsigned value).

(** ** The header of a request *)

Definition add_authorization_header (request auth_header : bytes) : bytes :=
  match find0 CRLFCRLF request with
  | None => request
  | Some header_end =>
    let out := request in
    let lower := lower_copy out in
    let insert_new := take (header_end + 2) out ++ auth_header ++ CRLF ++ drop (header_end + 2) out in
    match find0 (CRLF ++ $"authorization:") lower with
    | None => insert_new
    | Some line_start =>
      if (line_start <? header_end)%nat then
        let n := match str_find out CRLF (line_start + 2) with
                 | None => length out
                 | Some line_end => (line_end - line_start - 2)%nat
                 end in
        let out := take (line_start + 2) out ++ drop (line_start + 2 + n) out in
        take (line_start + 2) out ++ auth_header ++ drop (line_start + 2) out
      else insert_new
    end
  end.

(** ** The authenticator *)

Record DigestAuthenticator := { da_challenge : DigestChallenge; da_nc : Z }.

Definition authenticator_new : DigestAuthenticator := {| da_challenge := no_challenge; da_nc := 1 |}.

Definition has_challenge (a : DigestAuthenticator) : bool := dc_valid (da_challenge a).

Definition update_from_unauthorized (response : bytes) (a : DigestAuthenticator) : bool * DigestAuthenticator :=
  let parsed := parse_digest_challenge response in
  if negb (dc_valid parsed) then (false, a)
  else (true, {| da_challenge := parsed; da_nc := da_nc a |}).

Definition cnonce : bytes := $"rpi-rtsps-proxy".

Definition quoted (s : bytes) : bytes := [34] ++ s ++ [34].

Definition authorization_text (user realm nonce uri response qop nc : bytes) : bytes :=
  $"Authorization: Digest username=" ++ quoted user ++ $", realm=" ++ quoted realm ++ $", nonce=" ++ quoted nonce ++
  $", uri=" ++ quoted uri ++ $", response=" ++ quoted response ++
  (if is_empty qop then [] else $", qop=" ++ qop ++ $", nc=" ++ nc ++ $", cnonce=" ++ quoted cnonce).

Definition build_authorization (evp : Evp) (config : AppConfig) (challenge : DigestChallenge)
    (method uri : bytes) (nc_value : Z) : result bytes :=
  let qop := if is_empty (dc_qop challenge) then [] else $"auth" in
  let nc := make_nc nc_value in
  ha1 ← md5_hex evp (app_camera_user config ++ $":" ++ dc_realm challenge ++ $":" ++ app_camera_password config);
  ha2 ← md5_hex evp (method ++ $":" ++ uri);
  response ←
    (if is_empty qop then md5_hex evp (ha1 ++ $":" ++ dc_nonce challenge ++ $":" ++ ha2)
     else md5_hex evp (ha1 ++ $":" ++ dc_nonce challenge ++ $":" ++ nc ++ $":" ++ cnonce ++ $":" ++ qop ++ $":" ++ ha2));
  Ok (authorization_text (app_camera_user config) (dc_realm challenge) (dc_nonce challenge) uri response qop nc).

(** [nc_++] takes place before the call: the counter moves even when OpenSSL fails. *)
Definition authorize (evp : Evp) (config : AppConfig) (request : bytes) (a : DigestAuthenticator)
    : result bytes * DigestAuthenticator :=
  if negb (dc_valid (da_challenge a)) then (Ok request, a)
  else
    let iss := Some (get_first_line request) in
    let '(method, iss) := read_word iss [] in
    let '(uri, iss) := read_word iss [] in
    let '(version, iss) := read_word iss [] in
    if is_empty method || is_empty uri then (Ok request, a)
    else
      (add_authorization_header request <$> build_authorization evp config (da_challenge a) method uri (da_nc a),
       {| da_challenge := da_challenge a; da_nc := u32 (da_nc a + 1) |}).

(** ** Facts: parameters *)

Definition no_char (c : Z) (s : bytes) : Prop := Forall (fun x => x <> c) s.

Lemma no_char_lit c s : forallb (fun x => negb (x =? c)) s = true -> no_char c s.
Proof. intros H. apply Forall_forall. intros x Hx. rewrite forallb_forall in H. apply list_elem_of_In, H in Hx. lia. Qed.
#[local] Hint Extern 1 (no_char _ (lit _)) => apply no_char_lit; reflexivity : rtsps.

(** A pattern that ends in the separator is found only where a piece ends in its name. *)
Lemma is_prefix_key k a rest :
  no_char 61 k -> no_char 61 a -> is_prefix (k ++ [61]) (a ++ 61 :: rest) = str_eqb k a.
Proof.
  intros Hk. revert a; induction Hk as [|x k Hx _ IH]; intros [|y a] Ha; cbn; try done.
  - apply Forall_cons in Ha as [Hy _]. by replace (61 =? y) with false by lia.
  - replace (x =? 61) with false by lia. done.
  - apply Forall_cons in Ha as [_ Ha]. by rewrite IH.
Qed.

Lemma find0_key_later k a rest :
  no_char 61 k -> no_char 61 a -> ~ k `suffix_of` a ->
  find0 (k ++ [61]) (a ++ 61 :: rest) = (fun i => (length a + S i)%nat) <$> find0 (k ++ [61]) rest.
Proof.
  intros Hk Ha. induction Ha as [|x a Hx Ha IH]; intros Hn.
  - cbn [app find0]. pose proof (is_prefix_key k [] rest Hk ltac:(constructor)) as E. cbn [app] in E. rewrite E.
    destruct k; [|by destruct (find0 _ rest)]. by contradict Hn.
  - cbn [app find0]. change (x :: a ++ 61 :: rest) with ((x :: a) ++ 61 :: rest).
    rewrite is_prefix_key by (done || by constructor).
    destruct (str_eqb k (x :: a)) eqn:E; [apply str_eqb_eq in E as ->; by contradict Hn|].
    rewrite IH by (intros H; apply Hn; by apply suffix_cons_r). by destruct (find0 _ rest).
Qed.

Lemma find0_key_here k a rest :
  no_char 61 k -> no_char 61 a -> find0 (k ++ [61]) (a ++ k ++ 61 :: rest) = Some (length a).
Proof.
  intros Hk Ha. induction Ha as [|x a Hx Ha IH].
  - cbn [app length]. apply (find0_intro _ _ 0); [|lia|intros; lia]. rewrite drop_0, is_prefix_key by done.
    apply str_eqb_refl.
  - cbn [app find0]. change (x :: a ++ k ++ 61 :: rest) with (x :: a ++ (k ++ 61 :: rest)). rewrite app_assoc.
    change (x :: (a ++ k) ++ 61 :: rest) with ((x :: a ++ k) ++ 61 :: rest).
    rewrite is_prefix_key by (done || (constructor; [done|by apply Forall_app])).
    destruct (str_eqb k (x :: a ++ k)) eqn:E.
    + apply str_eqb_eq, (f_equal length) in E. cbn in E. rewrite length_app in E. lia.
    + rewrite <- app_assoc, IH. done.
Qed.

(** [key] is the name of a parameter right after [x], and of none before. *)
Definition first_key (key x : bytes) : Prop :=
  find0 (lower_copy (key ++ $"=")) (lower_copy (x ++ key ++ $"=")) = Some (length x).

Lemma no_char_lower s : no_char 61 s -> no_char 61 (lower_copy s).
Proof.
  intros Hs. apply Forall_fmap. eapply Forall_impl; [exact Hs|]. intros x Hx. cbn.
  unfold to_lower. destruct ((65 <=? x) && (x <=? 90)) eqn:E; [|done]. bprop. lia.
Qed.

Lemma first_key_here key a : no_char 61 key -> no_char 61 a -> first_key key a.
Proof.
  intros Hk Ha. unfold first_key. rewrite !lower_app. change (lower_copy $"=") with [61].
  rewrite find0_key_here by by apply no_char_lower. by rewrite length_lower.
Qed.

Lemma first_key_later key a x :
  no_char 61 key -> no_char 61 a -> ~ lower_copy key `suffix_of` lower_copy a ->
  first_key key x -> first_key key (a ++ $"=" ++ x).
Proof.
  intros Hk Ha Hn Hx. unfold first_key in *. rewrite !lower_app in *. rewrite <- !app_assoc.
  change (lower_copy $"=") with [61] in *. cbn [app].
  rewrite find0_key_later by (done || by apply no_char_lower).
  rewrite Hx. cbn [fmap option_fmap option_map]. by rewrite length_lower, !length_app.
Qed.

Lemma not_suffix_app (k a b : bytes) : (length k <= length b)%nat -> ~ k `suffix_of` b -> ~ k `suffix_of` (a ++ b).
Proof.
  intros Hl Hn [x Hx]. apply Hn. exists (drop (length a) x).
  assert (length a <= length x)%nat.
  { apply (f_equal length) in Hx. rewrite !length_app in Hx. lia. }
  apply (f_equal (drop (length a))) in Hx. rewrite drop_app_length, drop_app_le in Hx by done. done.
Qed.

(** A quoted value is read back. *)
Lemma digest_param_quoted x key v rest :
  first_key key x -> no_char 34 v -> digest_param (x ++ key ++ $"=" ++ quoted v ++ rest) key = v.
Proof.
  intros Hk Hv. unfold digest_param. cbv zeta.
  assert (x ++ key ++ $"=" ++ quoted v ++ rest = (x ++ key ++ $"=") ++ 34 :: v ++ 34 :: rest) as ->.
  { unfold quoted. rewrite <- !app_assoc. done. }
  rewrite (lower_app (x ++ key ++ $"=")), (find0_app _ _ _ _ Hk).
  replace (length x + length (key ++ $"="))%nat with (length (x ++ key ++ $"=")) by by rewrite length_app.
  set (p := x ++ key ++ $"="). rewrite lookup_app_r, Nat.sub_diag by done. cbn [lookup list_lookup].
  replace (length p + 1)%nat with (length (p ++ [34%Z])) by (rewrite length_app; done).
  replace (p ++ 34 :: v ++ 34 :: rest) with ((p ++ [34]) ++ v ++ 34 :: rest) by by rewrite <- app_assoc.
  cbn [Z.eqb Pos.eqb]. rewrite str_find_app, find0_char by done. cbn [fmap option_fmap option_map].
  unfold substr. rewrite drop_app_length.
  replace (length (p ++ [34%Z]) + length v - length p - 1)%nat with (length v) by (rewrite length_app; cbn; lia).
  by rewrite take_app_length.
Qed.

(** ** Reading a challenge *)

(** A value that can stand between quotes. *)
Definition plain (s : bytes) : Prop := no_char 34 s /\ no_char 61 s /\ no_cr s.

Definition challenge_text (realm nonce qop : bytes) : bytes :=
  $"Digest realm=" ++ quoted realm ++ $", nonce=" ++ quoted nonce ++ $", qop=" ++ quoted qop.

Definition challenge_line (realm nonce qop : bytes) : bytes := $"WWW-Authenticate: " ++ challenge_text realm nonce qop.

(** The piece of a header between two equality signs. *)
Lemma no_char_piece v name : no_char 61 v -> no_char 61 name -> no_char 61 (quoted v ++ name).
Proof. unfold no_char, quoted. intros Hv Hn. rewrite !Forall_app. split_and!; try done; by repeat constructor. Qed.
#[local] Hint Resolve no_char_piece : rtsps.

Lemma not_key_piece key v name :
  (length key <= length name)%nat -> ~ lower_copy key `suffix_of` lower_copy name ->
  ~ lower_copy key `suffix_of` lower_copy (quoted v ++ name).
Proof. intros Hl Hn. rewrite lower_app. apply not_suffix_app; [by rewrite !length_lower|done]. Qed.

Ltac no_suffix := lazymatch goal with |- ~ ?P => apply (bool_decide_eq_false_1 P); vm_compute; reflexivity end.

Lemma challenge_params realm nonce qop :
  plain realm -> plain nonce -> plain qop ->
  digest_param (challenge_text realm nonce qop) $"realm" = realm /\
  digest_param (challenge_text realm nonce qop) $"nonce" = nonce /\
  digest_param (challenge_text realm nonce qop) $"qop" = qop.
Proof.
  intros (Hr & Hr' & _) (Hn & Hn' & _) (Hq & Hq' & _). unfold challenge_text. split_and!.
  - apply (digest_param_quoted $"Digest " $"realm"); [|done]. apply first_key_here; auto with rtsps.
  - pose proof (digest_param_quoted ($"Digest realm" ++ $"=" ++ quoted realm ++ $", ") $"nonce" nonce
      ($", qop=" ++ quoted qop)) as H. rewrite <- !app_assoc in H. apply H; [|done].
    apply first_key_later; [auto with rtsps|auto with rtsps|no_suffix|].
    apply first_key_here; [auto with rtsps|]. apply no_char_piece; [done|auto with rtsps].
  - pose proof (digest_param_quoted ($"Digest realm" ++ $"=" ++ (quoted realm ++ $", nonce") ++ $"=" ++ quoted nonce ++ $", ")
      $"qop" qop []) as H. rewrite <- !app_assoc, app_nil_r in H. apply H; [|done].
    rewrite (app_assoc (quoted realm)).
    apply first_key_later; [auto with rtsps|auto with rtsps|no_suffix|].
    apply first_key_later; [auto with rtsps|apply no_char_piece; [done|auto with rtsps]|
                            apply not_key_piece; [cbn; lia|no_suffix]|].
    apply first_key_here; [auto with rtsps|]. apply no_char_piece; [done|auto with rtsps].
Qed.

Lemma first_header lines name pre line post rest :
  Forall header_line lines -> lines = pre ++ line :: post ->
  Forall (fun l => starts_with_ci l (lower_copy name ++ $":") = false) pre ->
  starts_with_ci line (lower_copy name ++ $":") = true ->
  header_value (with_crlf lines ++ rest) name = trim_copy (substr_from line (length name + 1)).
Proof.
  intros Hl -> Hp Hline. unfold header_value. rewrite terminated_lines_with_crlf by by apply header_lines_ok.
  rewrite <- app_assoc. clear Hl. induction Hp as [|l pre Hl _ IH]; cbn [app header_value_in].
  - by rewrite Hline.
  - by rewrite Hl.
Qed.

Lemma trim_challenge realm nonce qop : trim_copy (32 :: challenge_text realm nonce qop) = challenge_text realm nonce qop.
Proof.
  pose proof (trim_copy_intro [32] (challenge_text realm nonce qop) []) as H. rewrite app_nil_r in H. apply H.
  - by repeat constructor.
  - done.
  - by eexists _, _.
  - eexists ($"Digest realm=" ++ quoted realm ++ $", nonce=" ++ quoted nonce ++ $", qop=" ++ [34] ++ qop), 34.
    split; [|done]. unfold challenge_text, quoted. by rewrite <- !app_assoc.
Qed.

Lemma challenge_read_lemma a first pre realm nonce qop post body :
  plain realm -> plain nonce -> plain qop -> realm <> [] -> nonce <> [] ->
  Forall header_line (first :: pre ++ challenge_line realm nonce qop :: post) ->
  Forall (fun l => starts_with_ci l $"www-authenticate:" = false) (first :: pre) ->
  update_from_unauthorized (rtsp_message (first :: pre ++ challenge_line realm nonce qop :: post) body) a =
  (true, {| da_challenge := {| dc_valid := true; dc_realm := realm; dc_nonce := nonce; dc_qop := first_qop qop |};
            da_nc := da_nc a |}).
Proof.
  intros Hr Hn Hq Hre Hne Hl Hp. unfold update_from_unauthorized, parse_digest_challenge, rtsp_message.
  rewrite (first_header _ $"WWW-Authenticate" (first :: pre) (challenge_line realm nonce qop) post _ Hl eq_refl Hp)
    by (rewrite starts_with_ci_prefix; reflexivity).
  change (substr_from (challenge_line realm nonce qop) (length $"WWW-Authenticate" + 1))
    with (32 :: challenge_text realm nonce qop).
  rewrite trim_challenge. destruct (challenge_params realm nonce qop Hr Hn Hq) as (-> & -> & ->).
  replace (is_empty (challenge_text realm nonce qop)) with false by done.
  assert (find0 $"digest" (lower_copy (challenge_text realm nonce qop)) = Some 0%nat) as -> by reflexivity.
  by destruct realm, nonce.
Qed.

(** A Digest challenge is read as it was written: whatever the other headers of the
    response are, the authenticator takes over the realm, the nonce and the first quality
    of protection, and keeps its request counter. *)
Lemma challenge_read a first pre realm nonce qop post body :
  plain realm -> plain nonce -> plain qop -> realm <> [] -> nonce <> [] ->
  Forall header_line (first :: pre ++ challenge_line realm nonce qop :: post) ->
  Forall (fun l => starts_with_ci l $"www-authenticate:" = false) (first :: pre) ->
  update_from_unauthorized (rtsp_message (first :: pre ++ challenge_line realm nonce qop :: post) body) a =
  (true, {| da_challenge := {| dc_valid := true; dc_realm := realm; dc_nonce := nonce; dc_qop := first_qop qop |};
            da_nc := da_nc a |}).
Proof. apply challenge_read_lemma. Qed.

Definition sample_challenge : bytes :=
  $"RTSP/1.0 401 Unauthorized" ++ CRLF ++ $"CSeq: 2" ++ CRLF ++ challenge_line $"cam" $"f00d" $"auth,auth-int" ++ CRLFCRLF.

Lemma challenge_read_witness :
  update_from_unauthorized sample_challenge authenticator_new =
  (true, {| da_challenge := {| dc_valid := true; dc_realm := $"cam"; dc_nonce := $"f00d"; dc_qop := $"auth" |}; da_nc := 1 |}).
Proof.
  refine (challenge_read authenticator_new $"RTSP/1.0 401 Unauthorized" [$"CSeq: 2"] $"cam" $"f00d" $"auth,auth-int" [] []
    _ _ _ _ _ _ _); try done.
  1-3: split_and!; [apply no_char_lit; reflexivity|apply no_char_lit; reflexivity|apply no_cr_lit; reflexivity].
  - repeat constructor; try done; apply no_cr_lit; reflexivity.
  - by repeat constructor.
Defined.

(** ** Authorizing a request *)

Definition is_authorization (line : bytes) : bool := starts_with_ci line $"authorization:".

(** The header lines with [line] in place of the first Authorization, or at the end. *)
Fixpoint put_authorization (line : bytes) (headers : list bytes) : list bytes :=
  match headers with
  | [] => [line]
  | h :: t => if is_authorization h then line :: t else h :: put_authorization line t
  end.

Lemma no_cr_lower s : no_cr s -> no_cr (lower_copy s).
Proof.
  intros Hs. apply Forall_fmap. eapply Forall_impl; [exact Hs|]. intros x Hx. cbn.
  unfold to_lower. destruct ((65 <=? x) && (x <=? 90)) eqn:E; [|done]. bprop. lia.
Qed.

(** Where the start of a line is found. *)
Lemma find0_line k l rest :
  no_cr l ->
  find0 (CRLF ++ k) (l ++ CRLF ++ rest) =
  if is_prefix k rest then Some (length l) else (fun i => (length l + 2 + i)%nat) <$> find0 (CRLF ++ k) rest.
Proof.
  intros Hl. induction Hl as [|x l Hx _ IH].
  - change ([] ++ CRLF ++ rest) with (13 :: 10 :: rest). cbn [find0]. change (CRLF ++ k) with (13 :: 10 :: k).
    cbn [is_prefix Z.eqb Pos.eqb andb]. destruct (is_prefix k rest); [done|]. by destruct (find0 _ rest).
  - cbn [app find0 length]. rewrite IH. change (CRLF ++ k) with (13 :: 10 :: k). cbn [is_prefix].
    replace (13 =? x) with false by lia. cbn [andb]. destruct (is_prefix k rest); [done|]. by destruct (find0 _ rest).
Qed.

Lemma is_authorization_prefix l rest :
  is_authorization l = is_prefix $"authorization:" (lower_copy l ++ CRLF ++ rest).
Proof.
  unfold is_authorization. rewrite starts_with_ci_prefix. change (CRLF ++ rest) with (13 :: (10 :: rest)).
  rewrite is_prefix_sep; [done|]. apply no_char_lit. reflexivity.
Qed.

(** The first Authorization line after the first line of a message. *)
Lemma find_authorization first pre line rest :
  Forall no_cr (first :: pre) -> Forall (fun l => is_authorization l = false) pre -> is_authorization line = true ->
  find0 (CRLF ++ $"authorization:") (lower_copy (with_crlf (first :: pre) ++ line ++ CRLF ++ rest)) =
  Some (length (with_crlf (first :: pre)) - 2)%nat.
Proof.
  revert first; induction pre as [|l pre IH]; intros first Hc Hp Hline; apply Forall_cons in Hc as [Hf Hc].
  - rewrite with_crlf_one, <- !app_assoc, lower_app, lower_app. change (lower_copy CRLF) with CRLF.
    rewrite find0_line by by apply no_cr_lower. rewrite lower_app. rewrite (lower_app CRLF). change (lower_copy CRLF) with CRLF.
    rewrite <- is_authorization_prefix, Hline. rewrite length_lower, length_app. cbn. f_equal. lia.
  - apply Forall_cons in Hp as [Hl Hp]. rewrite (with_crlf_cons first), <- !app_assoc, lower_app, lower_app.
    change (lower_copy CRLF) with CRLF. rewrite find0_line by by apply no_cr_lower.
    rewrite IH by done. rewrite with_crlf_cons, <- !app_assoc, lower_app, (lower_app CRLF).
    change (lower_copy CRLF) with CRLF. rewrite <- is_authorization_prefix, Hl. cbn [fmap option_fmap option_map].
    rewrite length_lower, !length_app. cbn. f_equal. lia.
Qed.

(** A header without one: whatever is found lies in the body. *)
Lemma find_no_authorization first pre rest i :
  Forall no_cr (first :: pre) -> Forall (fun l => is_authorization l = false) pre ->
  find0 (CRLF ++ $"authorization:") (lower_copy (with_crlf (first :: pre) ++ CRLF ++ rest)) = Some i ->
  (length (with_crlf (first :: pre)) <= i)%nat.
Proof.
  revert first i; induction pre as [|l pre IH]; intros first i Hc Hp; apply Forall_cons in Hc as [Hf Hc].
  - rewrite with_crlf_one, <- !app_assoc, lower_app, lower_app. change (lower_copy CRLF) with CRLF.
    rewrite find0_line by by apply no_cr_lower. rewrite lower_app. change (lower_copy CRLF) with CRLF.
    change (is_prefix $"authorization:" (CRLF ++ ?x)) with false. cbn [andb].
    destruct (find0 _ _); [|done]. intros [= <-]. rewrite length_lower, length_app. cbn. lia.
  - apply Forall_cons in Hp as [Hl Hp]. rewrite (with_crlf_cons first), <- !app_assoc, lower_app, lower_app.
    change (lower_copy CRLF) with CRLF. rewrite find0_line by by apply no_cr_lower.
    assert (is_prefix $"authorization:" (lower_copy (with_crlf (l :: pre) ++ CRLF ++ rest)) = false) as ->.
    { rewrite with_crlf_cons, <- !app_assoc, lower_app, (lower_app CRLF). change (lower_copy CRLF) with CRLF.
      by rewrite <- is_authorization_prefix. }
    destruct (find0 _ (lower_copy (with_crlf (l :: pre) ++ _))) as [j|] eqn:E; [|done]. intros [= <-].
    apply IH in E; [|done|done]. rewrite length_lower, !length_app. change (length CRLF) with 2%nat. lia.
Qed.

Lemma put_authorization_split auth headers :
  (Forall (fun l => is_authorization l = false) headers /\ put_authorization auth headers = headers ++ [auth]) \/
  (exists pre line post, headers = pre ++ line :: post /\ Forall (fun l => is_authorization l = false) pre /\
     is_authorization line = true /\ put_authorization auth headers = pre ++ auth :: post).
Proof.
  induction headers as [|h t IH]; [by left|]. cbn [put_authorization]. destruct (is_authorization h) eqn:E.
  - right. by exists [], h, t.
  - destruct IH as [[H ->]|(pre & line & post & -> & Hp & Hl & ->)].
    + left. split; [by constructor|done].
    + right. exists (h :: pre), line, post. split_and!; [done|by constructor|done|done].
Qed.

Lemma length_with_crlf_cons l ls : (2 <= length (with_crlf (l :: ls)))%nat.
Proof. rewrite with_crlf_cons, !length_app. change (length CRLF) with 2%nat. lia. Qed.

Lemma header_lines_no_cr ls : Forall header_line ls -> Forall no_cr ls.
Proof. intros H. eapply Forall_impl; [exact H|]. by intros l []. Qed.

(** The request with its first Authorization line replaced, or a new one added. *)
Lemma add_authorization_lines first headers body auth :
  Forall header_line (first :: headers) ->
  add_authorization_header (rtsp_message (first :: headers) body) auth =
  rtsp_message (first :: put_authorization auth headers) body.
Proof.
  intros Hl. unfold add_authorization_header.
  destruct (header_end (first :: headers) body ltac:(done) (header_lines_ok _ Hl)) as (h & Eh & Ef).
  fold (rtsp_message (first :: headers) body) in Ef. rewrite Ef. cbv zeta.
  assert (length (with_crlf (first :: headers)) = length h + 2)%nat as Elen by (rewrite Eh, length_app; done).
  destruct (put_authorization_split auth headers) as [[Hn ->]|(pre & line & post & -> & Hp & Ha & ->)].
  - pose proof (insert_last_header (first :: headers) auth body ltac:(done) (header_lines_ok _ Hl)) as Hins.
    rewrite Ef in Hins. destruct (find0 (CRLF ++ _) _) as [i|] eqn:E; [|exact Hins].
    apply find_no_authorization in E; [|by apply header_lines_no_cr|done].
    by replace (i <? length h)%nat with false by (symmetry; apply Nat.ltb_ge; lia).
  - change (first :: pre ++ ?x) with ((first :: pre) ++ x) in *. set (p := with_crlf (first :: pre)).
    pose proof (length_with_crlf_cons first pre : (2 <= length p)%nat) as Hp2.
    apply Forall_app in Hl as [Hl1 [Hline _]%Forall_cons].
    assert (forall x, rtsp_message ((first :: pre) ++ x :: post) body = p ++ x ++ CRLF ++ (with_crlf post ++ CRLF ++ body)) as Em.
    { intros x. unfold rtsp_message, p. rewrite with_crlf_app, (with_crlf_cons x). by rewrite <- !app_assoc. }
    rewrite !Em. unfold p at 1. rewrite find_authorization by (done || by apply header_lines_no_cr). fold p.
    assert (length p - 2 < length h)%nat as Hlt.
    { rewrite with_crlf_app, (with_crlf_cons line), !length_app in Elen. fold p in Elen.
      change (length CRLF) with 2%nat in Elen. destruct Hline as [_ Hne].
      assert (0 < length line)%nat by (destruct line; [done|cbn; lia]). lia. }
    replace (length p - 2 <? length h)%nat with true by (symmetry; by apply Nat.ltb_lt).
    replace (length p - 2 + 2)%nat with (length p) by lia.
    rewrite str_find_app, find0_crlf by by apply no_cr_no_crlf, Hline. cbn [fmap option_fmap option_map].
    replace (length p + length line - (length p - 2) - 2)%nat with (length line) by lia.
    rewrite take_app_length, drop_app_add, !drop_app_length, take_app_length. done.
Qed.

(** The response of RFC 2617, section 3.2.2, over a hash function. *)
Definition rfc_response (H : bytes -> bytes) (user realm password nonce qop nc method uri : bytes) : bytes :=
  let ha1 := H (user ++ $":" ++ realm ++ $":" ++ password) in
  let ha2 := H (method ++ $":" ++ uri) in
  if is_empty qop then H (ha1 ++ $":" ++ nonce ++ $":" ++ ha2)
  else H (ha1 ++ $":" ++ nonce ++ $":" ++ nc ++ $":" ++ cnonce ++ $":auth:" ++ ha2).

Definition hex_digest (md5 : bytes -> bytes) (s : bytes) : bytes := concat (hex_byte <$> md5 s).

Lemma build_authorization_ok evp md5 config ch method uri nc :
  evp_md_ctx_new evp = true -> (forall s, evp_md5 evp s = Some (md5 s)) ->
  build_authorization evp config ch method uri nc =
  Ok (authorization_text (app_camera_user config) (dc_realm ch) (dc_nonce ch) uri
        (rfc_response (hex_digest md5) (app_camera_user config) (dc_realm ch) (app_camera_password config)
           (dc_nonce ch) (dc_qop ch) (make_nc nc) method uri)
        (if is_empty (dc_qop ch) then [] else $"auth") (make_nc nc)).
Proof.
  intros Hn Hm. unfold build_authorization, rfc_response.
  assert (forall s, md5_hex evp s = Ok (hex_digest md5 s)) as Hx by (intros s; unfold md5_hex; by rewrite Hn, Hm).
  cbv zeta. rewrite !Hx. cbn [mbind result_bind]. destruct (is_empty (dc_qop ch)).
  - change (is_empty (@nil Z)) with true. cbv iota. rewrite Hx. reflexivity.
  - change (is_empty $"auth") with false. cbv iota. rewrite Hx. reflexivity.
Qed.

Lemma authorize_lemma evp md5 config a method uri version headers body :
  evp_md_ctx_new evp = true -> (forall s, evp_md5 evp s = Some (md5 s)) ->
  has_challenge a = true -> word method -> word uri -> word version -> Forall header_line headers ->
  let first := method ++ $" " ++ uri ++ $" " ++ version in
  let ch := da_challenge a in
  let nc := make_nc (da_nc a) in
  let response := rfc_response (hex_digest md5) (app_camera_user config) (dc_realm ch) (app_camera_password config)
                    (dc_nonce ch) (dc_qop ch) nc method uri in
  authorize evp config (rtsp_message (first :: headers) body) a =
  (Ok (rtsp_message (first :: put_authorization
         (authorization_text (app_camera_user config) (dc_realm ch) (dc_nonce ch) uri response
            (if is_empty (dc_qop ch) then [] else $"auth") nc) headers) body),
   {| da_challenge := ch; da_nc := u32 (da_nc a + 1) |}).
Proof.
  intros Hn Hmd Hc Hm Hu Hv Hh first ch nc response. unfold authorize. unfold has_challenge in Hc. rewrite Hc.
  assert (no_cr first) as Hf by (apply no_cr_request_line; by apply word_no_cr).
  assert (get_first_line (rtsp_message (first :: headers) body) = first) as ->.
  { unfold get_first_line. rewrite rtsp_message_cons, find0_crlf by by apply no_cr_no_crlf.
    unfold substr. by rewrite drop_0, take_app_length. }
  destruct (read_three_words method uri version Hm Hu Hv) as (i1 & i2 & E1 & E2 & E3).
  fold first in E1. rewrite E1, E2. destruct (read_word i2 []) as [v i3]. cbn [negb].
  rewrite (word_nonempty method), (word_nonempty uri) by done. cbn [orb].
  rewrite (build_authorization_ok evp md5) by done. cbn [fmap result_fmap].
  rewrite add_authorization_lines; [done|]. constructor; [|done]. split; [done|]. by destruct method; destruct Hm.
Qed.

(** C29: Once the camera has sent a challenge, a request goes out with the Digest response of
    RFC 2617 for its method and URL: in place of the Authorization it had, or as its last
    header, with everything else unchanged; and the request counter moves on, modulo
    2^32. *)
Theorem authorize_request evp md5 config a method uri version headers body :
  evp_md_ctx_new evp = true -> (forall s, evp_md5 evp s = Some (md5 s)) ->
  has_challenge a = true -> word method -> word uri -> word version -> Forall header_line headers ->
  let first := method ++ $" " ++ uri ++ $" " ++ version in
  let ch := da_challenge a in
  let nc := make_nc (da_nc a) in
  let response := rfc_response (hex_digest md5) (app_camera_user config) (dc_realm ch) (app_camera_password config)
                    (dc_nonce ch) (dc_qop ch) nc method uri in
  authorize evp config (rtsp_message (first :: headers) body) a =
  (Ok (rtsp_message (first :: put_authorization
         (authorization_text (app_camera_user config) (dc_realm ch) (dc_nonce ch) uri response
            (if is_empty (dc_qop ch) then [] else $"auth") nc) headers) body),
   {| da_challenge := ch; da_nc := u32 (da_nc a + 1) |}).
Proof. apply authorize_lemma. Qed.

(** A hash for examples: the length of the text. *)
Definition sample_evp : Evp := {| evp_md_ctx_new := true; evp_md5 := fun s => Some [u8 (zlen s)] |}.

Lemma authorize_request_witness :
  authorize sample_evp app_defaults
    ($"OPTIONS rtsp://10.0.0.7:554/0 RTSP/1.0" ++ CRLF ++ $"CSeq: 2" ++ CRLFCRLF)
    {| da_challenge := {| dc_valid := true; dc_realm := $"cam"; dc_nonce := $"f00d"; dc_qop := [] |}; da_nc := 4294967295 |} =
  (Ok ($"OPTIONS rtsp://10.0.0.7:554/0 RTSP/1.0" ++ CRLF ++ $"CSeq: 2" ++ CRLF ++
       authorization_text (app_camera_user app_defaults) $"cam" $"f00d" $"rtsp://10.0.0.7:554/0" $"0a" [] [] ++ CRLFCRLF),
   {| da_challenge := {| dc_valid := true; dc_realm := $"cam"; dc_nonce := $"f00d"; dc_qop := [] |}; da_nc := 0 |}).
Proof.
  refine (authorize_request sample_evp (fun s => [u8 (zlen s)]) app_defaults
    {| da_challenge := {| dc_valid := true; dc_realm := $"cam"; dc_nonce := $"f00d"; dc_qop := [] |}; da_nc := 4294967295 |}
    $"OPTIONS" $"rtsp://10.0.0.7:554/0" $"RTSP/1.0" [$"CSeq: 2"] [] eq_refl _ eq_refl _ _ _ _).
  - done.
  - split; [done|by repeat constructor].
  - split; [done|by repeat constructor].
  - split; [done|by repeat constructor].
  - constructor; [|done]. split; [apply no_cr_lit; reflexivity|done].
Defined.
