(* ===== verification/Proxy.v ===== *)
(** * The RTSP proxy (src/proxy/rtsp_proxy_session.cpp, src/proxy/rtsp_proxy_server.cpp,
    src/net/tls_context.cpp)

    A session sits between one TLS client and the camera.  Its loop is taken turn by turn:
    [ProxyTurn] holds what [select], the reads, the resolver and the new socket give in a
    turn; writes go through the [Transport] interface of the live server's sessions.  The
    messages it logs are left out.  Descriptors are below FD_SETSIZE. *)

From S2P Require Import Prelude CStr Parser Control Session Config Rewriter Digest.
From coqutil Require Import Datatypes.RecordSetters.
Import DoubleBraceUpdate.

(** ** Writing *)

Section Writing.
Context {T : Type} `{Transport T}.

(** The loop of [send_all] and [ssl_write_all]; [sent] of [data] are gone. *)
Fixpoint send_loop (fuel : nat) (data : bytes) (sent : nat) (c : ClientConnection T) : bool * ClientConnection T :=
  match fuel with
  | O => (true, c)
  | S f =>
    if (sent <? length data)%nat then
      let '(n, t) := send_some (drop sent data) (c_transport c) in
      if n <=? 0 then (false, {| c_transport := t; c_sent := c_sent c |})
      else send_loop f data (sent + Z.to_nat n)
             {| c_transport := t; c_sent := c_sent c ++ take (Z.to_nat n) (drop sent data) |}
    else (true, c)
  end.

Definition send_all (data : bytes) (c : ClientConnection T) : bool * ClientConnection T :=
  send_loop (S (length data)) data 0 c.

Definition ssl_write_all (data : bytes) (c : ClientConnection T) : bool * ClientConnection T :=
  send_loop (S (length data)) data 0 c.
End Writing.

(** ** Connecting to the camera *)

(** An address of the camera: what [socket] and [connect] give for it. *)
Record AddrInfo := { ai_socket : Z; ai_connect : Z }.

(** The loop over the addresses: the descriptor, and the descriptors that are open. *)
Fixpoint connect_loop (addresses : list AddrInfo) (fd : Z) (open : list Z) : Z * list Z :=
  match addresses with
  | [] => (fd, open)
  | p :: rest =>
    let fd := ai_socket p in
    if fd <? 0 then connect_loop rest fd open
    else if ai_connect p =? 0 then (fd, fd :: open)
    else connect_loop rest (-1) open
  end.

(** What [getaddrinfo] gives: addresses, or the text of its error. *)
Definition connect_camera (resolved : bytes + list AddrInfo) (open : list Z) : result Z * list Z :=
  match resolved with
  | inl e => (Throw ($"getaddrinfo() failed: " ++ e), open)
  | inr addresses =>
    let '(fd, open) := connect_loop addresses (-1) open in
    (if fd <? 0 then Throw $"connect() to camera failed" else Ok fd, open)
  end.

(** ** The session *)

(** [px_camera] and [px_client] are the two connections, [px_open] the descriptors of the
    session that are open. *)
Record ProxySession (T : Type) := {
  px_camera_fd : Z;
  px_channel : Z;
  px_client_buf : bytes;
  px_camera_buf : bytes;
  px_last_upstream_request : bytes;
  px_rewriter : option RtspRewriter;
  px_authenticator : DigestAuthenticator;
  px_camera : ClientConnection T;
  px_client : ClientConnection T;
  px_open : list Z
}.
Arguments px_camera_fd {T}.
Arguments px_channel {T}.
Arguments px_client_buf {T}.
Arguments px_camera_buf {T}.
Arguments px_last_upstream_request {T}.
Arguments px_rewriter {T}.
Arguments px_authenticator {T}.
Arguments px_camera {T}.
Arguments px_client {T}.
Arguments px_open {T}.

(** Whether the loop goes on, or is left (a [break] or [goto done]). *)
Inductive Flow := GoOn | Done.

(** One turn: the descriptors [select] finds readable, or its failure (with whether it was
    interrupted), [SSL_pending], what the reads give ([None] for a result of zero or less),
    and, if the camera is connected in this turn, its addresses and its connection. *)
Record ProxyTurn (T : Type) := {
  pt_running : bool;
  pt_select : bool + list Z;
  pt_pending : Z;
  pt_client_read : option bytes;
  pt_camera_read : option bytes;
  pt_resolved : bytes + list AddrInfo;
  pt_connection : T
}.
Arguments pt_running {T}.
Arguments pt_select {T}.
Arguments pt_pending {T}.
Arguments pt_client_read {T}.
Arguments pt_camera_read {T}.
Arguments pt_resolved {T}.
Arguments pt_connection {T}.

Section Proxy.
Context {T : Type} `{Transport T}.
Context (evp : Evp) (config : AppConfig) (client_fd : Z).

Definition proxy_limits : ParserLimits :=
  {| max_header_bytes := app_max_rtsp_header_bytes config; max_body_bytes := app_max_rtsp_body_bytes config |}.

Definition is_frame (message : bytes) : bool := bool_decide (head message = Some 36).

(** Writing to a side; a descriptor that is not open takes nothing. *)
Definition to_camera (data : bytes) : act (ProxySession T) bool := fun s =>
  if px_camera_fd s <? 0 then Some (Ok false, s)
  else let '(ok, c) := send_all data (px_camera s) in Some (Ok ok, s {{ px_camera := c }}).

Definition to_client (data : bytes) : act (ProxySession T) bool := fun s =>
  let '(ok, c) := ssl_write_all data (px_client s) in Some (Ok ok, s {{ px_client := c }}).

Definition run_authorize (request : bytes) : act (ProxySession T) bytes := fun s =>
  let '(r, a) := authorize evp config request (px_authenticator s) in Some (r, s {{ px_authenticator := a }}).

(** The first request names the channel: the rewriter is made and the camera connected. *)
Definition choose_channel (t : ProxyTurn T) (message : bytes) : act (ProxySession T) Flow :=
  let request_target := extract_request_target message in
  let channel := parse_channel_from_request_target request_target (app_channels config) in
  _ ← modify (fun s => s {{ px_channel := channel }});
  if channel <? 0 then mret Done
  else
    _ ← modify (fun s => s {{ px_rewriter :=
          Some (rewriter_new config channel (extract_public_base_from_target request_target channel)) }});
    s ← get;
    let '(connected, open) := connect_camera (pt_resolved t) (px_open s) in
    match connected with
    | Throw _ => _ ← modify (fun s => s {{ px_open := open }}); mret Done
    | Ok fd =>
      _ ← modify (fun s => s {{ px_camera_fd := fd; px_open := open;
                               px_camera := {| c_transport := pt_connection t; c_sent := c_sent (px_camera s) |} }});
      mret GoOn
    end.

Definition flow_of (sent : bool) : Flow := if sent then GoOn else Done.

(** A request, or an interleaved frame, from the client. *)
Definition client_message (t : ProxyTurn T) (message : bytes) : act (ProxySession T) Flow :=
  s ← get;
  if is_frame message then
    if px_camera_fd s >=? 0 then ok ← to_camera message; mret (flow_of ok) else mret GoOn
  else
    flow ← (if px_channel s <? 0 then choose_channel t message else mret GoOn);
    match flow with
    | Done => mret Done
    | GoOn =>
      s ← get;
      rewriter ← defined (px_rewriter s);
      let out := rewrite_client_request rewriter message in
      out ← (if has_challenge (px_authenticator s) then run_authorize out else mret out);
      _ ← modify (fun s => s {{ px_last_upstream_request := out }});
      ok ← to_camera out;
      mret (flow_of ok)
    end.

(** A response, or an interleaved frame, from the camera. *)
Definition camera_message (message : bytes) : act (ProxySession T) Flow :=
  if is_frame message then ok ← to_client message; mret (flow_of ok)
  else
    s ← get;
    let status := rtsp_status_code message in
    challenged ←
      (if (status =? 401) && negb (is_empty (px_last_upstream_request s)) then
         let '(updated, a) := update_from_unauthorized message (px_authenticator s) in
         _ ← modify (fun s => s {{ px_authenticator := a }}); mret updated
       else mret false);
    if challenged : bool then
      retry ← run_authorize (px_last_upstream_request s);
      ok ← to_camera retry;
      if negb ok then mret Done
      else _ ← modify (fun s => s {{ px_last_upstream_request := retry }}); mret GoOn
    else
      s ← get;
      rewriter ← defined (px_rewriter s);
      ok ← to_client (rewrite_camera_response rewriter message);
      mret (flow_of ok).

(** [while (extract_one_rtsp_message(...))] on a buffer of the session. *)
Fixpoint message_loop (fuel : nat) (buf : ProxySession T -> bytes) (set_buf : bytes -> ProxySession T -> ProxySession T)
    (handle : bytes -> act (ProxySession T) Flow) : act (ProxySession T) Flow :=
  match fuel with
  | O => fun _ => None
  | S f =>
    s ← get;
    x ← defined (extract_one_rtsp_message (buf s) proxy_limits);
    let '(found, message, rest) := x in
    _ ← modify (set_buf rest);
    if found : bool then
      flow ← handle message;
      match flow with
      | Done => mret Done
      | GoOn => message_loop f buf set_buf handle
      end
    else mret GoOn
  end.

Definition client_part (t : ProxyTurn T) : act (ProxySession T) Flow :=
  match pt_client_read t with
  | None => mret Done
  | Some data =>
    _ ← modify (fun s => s {{ px_client_buf := px_client_buf s ++ data }});
    s ← get;
    message_loop (S (length (px_client_buf s))) px_client_buf (fun b s => s {{ px_client_buf := b }}) (client_message t)
  end.

Definition camera_part (t : ProxyTurn T) : act (ProxySession T) Flow :=
  match pt_camera_read t with
  | None => mret Done
  | Some data =>
    _ ← modify (fun s => s {{ px_camera_buf := px_camera_buf s ++ data }});
    s ← get;
    message_loop (S (length (px_camera_buf s))) px_camera_buf (fun b s => s {{ px_camera_buf := b }}) camera_message
  end.

(** The descriptors of the set that [select] leaves in it. *)
Definition ready_set (fds readable : list Z) : list Z := filter (fun fd => fd ∈ readable) fds.

Definition fd_isset (fd : Z) (set : list Z) : bool := bool_decide (fd ∈ set).

Definition proxy_turn (t : ProxyTurn T) : act (ProxySession T) Flow :=
  s ← get;
  let fds := client_fd :: (if px_camera_fd s >=? 0 then [px_camera_fd s] else []) in
  match pt_select t with
  | inl interrupted => mret (if interrupted then GoOn else Done)
  | inr readable =>
    let readfds := ready_set fds readable in
    if is_empty readfds && (pt_pending t =? 0) then mret GoOn
    else
      flow ← (if fd_isset client_fd readfds || (pt_pending t >? 0) then client_part t else mret GoOn);
      match flow with
      | Done => mret Done
      | GoOn =>
        s ← get;
        if (px_camera_fd s >=? 0) && fd_isset (px_camera_fd s) readfds then camera_part t else mret GoOn
      end
  end.

(** The loop, over the turns until [running_] is cleared. *)
Fixpoint proxy_loop (turns : list (ProxyTurn T)) : act (ProxySession T) unit :=
  match turns with
  | [] => mret tt
  | t :: rest =>
    if negb (pt_running t) then mret tt
    else
      flow ← proxy_turn t;
      match flow with
      | Done => mret tt
      | GoOn => proxy_loop rest
      end
  end.

Definition close_fd (fd : Z) (s : ProxySession T) : ProxySession T :=
  s {{ px_open := filter (fun x => x <> fd) (px_open s) }}.

Definition proxy_session_new (client : T) : ProxySession T :=
  {| px_camera_fd := -1; px_channel := -1; px_client_buf := []; px_camera_buf := []; px_last_upstream_request := [];
     px_rewriter := None; px_authenticator := authenticator_new;
     px_camera := {| c_transport := client; c_sent := [] |}; px_client := {| c_transport := client; c_sent := [] |};
     px_open := [client_fd] |}.

(** The label [done]. *)
Definition session_done (s : ProxySession T) : ProxySession T :=
  close_fd client_fd (if px_camera_fd s >=? 0 then close_fd (px_camera_fd s) s else s).

(** [RtspProxySession::run]: [ssl_new] and [ssl_accept] are the outcomes of the handshake. *)
Definition proxy_run (ssl_new ssl_accept : bool) (turns : list (ProxyTurn T)) : act (ProxySession T) unit :=
  if negb ssl_new then modify (close_fd client_fd)
  else if negb ssl_accept then modify (close_fd client_fd)
  else
    _ ← proxy_loop turns;
    modify session_done.
End Proxy.

(** ** The server of the proxy *)

(** What the OpenSSL calls of the constructor of [TlsContext] give. *)
Record TlsOs := { tls_ctx_new : bool; tls_use_certificate : Z; tls_use_private_key : Z; tls_check_private_key : Z }.

(** [TlsContext::TlsContext]: the outcome, and how many contexts are allocated after it. *)
Definition tls_context_new (os : TlsOs) (config : AppConfig) : result unit * Z :=
  if negb (tls_ctx_new os) then (Throw $"SSL_CTX_new() failed", 0)
  else if negb (tls_use_certificate os =? 1) then (Throw ($"failed to load certificate: " ++ app_cert_file config), 0)
  else if negb (tls_use_private_key os =? 1) then (Throw ($"failed to load private key: " ++ app_key_file config), 0)
  else if negb (tls_check_private_key os =? 1) then (Throw $"certificate and private key do not match", 0)
  else (Ok tt, 1).

(** [TlsContext::~TlsContext] *)
Definition tls_context_free (allocated : Z) : Z := if allocated =? 0 then allocated else allocated - 1.

(** What the socket calls of [open_listen_socket] give. *)
Record ProxyListenOs := { pl_socket : Z; pl_inet_pton : Z; pl_bind : Z; pl_listen : Z }.

(** The descriptor or -1, and the descriptors left open. *)
Definition open_listen_socket (os : ProxyListenOs) : Z * list Z :=
  let server_fd := pl_socket os in
  if server_fd <? 0 then (-1, [])
  else if negb (pl_inet_pton os =? 1) then (-1, [])
  else if pl_bind os <? 0 then (-1, [])
  else if pl_listen os <? 0 then (-1, [])
  else (server_fd, [server_fd]).

(** One round of the accept loop: [running_], and the descriptor, with whether a failure was
    an interruption. *)
Record AcceptRound := { ar_running : bool; ar_client_fd : Z; ar_eintr : bool }.

(** The descriptors the client threads are started with. *)
Fixpoint proxy_accept_loop (rounds : list AcceptRound) (client_threads : list Z) : list Z :=
  match rounds with
  | [] => client_threads
  | r :: rest =>
    if negb (ar_running r) then client_threads
    else if ar_client_fd r <? 0 then
      if ar_eintr r then proxy_accept_loop rest client_threads else client_threads
    else proxy_accept_loop rest (client_threads ++ [ar_client_fd r])
  end.

(** [RtspProxyServer::run]: its result, the threads it has started and joined, and the
    listening descriptors still open. *)
Definition proxy_server_run (os : ProxyListenOs) (rounds : list AcceptRound) : Z * list Z * list Z :=
  let '(server_fd, open) := open_listen_socket os in
  if server_fd <? 0 then (1, [], open)
  else (0, proxy_accept_loop rounds [], filter (fun fd => fd <> server_fd) open).

(** The contexts and listening sockets are balanced: a constructor that throws leaves no
    context, one that returns leaves the one the destructor frees; and [run] leaves no
    listening socket open, whether it could listen or not. *)
Lemma proxy_server_balanced tls listen config rounds :
  (let '(r, n) := tls_context_new tls config in match r with Ok _ => tls_context_free n = 0 | Throw _ => n = 0 end) /\
  snd (proxy_server_run listen rounds) = [] /\
  (fst (fst (proxy_server_run listen rounds)) = 1 <-> fst (open_listen_socket listen) < 0).
Proof.
  split_and!.
  - unfold tls_context_new. repeat case_match; by simplify_eq.
  - unfold proxy_server_run, open_listen_socket. cbv zeta.
    destruct (pl_socket listen <? 0) eqn:Es; [done|]. destruct (negb _); [done|]. destruct (pl_bind listen <? 0); [done|].
    destruct (pl_listen listen <? 0); [done|]. rewrite Es. cbn [snd].
    rewrite filter_cons_False by (intros Hc; by apply Hc). done.
  - unfold proxy_server_run. destruct (open_listen_socket listen) as [fd open]. cbn [fst].
    destruct (Z.ltb_spec fd 0); cbn [fst]; lia.
Qed.

(** ** Facts: writing *)

Section WritingFacts.
Context {T : Type} `{Transport T}.

(** The two writers are the writer of the live server's sessions. *)
Lemma send_loop_write f data sent (c : ClientConnection T) :
  (sent <= length data)%nat -> send_loop f data sent c = write_loop f (drop sent data) c.
Proof.
  revert sent c; induction f as [|f IH]; intros sent c Hs; cbn [send_loop write_loop]; [done|].
  destruct (Nat.ltb_spec sent (length data)) as [Hlt|Hge].
  - destruct (drop sent data) as [|b d] eqn:Ed.
    { apply (f_equal length) in Ed. rewrite length_drop in Ed. cbn in Ed. lia. }
    pose proof (send_some_bound (b :: d) (c_transport c)) as Hb.
    destruct (send_some (b :: d) (c_transport c)) as [n t]. cbn [fst] in Hb.
    destruct (Z.leb_spec n 0); [done|]. unfold zlen in Hb. rewrite <- Ed in *. rewrite length_drop in Hb.
    rewrite IH by lia. by rewrite drop_drop.
  - by rewrite drop_ge by lia.
Qed.

Lemma send_all_write data (c : ClientConnection T) : send_all data c = write data c.
Proof. unfold send_all, write. rewrite send_loop_write by lia. done. Qed.

Lemma ssl_write_all_write data (c : ClientConnection T) : ssl_write_all data c = write data c.
Proof. apply send_all_write. Qed.
End WritingFacts.

(** ** Facts: the state of a session *)

Section Safety.
Context {T : Type} `{Transport T}.
Context (evp : Evp) (config : AppConfig) (client_fd : Z).

(** Every open descriptor is one that the end of the session closes. *)
Definition px_weak (s : ProxySession T) : Prop :=
  forall fd, fd ∈ px_open s -> fd = client_fd \/ (fd = px_camera_fd s /\ 0 <= px_camera_fd s).

(** Between two messages: the channel is chosen exactly when the camera is connected, and
    then there is a rewriter. *)
Definition px_good (s : ProxySession T) : Prop :=
  px_weak s /\ (px_channel s < 0 -> px_camera_fd s < 0) /\
  (0 <= px_channel s -> 0 <= px_camera_fd s /\ is_Some (px_rewriter s)).

Definition flow_ok (flow : Flow) (s : ProxySession T) : Prop :=
  match flow with GoOn => px_good s | Done => px_weak s end.

Lemma flow_ok_weak flow s : flow_ok flow s -> px_weak s.
Proof. destruct flow; [intros []|]; done. Qed.

Lemma flow_ok_good flow s : px_good s -> flow_ok flow s.
Proof. destruct flow; [done|intros []]; done. Qed.

(** What decides between good and bad states. *)
Definition same_core : relation (ProxySession T) := fun s s' =>
  px_camera_fd s = px_camera_fd s' /\ px_channel s = px_channel s' /\ px_rewriter s = px_rewriter s' /\ px_open s = px_open s'.

#[local] Instance same_core_preorder : PreOrder same_core.
Proof. split; [done|]. unfold same_core. intros x y z (-> & -> & -> & ->) (-> & -> & -> & ->). done. Qed.

Lemma same_core_good s s' : same_core s s' -> px_good s -> px_good s'.
Proof. unfold same_core, px_good, px_weak. by intros (-> & -> & -> & ->). Qed.

Lemma keeps_to_camera data : keeps same_core (to_camera data).
Proof.
  intros s. unfold to_camera, wlp. destruct (_ <? 0); [done|]. by destruct (send_all _ _).
Qed.

Lemma keeps_to_client data : keeps same_core (to_client data).
Proof. intros s. unfold to_client, wlp. by destruct (ssl_write_all _ _). Qed.

Lemma keeps_run_authorize request : keeps same_core (run_authorize evp config request).
Proof. intros s. unfold run_authorize, wlp. destruct (authorize _ _ _ _) as [[|] ?]; done. Qed.

Lemma connect_loop_open addresses fd open :
  fd < 0 ->
  (fst (connect_loop addresses fd open) < 0 /\ snd (connect_loop addresses fd open) = open) \/
  (0 <= fst (connect_loop addresses fd open) /\
   snd (connect_loop addresses fd open) = fst (connect_loop addresses fd open) :: open).
Proof.
  revert fd; induction addresses as [|p rest IH]; intros fd Hfd; cbn [connect_loop]; [by left|].
  destruct (Z.ltb_spec (ai_socket p) 0); [by apply IH|]. destruct (ai_connect p =? 0); [by right|]. apply IH. lia.
Qed.

(** The camera is connected, or nothing is left open. *)
Lemma connect_camera_open resolved open :
  match connect_camera resolved open with
  | (Ok fd, open') => 0 <= fd /\ open' = fd :: open
  | (Throw _, open') => open' = open
  end.
Proof.
  unfold connect_camera. destruct resolved as [e|addresses]; [done|].
  pose proof (connect_loop_open addresses (-1) open ltac:(lia)) as Hc.
  destruct (connect_loop addresses (-1) open) as [fd o]. cbn [fst snd] in Hc.
  destruct (Z.ltb_spec fd 0) as [Hf|Hf]; destruct Hc as [[? ?]|[? ?]]; (done || lia).
Qed.

Lemma choose_channel_ok t m s :
  px_good s -> px_channel s < 0 -> wlp (choose_channel config t m) flow_ok px_weak s.
Proof.
  intros (Hw & Hc & _) Hlt. specialize (Hc Hlt). unfold choose_channel. cbv zeta.
  generalize (parse_channel_from_request_target (extract_request_target m) (app_channels config)). intros ch.
  wstep. wstep. destruct (Z.ltb_spec ch 0).
  { wstep. exact Hw. }
  wstep. wstep. wstep. wstep.
  change (connect_camera (pt_resolved t) (px_open _)) with (connect_camera (pt_resolved t) (px_open s)).
  pose proof (connect_camera_open (pt_resolved t) (px_open s)) as Ho.
  destruct (connect_camera (pt_resolved t) (px_open s)) as [[fd|w] open].
  - destruct Ho as [Hfd ->]. wstep. wstep. wstep. unfold flow_ok, px_good, px_weak. cbn. unfold constant. split_and!; [|lia|by eauto].
    intros x [->|Hx]%elem_of_cons; [by right|]. destruct (Hw x Hx) as [->|[-> ?]]; [by left|lia].
  - subst open. wstep. wstep. wstep. exact Hw.
Qed.

(** Good states along code that leaves the core alone. *)
Lemma keeps_good {A} (m : act (ProxySession T) A) s :
  keeps same_core m -> px_good s -> wlp m (fun _ s' => px_good s') px_weak s.
Proof.
  intros Hm Hs. eapply wlp_weaken; [apply Hm| |]; cbv beta.
  - intros _ s' Hc. by eapply same_core_good.
  - intros s' Hc. by apply (same_core_good _ _ Hc).
Qed.

Lemma sent_flow (m : act (ProxySession T) bool) s :
  keeps same_core m -> px_good s -> wlp (ok ← m; mret (flow_of ok)) flow_ok px_weak s.
Proof.
  intros Hm Hs. apply wlp_bind. eapply wlp_mono; [by apply keeps_good|]. intros ok s' Hs'. wstep. by apply flow_ok_good.
Qed.

Lemma client_message_ok t m s : px_good s -> wlp (client_message evp config t m) flow_ok px_weak s.
Proof.
  intros Hs. unfold client_message. wstep. wstep. destruct (is_frame m).
  { destruct (_ >=? 0); [|by wstep]. apply sent_flow; [apply keeps_to_camera|done]. }
  apply wlp_bind. apply (wlp_mono _ flow_ok).
  { destruct (Z.ltb_spec (px_channel s) 0); [by apply choose_channel_ok|by wstep]. }
  clear s Hs. intros [|] s Hs; [|by wstep]. wstep. wstep. wstep. apply wlp_defined. intros r _. cbv zeta. wstep.
  apply (wlp_mono _ (fun _ => px_good)).
  { destruct (has_challenge _); [|by wstep]. apply keeps_good; [apply keeps_run_authorize|done]. }
  clear s Hs. intros out s Hs. wstep. wstep. by apply sent_flow; [apply keeps_to_camera|].
Qed.

Lemma camera_message_ok m s : px_good s -> wlp (camera_message evp config m) flow_ok px_weak s.
Proof.
  intros Hs. unfold camera_message. destruct (is_frame m).
  { apply sent_flow; [apply keeps_to_client|done]. }
  wstep. wstep. cbv zeta. wstep. apply (wlp_mono _ (fun _ => px_good)).
  { destruct (_ && _); [|by wstep]. destruct (update_from_unauthorized _ _). wstep. wstep. by wstep. }
  intros [|] s1 Hs1.
  - wstep. eapply wlp_mono; [apply keeps_good; [apply keeps_run_authorize|done]|]. intros retry s2 Hs2. cbv beta in Hs2.
    wstep. eapply wlp_mono; [apply keeps_good; [apply keeps_to_camera|done]|]. intros ok s3 Hs3. cbv beta in Hs3.
    destruct ok; cbn [negb]; [wstep; wstep; by wstep|]. wstep. by apply (flow_ok_good Done).
  - wstep. wstep. wstep. apply wlp_defined. intros r _. by apply sent_flow; [apply keeps_to_client|].
Qed.

Lemma message_loop_ok f buf set_buf handle s :
  (forall b s, px_good s -> px_good (set_buf b s)) ->
  (forall m s, px_good s -> wlp (handle m) flow_ok px_weak s) ->
  px_good s -> wlp (message_loop config f buf set_buf handle) flow_ok px_weak s.
Proof.
  intros Hset Hh. revert s; induction f as [|f IH]; intros s Hs; cbn [message_loop]; [done|].
  wstep. wstep. wstep. apply wlp_defined. intros [[found m] rest] _. wstep. wstep.
  destruct found; [|wstep; by apply Hset]. wstep. eapply wlp_mono; [apply Hh; by apply Hset|].
  intros [|] s1 Hs1; [by apply IH|by wstep].
Qed.

Lemma proxy_turn_ok t s : px_good s -> wlp (proxy_turn evp config client_fd t) flow_ok px_weak s.
Proof.
  intros Hs. unfold proxy_turn. wstep. wstep. cbv zeta. destruct (pt_select t) as [[|]|readable].
  1-2: wstep; by apply flow_ok_good.
  destruct (_ && _); [by wstep|]. wstep. apply (wlp_mono _ flow_ok).
  { destruct (_ || _); [|by wstep]. unfold client_part. destruct (pt_client_read t); [|wstep; by apply (flow_ok_good Done)].
    wstep. wstep. wstep. wstep. apply message_loop_ok; [done| |done]. intros. by apply client_message_ok. }
  intros [|] s1 Hs1; [|by wstep]. wstep. wstep. destruct (_ && _); [|by wstep].
  unfold camera_part. destruct (pt_camera_read t); [|wstep; by apply (flow_ok_good Done)].
  wstep. wstep. wstep. wstep. apply message_loop_ok; [done| |done]. intros. by apply camera_message_ok.
Qed.

Lemma proxy_loop_ok turns s : px_good s -> wlp (proxy_loop evp config client_fd turns) (fun _ => px_weak) px_weak s.
Proof.
  revert s; induction turns as [|t turns IH]; intros s Hs; cbn [proxy_loop].
  { wstep. apply Hs. }
  destruct (pt_running t); cbn [negb]; [|wstep; apply Hs]. wstep. eapply wlp_mono; [by apply proxy_turn_ok|].
  intros [|] s1 Hs1; [by apply IH|by wstep].
Qed.

Lemma proxy_session_new_ok client : px_good (proxy_session_new client_fd client).
Proof.
  unfold px_good, px_weak. cbn. split_and!; [|done|lia]. intros fd Hfd. left. by apply list_elem_of_singleton in Hfd.
Qed.
End Safety.

(** Executes the monad's operations. *)
Ltac run := cbv [mbind act_bind modify get mret act_ret].
Ltac run_in E := cbv [mbind act_bind modify get mret act_ret] in E.

Section SafetyTheorems.
Context {T : Type} `{Transport T}.

Lemma to_camera_defined data (s : ProxySession T) :
  exists ok c, to_camera data s = Some (Ok ok, s {{ px_camera := c }}).
Proof.
  unfold to_camera. destruct (_ <? 0); [exists false, (px_camera s); by destruct s|].
  destruct (send_all _ _) as [ok c]. by exists ok, c.
Qed.

Lemma to_client_defined data (s : ProxySession T) :
  exists ok c, to_client data s = Some (Ok ok, s {{ px_client := c }}).
Proof. unfold to_client. destruct (ssl_write_all _ _) as [ok c]. by exists ok, c. Qed.

Lemma choose_channel_defined config t m (s : ProxySession T) :
  exists flow s1, choose_channel config t m s = Some (Ok flow, s1) /\ (flow = GoOn -> is_Some (px_rewriter s1)).
Proof.
  unfold choose_channel. cbv zeta. generalize (parse_channel_from_request_target (extract_request_target m) (app_channels config)).
  intros ch. run. destruct (ch <? 0); [by eexists _, _|]. run.
  destruct (connect_camera _ _) as [[fd|w] open]; eexists _, _; (split; [reflexivity|]); [by eauto|done].
Qed.

(** The end of handling a request, once there is a rewriter. *)
Lemma forward_defined evp config m (s : ProxySession T) :
  is_Some (px_rewriter s) ->
  (s ← get;
   rewriter ← defined (px_rewriter s);
   let out := rewrite_client_request rewriter m in
   out ← (if has_challenge (px_authenticator s) then run_authorize evp config out else mret out);
   _ ← modify (fun s => s {{ px_last_upstream_request := out }});
   ok ← to_camera out;
   mret (flow_of ok)) s <> None.
Proof.
  intros [r Hr]. run. rewrite Hr. cbn [defined fmap option_fmap option_map].
  assert (forall out (s1 : ProxySession T), (_ ← modify (fun s => s {{ px_last_upstream_request := out }});
            ok ← to_camera out; mret (flow_of ok)) s1 <> None) as Hend.
  { intros out s1. run. destruct (to_camera_defined out (s1 {{ px_last_upstream_request := out }})) as (ok & c & E).
    cbv beta. rewrite E. done. }
  destruct (has_challenge _); [|apply Hend]. unfold run_authorize at 1.
  destruct (authorize _ _ _ _) as [[out|w] a]; [apply Hend|done].
Qed.

Lemma client_message_defined evp config client_fd t m (s : ProxySession T) :
  px_good client_fd s -> client_message evp config t m s <> None.
Proof.
  intros (_ & _ & Hr). unfold client_message. run. destruct (is_frame m).
  { destruct (_ >=? 0); [|done]. destruct (to_camera_defined m s) as (ok & c & E). run. by rewrite E. }
  run. destruct (Z.ltb_spec (px_channel s) 0).
  - destruct (choose_channel_defined config t m s) as ([|] & s1 & -> & Hs1); [|done].
    exact (forward_defined evp config m s1 (Hs1 eq_refl)).
  - exact (forward_defined evp config m s (proj2 (Hr ltac:(done)))).
Qed.

Lemma camera_message_defined evp config client_fd m (s : ProxySession T) :
  px_good client_fd s -> 0 <= px_camera_fd s -> camera_message evp config m s <> None.
Proof.
  intros (_ & Hc & Hr) Hfd. unfold camera_message. destruct (is_frame m).
  { destruct (to_client_defined m s) as (ok & c & E). run. by rewrite E. }
  assert (is_Some (px_rewriter s)) as [r Er] by (destruct (Z.lt_ge_cases (px_channel s) 0); [lia|by apply Hr]).
  assert (forall a, exists ok c, (s ← get; rewriter ← defined (px_rewriter s);
            ok ← to_client (rewrite_camera_response rewriter m); mret (flow_of ok)) (s {{ px_authenticator := a }}) =
            Some (Ok (flow_of ok), s {{ px_authenticator := a; px_client := c }})) as Hfwd.
  { intros a. run. change (px_rewriter (s {{ px_authenticator := a }})) with (px_rewriter s). rewrite Er.
    cbn [defined fmap option_fmap option_map].
    destruct (to_client_defined (rewrite_camera_response r m) (s {{ px_authenticator := a }})) as (ok & c & ->). by exists ok, c. }
  run. destruct (_ && _).
  - destruct (update_from_unauthorized m (px_authenticator s)) as [[|] a]; run.
    + unfold run_authorize. destruct (authorize _ _ _ _) as [[retry|w] a2]; run; [|done].
      destruct (to_camera_defined retry (s {{ px_authenticator := a; px_authenticator := a2 }})) as (ok & c & ->). by destruct ok.
    + run. destruct (Hfwd a) as (ok & c & E). run_in E. by rewrite E.
  - run. destruct (Hfwd (px_authenticator s)) as (ok & c & E).
    replace (s {{ px_authenticator := px_authenticator s }}) with s in E by by destruct s.
    run_in E. by rewrite E.
Qed.

Lemma close_fd_open fd (s : ProxySession T) : px_open (close_fd fd s) = filter (fun x => x <> fd) (px_open s).
Proof. done. Qed.

(** A turn after which the session goes on. *)
Definition proxy_step (evp : Evp) (config : AppConfig) (client_fd : Z) (s s' : ProxySession T) : Prop :=
  exists t, proxy_turn evp config client_fd t s = Some (Ok GoOn, s').

(** C32: Whatever the client and the camera send and however the calls of the operating
    system end, a session never uses a rewriter it has not made: in every state it
    reaches, a message of the client, and a message of the camera once it is connected, is
    handled to a defined outcome. *)
Theorem proxy_session_safe evp config client_fd client (s : ProxySession T) :
  rtc (proxy_step evp config client_fd) (proxy_session_new client_fd client) s ->
  (forall t m, client_message evp config t m s <> None) /\
  (0 <= px_camera_fd s -> forall m, camera_message evp config m s <> None).
Proof.
  intros Hr. assert (px_good client_fd s) as Hs.
  { remember (proxy_session_new client_fd client) as s0 eqn:E0.
    assert (px_good client_fd s0) as H0 by (rewrite E0; apply proxy_session_new_ok). clear E0.
    induction Hr as [s0|s0 s1 s2 [t Ht] _ IH]; [done|]. apply IH.
    pose proof (proxy_turn_ok evp config client_fd t s0 H0) as Hw. unfold wlp in Hw. by rewrite Ht in Hw. }
  split; [|intros Hfd]; intros; [by eapply client_message_defined|by eapply camera_message_defined].
Qed.

(** When a session ends, the client's descriptor and the camera's are closed, and the
    sockets of the camera's addresses that could not be connected are too: none is left
    open, whether the handshake failed, the camera could not be reached, a peer went away
    or the program is stopping. *)
Lemma proxy_closes_descriptors evp config client_fd client ssl_new ssl_accept turns :
  match proxy_run evp config client_fd ssl_new ssl_accept turns (proxy_session_new client_fd client) with
  | Some (Ok _, s) => px_open (T := T) s = []
  | _ => True
  end.
Proof.
  assert (forall s : ProxySession T, px_weak client_fd s -> px_open (session_done client_fd s) = []) as Hdone.
  { intros s Hw. apply elem_of_nil_inv. intros x. unfold session_done. rewrite Z.geb_leb, close_fd_open, list_elem_of_filter.
    destruct (Z.leb_spec 0 (px_camera_fd s)).
    - rewrite close_fd_open, list_elem_of_filter. intros (Hc & Hm & Hx). by destruct (Hw x Hx) as [?|[? _]].
    - intros (Hc & Hx). destruct (Hw x Hx) as [?|[_ ?]]; [done|lia]. }
  unfold proxy_run. destruct ssl_new; cbn [negb]; [|run; rewrite close_fd_open; cbn; by rewrite decide_False by auto].
  destruct ssl_accept; cbn [negb]; [|run; rewrite close_fd_open; cbn; by rewrite decide_False by auto].
  pose proof (proxy_loop_ok evp config client_fd turns _ (proxy_session_new_ok client_fd client)) as Hl. unfold wlp in Hl.
  run. destruct (proxy_loop _ _ _ _ _) as [[[[]|w] s]|]; [|done|done]. by apply Hdone.
Qed.
End SafetyTheorems.

Lemma proxy_session_safe_witness :
  client_message sample_evp app_defaults
    {| pt_running := true; pt_select := inr [7]; pt_pending := 0; pt_client_read := Some play_request;
       pt_camera_read := None; pt_resolved := inl $"timeout"; pt_connection := two_bytes |} play_request
    (proxy_session_new 7 two_bytes) <> None.
Proof. apply (proxy_session_safe sample_evp app_defaults 7 two_bytes (proxy_session_new 7 two_bytes)), rtc_refl. Defined.


(** ** Relaying *)

Section Relay.
Context {T : Type} `{!Transport T} `{!Reliable T}.
Context (evp : Evp) (config : AppConfig) (client_fd : Z).

(** What the camera gets for the messages of the client, one after the other: an
    interleaved frame as it is, a request rewritten and, once the camera has sent a
    challenge, authorized with the next counter. *)
Definition forwarded (r : RtspRewriter) (message : bytes) : bytes :=
  if is_frame message then message else rewrite_client_request r message.

Fixpoint upstream (r : RtspRewriter) (a : DigestAuthenticator) (messages : list bytes) : list bytes * DigestAuthenticator :=
  match messages with
  | [] => ([], a)
  | m :: rest =>
    let '(out, a1) := if is_frame m then (Ok m, a) else authorize evp config (forwarded r m) a in
    let '(outs, a2) := upstream r a1 rest in
    (match out with Ok out => out :: outs | Throw _ => outs end, a2)
  end.

(** Without a challenge requests are not authorized. *)
Lemma upstream_plain r a ms : has_challenge a = false -> upstream r a ms = (forwarded r <$> ms, a).
Proof.
  intros Ha. induction ms as [|m ms IH]; [done|]. cbn [upstream]. unfold authorize. unfold has_challenge in Ha. rewrite Ha. cbn [negb].
  rewrite fmap_cons. unfold forwarded at 1 2. destruct (is_frame m); by rewrite IH.
Qed.

Lemma upstream_app r a ms1 ms2 :
  upstream r a (ms1 ++ ms2) = ((upstream r a ms1).1 ++ (upstream r (upstream r a ms1).2 ms2).1, (upstream r (upstream r a ms1).2 ms2).2).
Proof.
  revert a. induction ms1 as [|m ms1 IH]; intros a; cbn [upstream app fst snd]; [by destruct (upstream r a ms2)|].
  destruct (if is_frame m then _ else _) as [out a1]. rewrite IH. destruct (upstream r a1 ms1) as [o1 a2]. cbn [fst snd].
  destruct (upstream r a2 ms2) as [o2 a3]. by destruct out.
Qed.

(** The authenticator can answer: it has no challenge, or OpenSSL's MD5 works. *)
Definition answers (a : DigestAuthenticator) : Prop :=
  has_challenge a = false \/ evp_md_ctx_new evp = true /\ exists md5, forall s, evp_md5 evp s = Some (md5 s).

Lemma authorize_answers request a : answers a -> exists out a', authorize evp config request a = (Ok out, a') /\ answers a'.
Proof.
  intros Ha. unfold authorize. destruct (dc_valid (da_challenge a)) eqn:E; [|by exists request, a].
  destruct Ha as [Ha|(Hn & md5 & Hm)]; [unfold has_challenge in Ha; congruence|]. cbn [negb].
  destruct (read_word _ []) as [method iss]. destruct (read_word iss []) as [uri iss2]. destruct (read_word iss2 []) as [version iss3].
  destruct (_ || _); [exists request, a; split; [done|right; eauto]|]. rewrite (build_authorization_ok evp md5 _ _ _ _ _ Hn Hm).
  eexists _, _. split; [reflexivity|]. right. eauto.
Qed.

(** A message of the camera that is no challenge: it is passed on. *)
Definition passes (m : bytes) : Prop := rtsp_status_code m = 401 -> dc_valid (parse_digest_challenge m) = false.

Definition returned (r : RtspRewriter) (message : bytes) : bytes :=
  if is_frame message then message else rewrite_camera_response r message.

(** A session whose camera is connected. *)
Definition px_connected (r : RtspRewriter) (s : ProxySession T) : Prop :=
  0 <= px_channel s /\ 0 <= px_camera_fd s /\ px_rewriter s = Some r /\ px_camera_fd s <> client_fd.

Lemma to_camera_sends data (s : ProxySession T) :
  0 <= px_camera_fd s ->
  exists t, to_camera data s =
    Some (Ok true, s {{ px_camera := {| c_transport := t; c_sent := c_sent (px_camera s) ++ data |} }}).
Proof.
  intros Hfd. unfold to_camera. replace (_ <? 0) with false by lia. rewrite send_all_write.
  destruct (write_reliable data (px_camera s)) as [t ->]. by exists t.
Qed.

Lemma to_client_sends data (s : ProxySession T) :
  exists t, to_client data s =
    Some (Ok true, s {{ px_client := {| c_transport := t; c_sent := c_sent (px_client s) ++ data |} }}).
Proof.
  unfold to_client. rewrite ssl_write_all_write. destruct (write_reliable data (px_client s)) as [t ->]. by exists t.
Qed.

(** A message of the client. *)
Lemma client_message_relayed t r m (s : ProxySession T) :
  px_connected r s -> answers (px_authenticator s) ->
  exists last tr, client_message evp config t m s =
    Some (Ok GoOn, s {{ px_last_upstream_request := last; px_authenticator := (upstream r (px_authenticator s) [m]).2;
                        px_camera := {| c_transport := tr; c_sent := c_sent (px_camera s) ++ concat (upstream r (px_authenticator s) [m]).1 |} }}) /\
    answers (upstream r (px_authenticator s) [m]).2.
Proof.
  intros (Hch & Hfd & Hr & _) Ha. unfold client_message. cbn [upstream]. unfold forwarded. run. destruct (is_frame m).
  - replace (px_camera_fd s >=? 0) with true by lia. destruct (to_camera_sends m s Hfd) as [tr ->].
    exists (px_last_upstream_request s), tr. cbn. rewrite app_nil_r. by destruct s.
  - replace (px_channel s <? 0) with false by lia. rewrite Hr. cbn [defined fmap option_fmap option_map].
    set (out := rewrite_client_request r m). destruct (authorize_answers out _ Ha) as (out' & a' & Eo & Ha').
    assert ((if has_challenge (px_authenticator s) then run_authorize evp config out else mret out) s =
      Some (Ok out', s {{ px_authenticator := a' }})) as Erun.
    { unfold run_authorize. destruct (has_challenge _) eqn:Ec; [by rewrite Eo|]. unfold authorize in Eo. unfold has_challenge in Ec.
      rewrite Ec in Eo. injection Eo as <- <-. by destruct s. }
    run_in Erun. rewrite Erun, Eo.
    match goal with |- context [to_camera ?o ?x] => destruct (to_camera_sends o x Hfd) as [tr ->] end. exists out', tr.
    cbn. rewrite app_nil_r. done.
Qed.

(** A message of the camera that is no challenge. *)
Lemma camera_message_relayed r m (s : ProxySession T) :
  px_connected r s -> passes m ->
  exists tr, camera_message evp config m s =
    Some (Ok GoOn, s {{ px_client := {| c_transport := tr; c_sent := c_sent (px_client s) ++ returned r m |} }}).
Proof.
  intros (_ & _ & Hr & _) Hp. unfold camera_message, returned. run. destruct (is_frame m).
  - destruct (to_client_sends m s) as [tr ->]. by exists tr.
  - assert ((if (rtsp_status_code m =? 401) && negb (is_empty (px_last_upstream_request s)) then
         let '(updated, a) := update_from_unauthorized m (px_authenticator s) in
         _ ← modify (fun s => s {{ px_authenticator := a }}); mret updated
       else mret false) s = Some (Ok false, s)) as Eu.
    { destruct (Z.eqb_spec (rtsp_status_code m) 401) as [E|]; [|done]. destruct (negb _); [|done]. cbn [andb].
      unfold update_from_unauthorized. rewrite (Hp E). cbn [negb]. run. by destruct s. }
    run_in Eu. rewrite Eu. rewrite Hr. cbn [defined fmap option_fmap option_map].
    destruct (to_client_sends (rewrite_camera_response r m) s) as [tr ->]. by exists tr.
Qed.

Lemma client_loop_relays t r f ms rest (s : ProxySession T) :
  px_connected r s -> answers (px_authenticator s) ->
  drain f (px_client_buf s) (proxy_limits config) = Some (ms, rest) ->
  exists last tr, message_loop config f px_client_buf (fun b s => s {{ px_client_buf := b }})
      (client_message evp config t) s =
    Some (Ok GoOn, s {{ px_client_buf := rest; px_last_upstream_request := last;
       px_authenticator := (upstream r (px_authenticator s) ms).2;
       px_camera := {| c_transport := tr; c_sent := c_sent (px_camera s) ++ concat (upstream r (px_authenticator s) ms).1 |} }}) /\
    answers (upstream r (px_authenticator s) ms).2.
Proof.
  revert ms s; induction f as [|f IH]; intros ms s Hs Hc Hd; cbn [drain] in Hd; [done|]. cbn [message_loop]. run.
  destruct (extract_one_rtsp_message _ _) as [[[[|] m] b]|]; cbn [defined fmap option_fmap option_map]; [| |done].
  - destruct (drain f b _) as [[ms' b']|] eqn:Ed; [|done]. injection Hd as <- <-.
    match goal with |- context [client_message _ _ t m ?x] => destruct (client_message_relayed t r m x Hs Hc) as (last & tr & -> & Hc') end.
    match goal with |- context [message_loop _ _ _ _ _ ?x] => destruct (IH ms' x Hs Hc' Ed) as (last' & tr' & -> & Hc'') end.
    exists last', tr'. change (m :: ms') with ([m] ++ ms'). rewrite (upstream_app r (px_authenticator s)). cbn [fst snd]. split; [|exact Hc''].
    do 2 f_equal. destruct s. cbn -[upstream concat]. unfold constant. f_equal. by rewrite concat_app, <- app_assoc.
  - injection Hd as <- <-. exists (px_last_upstream_request s), (c_transport (px_camera s)). split; [|exact Hc]. do 2 f_equal.
    destruct s as [? ? ? ? ? ? ? [] ? ?]. cbn. unfold constant. by rewrite app_nil_r.
Qed.

Lemma camera_loop_relays r f ms rest (s : ProxySession T) :
  px_connected r s -> Forall passes ms ->
  drain f (px_camera_buf s) (proxy_limits config) = Some (ms, rest) ->
  exists tr, message_loop config f px_camera_buf (fun b s => s {{ px_camera_buf := b }}) (camera_message evp config) s =
    Some (Ok GoOn, s {{ px_camera_buf := rest;
       px_client := {| c_transport := tr; c_sent := c_sent (px_client s) ++ concat (returned r <$> ms) |} }}).
Proof.
  revert ms s; induction f as [|f IH]; intros ms s Hs Hc Hd; cbn [drain] in Hd; [done|]. cbn [message_loop]. run.
  destruct (extract_one_rtsp_message _ _) as [[[[|] m] b]|]; cbn [defined fmap option_fmap option_map]; [| |done].
  - destruct (drain f b _) as [[ms' b']|] eqn:Ed; [|done]. injection Hd as <- <-. apply Forall_cons in Hc as [Hm Hc].
    match goal with |- context [camera_message _ _ m ?x] => destruct (camera_message_relayed r m x Hs Hm) as (tr & ->) end.
    match goal with |- context [message_loop _ _ _ _ _ ?x] => destruct (IH ms' x Hs Hc Ed) as (tr' & ->) end.
    exists tr'. do 2 f_equal. destruct s. cbn. unfold constant. f_equal. by rewrite <- app_assoc.
  - injection Hd as <- <-. exists (c_transport (px_client s)). do 2 f_equal.
    destruct s as [? ? ? ? ? ? ? ? [] ?]. cbn. unfold constant. by rewrite app_nil_r.
Qed.

Definition fd_if (read : option bytes) (fd : Z) : list Z := match read with Some _ => [fd] | None => [] end.

(** A turn in which the client, the camera, both or none have sent something. *)
Definition relay_turn (camera_fd : Z) (conn : T) (reads : option bytes * option bytes) : ProxyTurn T :=
  {| pt_running := true;
     pt_select := inr (fd_if reads.1 client_fd ++ fd_if reads.2 camera_fd);
     pt_pending := 0; pt_client_read := reads.1; pt_camera_read := reads.2; pt_resolved := inr []; pt_connection := conn |}.

(** What [select] reports in it. *)
Lemma relay_turn_ready camera_fd (reads : option bytes * option bytes) :
  camera_fd <> client_fd ->
  ready_set [client_fd; camera_fd] (fd_if reads.1 client_fd ++ fd_if reads.2 camera_fd) =
  fd_if reads.1 client_fd ++ fd_if reads.2 camera_fd.
Proof.
  intros Hne. unfold ready_set. destruct reads as [[c|] [k|]]; cbn [fst snd fd_if app];
    rewrite !filter_cons; cbv beta; rewrite filter_nil;
    repeat match goal with |- context [decide (?x ∈ ?l)] =>
             first [rewrite (decide_True (P := x ∈ l)) by set_solver | rewrite (decide_False (P := x ∈ l)) by set_solver]
           end; done.
Qed.

Lemma relay_turn_isset camera_fd (reads : option bytes * option bytes) :
  camera_fd <> client_fd ->
  let set := fd_if reads.1 client_fd ++ fd_if reads.2 camera_fd in
  fd_isset client_fd set = bool_decide (is_Some reads.1) /\ fd_isset camera_fd set = bool_decide (is_Some reads.2).
Proof.
  intros Hne set. unfold fd_isset, set. split; apply bool_decide_ext.
  - destruct reads as [[c|] [k|]]; cbn [fst snd fd_if app]; split; try done; try (by intros []); set_solver.
  - destruct reads as [[c|] [k|]]; cbn [fst snd fd_if app]; split; try done; try (by intros []); set_solver.
Qed.

(** A turn on the bytes of both sides: each buffer is received into, and what came out goes
    to the other side. *)
Lemma relay_turn_relays r conn reads ms b rs k (s : ProxySession T) :
  px_connected r s -> answers (px_authenticator s) ->
  receive_all (px_client_buf s) (option_list reads.1) (proxy_limits config) = Some (ms, b) ->
  receive_all (px_camera_buf s) (option_list reads.2) (proxy_limits config) = Some (rs, k) ->
  Forall passes rs ->
  exists last tr tr', proxy_turn evp config client_fd (relay_turn (px_camera_fd s) conn reads) s =
    Some (Ok GoOn, s {{ px_client_buf := b; px_camera_buf := k; px_last_upstream_request := last; px_authenticator := (upstream r (px_authenticator s) ms).2;
      px_camera := {| c_transport := tr; c_sent := c_sent (px_camera s) ++ concat (upstream r (px_authenticator s) ms).1 |};
      px_client := {| c_transport := tr'; c_sent := c_sent (px_client s) ++ concat (returned r <$> rs) |} }}) /\
    answers (upstream r (px_authenticator s) ms).2.
Proof.
  intros Hs Hc Hms Hrs H401. pose proof Hs as (Hch & Hfd & Hr & Hne).
  assert (exists last tr,
    (if bool_decide (is_Some reads.1) then client_part evp config (relay_turn (px_camera_fd s) conn reads) else mret GoOn) s =
    Some (Ok GoOn, s {{ px_client_buf := b; px_last_upstream_request := last; px_authenticator := (upstream r (px_authenticator s) ms).2;
      px_camera := {| c_transport := tr; c_sent := c_sent (px_camera s) ++ concat (upstream r (px_authenticator s) ms).1 |} }}) /\
    answers (upstream r (px_authenticator s) ms).2) as (last & tr & Ec & Ha).
  { destruct reads as [[c|] kd]; cbn [fst snd option_list option_rect receive_all] in *.
    - rewrite bool_decide_true by done. unfold client_part. cbn [relay_turn pt_client_read fst]. run.
      unfold receive in Hms. destruct (drain _ _ _) as [[ms' b']|] eqn:Ed in Hms; [|done]. injection Hms as <- <-.
      rewrite app_nil_r.
      match goal with |- context [message_loop _ ?f _ _ (client_message _ _ ?t) ?x] =>
        assert (drain f (px_client_buf x) (proxy_limits config) = Some (ms', b')) as Ed' by (destruct s; exact Ed);
        destruct (client_loop_relays t r f ms' b' x Hs Hc Ed') as (last & tr & -> & Ha)
      end.
      exists last, tr. split; [by destruct s|exact Ha].
    - rewrite bool_decide_false by by intros []. injection Hms as <- <-.
      exists (px_last_upstream_request s), (c_transport (px_camera s)). split; [|exact Hc]. run. do 2 f_equal.
      destruct s as [? ? ? ? ? ? ? [] ? ?]. cbn. unfold constant. by rewrite app_nil_r. }
  set (s1 := s {{ px_client_buf := b; px_last_upstream_request := last; px_authenticator := (upstream r (px_authenticator s) ms).2;
      px_camera := {| c_transport := tr; c_sent := c_sent (px_camera s) ++ concat (upstream r (px_authenticator s) ms).1 |} }}) in Ec.
  assert (exists tr',
    (if bool_decide (is_Some reads.2) then camera_part evp config (relay_turn (px_camera_fd s) conn reads) else mret GoOn) s1 =
    Some (Ok GoOn, s1 {{ px_camera_buf := k;
      px_client := {| c_transport := tr'; c_sent := c_sent (px_client s) ++ concat (returned r <$> rs) |} }})) as (tr' & Ek).
  { destruct reads as [cd [c|]]; cbn [fst snd option_list option_rect receive_all] in *.
    - rewrite bool_decide_true by done. unfold camera_part. cbn [relay_turn pt_camera_read snd]. run.
      unfold receive in Hrs. destruct (drain _ _ _) as [[ms' b']|] eqn:Ed in Hrs; [|done]. injection Hrs as <- <-.
      rewrite app_nil_r in *.
      match goal with |- context [message_loop _ ?f _ _ _ ?x] =>
        assert (drain f (px_camera_buf x) (proxy_limits config) = Some (ms', b')) as Ed' by (destruct s; exact Ed);
        destruct (camera_loop_relays r f ms' b' x Hs H401 Ed') as (tr' & ->)
      end.
      exists tr'. by destruct s.
    - rewrite bool_decide_false by by intros []. injection Hrs as <- <-.
      exists (c_transport (px_client s)). run. do 2 f_equal.
      destruct s as [? ? ? ? ? ? ? ? [] ?]. cbn. unfold constant. by rewrite app_nil_r. }
  exists last, tr, tr'. split; [|exact Ha]. unfold proxy_turn. run. cbn [relay_turn pt_select pt_pending].
  replace (px_camera_fd s >=? 0) with true by lia. rewrite relay_turn_ready by done.
  destruct (relay_turn_isset (px_camera_fd s) reads Hne) as [Ei Ej]. rewrite Ei.
  change (0 >? 0) with false. rewrite orb_false_r.
  run_in Ec. run_in Ek. destruct (is_empty _ && _) eqn:Ee.
  - destruct reads as [[c|] [k'|]]; cbn in Ee; try done. rewrite bool_decide_false in Ec, Ek by by intros [].
    etransitivity; [exact Ec|]. etransitivity; [exact Ek|]. by destruct s.
  - match goal with |- context [(if bool_decide (is_Some reads.1) then ?a else ?b) s] =>
      match type of Ec with ?l = _ => change ((if bool_decide (is_Some reads.1) then a else b) s) with l end end.
    rewrite Ec. change (px_camera_fd s1) with (px_camera_fd s). rewrite Ej. replace (px_camera_fd s >=? 0) with true by lia.
    cbn [andb]. match goal with |- ?l = _ => match type of Ek with ?k = _ => change l with k end end. rewrite Ek. by destruct s.
Qed.

Lemma relay_loop r conn events ms b rs k (s : ProxySession T) :
  px_connected r s -> answers (px_authenticator s) ->
  receive_all (px_client_buf s) (omap fst events) (proxy_limits config) = Some (ms, b) ->
  receive_all (px_camera_buf s) (omap snd events) (proxy_limits config) = Some (rs, k) ->
  Forall passes rs ->
  exists s', proxy_loop evp config client_fd (relay_turn (px_camera_fd s) conn <$> events) s = Some (Ok tt, s') /\
    c_sent (px_camera s') = c_sent (px_camera s) ++ concat (upstream r (px_authenticator s) ms).1 /\
    c_sent (px_client s') = c_sent (px_client s) ++ concat (returned r <$> rs) /\
    px_client_buf s' = b /\ px_camera_buf s' = k.
Proof.
  revert ms rs s; induction events as [|reads events IH]; intros ms rs s Hs Hc Hms Hrs H401.
  { cbn in Hms, Hrs. injection Hms as <- <-. injection Hrs as <- <-. exists s. cbn. by rewrite !app_nil_r. }
  assert (forall (g : option bytes * option bytes -> option bytes) b0 m0 c0,
    receive_all b0 (omap g (reads :: events)) (proxy_limits config) = Some (m0, c0) ->
    exists m1 c1 m2, receive_all b0 (option_list (g reads)) (proxy_limits config) = Some (m1, c1) /\
      receive_all c1 (omap g events) (proxy_limits config) = Some (m2, c0) /\ m0 = m1 ++ m2) as Hsplit.
  { intros g b0 m0 c0. cbn [omap list_omap]. destruct (g reads) as [c|]; cbn [option_list option_rect receive_all].
    - destruct (receive b0 c _) as [[m1 c1]|]; [|done]. destruct (receive_all c1 _ _) as [[m2 c2]|] eqn:E; [|done].
      intros [= <- <-]. exists (m1 ++ []), c1, m2. by rewrite app_nil_r.
    - intros E. by exists [], b0, m0. }
  apply Hsplit in Hms as (ms1 & b1 & ms2 & Hms1 & Hms2 & ->). apply Hsplit in Hrs as (rs1 & k1 & rs2 & Hrs1 & Hrs2 & ->).
  apply Forall_app in H401 as [H1 H2]. clear Hsplit.
  destruct (relay_turn_relays r conn reads ms1 b1 rs1 k1 s Hs Hc Hms1 Hrs1 H1) as (last & tr & tr' & E & Hc').
  rewrite fmap_cons. cbn [proxy_loop]. cbn [relay_turn pt_running negb]. run. rewrite E.
  match goal with |- context [proxy_loop _ _ _ _ ?x] => destruct (IH ms2 rs2 x Hs Hc' Hms2 Hrs2 H2) as (s' & E' & Hk & Hcl & Hb) end.
  exists s'. split; [exact E'|]. rewrite Hk, Hcl, upstream_app. cbn [fst snd]. rewrite fmap_app, !concat_app. destruct Hb as [Hb1 Hb2].
  split_and!; [by rewrite app_assoc|by rewrite app_assoc|exact Hb1|exact Hb2].
Qed.

(** C17: The proxy relays.  Once the camera is connected, and however the bytes of the two
    sides are cut into reads and interleaved: the camera gets exactly the client's
    messages in order, requests rewritten to the camera's URLs and, when it has sent a
    Digest challenge before, authorized with consecutive counters, interleaved frames
    unchanged; the client gets exactly the camera's messages, rewritten back, frames
    unchanged; no byte is kept.  This is for transports that take every byte and for
    messages of the camera none of which is a new Digest challenge (a 401 with one is not
    passed on but answered). *)
Theorem proxy_relays r conn events ms rs (s : ProxySession T) :
  px_connected r s -> answers (px_authenticator s) ->
  px_client_buf s = [] -> px_camera_buf s = [] ->
  Forall (message_ok (proxy_limits config)) ms -> Forall (message_ok (proxy_limits config)) rs ->
  concat (omap fst events) = concat ms -> concat (omap snd events) = concat rs ->
  Forall passes rs ->
  exists s', proxy_loop evp config client_fd (relay_turn (px_camera_fd s) conn <$> events) s = Some (Ok tt, s') /\
    c_sent (px_camera s') = c_sent (px_camera s) ++ concat (upstream r (px_authenticator s) ms).1 /\
    c_sent (px_client s') = c_sent (px_client s) ++ concat (returned r <$> rs) /\
    px_client_buf s' = [] /\ px_camera_buf s' = [].
Proof.
  intros Hs Hc Hb Hk Hms Hrs Ems Ers H401.
  apply relay_loop; [done|done|rewrite Hb|rewrite Hk|done]; apply receive_all_messages; (done || by left).
Qed.
End Relay.

Definition sample_proxy : ProxySession TwoBytes :=
  {| px_camera_fd := 8; px_channel := 2; px_client_buf := []; px_camera_buf := []; px_last_upstream_request := [];
     px_rewriter := Some sample_rewriter; px_authenticator := authenticator_new;
     px_camera := {| c_transport := two_bytes; c_sent := [] |}; px_client := {| c_transport := two_bytes; c_sent := [] |};
     px_open := [8; 7] |}.

(** The same after a challenge, and with a refusal that is none. *)
Definition authorized_proxy : ProxySession TwoBytes :=
  sample_proxy {{ px_authenticator := {| da_challenge := {| dc_valid := true; dc_realm := $"cam"; dc_nonce := $"n1"; dc_qop := [] |}; da_nc := 3 |} }}.

Definition refusal : bytes := $"RTSP/1.0 401 Unauthorized" ++ CRLF ++ $"CSeq: 4" ++ CRLFCRLF.

Definition sample_reads : list (option bytes * option bytes) :=
  [(Some (take 3 play_request), None); (Some (drop 3 play_request), Some (take 9 refusal));
   (None, Some (drop 9 refusal ++ [36; 0; 0; 1])); (None, Some [7])].

Lemma proxy_relays_witness :
  exists s', proxy_loop sample_evp app_defaults 7 (relay_turn 7 8 two_bytes <$> sample_reads) authorized_proxy = Some (Ok tt, s') /\
    c_sent (px_camera s') = [] ++ concat (upstream sample_evp app_defaults sample_rewriter (px_authenticator authorized_proxy) [play_request]).1 /\
    c_sent (px_client s') = [] ++ concat (returned sample_rewriter <$> [refusal; [36; 0; 0; 1; 7]]) /\ px_client_buf s' = [] /\ px_camera_buf s' = [].
Proof.
  refine (proxy_relays sample_evp app_defaults 7 sample_rewriter two_bytes sample_reads [play_request] [refusal; [36; 0; 0; 1; 7]]
    authorized_proxy _ _ eq_refl eq_refl _ _ eq_refl eq_refl _).
  - split_and!; cbn; (done || lia).
  - right. split; [reflexivity|]. exists (fun s => [u8 (zlen s)]). reflexivity.
  - constructor; [exact play_request_ok|done].
  - constructor; [|constructor; [|done]].
    + left. split; [done|]. exists ($"RTSP/1.0 401 Unauthorized" ++ CRLF ++ $"CSeq: 4"), []. split_and!; vm_compute; congruence.
    + right. exists 0, 0, 1, [7]. split; reflexivity.
  - repeat constructor; vm_compute; done.
Defined.

(** ** Challenges *)

Lemma put_authorization_twice a1 a2 hs :
  is_authorization a1 = true -> put_authorization a2 (put_authorization a1 hs) = put_authorization a2 hs.
Proof.
  intros Ha. induction hs as [|h hs IH]; cbn [put_authorization]; [by rewrite Ha|].
  destruct (is_authorization h) eqn:E; cbn [put_authorization]; [by rewrite Ha|]. by rewrite E, IH.
Qed.

Lemma put_authorization_Forall (P : bytes -> Prop) a hs : P a -> Forall P hs -> Forall P (put_authorization a hs).
Proof.
  intros Ha Hs. induction Hs as [|h hs Hh Hs IH]; cbn [put_authorization]; [by constructor|].
  destruct (is_authorization h); by constructor.
Qed.

Lemma is_authorization_text user realm nonce uri response qop nc :
  is_authorization (authorization_text user realm nonce uri response qop nc) = true.
Proof. unfold is_authorization. rewrite starts_with_ci_prefix. reflexivity. Qed.

Lemma no_cr_hex_number n : no_cr (hex_unsigned n).
Proof.
  unfold hex_unsigned. apply digits_loop_Forall; [|lia]. intros d Hd. unfold hex_digit. destruct (Z.ltb_spec d 10); lia.
Qed.

Lemma no_cr_pad w s : no_cr s -> no_cr (pad_left w 48 s).
Proof. intros Hs. apply no_cr_app; [|done]. by apply Forall_replicate. Qed.

Lemma no_cr_hex_digest md5 s : no_cr (hex_digest md5 s).
Proof.
  unfold hex_digest. induction (md5 s) as [|b l IH]; [constructor|]. rewrite fmap_cons. cbn [concat].
  apply no_cr_app; [apply no_cr_pad, no_cr_hex_number|done].
Qed.

Lemma no_cr_authorization user realm nonce uri response qop nc :
  no_cr user -> no_cr realm -> no_cr nonce -> no_cr uri -> no_cr response -> no_cr qop -> no_cr nc ->
  no_cr (authorization_text user realm nonce uri response qop nc).
Proof.
  intros. unfold authorization_text, quoted. assert (no_cr [34]) by by repeat constructor.
  destruct (is_empty qop); repeat apply no_cr_app; try done; try (apply no_cr_lit; reflexivity); by constructor.
Qed.

Section Challenges.
Context {T : Type} `{!Transport T} `{!Reliable T}.
Context (evp : Evp) (md5 : bytes -> bytes) (config : AppConfig) (client_fd : Z).
Hypothesis Hctx : evp_md_ctx_new evp = true.
Hypothesis Hmd5 : forall s, evp_md5 evp s = Some (md5 s).
Hypothesis Huser : no_cr (app_camera_user config).

(** A challenge of the camera. *)
Record challenge_ok (realm nonce qop challenge : bytes) : Prop := {
  ch_message : exists first pre post body,
    challenge = rtsp_message (first :: pre ++ challenge_line realm nonce qop :: post) body /\
    Forall header_line (first :: pre ++ challenge_line realm nonce qop :: post) /\
    Forall (fun l => starts_with_ci l $"www-authenticate:" = false) (first :: pre);
  ch_realm : plain realm /\ realm <> [];
  ch_nonce : plain nonce /\ nonce <> [];
  ch_qop : plain qop;
  ch_status : rtsp_status_code challenge = 401;
  ch_extracted : message_ok (proxy_limits config) challenge;
  ch_no_frame : is_frame challenge = false
}.

Section Request.
Context (realm nonce qop challenge method uri version : bytes) (headers : list bytes) (body : bytes).
Hypothesis Hch : challenge_ok realm nonce qop challenge.
Hypothesis Hm : word method.
Hypothesis Hu : word uri.
Hypothesis Hv : word version.
Hypothesis Hh : Forall header_line headers.

(** The request, with an Authorization. *)
Definition retry_of (auth : bytes) : bytes :=
  rtsp_message ((method ++ $" " ++ uri ++ $" " ++ version) :: put_authorization auth headers) body.

(** The request as the client sent it, or with the Authorization of an earlier retry. *)
Definition same_request (last : bytes) : Prop :=
  exists hs, last = rtsp_message ((method ++ $" " ++ uri ++ $" " ++ version) :: hs) body /\ Forall header_line hs /\
    forall auth, put_authorization auth hs = put_authorization auth headers.

(** A challenge is answered with the same request and a new Authorization. *)
Lemma challenge_retried (s : ProxySession T) :
  0 <= px_camera_fd s -> same_request (px_last_upstream_request s) ->
  exists auth a tr, camera_message evp config challenge s =
    Some (Ok GoOn, s {{ px_authenticator := a; px_last_upstream_request := retry_of auth;
       px_camera := {| c_transport := tr; c_sent := c_sent (px_camera s) ++ retry_of auth |} }}) /\
    same_request (retry_of auth).
Proof.
  intros Hfd (hs & El & Hhs & Hput). destruct Hch as [(first & pre & post & b & Ec & Hl & Hpre) [Hr1 Hr2] [Hn1 Hn2] Hq Hst _ Hnf].
  unfold camera_message. rewrite Hnf, Hst. run. rewrite El.
  replace (is_empty (rtsp_message _ body)) with false by (clear -Hm; destruct Hm; by destruct method).
  change ((401 =? 401) && negb false) with true. cbv iota.
  rewrite Ec, challenge_read_lemma by done. unfold run_authorize.
  set (a := {| da_challenge := _; da_nc := _ |}).
  match goal with |- context [authorize _ _ _ ?x] => change x with a end.
  rewrite (authorize_lemma evp md5) by done. cbv zeta.
  match goal with |- context [put_authorization ?x hs] => set (auth := x) end.
  rewrite Hput. fold (retry_of auth).
  match goal with |- context [to_camera _ ?x] => destruct (to_camera_sends (retry_of auth) x Hfd) as [tr ->] end.
  exists auth, {| da_challenge := da_challenge a; da_nc := u32 (da_nc a + 1) |}, tr. split; [by destruct s|].
  exists (put_authorization auth headers). split_and!; [done| |].
  - apply put_authorization_Forall; [|done]. split; [|done].
    apply no_cr_authorization; try done; try (by apply word_no_cr).
    + apply Hr1.
    + apply Hn1.
    + unfold rfc_response. destruct (is_empty _); apply no_cr_hex_digest.
    + destruct (is_empty _); [constructor|apply no_cr_lit; reflexivity].
    + apply no_cr_pad, no_cr_hex_number.
  - intros auth'. by rewrite put_authorization_twice by apply is_authorization_text.
Qed.

(** The loop on a buffer that holds one message. *)
Lemma camera_loop_one m (x y : ProxySession T) :
  message_ok (proxy_limits config) m -> px_camera_buf x = m ->
  camera_message evp config m (x {{ px_camera_buf := [] }}) = Some (Ok GoOn, y) -> px_camera_buf y = [] ->
  message_loop config (S (length (px_camera_buf x))) px_camera_buf (fun b s => s {{ px_camera_buf := b }})
    (camera_message evp config) x = Some (Ok GoOn, y).
Proof.
  intros Hok Hx E Hy. pose proof (message_ok_nonempty _ _ Hok) as Hne. rewrite Hx.
  destruct m as [|c m']; [done|]. cbn [length message_loop]. run. rewrite Hx.
  pose proof (extract_message _ (c :: m') [] Hok) as Em. rewrite app_nil_r in Em. rewrite Em.
  cbn [defined fmap option_fmap option_map]. rewrite E, Hy. cbn [extract_one_rtsp_message extract_loop extract_iter length].
  do 2 f_equal. destruct y. cbn in Hy. by subst.
Qed.

(** A turn in which the camera sends one. *)
Lemma challenge_turn conn (s : ProxySession T) :
  0 <= px_camera_fd s -> px_camera_fd s <> client_fd -> px_camera_buf s = [] ->
  same_request (px_last_upstream_request s) ->
  exists auth a tr, proxy_turn evp config client_fd (relay_turn client_fd (px_camera_fd s) conn (None, Some challenge)) s =
    Some (Ok GoOn, s {{ px_authenticator := a; px_last_upstream_request := retry_of auth;
       px_camera := {| c_transport := tr; c_sent := c_sent (px_camera s) ++ retry_of auth |} }}) /\
    same_request (retry_of auth).
Proof.
  intros Hfd Hne Hb Hlast. destruct (challenge_retried s Hfd Hlast) as (auth & a & tr & E & Hs). exists auth, a, tr.
  split; [|done]. unfold proxy_turn. run. cbn [relay_turn pt_select pt_pending].
  replace (px_camera_fd s >=? 0) with true by lia. rewrite relay_turn_ready by done.
  destruct (relay_turn_isset client_fd (px_camera_fd s) (None, Some challenge) Hne) as [Ei Ej]. rewrite Ei.
  rewrite bool_decide_false by by intros []. change (is_empty (fd_if _ _ ++ _)) with false.
  change (false || (0 >? 0)) with false. cbv [andb]. rewrite Ej.
  rewrite bool_decide_true by done. replace (px_camera_fd s >=? 0) with true by lia.
  unfold camera_part. cbn [relay_turn pt_camera_read snd]. run.
  rewrite Hb. cbn [app].
  match goal with |- message_loop _ _ _ _ _ ?x = _ => apply (camera_loop_one challenge x) end.
  - apply Hch.
  - by destruct s.
  - replace (_ {{ px_camera_buf := [] }}) with s; [exact E|]. destruct s. cbn in Hb. by subst.
  - by destruct s.
Qed.

(** C36: A camera that does not accept the credentials keeps the proxy busy for good: every
    challenge, the first and the thousandth, is answered with the same request and a new
    Authorization, and the client, whose request it is, never gets the 401. *)
Theorem challenges_never_reported conn n (s : ProxySession T) :
  0 <= px_camera_fd s -> px_camera_fd s <> client_fd -> px_camera_buf s = [] ->
  px_last_upstream_request s = rtsp_message ((method ++ $" " ++ uri ++ $" " ++ version) :: headers) body ->
  exists auths s',
    proxy_loop evp config client_fd
      (replicate n (relay_turn client_fd (px_camera_fd s) conn (None, Some challenge))) s = Some (Ok tt, s') /\
    length auths = n /\
    c_sent (px_camera s') = c_sent (px_camera s) ++ concat (retry_of <$> auths) /\
    px_client s' = px_client s.
Proof.
  intros Hfd Hne Hb Hlast.
  assert (same_request (px_last_upstream_request s)) as Hs by by exists headers. clear Hlast.
  revert s Hfd Hne Hb Hs. induction n as [|n IH]; intros s Hfd Hne Hb Hs.
  { exists [], s. cbn. by rewrite app_nil_r. }
  destruct (challenge_turn conn s Hfd Hne Hb Hs) as (auth & a & tr & E & Hs'). cbn [replicate proxy_loop].
  change (negb (pt_running (relay_turn _ _ _ _))) with false. run. rewrite E.
  match goal with |- context [proxy_loop _ _ _ _ ?x] => destruct (IH x Hfd Hne Hb Hs') as (auths & s' & E' & Hn & Hk & Hc) end.
  exists (auth :: auths), s'. split_and!; [exact E'|cbn; by rewrite Hn| |exact Hc].
  rewrite Hk, fmap_cons. cbn [concat]. rewrite app_assoc. done.
Qed.
End Request.
End Challenges.

Lemma sample_challenge_ok : challenge_ok app_defaults $"cam" $"f00d" $"auth,auth-int" sample_challenge.
Proof.
  assert (forall s, forallb (fun x => negb (x =? 34) && negb (x =? 61) && negb (x =? 13)) s = true -> plain s) as Hp.
  { intros s Hs. unfold plain, no_char, no_cr. rewrite !Forall_forall. rewrite forallb_forall in Hs.
    split_and!; intros x Hx%list_elem_of_In%Hs; bprop; lia. }
  constructor; try (by split; [apply Hp|]); try reflexivity.
  - exists $"RTSP/1.0 401 Unauthorized", [$"CSeq: 2"], [], []. split_and!.
    + reflexivity.
    + repeat constructor; try done; apply no_cr_lit; reflexivity.
    + by repeat constructor.
  - by apply Hp.
  - left. split; [done|].
    exists ($"RTSP/1.0 401 Unauthorized" ++ CRLF ++ $"CSeq: 2" ++ CRLF ++ challenge_line $"cam" $"f00d" $"auth,auth-int"), [].
    split_and!; vm_compute; congruence.
Qed.

Definition refused_proxy : ProxySession TwoBytes :=
  sample_proxy {{ px_last_upstream_request := $"PLAY rtsp://10.0.0.7:554/2 RTSP/1.0" ++ CRLF ++ CRLF }}.

Lemma challenges_never_reported_witness :
  exists auths s',
    proxy_loop sample_evp app_defaults 7
      (replicate 3 (relay_turn 7 (px_camera_fd refused_proxy) two_bytes (None, Some sample_challenge))) refused_proxy =
    Some (Ok tt, s') /\
    length auths = 3%nat /\
    c_sent (px_camera s') = c_sent (px_camera refused_proxy) ++
      concat (retry_of $"PLAY" $"rtsp://10.0.0.7:554/2" $"RTSP/1.0" [] [] <$> auths) /\
    px_client s' = px_client refused_proxy.
Proof.
  apply (challenges_never_reported sample_evp (fun s => [u8 (zlen s)]) app_defaults 7 eq_refl (fun s => eq_refl)
    ltac:(apply no_cr_lit; reflexivity) $"cam" $"f00d" $"auth,auth-int" sample_challenge
    $"PLAY" $"rtsp://10.0.0.7:554/2" $"RTSP/1.0" [] [] sample_challenge_ok ltac:(split; [done|by repeat constructor])
    ltac:(split; [done|by repeat constructor]) ltac:(split; [done|by repeat constructor]) ltac:(done) two_bytes 3 refused_proxy).
  - cbn; unfold constant; lia.
  - done.
  - done.
  - done.
Defined.
